(** * Nexus Forum: the REST handlers of [server.js] over a relational store

    The development embeds the Express handlers of [src/server.js] and the SQL
    statements they send.  The PostgreSQL store is a record of tables (lists
    of rows) with one sequence per SERIAL column; a statement
    is a function in a state-and-error monad, so a handler made of several
    statements keeps the effects of the statements that ran before one
    raised (the handlers open no transaction).

    Modelling conventions:
    - INTEGER, SERIAL and TIMESTAMP values are integers of [Z]; counters and
      sequences are not bounded, parameters are range-checked on input;
    - a string is the UTF-8 text that goes over the wire: a character of a
      VARCHAR column is a byte that does not continue another;
    - a JavaScript number is a double ([jsnum]): reading a string as a
      number, subtraction, multiplication and printing round as IEEE 754
      binary64 does;
    - a request field is a scalar JSON value ([jsval]), a number being an
      integer literal; node-postgres sends it as text and the store reads it
      at the column's type, with the input functions of PostgreSQL 16;
    - a table is a list of rows in the order they were inserted, which is
      not the order a SELECT without ORDER BY returns them in: that order is
      the store's, and the environment of the request says which row comes
      first;
    - [bcryptjs] and [jsonwebtoken] are external: their functions are the
      fields of a [library] the handlers take;
    - every handler runs to completion before the next one starts.

    The in-memory variant [src/server-sqlite.js] is embedded in the module
    [Demo], with its own conventions. *)

From Stdlib Require Import ZArith List String Ascii Bool Lia.
From Stdlib Require Import Sorting.Sorted Sorting.Permutation.
From Stdlib Require Import DecimalString DecimalPos.
Import ListNotations.

Local Open Scope string_scope.
Local Open Scope Z_scope.

(** ** JavaScript values of the request *)

Inductive jsval : Type :=
| JUndefined
| JNull
| JBool (b : bool)
| JNum (z : Z)
| JStr (s : string).

(** ToBoolean, as used by [||] and [if]. *)
Definition truthy (v : jsval) : bool :=
  match v with
  | JUndefined | JNull => false
  | JBool b => b
  | JNum z => negb (z =? 0)
  | JStr s => negb (String.eqb s "")
  end.

(** [a || b]. *)
Definition js_or (a b : jsval) : jsval := if truthy a then a else b.

Definition js_typeof (v : jsval) : string :=
  match v with
  | JUndefined => "undefined"
  | JNull => "object"
  | JBool _ => "boolean"
  | JNum _ => "number"
  | JStr _ => "string"
  end.

(** ** Digits *)

Definition digit (c : ascii) : option Z :=
  let n := Z.of_N (N_of_ascii c) in
  if (48 <=? n) && (n <=? 57) then Some (n - 48) else None.

Definition hex_digit (c : ascii) : option Z :=
  let n := Z.of_N (N_of_ascii c) in
  if (48 <=? n) && (n <=? 57) then Some (n - 48)
  else if (65 <=? n) && (n <=? 70) then Some (n - 55)
  else if (97 <=? n) && (n <=? 102) then Some (n - 87)
  else None.

(** The digits of radix [R], which is at most 16. *)
Definition digit_of (R : Z) (c : ascii) : option Z :=
  match hex_digit c with
  | Some d => if d <? R then Some d else None
  | None => None
  end.

(** The decimal numeral of an integer. *)
Definition string_of_Z (z : Z) : string := NilZero.string_of_int (Z.to_int z).

(** ** JavaScript numbers *)

(** A Number: NaN, an infinity, or the double [n / 2 ^ k], with [k = 0] or
    [n] odd; the two zeros are one (they print alike and nothing here
    divides). *)
Inductive jsnum : Type :=
| JNaN
| JInf (negative : bool)
| JFin (n : Z) (k : Z).

Definition jsnum_eqb (a b : jsnum) : bool :=
  match a, b with
  | JNaN, JNaN => true
  | JInf s, JInf s' => Bool.eqb s s'
  | JFin n k, JFin n' k' => (n =? n') && (k =? k')
  | _, _ => false
  end.

Definition TWO_53 : Z := 9007199254740992.

(** [n / 2 ^ k] in lowest terms. *)
Definition dyadic (n k : Z) : jsnum :=
  if n =? 0 then JFin 0 0
  else let t := Z.min k (Z.log2 (Z.land n (- n))) in JFin (Z.shiftr n t) (k - t).

(** The double nearest to [n / d], ties to even: 53 bits from the leading
    one, or those above 2^-1074 for a subnormal; an infinity from 2^1024. *)
Definition round_ratio (n d : Z) : jsnum :=
  let a := Z.abs n in
  if a =? 0 then JFin 0 0
  else
    let l := Z.log2 a - Z.log2 d in
    let ex := if (if 0 <=? l then d * 2 ^ l <=? a else d <=? a * 2 ^ (- l))
              then l else l - 1 in
    let q := Z.max (ex - 52) (-1074) in
    let num := if 0 <=? q then a else a * 2 ^ (- q) in
    let den := if 0 <=? q then d * 2 ^ q else d in
    let m := num / den in
    let r := num mod den in
    let m' := if 2 * r <? den then m
              else if den <? 2 * r then m + 1
              else if Z.even m then m else m + 1 in
    if m' =? 0 then JFin 0 0
    else if 1024 <=? Z.log2 m' + q then JInf (n <? 0)
    else if 0 <=? q then JFin (Z.sgn n * m' * 2 ^ q) 0
    else dyadic (Z.sgn n * m') (- q).

(** The double nearest to [n / 2 ^ k]: an integer up to 2^53 is one. *)
Definition rounded (n k : Z) : jsnum :=
  if (k =? 0) && (Z.abs n <=? TWO_53) then JFin n 0 else round_ratio n (2 ^ k).

Definition number_of_Z (z : Z) : jsnum := rounded z 0.

(** [a - b] and [a * b]. *)
Definition js_sub (a b : jsnum) : jsnum :=
  match a, b with
  | JNaN, _ | _, JNaN => JNaN
  | JInf s, JInf s' => if Bool.eqb s s' then JNaN else JInf s
  | JInf s, JFin _ _ => JInf s
  | JFin _ _, JInf s => JInf (negb s)
  | JFin n k, JFin n' k' =>
      let m := Z.max k k' in
      rounded (n * 2 ^ (m - k) - n' * 2 ^ (m - k')) m
  end.

Definition js_mul (a b : jsnum) : jsnum :=
  match a, b with
  | JNaN, _ | _, JNaN => JNaN
  | JInf s, JInf s' => JInf (xorb s s')
  | JInf s, JFin n _ | JFin n _, JInf s =>
      if n =? 0 then JNaN else JInf (xorb s (n <? 0))
  | JFin n k, JFin n' k' => rounded (n * n') (k + k')
  end.

(** The number [c * 10 ^ j] reads as. *)
Definition decimal_value (c j : Z) : jsnum :=
  if 0 <=? j then rounded (c * 10 ^ j) 0 else round_ratio c (10 ^ (- j)).

(** White space and line terminators, in UTF-8: TAB, LF, VT, FF, CR and SP;
    U+00A0; U+1680, U+2000 to U+200A, U+2028, U+2029, U+202F, U+205F, U+3000
    and U+FEFF. *)
Definition white1 (c : ascii) : bool :=
  let n := Z.of_N (N_of_ascii c) in ((9 <=? n) && (n <=? 13)) || (n =? 32).

Definition white2 (c c' : ascii) : bool :=
  (Z.of_N (N_of_ascii c) =? 194) && (Z.of_N (N_of_ascii c') =? 160).

Definition white3 (c c' c'' : ascii) : bool :=
  let a := Z.of_N (N_of_ascii c) in
  let b := Z.of_N (N_of_ascii c') in
  let d := Z.of_N (N_of_ascii c'') in
  ((a =? 225) && (b =? 154) && (d =? 128))
  || ((a =? 226) && (b =? 128)
      && (((128 <=? d) && (d <=? 138)) || (d =? 168) || (d =? 169) || (d =? 175)))
  || ((a =? 226) && (b =? 129) && (d =? 159))
  || ((a =? 227) && (b =? 128) && (d =? 128))
  || ((a =? 239) && (b =? 187) && (d =? 191)).

Fixpoint trim_start (s : string) : string :=
  match s with
  | String c r =>
      if white1 c then trim_start r
      else
        match r with
        | String c' r' =>
            if white2 c c' then trim_start r'
            else
              match r' with
              | String c'' r'' => if white3 c c' c'' then trim_start r'' else s
              | EmptyString => s
              end
        | EmptyString => s
        end
  | EmptyString => s
  end.

(** The longest prefix of digits of radix [R]: its value from [acc], how
    many they are, and what follows. *)
Fixpoint leading (R acc : Z) (count : Z) (s : string) : Z * Z * string :=
  match s with
  | String c r =>
      match digit_of R c with
      | Some d => leading R (R * acc + d) (count + 1) r
      | None => (acc, count, s)
      end
  | EmptyString => (acc, count, s)
  end.

(** What follows the prefix [p] of [s]. *)
Definition starts_with (p s : string) : option string :=
  if String.prefix p s then Some (substring (String.length p) (String.length s - String.length p) s)
  else None.

(** ExponentPart, when one follows: its value and what follows it. *)
Definition exponent_part (s : string) : Z * string :=
  match s with
  | String c r =>
      if (c =? "e")%char || (c =? "E")%char then
        let '(neg, r1) := match r with
                          | String "-" r' => (true, r')
                          | String "+" r' => (false, r')
                          | _ => (false, r)
                          end in
        let '(x, count, rest) := leading 10 0 0 r1 in
        if count =? 0 then (0, s) else (if neg then - x else x, rest)
      else (0, s)
  | EmptyString => (0, s)
  end.

(** StrUnsignedDecimalLiteral: [Infinity], or digits with a fraction and an
    exponent; its value, signed, and what follows it. *)
Definition unsigned_decimal (neg : bool) (s : string) : option (jsnum * string) :=
  match starts_with "Infinity" s with
  | Some rest => Some (JInf neg, rest)
  | None =>
      let '(i, ci, r1) := leading 10 0 0 s in
      let '(n, cf, r2) := match r1 with
                          | String "." r => leading 10 i 0 r
                          | _ => (i, 0, r1)
                          end in
      if (ci =? 0) && (cf =? 0) then None
      else
        let '(x, rest) := exponent_part r2 in
        Some (decimal_value (if neg then - n else n) (x - cf), rest)
  end.

(** The digits of a literal of radix 16, 8 or 2, after its prefix. *)
Definition non_decimal (R : Z) (s : string) : option (jsnum * string) :=
  let '(v, count, rest) := leading R 0 0 s in
  if count =? 0 then None else Some (number_of_Z v, rest).

(** StrNumericLiteral *)
Definition numeric_literal (s : string) : option (jsnum * string) :=
  match s with
  | String "-" r => unsigned_decimal true r
  | String "+" r => unsigned_decimal false r
  | String "0" (String c r) =>
      if (c =? "x")%char || (c =? "X")%char then non_decimal 16 r
      else if (c =? "o")%char || (c =? "O")%char then non_decimal 8 r
      else if (c =? "b")%char || (c =? "B")%char then non_decimal 2 r
      else unsigned_decimal false s
  | _ => unsigned_decimal false s
  end.

(** ToNumber on a string: white space around a numeric literal, or around
    nothing, which is 0. *)
Definition string_to_number (s : string) : jsnum :=
  let t := trim_start s in
  if String.eqb t "" then JFin 0 0
  else
    match numeric_literal t with
    | Some (v, rest) => if String.eqb (trim_start rest) "" then v else JNaN
    | None => JNaN
    end.

(** Number::toString.  The decimal exponent [n] of [a / b]:
    [10 ^ (n - 1) <= a / b < 10 ^ n], searched upwards from below it. *)
Fixpoint exponent_from (fuel : nat) (a b n : Z) : Z :=
  match fuel with
  | O => n
  | S f =>
      if (if 0 <=? n then a <? b * 10 ^ n else a * 10 ^ (- n) <? b) then n
      else exponent_from f a b (n + 1)
  end.

Definition decimal_exponent (a b : Z) : Z :=
  exponent_from 8 a b ((Z.log2 a - Z.log2 b) * 30103 / 100000 - 2).

(** The fewest digits [k], and the integer [c] they write, such that
    [c * 10 ^ (n - k)] reads back as [x]; of two such integers the one
    nearer to [a / b], the even one when they are as near.  17 digits tell
    any two doubles apart. *)
Fixpoint shortest_from (fuel : nat) (x : jsnum) (a b n k : Z) : Z * Z :=
  match fuel with
  | O => (0, k)
  | S f =>
      let j := k - n in
      let num := if 0 <=? j then a * 10 ^ j else a in
      let den := if 0 <=? j then b else b * 10 ^ (- j) in
      let lo := num / den in
      let r := num mod den in
      let ok c := jsnum_eqb (decimal_value c (n - k)) x in
      if ok lo && ok (lo + 1) then
        (if 2 * r <? den then lo
         else if den <? 2 * r then lo + 1
         else if Z.even lo then lo else lo + 1, k)
      else if ok lo then (lo, k)
      else if ok (lo + 1) then (lo + 1, k)
      else shortest_from f x a b n (k + 1)
  end.

Fixpoint strip_zeros (s : string) : string :=
  match s with
  | String c r =>
      let r' := strip_zeros r in
      if (c =? "0")%char && String.eqb r' "" then "" else String c r'
  | EmptyString => ""
  end.

Fixpoint zeros (n : nat) : string :=
  match n with
  | O => ""
  | S k => String "0" (zeros k)
  end.

(** The digits [ds] with the decimal point after the [n]-th: plain up to
    21 digits before the point and 6 zeros after it, else with an exponent. *)
Definition format_number (ds : string) (n : Z) : string :=
  let k := Z.of_nat (String.length ds) in
  if (k <=? n) && (n <=? 21) then ds ++ zeros (Z.to_nat (n - k))
  else if (0 <? n) && (n <=? 21) then
    substring 0 (Z.to_nat n) ds ++ "." ++ substring (Z.to_nat n) (Z.to_nat (k - n)) ds
  else if (-6 <? n) && (n <=? 0) then "0." ++ zeros (Z.to_nat (- n)) ++ ds
  else
    let x := (if n - 1 <? 0 then "-" else "+") ++ string_of_Z (Z.abs (n - 1)) in
    match ds with
    | String c EmptyString => String c ("e" ++ x)
    | String c r => String c ("." ++ r ++ "e" ++ x)
    | EmptyString => ""
    end.

Definition shortest_text (x : jsnum) (a b : Z) : string :=
  let n := decimal_exponent a b in
  let '(c, k) := shortest_from 17 x a b n 1 in
  format_number (strip_zeros (string_of_Z c)) (if c =? 10 ^ k then n + 1 else n).

(** ToString of a number: an integer up to 2^53 prints as its numeral. *)
Definition number_to_string (x : jsnum) : string :=
  match x with
  | JNaN => "NaN"
  | JInf s => if s then "-Infinity" else "Infinity"
  | JFin n k =>
      if (k =? 0) && (Z.abs n <=? TWO_53) then string_of_Z n
      else (if n <? 0 then "-" else "")
           ++ shortest_text (JFin (Z.abs n) k) (Z.abs n) (2 ^ k)
  end.

(** ToNumber and ToString of a request field. *)
Definition to_number (v : jsval) : jsnum :=
  match v with
  | JUndefined => JNaN
  | JNull => JFin 0 0
  | JBool b => JFin (if b then 1 else 0) 0
  | JNum z => number_of_Z z
  | JStr s => string_to_number s
  end.

(** ** Errors raised inside a handler's [try] block *)

Record js_error : Type := { message : string; stack : string }.

Inductive error : Type :=
| InvalidByteSequence
| NotNullViolation (table column : string)
| StringTooLong (n : Z)
| UniqueViolation (constraint : string)
| ForeignKeyViolation (table constraint : string)
| InvalidInput (type text : string)
| OutOfRange (type text : string)
| NegativeLimit
| NegativeOffset
| IllegalArguments (t1 t2 : string)
| ConnectionError (e : js_error).

Inductive result (A : Type) : Type :=
| Ok (a : A)
| Err (e : error).
Arguments Ok {A} a.
Arguments Err {A} e.

(** ** Reading a parameter at a column type *)

(** The text node-postgres sends for a value: nothing (NULL) for
    [undefined] and [null], [toString()] for a boolean and a number. *)
Definition pg_text (v : jsval) : option string :=
  match v with
  | JUndefined | JNull => None
  | JBool b => Some (if b then "true" else "false")
  | JNum z => Some (number_to_string (number_of_Z z))
  | JStr s => Some s
  end.

(** The store refuses a text with a zero byte, whatever the type it is read
    at. *)
Fixpoint has_nul (s : string) : bool :=
  match s with
  | String c r => (N_of_ascii c =? 0)%N || has_nul r
  | EmptyString => false
  end.

(** A parameter read at a VARCHAR or TEXT type. *)
Definition text_param (v : jsval) : result (option string) :=
  match pg_text v with
  | Some s => if has_nul s then Err InvalidByteSequence else Ok (Some s)
  | None => Ok None
  end.

Definition INT_MIN : Z := -2147483648.
Definition INT_MAX : Z := 2147483647.

Definition in_int4 (z : Z) : bool := (INT_MIN <=? z) && (z <=? INT_MAX).

(** [isspace] *)
Definition pg_space (c : ascii) : bool :=
  let n := Z.of_N (N_of_ascii c) in ((9 <=? n) && (n <=? 13)) || (n =? 32).

Fixpoint skip_spaces (s : string) : string :=
  match s with
  | String c r => if pg_space c then skip_spaces r else s
  | EmptyString => s
  end.

(** The digit loop of the integer input functions: the value of the digits
    read so far is [tmp]; a digit that would take it beyond the type is an
    overflow at once, whatever follows; an underscore stands between digits
    only ([first]: or before them, after a radix prefix). *)
Inductive scanned : Type :=
| Digits (value : Z) (any : bool) (rest : string)
| Overflow
| Malformed.

Fixpoint scan_digits (R limit : Z) (first : bool) (any : bool) (tmp : Z) (s : string)
    : scanned :=
  match s with
  | String c r =>
      match digit_of R c with
      | Some d =>
          if limit <? tmp then Overflow
          else scan_digits R limit first true (tmp * R + d) r
      | None =>
          if (c =? "_")%char then
            if any || first then
              match r with
              | String c' _ =>
                  match digit_of R c' with
                  | Some _ => scan_digits R limit first true tmp r
                  | None => Malformed
                  end
              | EmptyString => Malformed
              end
            else Malformed
          else Digits tmp any s
      end
  | EmptyString => Digits tmp any s
  end.

(** The digits of an integer literal, in decimal or after [0x], [0o] or
    [0b]; [bound] is the largest magnitude of the type. *)
Definition scan_integer (bound : Z) (p : string) : scanned :=
  match p with
  | String "0" (String c r) =>
      if (c =? "x")%char || (c =? "X")%char
      then scan_digits 16 (bound / 16) true false 0 r
      else if (c =? "o")%char || (c =? "O")%char
      then scan_digits 8 (bound / 8) true false 0 r
      else if (c =? "b")%char || (c =? "B")%char
      then scan_digits 2 (bound / 2) true false 0 r
      else scan_digits 10 (bound / 10) false false 0 p
  | _ => scan_digits 10 (bound / 10) false false 0 p
  end.

Definition strip_sign (p : string) : bool * string :=
  match p with
  | String "-" r => (true, r)
  | String "+" r => (false, r)
  | _ => (false, p)
  end.

(** The input function of a signed integer type of [bits] bits: white
    space, a sign, digits, white space. *)
Definition integer_input (bits : Z) (type : string) (s : string) : result Z :=
  if has_nul s then Err InvalidByteSequence
  else
    let '(neg, p) := strip_sign (skip_spaces s) in
    let bound := 2 ^ (bits - 1) in
    match scan_integer bound p with
    | Overflow => Err (OutOfRange type s)
    | Malformed => Err (InvalidInput type s)
    | Digits tmp any rest =>
        if negb any || negb (String.eqb (skip_spaces rest) "")
        then Err (InvalidInput type s)
        else if neg then (if bound <? tmp then Err (OutOfRange type s) else Ok (- tmp))
        else if bound - 1 <? tmp then Err (OutOfRange type s) else Ok tmp
    end.

(** The store's input function of type integer, on the text of a parameter. *)
Definition int4in (s : string) : result Z := integer_input 32 "integer" s.

(** A parameter bound to an INTEGER column or compared with one. *)
Definition pg_int (v : jsval) : result (option Z) :=
  match pg_text v with
  | Some s => match int4in s with Ok z => Ok (Some z) | Err e => Err e end
  | None => Ok None
  end.

(** A plain decimal literal: an optional sign and at least one digit. *)
Fixpoint digits (acc : Z) (s : string) : option Z :=
  match s with
  | EmptyString => Some acc
  | String c r =>
      match digit c with
      | Some d => digits (10 * acc + d) r
      | None => None
      end
  end.

Definition int_literal (s : string) : option Z :=
  match s with
  | EmptyString => None
  | String "-" EmptyString => None
  | String "+" EmptyString => None
  | String "-" r => option_map Z.opp (digits 0 r)
  | String "+" r => digits 0 r
  | _ => digits 0 s
  end.

(** ** Rows and the store *)

Record user : Type := {
  u_id : Z;
  u_username : string;
  u_email : string;
  u_password_hash : string;
  u_avatar_url : option string;
  u_bio : option string;
  u_created_at : Z;
  u_last_seen : Z
}.

Record category : Type := {
  c_id : Z;
  c_name : string;
  c_description : option string;
  c_color : option string;
  c_icon : option string;
  c_created_at : Z
}.

Record topic : Type := {
  t_id : Z;
  t_title : string;
  t_content : string;
  t_user_id : option Z;
  t_category_id : option Z;
  t_views : Z;
  t_is_pinned : bool;
  t_is_locked : bool;
  t_created_at : Z;
  t_updated_at : Z
}.

Record post : Type := {
  p_id : Z;
  p_content : string;
  p_topic_id : option Z;
  p_user_id : option Z;
  p_parent_id : option Z;
  p_likes : Z;
  p_created_at : Z;
  p_updated_at : Z
}.

Record like : Type := {
  l_id : Z;
  l_user_id : option Z;
  l_post_id : option Z;
  l_created_at : Z
}.

(** The tables after the CREATE TABLE IF NOT EXISTS statements of [initDB],
    each with the sequence behind its SERIAL key.  A sequence gives its value
    away when an INSERT computes the row's defaults, also when the row is then
    refused. *)
Record store : Type := {
  users : list user;
  users_seq : Z;
  categories : list category;
  categories_seq : Z;
  topics : list topic;
  topics_seq : Z;
  posts : list post;
  posts_seq : Z;
  likes : list like;
  likes_seq : Z
}.

Definition empty_store : store :=
  {| users := []; users_seq := 1;
     categories := []; categories_seq := 1;
     topics := []; topics_seq := 1;
     posts := []; posts_seq := 1;
     likes := []; likes_seq := 1 |}.

Definition set_users (us : list user) (n : Z) (s : store) : store :=
  {| users := us; users_seq := n;
     categories := categories s; categories_seq := categories_seq s;
     topics := topics s; topics_seq := topics_seq s;
     posts := posts s; posts_seq := posts_seq s;
     likes := likes s; likes_seq := likes_seq s |}.

Definition set_categories (cs : list category) (n : Z) (s : store) : store :=
  {| users := users s; users_seq := users_seq s;
     categories := cs; categories_seq := n;
     topics := topics s; topics_seq := topics_seq s;
     posts := posts s; posts_seq := posts_seq s;
     likes := likes s; likes_seq := likes_seq s |}.

Definition set_topics (ts : list topic) (n : Z) (s : store) : store :=
  {| users := users s; users_seq := users_seq s;
     categories := categories s; categories_seq := categories_seq s;
     topics := ts; topics_seq := n;
     posts := posts s; posts_seq := posts_seq s;
     likes := likes s; likes_seq := likes_seq s |}.

Definition set_posts (ps : list post) (n : Z) (s : store) : store :=
  {| users := users s; users_seq := users_seq s;
     categories := categories s; categories_seq := categories_seq s;
     topics := topics s; topics_seq := topics_seq s;
     posts := ps; posts_seq := n;
     likes := likes s; likes_seq := likes_seq s |}.

Definition set_likes (ls : list like) (n : Z) (s : store) : store :=
  {| users := users s; users_seq := users_seq s;
     categories := categories s; categories_seq := categories_seq s;
     topics := topics s; topics_seq := topics_seq s;
     posts := posts s; posts_seq := posts_seq s;
     likes := ls; likes_seq := n |}.

(** ** The monad of statements: a store threaded through, errors raised *)

Definition DB (A : Type) : Type := store -> store * result A.

Definition ret {A} (a : A) : DB A := fun s => (s, Ok a).

Definition throw {A} (e : error) : DB A := fun s => (s, Err e).

Definition bind {A B} (m : DB A) (k : A -> DB B) : DB B :=
  fun s =>
    match m s with
    | (s', Ok a) => k a s'
    | (s', Err e) => (s', Err e)
    end.

Notation "x <- m ;; k" := (bind m (fun x => k))
  (at level 61, m at next level, right associativity).
Notation "m ;;; k" := (bind m (fun _ => k))
  (at level 61, right associativity).

(** Lifting the outcome of reading a parameter. *)
Definition lift {A} (r : result A) : DB A := fun s => (s, r).

(** [try { body } catch (err) { handler err }] around a handler's body: what
    the statements before the failing one did to the store stays. *)
Definition try_catch {A} (body : DB A) (handler : error -> A) : store -> store * A :=
  fun s =>
    match body s with
    | (s', Ok a) => (s', a)
    | (s', Err e) => (s', handler e)
    end.

Definition eqb_oZ (a : option Z) (z : Z) : bool :=
  match a with
  | Some x => x =? z
  | None => false
  end.

(** SQL equality of two nullable integers: NULL equals nothing. *)
Definition sql_eq (a b : option Z) : bool :=
  match b with
  | Some z => eqb_oZ a z
  | None => false
  end.

(** ** The environment of one request *)

Inductive pool_state : Type :=
| PoolUp
| PoolDown (e : js_error).

(** [now] is CURRENT_TIMESTAMP of the statement of the request that stores
    rows, [later] that of the UPDATE that POST /api/posts sends after its
    INSERT; [first_row] says which of the rows of a SELECT without ORDER BY
    the store returns first; [salt] is the salt bcrypt draws, [pool] whether
    the store answers; the last two fields are the process environment
    variables the handlers read. *)
Record env : Type := {
  now : Z;
  later : Z;
  first_row : nat;
  salt : string;
  pool : pool_state;
  JWT_SECRET : option string;
  NODE_ENV : option string
}.

(** [pool.query(...)]: the statement runs when the store answers. *)
Definition query {A} (e : env) (stmt : DB A) : DB A :=
  fun s =>
    match pool e with
    | PoolUp => stmt s
    | PoolDown err => (s, Err (ConnectionError err))
    end.

(** The length of a text in characters: the bytes of the form 10xxxxxx
    continue a character. *)
Definition continuation (c : ascii) : bool :=
  (N.land (N_of_ascii c) 192 =? 128)%N.

Fixpoint strlen (s : string) : Z :=
  match s with
  | String c r => (if continuation c then 0 else 1) + strlen r
  | EmptyString => 0
  end.

(** The coercion of a text to VARCHAR(n), done when the statement is
    planned, before any row is computed.  (A text whose excess characters
    are all spaces is refused as well, where the store cuts it.) *)
Definition varchar (n : Z) (v : option string) : result unit :=
  match v with
  | Some s => if n <? strlen s then Err (StringTooLong n) else Ok tt
  | None => Ok tt
  end.

(** The rows of a SELECT without ORDER BY, in the order the store returns
    them. *)
Definition store_order {A} (e : env) (rows : list A) : list A :=
  let k := (first_row e mod List.length rows)%nat in
  (skipn k rows ++ firstn k rows)%list.

Definition eqb_ostr (a : option string) (s : string) : bool :=
  match a with
  | Some x => String.eqb x s
  | None => false
  end.

(** ** Statements on [users] *)

Definition has_user (s : store) (id : Z) : bool :=
  existsb (fun u => u_id u =? id) (users s).

(** INSERT INTO users (username, email, password_hash[, bio]) VALUES (...)
    RETURNING id, username, email.  The columns are VARCHAR(50), VARCHAR(100)
    and VARCHAR(255), all NOT NULL; [id] is the primary key, [username] and
    [email] are UNIQUE.  The parameters are read and cut to their columns
    first; the row then takes its id from the sequence and is checked. *)
Definition users_row (e : env) (un em : option string) (password_hash : string)
    (bio : option string) : DB user :=
  fun s =>
    let id := users_seq s in
    let s1 := set_users (users s) (id + 1) s in
    match un, em with
    | None, _ => (s1, Err (NotNullViolation "users" "username"))
    | _, None => (s1, Err (NotNullViolation "users" "email"))
    | Some un, Some em =>
        if has_user s id then (s1, Err (UniqueViolation "users_pkey"))
        else if existsb (fun u => String.eqb (u_username u) un) (users s)
          then (s1, Err (UniqueViolation "users_username_key"))
        else if existsb (fun u => String.eqb (u_email u) em) (users s)
          then (s1, Err (UniqueViolation "users_email_key"))
        else
          let row := {| u_id := id; u_username := un; u_email := em;
                        u_password_hash := password_hash;
                        u_avatar_url := None; u_bio := bio;
                        u_created_at := now e; u_last_seen := now e |} in
          (set_users (users s ++ [row]) (id + 1) s, Ok row)
    end.

Definition insert_user (e : env) (username email : jsval) (password_hash : string)
    (bio : option string) : DB user :=
  un <- lift (text_param username) ;;
  em <- lift (text_param email) ;;
  _ <- lift (varchar 50 un) ;;
  _ <- lift (varchar 100 em) ;;
  _ <- lift (varchar 255 (Some password_hash)) ;;
  users_row e un em password_hash bio.

(** The same INSERT with ON CONFLICT (username) DO NOTHING: a row whose
    username is taken is skipped, after it took its id and passed the NOT
    NULL checks; any other violation is raised. *)
Definition insert_user_unless_username (e : env) (username email : jsval)
    (password_hash : string) (bio : option string) : DB unit :=
  un <- lift (text_param username) ;;
  em <- lift (text_param email) ;;
  _ <- lift (varchar 50 un) ;;
  _ <- lift (varchar 100 em) ;;
  _ <- lift (varchar 255 (Some password_hash)) ;;
  fun s =>
    match un, em with
    | Some x, Some _ =>
        if existsb (fun u => String.eqb x (u_username u)) (users s)
        then (set_users (users s) (users_seq s + 1) s, Ok tt)
        else (_ <- users_row e un em password_hash bio ;; ret tt) s
    | _, _ => (_ <- users_row e un em password_hash bio ;; ret tt) s
    end.

(** SELECT * FROM users WHERE username = $1 OR email = $1 *)
Definition select_users_by_login (e : env) (ident : jsval) : DB (list user) :=
  i <- lift (text_param ident) ;;
  fun s =>
    (s, Ok (store_order e
              (filter (fun u => eqb_ostr i (u_username u) || eqb_ostr i (u_email u))
                      (users s)))).

Definition touch_user (t : Z) (id : Z) (u : user) : user :=
  if u_id u =? id then
    {| u_id := u_id u; u_username := u_username u; u_email := u_email u;
       u_password_hash := u_password_hash u; u_avatar_url := u_avatar_url u;
       u_bio := u_bio u; u_created_at := u_created_at u; u_last_seen := t |}
  else u.

(** UPDATE users SET last_seen = CURRENT_TIMESTAMP WHERE id = $1, with the
    id read from a row of the table. *)
Definition update_last_seen (e : env) (id : Z) : DB unit :=
  fun s => (set_users (map (touch_user (now e) id) (users s)) (users_seq s) s, Ok tt).

(** ** Statements on [categories] *)

Definition has_category (s : store) (id : Z) : bool :=
  existsb (fun c => c_id c =? id) (categories s).

(** One row of INSERT INTO categories (name, description, color, icon)
    VALUES ... ON CONFLICT DO NOTHING, once its texts are known to fit the
    columns.  The table's only unique index is its primary key, so that is
    the only conflict there is to skip. *)
Definition insert_category_do_nothing (e : env)
    (row : string * string * string * string) : DB unit :=
  fun s =>
    let '(name, description, color, icon) := row in
    let id := categories_seq s in
    let s1 := set_categories (categories s) (id + 1) s in
    if has_category s id then (s1, Ok tt)
    else
      (set_categories
         (categories s ++
            [{| c_id := id; c_name := name; c_description := Some description;
                c_color := Some color; c_icon := Some icon;
                c_created_at := now e |}])
         (id + 1) s, Ok tt).

Fixpoint insert_categories_do_nothing (e : env)
    (rows : list (string * string * string * string)) : DB unit :=
  match rows with
  | [] => ret tt
  | r :: rest =>
      _ <- insert_category_do_nothing e r ;; insert_categories_do_nothing e rest
  end.

(** A statement is atomic: when a row of a multi-row INSERT is refused, the
    rows before it are not kept (the sequence values are spent). *)
Definition atomic_categories {A} (stmt : DB A) : DB A :=
  fun s =>
    match stmt s with
    | (s', Ok a) => (s', Ok a)
    | (s', Err err) => (set_categories (categories s) (categories_seq s') s, Err err)
    end.

(** The constants of the VALUES list are cut to VARCHAR(100), VARCHAR(7) and
    VARCHAR(50) when the statement is planned. *)
Fixpoint cut_categories (rows : list (string * string * string * string))
    : result unit :=
  match rows with
  | [] => Ok tt
  | (name, _, color, icon) :: rest =>
      if 100 <? strlen name then Err (StringTooLong 100)
      else if 7 <? strlen color then Err (StringTooLong 7)
      else if 50 <? strlen icon then Err (StringTooLong 50)
      else cut_categories rest
  end.

(** INSERT INTO categories (name, description, color, icon) VALUES ...
    ON CONFLICT DO NOTHING *)
Definition insert_categories (e : env)
    (rows : list (string * string * string * string)) : DB unit :=
  _ <- lift (cut_categories rows) ;;
  atomic_categories (insert_categories_do_nothing e rows).

Definition default_categories : list (string * string * string * string) :=
  [ ("General Discussion", "Talk about anything related to our community", "#667eea", "chat");
    ("Announcements", "Important updates and news", "#f56565", "megaphone");
    ("Help & Support", "Get help from the community", "#48bb78", "help-circle");
    ("Feature Requests", "Suggest new features and improvements", "#ed8936", "lightbulb") ].

(** SELECT COUNT( * ) FROM categories *)
Definition count_categories : DB Z :=
  fun s => (s, Ok (Z.of_nat (List.length (categories s)))).

(** ** Statements on [topics] *)

Definition has_topic (s : store) (id : Z) : bool :=
  existsb (fun t => t_id t =? id) (topics s).

(** A REFERENCES constraint on a nullable column: NULL refers to nothing. *)
Definition fk_ok (has : Z -> bool) (v : option Z) : bool :=
  match v with
  | Some z => has z
  | None => true
  end.

(** INSERT INTO topics (title, content, category_id, user_id)
    VALUES ($1, $2, $3, $4) RETURNING *.  [title] is VARCHAR(200). *)
Definition insert_topic (e : env) (title content category_id user_id : jsval)
    : DB topic :=
  ti <- lift (text_param title) ;;
  co <- lift (text_param content) ;;
  c <- lift (pg_int category_id) ;;
  u <- lift (pg_int user_id) ;;
  _ <- lift (varchar 200 ti) ;;
  fun s =>
    let id := topics_seq s in
    let s1 := set_topics (topics s) (id + 1) s in
    match ti, co with
    | None, _ => (s1, Err (NotNullViolation "topics" "title"))
    | _, None => (s1, Err (NotNullViolation "topics" "content"))
    | Some ti, Some co =>
        if has_topic s id then (s1, Err (UniqueViolation "topics_pkey"))
        else if negb (fk_ok (has_user s) u)
          then (s1, Err (ForeignKeyViolation "topics" "topics_user_id_fkey"))
        else if negb (fk_ok (has_category s) c)
          then (s1, Err (ForeignKeyViolation "topics" "topics_category_id_fkey"))
        else
          let row := {| t_id := id; t_title := ti; t_content := co;
                        t_user_id := u; t_category_id := c; t_views := 0;
                        t_is_pinned := false; t_is_locked := false;
                        t_created_at := now e; t_updated_at := now e |} in
          (set_topics (topics s ++ [row]) (id + 1) s, Ok row)
    end.

Definition bump_views (id : option Z) (t : topic) : topic :=
  if eqb_oZ id (t_id t) then
    {| t_id := t_id t; t_title := t_title t; t_content := t_content t;
       t_user_id := t_user_id t; t_category_id := t_category_id t;
       t_views := t_views t + 1;
       t_is_pinned := t_is_pinned t; t_is_locked := t_is_locked t;
       t_created_at := t_created_at t; t_updated_at := t_updated_at t |}
  else t.

(** UPDATE topics SET views = views + 1 WHERE id = $1 *)
Definition update_topic_views (id : jsval) : DB unit :=
  i <- lift (pg_int id) ;;
  fun s => (set_topics (map (bump_views i) (topics s)) (topics_seq s) s, Ok tt).

Definition bump_updated_at (t0 : Z) (id : option Z) (t : topic) : topic :=
  if eqb_oZ id (t_id t) then
    {| t_id := t_id t; t_title := t_title t; t_content := t_content t;
       t_user_id := t_user_id t; t_category_id := t_category_id t;
       t_views := t_views t;
       t_is_pinned := t_is_pinned t; t_is_locked := t_is_locked t;
       t_created_at := t_created_at t; t_updated_at := t0 |}
  else t.

(** UPDATE topics SET updated_at = CURRENT_TIMESTAMP WHERE id = $1, the
    second statement of its request. *)
Definition update_topic_updated_at (e : env) (id : jsval) : DB unit :=
  i <- lift (pg_int id) ;;
  fun s =>
    (set_topics (map (bump_updated_at (later e) i) (topics s)) (topics_seq s) s, Ok tt).

(** The rows of [FROM topics t JOIN users u ON t.user_id = u.id
    LEFT JOIN categories c ON t.category_id = c.id] that come from one
    topic: one per author row and per category row, the category NULL when
    there is none. *)
Definition authors_of (s : store) (t : topic) : list user :=
  filter (fun u => eqb_oZ (t_user_id t) (u_id u)) (users s).

Definition categories_of (s : store) (t : topic) : list (option category) :=
  match filter (fun c => eqb_oZ (t_category_id t) (c_id c)) (categories s) with
  | [] => [None]
  | cs => map Some cs
  end.

Record topic_row : Type := {
  tr_topic : topic;
  tr_username : string;
  tr_avatar_url : option string;
  tr_user_bio : option string;
  tr_category_name : option string;
  tr_category_color : option string
}.

Definition topic_row_of (t : topic) (u : user) (c : option category) : topic_row :=
  {| tr_topic := t;
     tr_username := u_username u;
     tr_avatar_url := u_avatar_url u;
     tr_user_bio := u_bio u;
     tr_category_name := option_map c_name c;
     tr_category_color := match c with Some x => c_color x | None => None end |}.

Definition joined (s : store) (t : topic) : list topic_row :=
  flat_map (fun u => map (topic_row_of t u) (categories_of s t)) (authors_of s t).

(** SELECT t.*, u.username, u.avatar_url, u.bio as user_bio,
    c.name as category_name, c.color as category_color
    FROM topics t JOIN users u ... LEFT JOIN categories c ... WHERE t.id = $1 *)
Definition select_topic (id : jsval) : DB (list topic_row) :=
  i <- lift (pg_int id) ;;
  fun s =>
    (s, Ok (flat_map (joined s) (filter (fun t => eqb_oZ i (t_id t)) (topics s)))).

(** ** Statements on [posts] *)

Definition has_post (s : store) (id : Z) : bool :=
  existsb (fun p => p_id p =? id) (posts s).

(** INSERT INTO posts (content, topic_id, user_id, parent_id)
    VALUES ($1, $2, $3, $4) RETURNING * *)
Definition insert_post (e : env) (content topic_id user_id parent_id : jsval)
    : DB post :=
  co <- lift (text_param content) ;;
  t <- lift (pg_int topic_id) ;;
  u <- lift (pg_int user_id) ;;
  p <- lift (pg_int parent_id) ;;
  fun s =>
    let id := posts_seq s in
    let s1 := set_posts (posts s) (id + 1) s in
    match co with
    | None => (s1, Err (NotNullViolation "posts" "content"))
    | Some co =>
        if has_post s id then (s1, Err (UniqueViolation "posts_pkey"))
        else if negb (fk_ok (has_topic s) t)
          then (s1, Err (ForeignKeyViolation "posts" "posts_topic_id_fkey"))
        else if negb (fk_ok (has_user s) u)
          then (s1, Err (ForeignKeyViolation "posts" "posts_user_id_fkey"))
        else if negb (fk_ok (fun z => has_post s z || (z =? id)) p)
          then (s1, Err (ForeignKeyViolation "posts" "posts_parent_id_fkey"))
        else
          let row := {| p_id := id; p_content := co; p_topic_id := t;
                        p_user_id := u; p_parent_id := p; p_likes := 0;
                        p_created_at := now e; p_updated_at := now e |} in
          (set_posts (posts s ++ [row]) (id + 1) s, Ok row)
    end.

Definition add_likes (d : Z) (id : option Z) (p : post) : post :=
  if eqb_oZ id (p_id p) then
    {| p_id := p_id p; p_content := p_content p; p_topic_id := p_topic_id p;
       p_user_id := p_user_id p; p_parent_id := p_parent_id p;
       p_likes := p_likes p + d;
       p_created_at := p_created_at p; p_updated_at := p_updated_at p |}
  else p.

(** UPDATE posts SET likes = likes + 1 WHERE id = $1 (and [likes - 1]). *)
Definition update_post_likes (d : Z) (id : jsval) : DB unit :=
  i <- lift (pg_int id) ;;
  fun s => (set_posts (map (add_likes d i) (posts s)) (posts_seq s) s, Ok tt).

(** ** Statements on [likes] *)

Definition like_is (u p : option Z) (l : like) : bool :=
  sql_eq (l_user_id l) u && sql_eq (l_post_id l) p.

(** SELECT * FROM likes WHERE user_id = $1 AND post_id = $2 *)
Definition select_likes (user_id post_id : jsval) : DB (list like) :=
  u <- lift (pg_int user_id) ;;
  p <- lift (pg_int post_id) ;;
  fun s => (s, Ok (filter (like_is u p) (likes s))).

(** DELETE FROM likes WHERE user_id = $1 AND post_id = $2 *)
Definition delete_likes (user_id post_id : jsval) : DB unit :=
  u <- lift (pg_int user_id) ;;
  p <- lift (pg_int post_id) ;;
  fun s =>
    (set_likes (filter (fun l => negb (like_is u p l)) (likes s)) (likes_seq s) s, Ok tt).

(** INSERT INTO likes (user_id, post_id) VALUES ($1, $2), under
    UNIQUE(user_id, post_id) and the two REFERENCES constraints. *)
Definition insert_like (e : env) (user_id post_id : jsval) : DB unit :=
  u <- lift (pg_int user_id) ;;
  p <- lift (pg_int post_id) ;;
  fun s =>
    let id := likes_seq s in
    let s1 := set_likes (likes s) (id + 1) s in
    if existsb (fun l => l_id l =? id) (likes s)
      then (s1, Err (UniqueViolation "likes_pkey"))
    else if existsb (like_is u p) (likes s)
      then (s1, Err (UniqueViolation "likes_user_id_post_id_key"))
    else if negb (fk_ok (has_user s) u)
      then (s1, Err (ForeignKeyViolation "likes" "likes_user_id_fkey"))
    else if negb (fk_ok (has_post s) p)
      then (s1, Err (ForeignKeyViolation "likes" "likes_post_id_fkey"))
    else
      (set_likes (likes s ++ [{| l_id := id; l_user_id := u; l_post_id := p;
                                 l_created_at := now e |}])
                 (id + 1) s, Ok tt).

(** ** The listings *)

Definition MAX_SAFE_INTEGER : Z := 9007199254740991.

Definition safe_integer (z : Z) : Prop :=
  - MAX_SAFE_INTEGER <= z <= MAX_SAFE_INTEGER.

Definition INT8_MIN : Z := -9223372036854775808.
Definition INT8_MAX : Z := 9223372036854775807.

Definition in_int8 (z : Z) : bool := (INT8_MIN <=? z) && (z <=? INT8_MAX).

Definition int8in (s : string) : result Z := integer_input 64 "bigint" s.

(** A parameter read at type bigint (LIMIT and OFFSET). *)
Definition pg_bigint (v : jsval) : result (option Z) :=
  match pg_text v with
  | Some s => match int8in s with Ok z => Ok (Some z) | Err e => Err e end
  | None => Ok None
  end.

(** A number sent as a parameter of type bigint. *)
Definition pg_bigint_of_number (n : jsnum) : result Z :=
  int8in (number_to_string n).

Fixpoint insert_by {A} (before : A -> A -> bool) (x : A) (l : list A) : list A :=
  match l with
  | [] => [x]
  | y :: r => if before x y then x :: l else y :: insert_by before x r
  end.

(** ORDER BY: a stable sort by the given order. *)
Definition order_by {A} (before : A -> A -> bool) (l : list A) : list A :=
  fold_right (insert_by before) [] l.

(** [LIMIT l OFFSET o]; a NULL limit is no limit. *)
Definition limit_offset {A} (l : option Z) (o : Z) (rows : list A) : list A :=
  match l with
  | Some n => firstn (Z.to_nat n) (skipn (Z.to_nat o) rows)
  | None => skipn (Z.to_nat o) rows
  end.

Record topic_item : Type := {
  ti_topic : topic;
  ti_username : string;
  ti_avatar_url : option string;
  ti_category_name : option string;
  ti_category_color : option string;
  ti_post_count : Z;
  ti_last_post_at : option Z
}.

Definition posts_of (s : store) (t : topic) : list post :=
  filter (fun p => eqb_oZ (p_topic_id p) (t_id t)) (posts s).

(** MAX(p.created_at): NULL over no row. *)
Definition max_created_at (ps : list post) : option Z :=
  fold_right (fun p acc =>
                match acc with
                | Some m => Some (Z.max (p_created_at p) m)
                | None => Some (p_created_at p)
                end) None ps.

Definition topic_item_of (s : store) (r : topic_row) : topic_item :=
  {| ti_topic := tr_topic r;
     ti_username := tr_username r;
     ti_avatar_url := tr_avatar_url r;
     ti_category_name := tr_category_name r;
     ti_category_color := tr_category_color r;
     ti_post_count :=
       Z.of_nat (List.length (nodup Z.eq_dec (map p_id (posts_of s (tr_topic r)))));
     ti_last_post_at := max_created_at (posts_of s (tr_topic r)) |}.

(** ORDER BY t.is_pinned DESC, t.created_at DESC *)
Definition topic_before (a b : topic) : bool :=
  if Bool.eqb (t_is_pinned a) (t_is_pinned b)
  then t_created_at b <=? t_created_at a
  else t_is_pinned a.

Definition item_before (a b : topic_item) : bool :=
  topic_before (ti_topic a) (ti_topic b).

(** The WHERE clause the handler adds when [category] is truthy. *)
Definition in_category (c : option (option Z)) (t : topic) : bool :=
  match c with
  | Some v => sql_eq (t_category_id t) v
  | None => true
  end.

(** The groups of the listing before ORDER BY: the primary keys make each
    group the rows of one topic with its author and its category. *)
Definition listed (s : store) (c : option (option Z)) : list topic_item :=
  map (topic_item_of s) (flat_map (joined s) (filter (in_category c) (topics s))).

(** SELECT t.*, u.username, u.avatar_url, c.name, c.color,
    COUNT(DISTINCT p.id), MAX(p.created_at) FROM topics t JOIN users u ...
    LEFT JOIN categories c ... LEFT JOIN posts p ... [WHERE t.category_id = $1]
    GROUP BY ... ORDER BY t.is_pinned DESC, t.created_at DESC
    LIMIT $n OFFSET $m *)
Definition select_topics (category : option jsval) (limit : jsval) (offset : jsnum)
    : DB (list topic_item) :=
  c <- lift (match category with
             | Some v => match pg_int v with Ok x => Ok (Some x) | Err e => Err e end
             | None => Ok None
             end) ;;
  l <- lift (pg_bigint limit) ;;
  o <- lift (pg_bigint_of_number offset) ;;
  fun s =>
    if o <? 0 then (s, Err NegativeOffset)
    else if match l with Some n => n <? 0 | None => false end
      then (s, Err NegativeLimit)
    else (s, Ok (limit_offset l o (order_by item_before (listed s c)))).

Record category_item : Type := {
  ci_category : category;
  ci_topic_count : Z
}.

(** SELECT c.*, COUNT(DISTINCT t.id) as topic_count FROM categories c
    LEFT JOIN topics t ON c.id = t.category_id GROUP BY c.id ORDER BY c.id *)
Definition select_categories : DB (list category_item) :=
  fun s =>
    (s, Ok (order_by (fun a b => c_id (ci_category a) <=? c_id (ci_category b))
              (map (fun c =>
                      {| ci_category := c;
                         ci_topic_count :=
                           Z.of_nat (List.length (nodup Z.eq_dec (map t_id
                             (filter (fun t => eqb_oZ (t_category_id t) (c_id c))
                                     (topics s))))) |})
                   (categories s)))).

Record post_item : Type := {
  pi_post : post;
  pi_username : string;
  pi_avatar_url : option string;
  pi_like_count : Z
}.

(** SELECT p.*, u.username, u.avatar_url,
    (SELECT COUNT( * ) FROM likes WHERE post_id = p.id) as like_count
    FROM posts p JOIN users u ON p.user_id = u.id
    WHERE p.topic_id = $1 ORDER BY p.created_at ASC *)
Definition select_posts (topic_id : jsval) : DB (list post_item) :=
  i <- lift (pg_int topic_id) ;;
  fun s =>
    (s, Ok (order_by (fun a b => p_created_at (pi_post a) <=? p_created_at (pi_post b))
              (flat_map
                 (fun p =>
                    map (fun u =>
                           {| pi_post := p;
                              pi_username := u_username u;
                              pi_avatar_url := u_avatar_url u;
                              pi_like_count :=
                                Z.of_nat (List.length
                                  (filter (fun l => eqb_oZ (l_post_id l) (p_id p))
                                          (likes s))) |})
                        (filter (fun u => eqb_oZ (p_user_id p) (u_id u)) (users s)))
                 (filter (fun p => sql_eq (p_topic_id p) i) (posts s))))).

Record stats_row : Type := {
  user_count : Z;
  topic_count : Z;
  post_count : Z;
  active_users : Z
}.

(** Timestamps count microseconds. *)
Definition HOURS_24 : Z := 86400000000.

(** SELECT (SELECT COUNT( * ) FROM users), ..., (SELECT COUNT( * ) FROM users
    WHERE last_seen > NOW() - INTERVAL '24 hours') *)
Definition select_stats (e : env) : DB stats_row :=
  fun s =>
    (s, Ok {| user_count := Z.of_nat (List.length (users s));
              topic_count := Z.of_nat (List.length (topics s));
              post_count := Z.of_nat (List.length (posts s));
              active_users :=
                Z.of_nat (List.length
                  (filter (fun u => now e - HOURS_24 <? u_last_seen u) (users s))) |}).

(** ** Responses *)

Definition dq : string := String "034"%char EmptyString.

Definition quoted (s : string) : string := dq ++ s ++ dq.

(** [err.message] *)
Definition error_message (e : error) : string :=
  match e with
  | InvalidByteSequence =>
      "invalid byte sequence for encoding " ++ quoted "UTF8" ++ ": 0x00"
  | NotNullViolation t c =>
      "null value in column " ++ quoted c ++ " of relation " ++ quoted t
        ++ " violates not-null constraint"
  | StringTooLong n =>
      "value too long for type character varying(" ++ string_of_Z n ++ ")"
  | UniqueViolation c =>
      "duplicate key value violates unique constraint " ++ quoted c
  | ForeignKeyViolation t c =>
      "insert or update on table " ++ quoted t
        ++ " violates foreign key constraint " ++ quoted c
  | InvalidInput ty s => "invalid input syntax for type " ++ ty ++ ": " ++ quoted s
  | OutOfRange ty s => "value " ++ quoted s ++ " is out of range for type " ++ ty
  | NegativeLimit => "LIMIT must not be negative"
  | NegativeOffset => "OFFSET must not be negative"
  | IllegalArguments a b => "Illegal arguments: " ++ a ++ ", " ++ b
  | ConnectionError x => message x
  end.

(** [err.stack]: the trace the error carries; for an error of the store
    only its first line is kept. *)
Definition error_stack (e : error) : string :=
  match e with
  | ConnectionError x => stack x
  | _ => "error: " ++ error_message e
  end.

Record health_body : Type := {
  h_status : string;
  h_database : string;
  h_categories : option Z;
  h_error : option string;
  h_stack : option string
}.

Record user_brief : Type := {
  ub_id : Z;
  ub_username : string;
  ub_email : string
}.

Record user_profile : Type := {
  up_id : Z;
  up_username : string;
  up_email : string;
  up_avatar_url : option string;
  up_bio : option string
}.

Inductive body : Type :=
| BError (error : string)
| BHealth (h : health_body)
| BRegistered (user : user_brief) (token : string)
| BLoggedIn (user : user_profile) (token : string)
| BCategories (rows : list category_item)
| BTopics (rows : list topic_item)
| BTopic (row : topic_row)
| BTopicCreated (row : topic)
| BPosts (rows : list post_item)
| BPostCreated (row : post)
| BLiked (liked : bool)
| BStats (row : stats_row).

Record response : Type := { status : Z; body_of : body }.

(** [res.json(b)] and [res.status(n).json(b)]. *)
Definition json (b : body) : response := {| status := 200; body_of := b |}.
Definition status_json (n : Z) (b : body) : response := {| status := n; body_of := b |}.

Inductive request : Type :=
| GetHealth
| PostRegister (username email password : jsval)
| PostLogin (username password : jsval)
| GetCategories
| GetTopics (category page limit : option string)
| GetTopic (id : string)
| PostTopic (title content category_id user_id : jsval)
| GetTopicPosts (id : string)
| PostPost (content topic_id user_id parent_id : jsval)
| PostLike (id : string) (user_id : jsval)
| GetStats.

(** A field of [req.query]: absent, or the text after the [=]. *)
Definition query_field (q : option string) : jsval :=
  match q with
  | Some s => JStr s
  | None => JUndefined
  end.

(** A destructuring default, [{ x = d }]: it applies to [undefined] only. *)
Definition js_default (v d : jsval) : jsval :=
  match v with
  | JUndefined => d
  | _ => v
  end.

(** ** The handlers of [server.js] *)

(** The two libraries the handlers call: [bcrypt.hash(password, 10)] with the
    salt it draws, [bcrypt.compare(password, hash)], and
    [jwt.sign({ id, username }, secret, { expiresIn: '7d' })] issued at a
    given time. *)
Record library : Type := {
  bcrypt_hash : string -> string -> string;
  bcrypt_compare : string -> string -> bool;
  jwt_sign : Z -> string -> string -> Z -> string
}.

Section Forum.

Variable L : library.

Definition hash (e : env) (password : jsval) : DB string :=
  match password with
  | JStr p => ret (bcrypt_hash L p (salt e))
  | v => throw (IllegalArguments (js_typeof v) "number")
  end.

Definition compare (password : jsval) (h : string) : DB bool :=
  match password with
  | JStr p => ret (bcrypt_compare L p h)
  | v => throw (IllegalArguments (js_typeof v) "string")
  end.

(** [process.env.JWT_SECRET || 'nexus-secret-key'] *)
Definition secret (e : env) : string :=
  match JWT_SECRET e with
  | Some k => if String.eqb k "" then "nexus-secret-key" else k
  | None => "nexus-secret-key"
  end.

Definition initDB (e : env) (s : store) : store :=
  fst (try_catch
         (_ <- query e (ret tt) ;;
          _ <- query e (insert_categories e default_categories) ;;
          adminPassword <- hash e (JStr "admin123") ;;
          _ <- query e (insert_user_unless_username e (JStr "admin")
                          (JStr "admin@nexus.com") adminPassword
                          (Some "Forum Administrator")) ;;
          ret tt)
         (fun _ => tt) s).

(** GET /api/health *)
Definition health (e : env) : store -> store * response :=
  try_catch
    (n <- query e count_categories ;;
     ret (json (BHealth {| h_status := "healthy"; h_database := "connected";
                           h_categories := Some n;
                           h_error := None; h_stack := None |})))
    (fun err =>
       json (BHealth {| h_status := "unhealthy"; h_database := "error";
                        h_categories := None;
                        h_error := Some (error_message err);
                        h_stack := if eqb_ostr (NODE_ENV e) "production"
                                   then None else Some (error_stack err) |})).

(** POST /api/register *)
Definition register (e : env) (username email password : jsval)
    : store -> store * response :=
  try_catch
    (h <- hash e password ;;
     row <- query e (insert_user e username email h None) ;;
     let token := jwt_sign L (u_id row) (u_username row) (secret e) (now e) in
     ret (json (BRegistered {| ub_id := u_id row; ub_username := u_username row;
                               ub_email := u_email row |} token)))
    (fun err => status_json 400 (BError (error_message err))).

(** POST /api/login *)
Definition login (e : env) (username password : jsval)
    : store -> store * response :=
  try_catch
    (rows <- query e (select_users_by_login e username) ;;
     match rows with
     | [] => ret (status_json 401 (BError "Invalid credentials"))
     | user :: _ =>
         valid <- compare password (u_password_hash user) ;;
         if negb valid then ret (status_json 401 (BError "Invalid credentials"))
         else
           _ <- query e (update_last_seen e (u_id user)) ;;
           let token := jwt_sign L (u_id user) (u_username user) (secret e) (now e) in
           ret (json (BLoggedIn {| up_id := u_id user;
                                   up_username := u_username user;
                                   up_email := u_email user;
                                   up_avatar_url := u_avatar_url user;
                                   up_bio := u_bio user |} token))
     end)
    (fun err => status_json 500 (BError (error_message err))).

(** GET /api/categories *)
Definition list_categories (e : env) : store -> store * response :=
  try_catch
    (rows <- query e select_categories ;; ret (json (BCategories rows)))
    (fun err => status_json 500 (BError (error_message err))).

(** GET /api/topics *)
Definition list_topics (e : env) (category page limit : option string)
    : store -> store * response :=
  let category := query_field category in
  let page := js_default (query_field page) (JNum 1) in
  let limit := js_default (query_field limit) (JNum 20) in
  let offset := js_mul (js_sub (to_number page) (JFin 1 0)) (to_number limit) in
  try_catch
    (rows <- query e (select_topics (if truthy category then Some category else None)
                                    limit offset) ;;
     ret (json (BTopics rows)))
    (fun err => status_json 500 (BError (error_message err))).

(** GET /api/topics/:id *)
Definition get_topic (e : env) (id : string) : store -> store * response :=
  try_catch
    (_ <- query e (update_topic_views (JStr id)) ;;
     rows <- query e (select_topic (JStr id)) ;;
     match rows with
     | [] => ret (status_json 404 (BError "Topic not found"))
     | row :: _ => ret (json (BTopic row))
     end)
    (fun err => status_json 500 (BError (error_message err))).

(** POST /api/topics *)
Definition create_topic (e : env) (title content category_id user_id : jsval)
    : store -> store * response :=
  try_catch
    (row <- query e (insert_topic e title content category_id (js_or user_id (JNum 1))) ;;
     ret (json (BTopicCreated row)))
    (fun err => status_json 400 (BError (error_message err))).

(** GET /api/topics/:id/posts *)
Definition list_posts (e : env) (id : string) : store -> store * response :=
  try_catch
    (rows <- query e (select_posts (JStr id)) ;; ret (json (BPosts rows)))
    (fun err => status_json 500 (BError (error_message err))).

(** POST /api/posts *)
Definition create_post (e : env) (content topic_id user_id parent_id : jsval)
    : store -> store * response :=
  try_catch
    (row <- query e (insert_post e content topic_id (js_or user_id (JNum 1)) parent_id) ;;
     _ <- query e (update_topic_updated_at e topic_id) ;;
     ret (json (BPostCreated row)))
    (fun err => status_json 400 (BError (error_message err))).

(** POST /api/posts/:id/like *)
Definition toggle_like (e : env) (id : string) (user_id : jsval)
    : store -> store * response :=
  let post_id := JStr id in
  try_catch
    (existing <- query e (select_likes (js_or user_id (JNum 1)) post_id) ;;
     if (0 <? Z.of_nat (List.length existing)) then
       _ <- query e (delete_likes (js_or user_id (JNum 1)) post_id) ;;
       _ <- query e (update_post_likes (-1) post_id) ;;
       ret (json (BLiked false))
     else
       _ <- query e (insert_like e (js_or user_id (JNum 1)) post_id) ;;
       _ <- query e (update_post_likes 1 post_id) ;;
       ret (json (BLiked true)))
    (fun err => status_json 500 (BError (error_message err))).

(** GET /api/stats *)
Definition get_stats (e : env) : store -> store * response :=
  try_catch
    (row <- query e (select_stats e) ;; ret (json (BStats row)))
    (fun err => status_json 500 (BError (error_message err))).

(** The routes. *)
Definition handle (e : env) (r : request) : store -> store * response :=
  match r with
  | GetHealth => health e
  | PostRegister username email password => register e username email password
  | PostLogin username password => login e username password
  | GetCategories => list_categories e
  | GetTopics category page limit => list_topics e category page limit
  | GetTopic id => get_topic e id
  | PostTopic title content category_id user_id =>
      create_topic e title content category_id user_id
  | GetTopicPosts id => list_posts e id
  | PostPost content topic_id user_id parent_id =>
      create_post e content topic_id user_id parent_id
  | PostLike id user_id => toggle_like e id user_id
  | GetStats => get_stats e
  end.

(** Requests served one after the other. *)
Fixpoint serve (s : store) (rs : list (env * request)) : store :=
  match rs with
  | [] => s
  | (e, r) :: rest => serve (fst (handle e r s)) rest
  end.

(** The store after [initDB] ran against the empty tables of a reachable
    database, and the stores that requests and restarts of the server (which
    run [initDB] again) take it to. *)
Inductive reachable : store -> Prop :=
| reachable_init (e : env) :
    pool e = PoolUp -> reachable (initDB e empty_store)
| reachable_step (e : env) (r : request) (s : store) :
    reachable s -> reachable (fst (handle e r s))
| reachable_restart (e : env) (s : store) :
    reachable s -> reachable (initDB e s).

End Forum.

(** ** A library to run the handlers with *)

(** Exactly [n] characters of [s], filled up with dots. *)
Fixpoint pad (n : nat) (s : string) : string :=
  match n with
  | O => EmptyString
  | S k =>
      match s with
      | EmptyString => String "." (pad k EmptyString)
      | String c r => String c (pad k r)
      end
  end.

(** A stand-in with bcrypt's shape: 60 characters, the 22 characters of the
    salt after a 7-character prefix; [compare] hashes again with that salt. *)
Definition sample_hash (p salt : string) : string :=
  pad 60 ("$2a$10$" ++ pad 22 salt ++ p).

Definition sample_compare (p h : string) : bool :=
  String.eqb (sample_hash p (substring 7 22 h)) h.

Definition sample_sign (id : Z) (username key : string) (iat : Z) : string :=
  username ++ "." ++ string_of_Z id ++ "." ++ string_of_Z iat ++ "." ++ key.

Definition sample_library : library :=
  {| bcrypt_hash := sample_hash;
     bcrypt_compare := sample_compare;
     jwt_sign := sample_sign |}.

Definition at_time (t : Z) : env :=
  {| now := t; later := t + 1; first_row := 0;
     salt := "saltsaltsaltsaltsaltsa"; pool := PoolUp;
     JWT_SECRET := None; NODE_ENV := None |}.

(** A short history: a topic by the admin, fetched once, with one reply that
    the admin likes; then a second user. *)
Definition scenario : list (env * request) :=
  [ (at_time 10, PostTopic (JStr "Hi") (JStr "Hello") (JNum 1) (JNum 1));
    (at_time 20, GetTopic "1");
    (at_time 30, PostPost (JStr "Reply") (JNum 1) (JNum 1) JUndefined);
    (at_time 40, PostLike "1" (JNum 1));
    (at_time 50, PostRegister (JStr "alice") (JStr "alice@nexus.com") (JStr "wonderland")) ].

Definition fresh_store : store := initDB sample_library (at_time 0) empty_store.

Definition sample_store : store := serve sample_library fresh_store scenario.

(** ** The vocabulary of the properties *)

Definition like_key (l : like) : option Z * option Z := (l_user_id l, l_post_id l).

(** The number of Like rows that reference post [p]. *)
Definition count_likes (s : store) (p : Z) : Z :=
  Z.of_nat (List.length (filter (fun l => eqb_oZ (l_post_id l) p) (likes s))).

(** At most one Like row per (user, post), and every post's counter is the
    number of its Like rows. *)
Definition likes_consistent (s : store) : Prop :=
  NoDup (map like_key (likes s))
  /\ forall p, In p (posts s) -> p_likes p = count_likes s (p_id p).

(** Whether user [u] likes post [p], and the counter of post [p]. *)
Definition liked (s : store) (u p : Z) : bool :=
  existsb (like_is (Some u) (Some p)) (likes s).

Definition like_counter (s : store) (p : Z) : option Z :=
  option_map p_likes (find (fun x => p_id x =? p) (posts s)).

(** Two toggles in a row by the user the request is attributed to. *)
Definition toggle_pair_spec (e1 e2 : env) (id : string)
    (user_id : jsval) (u p : Z) (s : store) : Prop :=
  let (s1, r1) := toggle_like e1 id user_id s in
  let (s2, r2) := toggle_like e2 id user_id s1 in
  liked s2 u p = liked s u p
  /\ like_counter s2 p = like_counter s p
  /\ r1 = json (BLiked (negb (liked s u p)))
  /\ r2 = json (BLiked (liked s u p)).

(** The tables hold the same rows (the sequences may have moved). *)
Definition same_rows (s s' : store) : Prop :=
  users s' = users s /\ categories s' = categories s /\ topics s' = topics s
  /\ posts s' = posts s /\ likes s' = likes s.

(** The views of topic [z], and [n] fetches of a topic in a row. *)
Definition views_of (s : store) (z : Z) : option Z :=
  option_map t_views (find (fun t => t_id t =? z) (topics s)).

Fixpoint fetch_all (es : list env) (id : string) (s : store)
    : store * list response :=
  match es with
  | [] => (s, [])
  | e :: rest =>
      let (s1, r) := get_topic e id s in
      let (s2, rs) := fetch_all rest id s1 in
      (s2, r :: rs)
  end.

Definition with_views (t : topic) (n : Z) : topic :=
  {| t_id := t_id t; t_title := t_title t; t_content := t_content t;
     t_user_id := t_user_id t; t_category_id := t_category_id t;
     t_views := n;
     t_is_pinned := t_is_pinned t; t_is_locked := t_is_locked t;
     t_created_at := t_created_at t; t_updated_at := t_updated_at t |}.

(** The row a fetch of topic [z] answers with, in terms of the store [s]
    before the fetch: the stored topic with [v] views, the name, avatar and
    bio of its author, the name and colour of its category. *)
Definition enriched (s : store) (z v : Z) (row : topic_row) : Prop :=
  exists t0 u,
    find (fun t => t_id t =? z) (topics s) = Some t0
    /\ tr_topic row = with_views t0 v
    /\ In u (users s) /\ t_user_id t0 = Some (u_id u)
    /\ tr_username row = u_username u /\ tr_avatar_url row = u_avatar_url u
    /\ tr_user_bio row = u_bio u
    /\ match t_category_id t0 with
       | None => tr_category_name row = None /\ tr_category_color row = None
       | Some c =>
           forall cat, In cat (categories s) -> c_id cat = c ->
             tr_category_name row = Some (c_name cat)
             /\ tr_category_color row = c_color cat
       end.

(** Pinned topics first, then the newest first. *)
Definition listed_before (a b : topic) : Prop :=
  (t_is_pinned a = true /\ t_is_pinned b = false)
  \/ (t_is_pinned a = t_is_pinned b /\ t_created_at b <= t_created_at a).

(** The value of [page] or [limit]: its default when absent, else the
    decimal literal given. *)
Definition page_value (q : option string) (d : Z) : option Z :=
  match q with
  | Some s => int_literal s
  | None => Some d
  end.

(** The category a listing is restricted to. *)
Definition category_value (q : option string) : option (option Z) :=
  match q with
  | None => Some None
  | Some s =>
      if String.eqb s "" then Some None
      else match int4in s with
           | Ok z => Some (Some z)
           | Err _ => None
           end
  end.

Definition category_matches (c : option Z) (t : topic) : bool :=
  match c with
  | Some z => eqb_oZ (t_category_id t) z
  | None => true
  end.

Definition in_category_of (c : option Z) (t : topic) : Prop :=
  match c with
  | Some z => t_category_id t = Some z
  | None => True
  end.

(** The three parameters of the listing's query, as the store reads them:
    the category when the filter is truthy, the limit, and the offset, the
    number [(page - 1) * limit] printed by JavaScript. *)
Definition category_param (category : option string) : result (option (option Z)) :=
  match (if truthy (query_field category) then Some (query_field category) else None) with
  | Some v => match pg_int v with Ok x => Ok (Some x) | Err e => Err e end
  | None => Ok None
  end.

Definition limit_param (limit : option string) : result (option Z) :=
  pg_bigint (js_default (query_field limit) (JNum 20)).

Definition offset_of (page limit : option string) : jsnum :=
  js_mul (js_sub (to_number (js_default (query_field page) (JNum 1))) (JFin 1 0))
         (to_number (js_default (query_field limit) (JNum 20))).

Definition offset_param (page limit : option string) : result Z :=
  pg_bigint_of_number (offset_of page limit).

(** [rows] is a page of the listing: at most [l] rows, from the [o]-th on,
    of all the topics (of category [c], when there is one), pinned topics
    first and then the newest first. *)
Definition page_of (s : store) (c : option (option Z)) (l o : Z)
    (rows : list topic_item) : Prop :=
  exists all,
    rows = firstn (Z.to_nat l) (skipn (Z.to_nat o) all)
    /\ Permutation (map ti_topic all) (filter (in_category c) (topics s))
    /\ StronglySorted (fun a b => listed_before (ti_topic a) (ti_topic b)) all
    /\ StronglySorted (fun a b => listed_before (ti_topic a) (ti_topic b)) rows
    /\ Forall (fun r => in_category c (ti_topic r) = true) rows
    /\ (List.length rows <= Z.to_nat l)%nat.

(** The parameters are accepted: they read as integers, none negative. *)
Definition listing_accepted (category page limit : option string) : Prop :=
  exists c l o,
    category_param category = Ok c /\ limit_param limit = Ok (Some l)
    /\ offset_param page limit = Ok o /\ 0 <= l /\ 0 <= o.

(** A history with five topics in two categories. *)
Definition busy_store : store :=
  serve sample_library fresh_store
    [ (at_time 10, PostTopic (JStr "One") (JStr "1") (JNum 1) (JNum 1));
      (at_time 20, PostTopic (JStr "Two") (JStr "2") (JNum 2) (JNum 1));
      (at_time 30, PostTopic (JStr "Three") (JStr "3") (JNum 1) (JNum 1));
      (at_time 40, PostTopic (JStr "Four") (JStr "4") (JNum 1) (JNum 1));
      (at_time 50, PostTopic (JStr "Five") (JStr "5") (JNum 2) (JNum 1)) ].

(** The clock of the requests never runs backwards: the stores reached at
    time [t]. *)
Inductive reachable_at (L : library) : Z -> store -> Prop :=
| at_init (e : env) :
    pool e = PoolUp -> reachable_at L (now e) (initDB L e empty_store)
| at_step (e : env) (r : request) (t : Z) (s : store) :
    reachable_at L t s -> t <= now e ->
    reachable_at L (now e) (fst (handle L e r s))
| at_restart (e : env) (t : Z) (s : store) :
    reachable_at L t s -> t <= now e ->
    reachable_at L (now e) (initDB L e s).

Definition last_seen_of (s : store) (id : Z) : option Z :=
  option_map u_last_seen (find (fun u => u_id u =? id) (users s)).

(** The rows a login finds for an identifier, and the one the store
    returns first. *)
Definition login_rows (s : store) (ident : jsval) : list user :=
  filter (fun u => eqb_ostr (pg_text ident) (u_username u)
                   || eqb_ostr (pg_text ident) (u_email u))
         (users s).

Definition login_row (e : env) (s : store) (ident : jsval) : option user :=
  hd_error (store_order e (login_rows s ident)).

Definition profile_of (u : user) : user_profile :=
  {| up_id := u_id u; up_username := u_username u; up_email := u_email u;
     up_avatar_url := u_avatar_url u; up_bio := u_bio u |}.

(** The constraints of the schema that every reachable store meets. *)
Record store_ok (s : store) : Prop := {
  ok_user_ids : NoDup (map u_id (users s));
  ok_user_seq : forall u, In u (users s) -> u_id u < users_seq s;
  ok_category_ids : NoDup (map c_id (categories s));
  ok_category_seq : forall c, In c (categories s) -> c_id c < categories_seq s;
  ok_topic_ids : NoDup (map t_id (topics s));
  ok_topic_seq : forall t, In t (topics s) -> t_id t < topics_seq s;
  ok_topic_author : forall t, In t (topics s) ->
      exists u, t_user_id t = Some u /\ has_user s u = true;
  ok_post_seq : forall p, In p (posts s) -> p_id p < posts_seq s;
  ok_like_seq : forall l, In l (likes s) -> l_id l < likes_seq s;
  ok_like_keys : NoDup (map like_key (likes s));
  ok_like_refs : forall l, In l (likes s) ->
      exists u p, l_user_id l = Some u /\ l_post_id l = Some p /\ has_post s p = true;
  ok_like_count : forall p, In p (posts s) -> p_likes p = count_likes s (p_id p)
}.

(** A statement keeps a property of the store. *)
Definition preserves {A} (P : store -> Prop) (m : DB A) : Prop :=
  forall s, P s -> P (fst (m s)).

(** ** Auxiliary stores and predicates *)

(** The store after an unlike, and after a like, by user [u] on post [p]. *)
Definition unliked_store (u p : option Z) (s : store) : store :=
  let s1 := set_likes (filter (fun l => negb (like_is u p l)) (likes s)) (likes_seq s) s in
  set_posts (map (add_likes (-1) p) (posts s1)) (posts_seq s1) s1.

Definition liked_store (e : env) (u p : option Z) (s : store) : store :=
  let s1 := set_likes (likes s ++ [{| l_id := likes_seq s; l_user_id := u;
                                      l_post_id := p; l_created_at := now e |}])
                      (likes_seq s + 1) s in
  set_posts (map (add_likes 1 p) (posts s1)) (posts_seq s1) s1.

(** [res.status(n).json({ error: err.message })] *)
Definition raised (n : Z) (x : error) : response :=
  status_json n (BError (error_message x)).

(** A statement on [categories] leaves the other tables alone and only moves
    the sequence forward. *)
Definition categories_only (s s' : store) : Prop :=
  s' = set_categories (categories s') (categories_seq s') s
  /\ categories_seq s <= categories_seq s'.

(** bcrypt's hashes have 60 characters; what matters to the schema is that
    they fit the VARCHAR(255) column. *)
Definition hash_fits (L : library) : Prop :=
  forall p salt, strlen (bcrypt_hash L p salt) <= 255.

(** The admin row [initDB] stores has id 1. *)
Definition admin_is_first (s : store) : Prop :=
  exists a, In a (users s) /\ u_id a = 1 /\ u_username a = "admin".

(** A property of the rows of [users] is kept by every handler as soon as
    the two statements that write to [users] keep it. *)
Definition on_users (P : list user -> Prop) (s : store) : Prop := P (users s).

(** No user was seen after time [t]. *)
Definition last_seen_le (t : Z) (s : store) : Prop :=
  on_users (fun us => forall u, In u us -> u_last_seen u <= t) s.

(** The store after a login of user [u]. *)
Definition logged_in_store (e : env) (u : user) (s : store) : store :=
  set_users (map (touch_user (now e) (u_id u)) (users s)) (users_seq s) s.

(** The store after a fetch of topic [z]. *)
Definition viewed_store (z : Z) (s : store) : store :=
  set_topics (map (bump_views (Some z)) (topics s)) (topics_seq s) s.

(** ** Further vocabulary: what a request leaves in place *)

(** Row [u'] is user [u] up to [last_seen]; row [t'] is topic [t] up to its
    views and [updated_at]; row [p'] is post [p] up to its likes counter. *)
Definition same_user (u u' : user) : Prop :=
  u_id u' = u_id u /\ u_username u' = u_username u /\ u_email u' = u_email u
  /\ u_password_hash u' = u_password_hash u /\ u_avatar_url u' = u_avatar_url u
  /\ u_bio u' = u_bio u /\ u_created_at u' = u_created_at u.

Definition same_topic (t t' : topic) : Prop :=
  t_id t' = t_id t /\ t_title t' = t_title t /\ t_content t' = t_content t
  /\ t_user_id t' = t_user_id t /\ t_category_id t' = t_category_id t
  /\ t_is_pinned t' = t_is_pinned t /\ t_is_locked t' = t_is_locked t
  /\ t_created_at t' = t_created_at t /\ t_views t <= t_views t'.

Definition same_post (p p' : post) : Prop :=
  p_id p' = p_id p /\ p_content p' = p_content p /\ p_topic_id p' = p_topic_id p
  /\ p_user_id p' = p_user_id p /\ p_parent_id p' = p_parent_id p
  /\ p_created_at p' = p_created_at p /\ p_updated_at p' = p_updated_at p.

(** Table [l'] holds the rows of [l], in their order and up to [R], followed
    by new rows. *)
Definition extends_by {A} (R : A -> A -> Prop) (l l' : list A) : Prop :=
  exists old new, l' = (old ++ new)%list /\ Forall2 R l old.

(** Nothing was removed between [s] and [s']: users, categories, topics and
    posts are kept, and the sequences did not go back. *)
Definition grown (s s' : store) : Prop :=
  extends_by same_user (users s) (users s')
  /\ extends_by eq (categories s) (categories s')
  /\ extends_by same_topic (topics s) (topics s')
  /\ extends_by same_post (posts s) (posts s')
  /\ users_seq s <= users_seq s' /\ categories_seq s <= categories_seq s'
  /\ topics_seq s <= topics_seq s' /\ posts_seq s <= posts_seq s'
  /\ likes_seq s <= likes_seq s'.

(** A statement only takes the store forward along [R]. *)
Definition advances {A} (R : store -> store -> Prop) (m : DB A) : Prop :=
  forall s, R s (fst (m s)).

(** The status each route answers with when the store does not answer: the
    status of its catch block, and 200 for the health check. *)
Definition down_status (r : request) : Z :=
  match r with
  | GetHealth => 200
  | PostRegister _ _ _ | PostTopic _ _ _ _ | PostPost _ _ _ _ => 400
  | _ => 500
  end.

Definition store_down (t : Z) : env :=
  {| now := t; later := t + 1; first_row := 0;
     salt := "saltsaltsaltsaltsaltsa";
     pool := PoolDown {| message := "connect ECONNREFUSED 127.0.0.1:5432";
                         stack := "Error: connect ECONNREFUSED 127.0.0.1:5432" |};
     JWT_SECRET := None; NODE_ENV := None |}.

(** The row a successful registration stores. *)
Definition registered_row (L : library) (e : env) (un em p : string) (s : store) : user :=
  {| u_id := users_seq s; u_username := un; u_email := em;
     u_password_hash := bcrypt_hash L p (salt e);
     u_avatar_url := None; u_bio := None;
     u_created_at := now e; u_last_seen := now e |}.

(** The first row of [users] is the admin that [initDB] seeds, with the
    hash of the seeded password. *)
Definition admin_heads (L : library) (us : list user) : Prop :=
  exists a rest salt0,
    us = a :: rest
    /\ u_id a = 1 /\ u_username a = "admin" /\ u_email a = "admin@nexus.com"
    /\ u_password_hash a = bcrypt_hash L "admin123" salt0
    /\ u_avatar_url a = None /\ u_bio a = Some "Forum Administrator".

(** The constraints on [posts] that every reachable store meets: the primary
    key, an author for every post, and the reference to [topics]. *)
Record posts_ok (s : store) : Prop := {
  ok_post_ids : NoDup (map p_id (posts s));
  ok_post_author : forall p, In p (posts s) ->
      exists u, p_user_id p = Some u /\ has_user s u = true;
  ok_post_topic : forall p t, In p (posts s) -> p_topic_id p = Some t ->
      has_topic s t = true
}.

Definition schema_ok (s : store) : Prop := store_ok s /\ posts_ok s.

(** What a row of the posts listing says about the store: the post is a
    stored one, its like count is the post's counter, and the name and avatar
    are those of its author. *)
Definition post_item_ok (s : store) (r : post_item) : Prop :=
  In (pi_post r) (posts s)
  /\ pi_like_count r = p_likes (pi_post r)
  /\ exists u, In u (users s) /\ p_user_id (pi_post r) = Some (u_id u)
               /\ pi_username r = u_username u /\ pi_avatar_url r = u_avatar_url u.

(** The topics of category [c]. *)
Definition topics_in (s : store) (c : Z) : list topic :=
  filter (fun t => eqb_oZ (t_category_id t) c) (topics s).

(** [m] is the latest creation time among [ps]; NULL when there is none. *)
Definition latest_of (ps : list post) (m : option Z) : Prop :=
  match m with
  | None => ps = []
  | Some t => (exists p, In p ps /\ p_created_at p = t)
              /\ forall p, In p ps -> p_created_at p <= t
  end.

(** What a row of the topics listing says about the store. *)
Definition topic_item_ok (s : store) (r : topic_item) : Prop :=
  In (ti_topic r) (topics s)
  /\ ti_post_count r = Z.of_nat (List.length (posts_of s (ti_topic r)))
  /\ latest_of (posts_of s (ti_topic r)) (ti_last_post_at r)
  /\ (exists u, In u (users s) /\ t_user_id (ti_topic r) = Some (u_id u)
                /\ ti_username r = u_username u /\ ti_avatar_url r = u_avatar_url u)
  /\ match t_category_id (ti_topic r) with
     | None => ti_category_name r = None /\ ti_category_color r = None
     | Some c =>
         forall cat, In cat (categories s) -> c_id cat = c ->
           ti_category_name r = Some (c_name cat)
           /\ ti_category_color r = c_color cat
     end.

(** The time topic [z] was last updated. *)
Definition updated_at_of (s : store) (z : Z) : option Z :=
  option_map t_updated_at (find (fun t => t_id t =? z) (topics s)).

(** The rows POST /api/topics and POST /api/posts store for a request whose
    parameters read as given. *)
Definition created_topic (e : env) (ti co : string) (c u : option Z) (s : store)
    : topic :=
  {| t_id := topics_seq s; t_title := ti; t_content := co;
     t_user_id := u; t_category_id := c; t_views := 0;
     t_is_pinned := false; t_is_locked := false;
     t_created_at := now e; t_updated_at := now e |}.

Definition created_post (e : env) (co : string) (t u par : option Z) (s : store)
    : post :=
  {| p_id := posts_seq s; p_content := co; p_topic_id := t;
     p_user_id := u; p_parent_id := par; p_likes := 0;
     p_created_at := now e; p_updated_at := now e |}.

(** The store after an accepted reply [row] at time [t0]. *)
Definition replied_store (t0 : Z) (row : post) (s : store) : store :=
  let s1 := set_posts (posts s ++ [row]) (posts_seq s + 1) s in
  set_topics (map (bump_updated_at t0 (p_topic_id row)) (topics s1)) (topics_seq s1) s1.

(** The test POST /api/register passes exactly when the store accepts the
    row: a string password, username and email present, without a zero byte
    and within their columns, neither taken. *)
Definition register_valid (s : store) (username email password : jsval) : bool :=
  match password, pg_text username, pg_text email with
  | JStr _, Some un, Some em =>
      negb (has_nul un) && negb (has_nul em)
      && (strlen un <=? 50) && (strlen em <=? 100)
      && negb (existsb (fun u => String.eqb (u_username u) un) (users s))
      && negb (existsb (fun u => String.eqb (u_email u) em) (users s))
  | _, _, _ => false
  end.

(** A text longer than its column that ends in a space is where the store
    may cut instead of refusing; the value [v] is not one. *)
Fixpoint ends_with_space (s : string) : bool :=
  match s with
  | String c EmptyString => (c =? " ")%char
  | String _ r => ends_with_space r
  | EmptyString => false
  end.

Definition not_padded (n : Z) (v : jsval) : Prop :=
  forall x, pg_text v = Some x -> n < strlen x -> ends_with_space x = false.

(** The category rows that a run of the seed INSERT stores, from id [id]. *)
Fixpoint seeded (e : env) (id : Z) (rows : list (string * string * string * string))
    : list category :=
  match rows with
  | [] => []
  | (name, description, color, icon) :: rest =>
      {| c_id := id; c_name := name; c_description := Some description;
         c_color := Some color; c_icon := Some icon; c_created_at := now e |}
      :: seeded e (id + 1) rest
  end.

(** No topic is pinned or locked. *)
Definition unflagged (s : store) : Prop :=
  forall t, In t (topics s) -> t_is_pinned t = false /\ t_is_locked t = false.

(** A seed row within the columns of [categories]. *)
Definition category_fits (row : string * string * string * string) : Prop :=
  let '(name, _, color, icon) := row in
  strlen name <= 100 /\ strlen color <= 7 /\ strlen icon <= 50.


(** The tables a route may write to: every other table has the same rows
    after the request, and a route that only reads leaves the store as it
    is, sequences included. *)
Definition writes_only (r : request) (s s' : store) : Prop :=
  match r with
  | GetHealth | GetCategories | GetTopics _ _ _ | GetTopicPosts _ | GetStats => s' = s
  | PostRegister _ _ _ | PostLogin _ _ =>
      categories s' = categories s /\ topics s' = topics s
      /\ posts s' = posts s /\ likes s' = likes s
  | GetTopic _ | PostTopic _ _ _ _ =>
      users s' = users s /\ categories s' = categories s
      /\ posts s' = posts s /\ likes s' = likes s
  | PostPost _ _ _ _ =>
      users s' = users s /\ categories s' = categories s /\ likes s' = likes s
  | PostLike _ _ =>
      users s' = users s /\ categories s' = categories s /\ topics s' = topics s
  end.

(** The rows of an answer of GET /api/topics. *)
Definition rows_of (r : response) : list topic_item :=
  match body_of r with
  | BTopics rows => rows
  | _ => []
  end.

(** All the topics of a category (of all of them), in the order of the
    listing. *)
Definition listing (s : store) (c : option Z) : list topic_item :=
  order_by item_before (listed s (option_map Some c)).

(** The pages 1 to [k] of a listing, one request each, appended. *)
Definition pages (e : env) (category limit : option string) (k : nat) (s : store)
    : list topic_item :=
  flat_map (fun p => rows_of (snd (list_topics e category
                                     (Some (string_of_Z (Z.of_nat p))) limit s)))
           (seq 1 k).

(** No two topics were created at the same time: ORDER BY t.created_at
    leaves no two of them tied, and the listing is one list, whatever order
    the store gives tied rows in. *)
Definition distinct_times (s : store) : Prop :=
  NoDup (map t_created_at (topics s)).

(** The UNIQUE and REFERENCES constraints of the schema that [store_ok] and
    [posts_ok] leave out. *)
Record refs_ok (s : store) : Prop := {
  ok_usernames : NoDup (map u_username (users s));
  ok_emails : NoDup (map u_email (users s));
  ok_topic_category : forall t c, In t (topics s) -> t_category_id t = Some c ->
      has_category s c = true;
  ok_post_parent : forall p q, In p (posts s) -> p_parent_id p = Some q ->
      has_post s q = true;
  ok_like_user : forall l u, In l (likes s) -> l_user_id l = Some u ->
      has_user s u = true
}.

(** Every reference of a row leads to a row: the author and the category of
    a topic, the author, the topic and the parent of a post, the user and
    the post of a like. *)
Definition references_resolve (s : store) : Prop :=
  (forall t, In t (topics s) ->
     (exists u, In u (users s) /\ t_user_id t = Some (u_id u))
     /\ (forall c, t_category_id t = Some c ->
           exists x, In x (categories s) /\ c_id x = c))
  /\ (forall p, In p (posts s) ->
        (exists u, In u (users s) /\ p_user_id p = Some (u_id u))
        /\ (forall z, p_topic_id p = Some z -> exists t, In t (topics s) /\ t_id t = z)
        /\ (forall q, p_parent_id p = Some q -> exists x, In x (posts s) /\ p_id x = q))
  /\ (forall l, In l (likes s) ->
        (exists u, In u (users s) /\ l_user_id l = Some (u_id u))
        /\ (exists p, In p (posts s) /\ l_post_id l = Some (p_id p))).

(** Every key is a key: ids, usernames, emails and (user, post) pairs of
    likes are not repeated. *)
Definition keys_unique (s : store) : Prop :=
  NoDup (map u_id (users s)) /\ NoDup (map u_username (users s))
  /\ NoDup (map u_email (users s)) /\ NoDup (map c_id (categories s))
  /\ NoDup (map t_id (topics s)) /\ NoDup (map p_id (posts s))
  /\ NoDup (map like_key (likes s)).

(** A text that starts with a decimal digit and goes on with one, if it goes
    on. *)
Definition decimal_text (s : string) : Prop :=
  match s with
  | String c r =>
      digit c <> None
      /\ match r with
         | String c' _ => digit c' <> None
         | EmptyString => True
         end
  | EmptyString => False
  end.

(** * The in-memory variant [server-sqlite.js]

    The variant keeps its data in four globals and answers synchronously.
    Conventions: an array is a list (the limit of 2^32 - 1 elements plays no
    role); a character of a string is a code below 256; [new Date()] is the
    time of the request in milliseconds. *)

Module Demo.

(** A JavaScript number with an integer value, NaN, or an infinity; the two
    zeros are one. *)
Inductive number : Type :=
| NaN
| Num (z : Z)
| Infinity (negative : bool).

Definition TWO_53 : Z := 9007199254740992.

(** The nearest integer with a significand of 53 bits, ties to even: the
    result of an arithmetic operation whose exact value is [z]. *)
Definition round_double (z : Z) : Z :=
  let a := Z.abs z in
  if a <=? TWO_53 then z
  else
    let e := Z.log2 a - 52 in
    let q := Z.shiftr a e in
    let r := a - Z.shiftl q e in
    let half := Z.shiftl 1 (e - 1) in
    let q' := if (half <? r) || ((half =? r) && Z.odd q) then q + 1 else q in
    Z.sgn z * Z.shiftl q' e.

(** The Number value for an integer: beyond the largest double it is an
    infinity. *)
Definition number_of (z : Z) : number :=
  let v := round_double z in
  if 2 ^ 1024 <=? Z.abs v then Infinity (z <? 0) else Num v.

(** [a === b] on numbers. *)
Definition strict_eq (a b : number) : bool :=
  match a, b with
  | Num x, Num y => x =? y
  | Infinity s, Infinity s' => Bool.eqb s s'
  | _, _ => false
  end.

(** [a + b] on numbers. *)
Definition js_add (a b : number) : number :=
  match a, b with
  | NaN, _ | _, NaN => NaN
  | Infinity s, Infinity s' => if Bool.eqb s s' then Infinity s else NaN
  | Infinity s, Num _ | Num _, Infinity s => Infinity s
  | Num x, Num y => number_of (x + y)
  end.

(** [x++] on a counter. *)
Definition increment (z : Z) : Z := round_double (z + 1).

(** ToString of a request field. *)
Definition to_string (v : jsval) : string :=
  match v with
  | JUndefined => "undefined"
  | JNull => "null"
  | JBool b => if b then "true" else "false"
  | JNum z => number_to_string (number_of_Z z)
  | JStr s => s
  end.

(** White space and line terminators: TAB, LF, VT, FF, CR, SP, NBSP. *)
Definition white_space (c : ascii) : bool :=
  let n := Z.of_N (N_of_ascii c) in
  ((9 <=? n) && (n <=? 13)) || (n =? 32) || (n =? 160).

Fixpoint trim_start (s : string) : string :=
  match s with
  | String c r => if white_space c then trim_start r else s
  | EmptyString => s
  end.

Definition hex_digit (c : ascii) : option Z :=
  let n := Z.of_N (N_of_ascii c) in
  if (48 <=? n) && (n <=? 57) then Some (n - 48)
  else if (65 <=? n) && (n <=? 70) then Some (n - 55)
  else if (97 <=? n) && (n <=? 102) then Some (n - 87)
  else None.

(** The value of the longest prefix of [s] made of digits of radix [R]. *)
Fixpoint leading_digits (dig : ascii -> option Z) (R acc : Z) (s : string) : Z :=
  match s with
  | String c r =>
      match dig c with
      | Some d => leading_digits dig R (R * acc + d) r
      | None => acc
      end
  | EmptyString => acc
  end.

Definition radix_value (dig : ascii -> option Z) (R : Z) (s : string) : option Z :=
  match s with
  | String c _ =>
      match dig c with
      | Some _ => Some (leading_digits dig R 0 s)
      | None => None
      end
  | EmptyString => None
  end.

(** [parseInt(string)] with no radix: leading white space is skipped, then
    a sign, then [0x] or [0X] selects radix 16; the value is that of the
    longest prefix of digits, NaN when there is none. *)
Definition parseInt (input : string) : number :=
  let s := trim_start input in
  let '(sign, s1) := match s with
                     | String "-" r => (-1, r)
                     | String "+" r => (1, r)
                     | _ => (1, s)
                     end in
  let v := match s1 with
           | String "0" (String "x" r) => radix_value hex_digit 16 r
           | String "0" (String "X" r) => radix_value hex_digit 16 r
           | _ => radix_value digit 10 s1
           end in
  match v with
  | Some z => number_of (sign * z)
  | None => NaN
  end.

(** ** The globals *)

Record category : Type := {
  c_id : Z;
  c_name : string;
  c_description : string;
  c_color : string;
  c_topic_count : Z
}.

Record topic : Type := {
  t_id : Z;
  t_title : jsval;
  t_content : jsval;
  t_category_id : number;
  t_user_id : Z;
  t_username : string;
  t_views : Z;
  t_post_count : Z;
  t_created_at : Z;
  t_category_name : option string;
  t_category_color : option string
}.

Record user : Type := {
  u_id : Z;
  u_username : string;
  u_email : string
}.

Record state : Type := {
  topics : list topic;
  categories : list category;
  topicIdCounter : Z;
  users : list user
}.

Definition initial : state :=
  {| topics := [];
     categories :=
       [ {| c_id := 1; c_name := "General Discussion";
            c_description := "Talk about anything"; c_color := "#667eea";
            c_topic_count := 0 |};
         {| c_id := 2; c_name := "Announcements";
            c_description := "Important updates"; c_color := "#f56565";
            c_topic_count := 0 |};
         {| c_id := 3; c_name := "Help & Support";
            c_description := "Get help from the community"; c_color := "#48bb78";
            c_topic_count := 0 |};
         {| c_id := 4; c_name := "Feature Requests";
            c_description := "Suggest new features"; c_color := "#ed8936";
            c_topic_count := 0 |} ];
     topicIdCounter := 1;
     users := [ {| u_id := 1; u_username := "admin"; u_email := "admin@nexus.com" |} ] |}.

(** ** The routes *)

Record stats : Type := {
  topic_count : Z;
  post_count : number;
  user_count : Z;
  active_users : Z
}.

(** [t.post_count || 0] *)
Definition post_count_or_0 (t : topic) : number :=
  Num (if t_post_count t =? 0 then 0 else t_post_count t).

(** GET /api/stats *)
Definition get_stats (s : state) : stats :=
  {| topic_count := Z.of_nat (List.length (topics s));
     post_count := fold_left (fun sum t => js_add sum (post_count_or_0 t))
                             (topics s) (Num 0);
     user_count := Z.of_nat (List.length (users s));
     active_users := 1 |}.

(** GET /api/categories *)
Definition get_categories (s : state) : list category := categories s.

(** [c.id === n] *)
Definition category_is (n : number) (c : category) : bool :=
  strict_eq (Num (c_id c)) n.

(** The comparator [(a, b) => b.created_at - a.created_at] is not positive:
    [a] may stay before [b]. *)
Definition newest_first (a b : topic) : bool := t_created_at b <=? t_created_at a.

(** GET /api/topics.  [filter] builds a new array; without a filter [sort]
    works on the global array itself, which stays sorted. *)
Definition list_topics (category : option string) (s : state) : state * list topic :=
  if truthy (query_field category) then
    let n := parseInt (to_string (query_field category)) in
    (s, order_by newest_first
          (filter (fun t => strict_eq (t_category_id t) n) (topics s)))
  else
    let sorted := order_by newest_first (topics s) in
    ({| topics := sorted; categories := categories s;
        topicIdCounter := topicIdCounter s; users := users s |}, sorted).

(** [category.topic_count++] on the category [find] returns, the first one
    with the id. *)
Fixpoint count_topic (n : number) (cs : list category) : list category :=
  match cs with
  | [] => []
  | c :: rest =>
      if category_is n c then
        {| c_id := c_id c; c_name := c_name c; c_description := c_description c;
           c_color := c_color c; c_topic_count := increment (c_topic_count c) |}
        :: rest
      else c :: count_topic n rest
  end.

(** POST /api/topics at time [date]. *)
Definition create_topic (date : Z) (title content category_id : jsval) (s : state)
    : state * topic :=
  let n := parseInt (to_string category_id) in
  let newTopic :=
    {| t_id := topicIdCounter s;
       t_title := title;
       t_content := content;
       t_category_id := n;
       t_user_id := 1;
       t_username := "You";
       t_views := 0;
       t_post_count := 0;
       t_created_at := date;
       t_category_name := option_map c_name (find (category_is n) (categories s));
       t_category_color := option_map c_color (find (category_is n) (categories s)) |} in
  ({| topics := topics s ++ [newTopic];
      categories := count_topic n (categories s);
      topicIdCounter := increment (topicIdCounter s);
      users := users s |}, newTopic).

Inductive request : Type :=
| GetStats
| GetCategories
| GetTopics (category : option string)
| PostTopic (date : Z) (title content category_id : jsval).

Inductive body : Type :=
| BStats (b : stats)
| BCategories (rows : list category)
| BTopics (rows : list topic)
| BTopic (t : topic).

(** Every route answers with [res.json], status 200. *)
Definition handle (r : request) (s : state) : state * body :=
  match r with
  | GetStats => (s, BStats (get_stats s))
  | GetCategories => (s, BCategories (get_categories s))
  | GetTopics category =>
      let (s', rows) := list_topics category s in (s', BTopics rows)
  | PostTopic date title content category_id =>
      let (s', t) := create_topic date title content category_id s in (s', BTopic t)
  end.

Fixpoint serve (s : state) (rs : list request) : state :=
  match rs with
  | [] => s
  | r :: rest => serve (fst (handle r s)) rest
  end.

(** ** Vocabulary of the properties *)

(** The topics filed under category [c]. *)
Definition topics_in (s : state) (c : category) : list topic :=
  filter (fun t => strict_eq (t_category_id t) (Num (c_id c))) (topics s).

(** The ids given so far are 1 to the number of topics, the counter holds the
    next one; both stop at 2^53, where [++] no longer changes the counter. *)
Definition ids_ok (s : state) : Prop :=
  topicIdCounter s = Z.min (Z.of_nat (List.length (topics s)) + 1) TWO_53
  /\ (forall t, In t (topics s) -> 1 <= t_id t <= Z.of_nat (List.length (topics s)))
  /\ (Z.of_nat (List.length (topics s)) <= TWO_53 -> NoDup (map t_id (topics s))).

(** Every category counts the topics filed under it, up to 2^53. *)
Definition counts_ok (s : state) : Prop :=
  NoDup (map c_id (categories s))
  /\ forall c, In c (categories s) ->
       c_topic_count c = Z.min (Z.of_nat (List.length (topics_in s c))) TWO_53.

(** What no route changes. *)
Definition fixed_ok (s : state) : Prop :=
  users s = users initial
  /\ map c_id (categories s) = map c_id (categories initial)
  /\ map c_name (categories s) = map c_name (categories initial)
  /\ map c_color (categories s) = map c_color (categories initial)
  /\ forall t, In t (topics s) -> t_post_count t = 0 /\ t_views t = 0.

End Demo.

(** * Proofs *)

(** ** The scenario of the specification, run on the model *)

Example scenario_responses :
  let '(s1, r1) := handle sample_library (at_time 10)
                     (PostTopic (JStr "Hi") (JStr "Hello") (JNum 1) (JNum 1))
                     fresh_store in
  let '(s2, r2) := handle sample_library (at_time 20) (GetTopic "1") s1 in
  let '(s3, r3) := handle sample_library (at_time 30)
                     (PostPost (JStr "Reply") (JNum 1) (JNum 1) JUndefined) s2 in
  let '(s4, r4) := handle sample_library (at_time 31) (GetTopicPosts "1") s3 in
  let '(s5, r5) := handle sample_library (at_time 40) (PostLike "1" (JNum 1)) s4 in
  let '(s6, r6) := handle sample_library (at_time 41) (PostLike "1" (JNum 1)) s5 in
  (exists row, r1 = json (BTopicCreated row)
               /\ t_id row = 1 /\ t_views row = 0 /\ t_is_pinned row = false)
  /\ (exists row, r2 = json (BTopic row) /\ t_views (tr_topic row) = 1)
  /\ (exists item, r4 = json (BPosts [item]) /\ pi_like_count item = 0)
  /\ r5 = json (BLiked true)
  /\ r6 = json (BLiked false).
Proof.
  vm_compute. repeat split; eexists; repeat split.
Qed.

(** ** The monad *)

Lemma preserves_ret {A} (P : store -> Prop) (a : A) : preserves P (ret a).
Proof. intros s Hs. exact Hs. Qed.

Lemma preserves_throw {A} (P : store -> Prop) (e : error) : preserves P (@throw A e).
Proof. intros s Hs. exact Hs. Qed.

Lemma preserves_lift {A} (P : store -> Prop) (r : result A) : preserves P (lift r).
Proof. intros s Hs. exact Hs. Qed.

Lemma preserves_bind {A B} (P : store -> Prop) (m : DB A) (k : A -> DB B) :
  preserves P m -> (forall a, preserves P (k a)) -> preserves P (bind m k).
Proof.
  intros Hm Hk s Hs. unfold bind. specialize (Hm s Hs).
  destruct (m s) as [s' [a | e]]; cbn [fst] in *.
  - apply Hk, Hm.
  - exact Hm.
Qed.

Lemma preserves_query {A} (P : store -> Prop) (e : env) (m : DB A) :
  preserves P m -> preserves P (query e m).
Proof.
  intros Hm s Hs. unfold query. destruct (pool e); [apply Hm, Hs | exact Hs].
Qed.

Lemma preserves_try_catch {A} (P : store -> Prop) (m : DB A) (h : error -> A) (s : store) :
  preserves P m -> P s -> P (fst (try_catch m h s)).
Proof.
  intros Hm Hs. unfold try_catch. specialize (Hm s Hs).
  destruct (m s) as [s' [a | e]]; exact Hm.
Qed.

Create HintDb pres.

#[local] Hint Resolve preserves_ret preserves_throw preserves_lift
  preserves_query : pres.

(** The INSERTs read their parameters, then work on the table. *)
Lemma insert_user_preserves (P : store -> Prop) (e : env) (username email : jsval)
    (h : string) (bio : option string) :
  (forall un em, preserves P (users_row e un em h bio)) ->
  preserves P (insert_user e username email h bio).
Proof.
  intros H. unfold insert_user.
  repeat (apply preserves_bind; [apply preserves_lift | intros ?]). apply H.
Qed.

Lemma insert_user_unless_username_preserves (P : store -> Prop) (e : env)
    (username email : jsval) (h : string) (bio : option string) :
  (forall un em, preserves P (users_row e un em h bio)) ->
  (forall s, P s -> P (set_users (users s) (users_seq s + 1) s)) ->
  preserves P (insert_user_unless_username e username email h bio).
Proof.
  intros H Hseq. unfold insert_user_unless_username.
  apply preserves_bind; [apply preserves_lift | intros un].
  apply preserves_bind; [apply preserves_lift | intros em].
  repeat (apply preserves_bind; [apply preserves_lift | intros ?]).
  intros s Hs.
  destruct un as [x|], em as [y|];
    try (apply preserves_bind; [apply H | intros ?; apply preserves_ret | exact Hs]).
  destruct (existsb _ (users s)).
  - cbn [fst]. apply Hseq, Hs.
  - apply preserves_bind; [apply H | intros ?; apply preserves_ret | exact Hs].
Qed.

Lemma insert_categories_preserves (P : store -> Prop) (e : env)
    (rows : list (string * string * string * string)) :
  preserves P (atomic_categories (insert_categories_do_nothing e rows)) ->
  preserves P (insert_categories e rows).
Proof.
  intros H. unfold insert_categories.
  apply preserves_bind; [apply preserves_lift | intros _; exact H].
Qed.

(** ** Reading parameters *)

Lemma truthy_js_or (v : jsval) : truthy (js_or v (JNum 1)) = true.
Proof. unfold js_or. destruct (truthy v) eqn:E; [exact E | reflexivity]. Qed.

Lemma pg_int_truthy (v : jsval) (o : option Z) :
  truthy v = true -> pg_int v = Ok o -> exists z, o = Some z.
Proof.
  unfold pg_int. destruct v; cbn [truthy pg_text]; try discriminate; intros _;
    (destruct (int4in _); [|discriminate]; intros [= <-]; eauto).
Qed.

Lemma pg_int_js_or (v : jsval) (o : option Z) :
  pg_int (js_or v (JNum 1)) = Ok o -> exists z, o = Some z.
Proof. apply pg_int_truthy, truthy_js_or. Qed.

Lemma pg_int_JStr (id : string) (o : option Z) :
  pg_int (JStr id) = Ok o -> exists z, int4in id = Ok z /\ o = Some z.
Proof.
  unfold pg_int. cbn [pg_text]. destruct (int4in id); [|discriminate].
  intros [= <-]. eauto.
Qed.

Lemma text_param_ok (v : jsval) (o : option string) :
  text_param v = Ok o -> pg_text v = o.
Proof.
  unfold text_param. destruct (pg_text v) as [x|]; [|now intros [= <-]].
  destruct (has_nul x); [discriminate | now intros [= <-]].
Qed.

Lemma text_param_clean (v : jsval) (x : string) :
  pg_text v = Some x -> has_nul x = false -> text_param v = Ok (Some x).
Proof. unfold text_param. now intros -> ->. Qed.

Lemma js_or_falsy (v : jsval) : truthy v = false -> js_or v (JNum 1) = JNum 1.
Proof. unfold js_or. intros ->. reflexivity. Qed.

(** ** Lists of rows *)

Lemma NoDup_map_snoc {A} (f : A -> Z) (l : list A) (x : A) (n : Z) :
  NoDup (map f l) -> (forall y, In y l -> f y < n) -> f x = n ->
  NoDup (map f (l ++ [x])).
Proof.
  intros Hnd Hlt Hx. rewrite map_app. cbn.
  apply NoDup_app; [exact Hnd | repeat constructor; intros [] | ].
  intros z Hz [Hin | []]. apply in_map_iff in Hz as [y [Hy Hiny]].
  specialize (Hlt y Hiny). lia.
Qed.

Lemma in_snoc {A} (l : list A) (x y : A) : In y (l ++ [x]) -> In y l \/ y = x.
Proof.
  intros H. apply in_app_or in H as [H | [H | []]]; [left | right]; auto.
Qed.

Lemma existsb_snoc {A} (f : A -> bool) (l : list A) (x : A) :
  existsb f (l ++ [x]) = existsb f l || f x.
Proof. rewrite existsb_app. cbn. now rewrite orb_false_r. Qed.

Lemma filter_snoc {A} (f : A -> bool) (l : list A) (x : A) :
  filter f (l ++ [x]) = (filter f l ++ (if f x then [x] else []))%list.
Proof. rewrite filter_app. reflexivity. Qed.

Lemma map_id_preserved {A} (f : A -> Z) (g : A -> A) (l : list A) :
  (forall x, f (g x) = f x) -> map f (map g l) = map f l.
Proof. intros H. rewrite map_map. apply map_ext. exact H. Qed.

Lemma existsb_map_preserved {A} (f : A -> bool) (g : A -> A) (l : list A) :
  (forall x, f (g x) = f x) -> existsb f (map g l) = existsb f l.
Proof.
  intros H. induction l as [|x l IH]; cbn; [reflexivity|]. now rewrite H, IH.
Qed.

(** ** The statements keep the constraints of the schema *)

Lemma touch_user_id (t id : Z) (u : user) : u_id (touch_user t id u) = u_id u.
Proof. unfold touch_user. destruct (u_id u =? id); reflexivity. Qed.

Lemma bump_views_id (i : option Z) (t : topic) : t_id (bump_views i t) = t_id t.
Proof. unfold bump_views. destruct (eqb_oZ i (t_id t)); reflexivity. Qed.

Lemma bump_views_user (i : option Z) (t : topic) :
  t_user_id (bump_views i t) = t_user_id t.
Proof. unfold bump_views. destruct (eqb_oZ i (t_id t)); reflexivity. Qed.

Lemma bump_updated_at_id (t0 : Z) (i : option Z) (t : topic) :
  t_id (bump_updated_at t0 i t) = t_id t.
Proof. unfold bump_updated_at. destruct (eqb_oZ i (t_id t)); reflexivity. Qed.

Lemma bump_updated_at_user (t0 : Z) (i : option Z) (t : topic) :
  t_user_id (bump_updated_at t0 i t) = t_user_id t.
Proof. unfold bump_updated_at. destruct (eqb_oZ i (t_id t)); reflexivity. Qed.

Lemma add_likes_id (d : Z) (i : option Z) (p : post) : p_id (add_likes d i p) = p_id p.
Proof. unfold add_likes. destruct (eqb_oZ i (p_id p)); reflexivity. Qed.

Lemma store_ok_users_seq (s : store) (n : Z) :
  store_ok s -> users_seq s <= n -> store_ok (set_users (users s) n s).
Proof.
  intros [] Hn. constructor; cbn; auto.
  intros u Hu. specialize (ok_user_seq0 u Hu). lia.
Qed.

Lemma store_ok_users_add (s : store) (row : user) :
  store_ok s -> u_id row = users_seq s ->
  store_ok (set_users (users s ++ [row]) (users_seq s + 1) s).
Proof.
  intros [] Hid. constructor; cbn; auto.
  - eapply NoDup_map_snoc; eauto.
  - intros u Hu. apply in_snoc in Hu as [Hu | ->]; [specialize (ok_user_seq0 u Hu)|]; lia.
  - intros t Ht. destruct (ok_topic_author0 t Ht) as [u [Hu Hex]].
    exists u. split; [exact Hu|]. unfold has_user in *. cbn.
    rewrite existsb_snoc, Hex. reflexivity.
Qed.

Lemma store_ok_users_touch (s : store) (t id : Z) :
  store_ok s -> store_ok (set_users (map (touch_user t id) (users s)) (users_seq s) s).
Proof.
  intros []. constructor; cbn; auto.
  - rewrite (map_id_preserved u_id); [assumption | apply touch_user_id].
  - intros u Hu. apply in_map_iff in Hu as [u0 [<- Hu0]].
    rewrite touch_user_id. auto.
  - intros t0 Ht. destruct (ok_topic_author0 t0 Ht) as [u [Hu Hex]].
    exists u. split; [exact Hu|]. unfold has_user in *. cbn.
    rewrite existsb_map_preserved; [exact Hex|].
    intros x. now rewrite touch_user_id.
Qed.

Lemma users_row_ok (e : env) (un em : option string) (h : string) (bio : option string) :
  preserves store_ok (users_row e un em h bio).
Proof.
  intros s Hs. unfold users_row.
  destruct un, em;
    repeat match goal with
           | |- context [if ?c then _ else _] => destruct c
           end;
    cbn [fst];
    solve [ apply store_ok_users_seq; [assumption | lia]
          | apply store_ok_users_add; [assumption | reflexivity] ].
Qed.

Lemma insert_user_ok (e : env) (username email : jsval) (h : string) (bio : option string) :
  preserves store_ok (insert_user e username email h bio).
Proof.
  unfold insert_user.
  repeat (apply preserves_bind; [apply preserves_lift | intros ?]).
  apply users_row_ok.
Qed.

Lemma insert_user_unless_username_ok (e : env) (username email : jsval) (h : string)
    (bio : option string) :
  preserves store_ok (insert_user_unless_username e username email h bio).
Proof.
  unfold insert_user_unless_username.
  repeat (apply preserves_bind; [apply preserves_lift | intros ?]).
  intros s Hs.
  destruct a as [x|], a0 as [y|];
    try (apply preserves_bind; auto using users_row_ok with pres).
  destruct (existsb _ (users s)).
  - cbn [fst]. apply store_ok_users_seq; [assumption | lia].
  - apply preserves_bind; auto using users_row_ok with pres.
Qed.

Lemma update_last_seen_ok (e : env) (id : Z) : preserves store_ok (update_last_seen e id).
Proof. intros s Hs. apply store_ok_users_touch, Hs. Qed.

Lemma store_ok_topics_seq (s : store) (n : Z) :
  store_ok s -> topics_seq s <= n -> store_ok (set_topics (topics s) n s).
Proof.
  intros [] Hn. constructor; cbn; auto.
  intros t Ht. specialize (ok_topic_seq0 t Ht). lia.
Qed.

Lemma store_ok_topics_add (s : store) (row : topic) (u : Z) :
  store_ok s -> t_id row = topics_seq s ->
  t_user_id row = Some u -> has_user s u = true ->
  store_ok (set_topics (topics s ++ [row]) (topics_seq s + 1) s).
Proof.
  intros [] Hid Hu Hex. constructor; cbn; auto.
  - eapply NoDup_map_snoc; eauto.
  - intros t Ht. apply in_snoc in Ht as [Ht | ->]; [specialize (ok_topic_seq0 t Ht)|]; lia.
  - intros t Ht. apply in_snoc in Ht as [Ht | ->]; [auto | eauto].
Qed.

Lemma store_ok_topics_map (s : store) (g : topic -> topic) :
  (forall t, t_id (g t) = t_id t) -> (forall t, t_user_id (g t) = t_user_id t) ->
  store_ok s -> store_ok (set_topics (map g (topics s)) (topics_seq s) s).
Proof.
  intros Hid Hu []. constructor; cbn; auto.
  - rewrite (map_id_preserved t_id); assumption.
  - intros t Ht. apply in_map_iff in Ht as [t0 [<- Ht0]]. rewrite Hid. auto.
  - intros t Ht. apply in_map_iff in Ht as [t0 [<- Ht0]]. rewrite Hu. auto.
Qed.

Lemma insert_topic_ok (e : env) (title content category_id user_id : jsval) :
  truthy user_id = true ->
  preserves store_ok (insert_topic e title content category_id user_id).
Proof.
  intros Hty s Hs. unfold insert_topic, bind, lift.
  destruct (text_param title) as [ti|]; [|exact Hs].
  destruct (text_param content) as [co|]; [|exact Hs].
  destruct (pg_int category_id) as [c|]; [|exact Hs].
  destruct (pg_int user_id) as [u|] eqn:Eu; [|exact Hs].
  destruct (pg_int_truthy _ _ Hty Eu) as [z ->].
  destruct (varchar 200 ti) as [[]|]; [|exact Hs].
  destruct ti, co;
    repeat match goal with
           | |- context [if ?c then _ else _] => destruct c eqn:?
           end;
    cbn [fst];
    try solve [ apply store_ok_topics_seq; [assumption | lia] ].
  apply store_ok_topics_add with (u := z); try reflexivity; try assumption.
  cbn in *. now destruct (has_user s z).
Qed.

Lemma update_topic_views_ok (id : jsval) : preserves store_ok (update_topic_views id).
Proof.
  intros s Hs. unfold update_topic_views, bind, lift.
  destruct (pg_int id) as [i|]; [|exact Hs]. cbn [fst].
  apply store_ok_topics_map; auto using bump_views_id, bump_views_user.
Qed.

Lemma update_topic_updated_at_ok (e : env) (id : jsval) :
  preserves store_ok (update_topic_updated_at e id).
Proof.
  intros s Hs. unfold update_topic_updated_at, bind, lift.
  destruct (pg_int id) as [i|]; [|exact Hs]. cbn [fst].
  apply store_ok_topics_map; auto using bump_updated_at_id, bump_updated_at_user.
Qed.

Lemma count_likes_fresh (s : store) (n : Z) :
  (forall l, In l (likes s) ->
     exists u p, l_user_id l = Some u /\ l_post_id l = Some p /\ p < n) ->
  count_likes s n = 0.
Proof.
  intros H. unfold count_likes.
  replace (filter (fun l => eqb_oZ (l_post_id l) n) (likes s)) with (@nil like);
    [reflexivity|].
  symmetry. induction (likes s) as [|l ls IH]; cbn; [reflexivity|].
  destruct (H l (or_introl eq_refl)) as [u [p [_ [Hp Hlt]]]].
  rewrite Hp. cbn. replace (p =? n) with false by (symmetry; apply Z.eqb_neq; lia).
  apply IH. intros l' Hl'. apply H. now right.
Qed.

Lemma store_ok_posts_seq (s : store) (n : Z) :
  store_ok s -> posts_seq s <= n -> store_ok (set_posts (posts s) n s).
Proof.
  intros [] Hn. constructor; cbn; auto.
  intros p Hp. specialize (ok_post_seq0 p Hp). lia.
Qed.

Lemma has_post_lt (s : store) (p : Z) :
  store_ok s -> has_post s p = true -> p < posts_seq s.
Proof.
  intros Hs H. unfold has_post in H. apply existsb_exists in H as [x [Hx Heq]].
  apply Z.eqb_eq in Heq. subst p. now apply ok_post_seq.
Qed.

Lemma store_ok_posts_add (s : store) (row : post) :
  store_ok s -> p_id row = posts_seq s -> p_likes row = 0 ->
  store_ok (set_posts (posts s ++ [row]) (posts_seq s + 1) s).
Proof.
  intros Hs Hid Hl.
  assert (H0 : count_likes s (posts_seq s) = 0).
  { apply count_likes_fresh. intros l Hin.
    destruct (ok_like_refs s Hs l Hin) as [u [p [Hu [Hp Hex]]]].
    exists u, p. repeat split; auto. now apply has_post_lt. }
  destruct Hs. constructor; cbn; auto.
  - intros p Hp. apply in_snoc in Hp as [Hp | ->]; [specialize (ok_post_seq0 p Hp)|]; lia.
  - intros l Hin. destruct (ok_like_refs0 l Hin) as [u [p [Hu [Hp Hex]]]].
    exists u, p. repeat split; auto. unfold has_post in *. cbn.
    rewrite existsb_snoc, Hex. reflexivity.
  - intros p Hp. apply in_snoc in Hp as [Hp | ->]; [now apply ok_like_count0|].
    rewrite Hl, Hid. symmetry. exact H0.
Qed.

Lemma insert_post_ok (e : env) (content topic_id user_id parent_id : jsval) :
  preserves store_ok (insert_post e content topic_id user_id parent_id).
Proof.
  intros s Hs. unfold insert_post, bind, lift.
  destruct (text_param content) as [co|]; [|exact Hs].
  destruct (pg_int topic_id) as [t|]; [|exact Hs].
  destruct (pg_int user_id) as [u|]; [|exact Hs].
  destruct (pg_int parent_id) as [p|]; [|exact Hs].
  destruct co;
    repeat match goal with
           | |- context [if ?c then _ else _] => destruct c
           end;
    cbn [fst];
    solve [ apply store_ok_posts_seq; [assumption | lia]
          | apply store_ok_posts_add; [assumption | reflexivity | reflexivity] ].
Qed.

(** ** The like toggle, branch by branch *)

Arguments error_message : simpl never.

Lemma filter_nonempty {A} (f : A -> bool) (l : list A) :
  (0 <? Z.of_nat (List.length (filter f l))) = existsb f l.
Proof.
  induction l as [|x l IH]; cbn; [reflexivity|].
  destruct (f x); cbn; [reflexivity | exact IH].
Qed.

Lemma toggle_like_unfold (e : env) (id : string) (user_id : jsval) (s : store) :
  toggle_like e id user_id s =
  match pool e with
  | PoolDown err => (s, raised 500 (ConnectionError err))
  | PoolUp =>
      match pg_int (js_or user_id (JNum 1)), pg_int (JStr id) with
      | Err x, _ => (s, raised 500 x)
      | Ok _, Err x => (s, raised 500 x)
      | Ok u, Ok p =>
          if existsb (like_is u p) (likes s)
          then (unliked_store u p s, json (BLiked false))
          else
            let s1 := set_likes (likes s) (likes_seq s + 1) s in
            if existsb (fun l => l_id l =? likes_seq s) (likes s)
            then (s1, raised 500 (UniqueViolation "likes_pkey"))
            else if negb (fk_ok (has_user s) u)
            then (s1, raised 500 (ForeignKeyViolation "likes" "likes_user_id_fkey"))
            else if negb (fk_ok (has_post s) p)
            then (s1, raised 500 (ForeignKeyViolation "likes" "likes_post_id_fkey"))
            else (liked_store e u p s, json (BLiked true))
      end
  end.
Proof.
  unfold toggle_like, try_catch, query, select_likes, delete_likes,
    insert_like, update_post_likes, raised.
  unfold bind, lift, ret.
  destruct (pool e); [|reflexivity].
  destruct (pg_int (js_or user_id (JNum 1))) as [u|x]; [|reflexivity].
  destruct (pg_int (JStr id)) as [p|x]; [|reflexivity].
  cbv beta iota.
  rewrite filter_nonempty.
  destruct (existsb (like_is u p) (likes s)) eqn:Hex; [reflexivity|].
  cbn [likes likes_seq set_likes]. rewrite Hex.
  destruct (existsb (fun l => l_id l =? likes_seq s) (likes s)); [reflexivity|].
  unfold has_user, has_post. cbn [users posts set_likes].
  destruct (negb (fk_ok _ u)); [reflexivity|].
  destruct (negb (fk_ok _ p)); reflexivity.
Qed.

Lemma has_post_map_add_likes (d : Z) (i : option Z) (ps : list post) (p : Z) :
  existsb (fun x => p_id x =? p) (map (add_likes d i) ps)
  = existsb (fun x => p_id x =? p) ps.
Proof. apply existsb_map_preserved. intros x. now rewrite add_likes_id. Qed.

Lemma store_ok_likes_seq (s : store) (n : Z) :
  store_ok s -> likes_seq s <= n -> store_ok (set_likes (likes s) n s).
Proof.
  intros [] Hn. constructor; cbn; auto.
  intros l Hl. specialize (ok_like_seq0 l Hl). lia.
Qed.

Lemma like_is_key (u p : Z) (l : like) :
  like_is (Some u) (Some p) l = true <-> like_key l = (Some u, Some p).
Proof.
  unfold like_is, like_key, sql_eq, eqb_oZ.
  destruct (l_user_id l) as [a|], (l_post_id l) as [b|];
    rewrite andb_true_iff; (split; [intros [Ha Hb] | intros [= Ha Hb]]);
    try discriminate.
  - apply Z.eqb_eq in Ha, Hb. now subst.
  - subst. now rewrite !Z.eqb_refl.
Qed.

Lemma like_is_post (u p : Z) (l : like) :
  like_is (Some u) (Some p) l = true -> eqb_oZ (l_post_id l) p = true.
Proof. unfold like_is, sql_eq. now intros [_ H]%andb_true_iff. Qed.

Lemma count_likes_snoc (s : store) (l : like) (q : Z) (n : Z) :
  count_likes (set_likes (likes s ++ [l]) n s) q
  = count_likes s q + (if eqb_oZ (l_post_id l) q then 1 else 0).
Proof.
  unfold count_likes. cbn [likes set_likes]. rewrite filter_snoc, length_app.
  destruct (eqb_oZ (l_post_id l) q); cbn [List.length]; lia.
Qed.

Lemma store_ok_liked (e : env) (u p : Z) (s : store) :
  store_ok s -> liked s u p = false -> has_post s p = true ->
  store_ok (liked_store e (Some u) (Some p) s).
Proof.
  intros Hs Hno Hp.
  unfold liked_store. cbn [posts posts_seq set_likes].
  destruct Hs. constructor; cbn; auto.
  - intros q Hq. apply in_map_iff in Hq as [q0 [<- Hq0]]. rewrite add_likes_id. auto.
  - intros l Hl. apply in_snoc in Hl as [Hl | ->]; [specialize (ok_like_seq0 l Hl)|cbn]; lia.
  - rewrite map_app. cbn. apply NoDup_app; [assumption | repeat constructor; intros [] |].
    intros k Hk [<- | []]. apply in_map_iff in Hk as [l [Hkey Hl]].
    apply like_is_key in Hkey. unfold liked in Hno.
    assert (existsb (like_is (Some u) (Some p)) (likes s) = true)
      by (apply existsb_exists; eauto).
    congruence.
  - intros l Hl. unfold has_post. cbn [posts set_posts].
    setoid_rewrite has_post_map_add_likes.
    apply in_snoc in Hl as [Hl | ->]; [auto|]. cbn. eauto.
  - intros q Hq. apply in_map_iff in Hq as [q0 [<- Hq0]]. rewrite add_likes_id.
    pose proof (count_likes_snoc s
      {| l_id := likes_seq s; l_user_id := Some u; l_post_id := Some p;
         l_created_at := now e |} (p_id q0) (likes_seq s + 1)) as Hc.
    unfold count_likes in *. cbn [likes set_likes set_posts l_post_id] in *.
    rewrite Hc, <- (ok_like_count0 q0 Hq0). unfold add_likes, eqb_oZ.
    destruct (p =? p_id q0); cbn; lia.
Qed.

Lemma filter_not_like_other (u p q : Z) (ls : list like) :
  p <> q ->
  filter (fun l => eqb_oZ (l_post_id l) q)
         (filter (fun l => negb (like_is (Some u) (Some p) l)) ls)
  = filter (fun l => eqb_oZ (l_post_id l) q) ls.
Proof.
  intros Hne. induction ls as [|l ls IH]; cbn; [reflexivity|].
  destruct (like_is (Some u) (Some p) l) eqn:Hl; cbn.
  - apply like_is_post in Hl. unfold eqb_oZ in *. destruct (l_post_id l) as [b|]; [|discriminate].
    apply Z.eqb_eq in Hl. subst b.
    replace (p =? q) with false by (symmetry; now apply Z.eqb_neq). exact IH.
  - destruct (eqb_oZ (l_post_id l) q); [f_equal|]; exact IH.
Qed.

Lemma filter_not_like_absent (u p : Z) (ls : list like) :
  existsb (like_is (Some u) (Some p)) ls = false ->
  filter (fun l => negb (like_is (Some u) (Some p) l)) ls = ls.
Proof.
  induction ls as [|l ls IH]; cbn; [reflexivity|].
  intros [Hl Hls]%orb_false_iff. rewrite Hl. cbn. f_equal. auto.
Qed.

(** Under the uniqueness of (user, post), an unlike removes exactly one row. *)
Lemma count_after_unlike (u p : Z) (ls : list like) :
  NoDup (map like_key ls) ->
  existsb (like_is (Some u) (Some p)) ls = true ->
  Z.of_nat (List.length (filter (fun l => eqb_oZ (l_post_id l) p) ls))
  = Z.of_nat (List.length
      (filter (fun l => eqb_oZ (l_post_id l) p)
              (filter (fun l => negb (like_is (Some u) (Some p) l)) ls))) + 1.
Proof.
  induction ls as [|l ls IH]; cbn; [discriminate|].
  intros Hnd Hex. inversion Hnd as [|k ks Hnotin Hnd']; subst.
  destruct (like_is (Some u) (Some p) l) eqn:Hl; cbn.
  - rewrite (like_is_post _ _ _ Hl). cbn [List.length].
    rewrite filter_not_like_absent; [lia|].
    destruct (existsb (like_is (Some u) (Some p)) ls) eqn:Hex'; [|reflexivity].
    exfalso. apply Hnotin. apply existsb_exists in Hex' as [l' [Hin Hl']].
    apply like_is_key in Hl, Hl'. rewrite Hl, <- Hl'. now apply in_map.
  - cbn in Hex. specialize (IH Hnd' Hex).
    destruct (eqb_oZ (l_post_id l) p); cbn [List.length]; lia.
Qed.

Lemma store_ok_unliked (u p : Z) (s : store) :
  store_ok s -> liked s u p = true ->
  store_ok (unliked_store (Some u) (Some p) s).
Proof.
  intros Hs Hyes. unfold unliked_store. cbn [posts posts_seq set_likes].
  pose proof (count_after_unlike u p (likes s) (ok_like_keys s Hs) Hyes) as Hcount.
  destruct Hs. constructor; cbn; auto.
  - intros q Hq. apply in_map_iff in Hq as [q0 [<- Hq0]]. rewrite add_likes_id. auto.
  - intros l Hl. apply filter_In in Hl as [Hl _]. auto.
  - clear - ok_like_keys0. induction (likes s) as [|l ls IH]; cbn; [constructor|].
    inversion ok_like_keys0 as [|k ks Hnotin Hnd]; subst.
    destruct (negb (like_is (Some u) (Some p) l)); cbn; [|auto].
    constructor; [|auto]. intros Hin. apply Hnotin.
    apply in_map_iff in Hin as [l' [Hk Hl']]. apply filter_In in Hl' as [Hl' _].
    rewrite <- Hk. now apply in_map.
  - intros l Hl. apply filter_In in Hl as [Hl _]. unfold has_post. cbn [posts set_posts].
    setoid_rewrite has_post_map_add_likes. auto.
  - intros q Hq. apply in_map_iff in Hq as [q0 [<- Hq0]]. rewrite add_likes_id.
    unfold count_likes in *. cbn [likes set_posts set_likes].
    specialize (ok_like_count0 q0 Hq0). unfold add_likes.
    change (eqb_oZ (Some p) (p_id q0)) with (p =? p_id q0).
    destruct (p =? p_id q0) eqn:Hpq; cbn [p_likes p_id].
    + apply Z.eqb_eq in Hpq. rewrite <- Hpq in *. lia.
    + apply Z.eqb_neq in Hpq. rewrite filter_not_like_other; [exact ok_like_count0 | exact Hpq].
Qed.

Lemma toggle_like_ok (e : env) (id : string) (user_id : jsval) (s : store) :
  store_ok s -> store_ok (fst (toggle_like e id user_id s)).
Proof.
  intros Hs. rewrite toggle_like_unfold.
  destruct (pool e); [|exact Hs].
  destruct (pg_int (js_or user_id (JNum 1))) as [u|] eqn:Eu; [|exact Hs].
  destruct (pg_int (JStr id)) as [p|] eqn:Ep; [|exact Hs].
  destruct (pg_int_js_or _ _ Eu) as [zu ->].
  destruct (pg_int_JStr _ _ Ep) as [zp [_ ->]].
  destruct (existsb (like_is (Some zu) (Some zp)) (likes s)) eqn:Hex.
  - now apply store_ok_unliked.
  - cbv zeta.
    repeat match goal with
           | |- context [if ?c then _ else _] => destruct c eqn:?
           end;
    cbn [fst]; try (apply store_ok_likes_seq; [assumption | lia]).
    apply store_ok_liked; auto.
    cbn in *. now destruct (has_post s zp).
Qed.

(** ** Categories and [initDB] *)

Lemma store_ok_categories_seq (s : store) (n : Z) :
  store_ok s -> categories_seq s <= n -> store_ok (set_categories (categories s) n s).
Proof.
  intros [] Hn. constructor; cbn; auto.
  intros c Hc. specialize (ok_category_seq0 c Hc). lia.
Qed.

Lemma store_ok_categories_add (s : store) (row : category) :
  store_ok s -> c_id row = categories_seq s ->
  store_ok (set_categories (categories s ++ [row]) (categories_seq s + 1) s).
Proof.
  intros [] Hid. constructor; cbn; auto.
  - eapply NoDup_map_snoc; eauto.
  - intros c Hc. apply in_snoc in Hc as [Hc | ->]; [specialize (ok_category_seq0 c Hc)|]; lia.
Qed.

Lemma insert_category_do_nothing_ok (e : env) (row : string * string * string * string) :
  preserves store_ok (insert_category_do_nothing e row).
Proof.
  intros s Hs. unfold insert_category_do_nothing. destruct row as [[[n d] c] i].
  repeat match goal with
         | |- context [if ?c then _ else _] => destruct c
         end;
    cbn [fst];
    solve [ apply store_ok_categories_seq; [assumption | lia]
          | apply store_ok_categories_add; [assumption | reflexivity] ].
Qed.

Lemma insert_categories_do_nothing_ok (e : env)
    (rows : list (string * string * string * string)) :
  preserves store_ok (insert_categories_do_nothing e rows).
Proof.
  induction rows as [|r rows IH]; cbn [insert_categories_do_nothing].
  - apply preserves_ret.
  - apply preserves_bind; [apply insert_category_do_nothing_ok | intros _; exact IH].
Qed.

Lemma insert_categories_do_nothing_only (e : env)
    (rows : list (string * string * string * string)) (s : store) :
  categories_only s (fst (insert_categories_do_nothing e rows s)).
Proof.
  revert s. induction rows as [|r rows IH]; intros s; cbn [insert_categories_do_nothing].
  - split; [destruct s; reflexivity | cbn; lia].
  - unfold bind.
    assert (H1 : categories_only s (fst (insert_category_do_nothing e r s))).
    { unfold insert_category_do_nothing. destruct r as [[[n d] c] i].
      repeat match goal with
             | |- context [if ?c then _ else _] => destruct c
             end; (split; [reflexivity | cbn; lia]). }
    destruct (insert_category_do_nothing e r s) as [s1 [[]|x]]; cbn [fst] in *.
    + specialize (IH s1). destruct H1 as [E1 L1], IH as [E2 L2]. split; [|lia].
      set (s2 := fst (insert_categories_do_nothing e rows s1)) in *.
      rewrite E2. cbn [categories categories_seq set_categories].
      rewrite E1. reflexivity.
    + exact H1.
Qed.

Lemma atomic_categories_ok (e : env) (rows : list (string * string * string * string)) :
  preserves store_ok (atomic_categories (insert_categories_do_nothing e rows)).
Proof.
  intros s Hs. unfold atomic_categories.
  pose proof (insert_categories_do_nothing_ok e rows s Hs) as Hok.
  pose proof (insert_categories_do_nothing_only e rows s) as [_ Hseq].
  destruct (insert_categories_do_nothing e rows s) as [s' [a|x]]; cbn [fst] in *.
  - exact Hok.
  - now apply store_ok_categories_seq.
Qed.

Lemma hash_preserves (L : library) (P : store -> Prop) (e : env) (password : jsval) :
  preserves P (hash L e password).
Proof. destruct password; cbn [hash]; auto with pres. Qed.

Lemma compare_preserves (L : library) (P : store -> Prop) (password : jsval) (h : string) :
  preserves P (compare L password h).
Proof. destruct password; cbn [compare]; auto with pres. Qed.

#[local] Hint Resolve hash_preserves compare_preserves : pres.

Lemma store_ok_empty : store_ok empty_store.
Proof.
  constructor; cbn; try constructor; try (intros ? []).
Qed.

Lemma initDB_ok (L : library) (e : env) (s : store) :
  store_ok s -> store_ok (initDB L e s).
Proof.
  intros Hs. unfold initDB. apply preserves_try_catch; [|exact Hs].
  repeat (apply preserves_bind; [|intros ?]); auto with pres.
  - apply preserves_query, atomic_categories_ok.
  - apply preserves_query, insert_user_unless_username_ok.
Qed.

(** ** Every handler keeps the constraints of the schema *)

Ltac pure_statement :=
  let s := fresh "s" in
  let Hs := fresh "Hs" in
  intros s Hs; cbv beta iota delta [bind lift ret];
  repeat match goal with
         | |- context [match ?x with _ => _ end] => destruct x; cbv beta iota
         end;
  exact Hs.

Lemma select_users_by_login_pure (P : store -> Prop) (e : env) (ident : jsval) :
  preserves P (select_users_by_login e ident).
Proof. unfold select_users_by_login. pure_statement. Qed.

Lemma count_categories_pure (P : store -> Prop) : preserves P count_categories.
Proof. intros s Hs. exact Hs. Qed.

Lemma select_categories_pure (P : store -> Prop) : preserves P select_categories.
Proof. intros s Hs. exact Hs. Qed.

Lemma select_stats_pure (P : store -> Prop) (e : env) : preserves P (select_stats e).
Proof. intros s Hs. exact Hs. Qed.

Lemma select_topic_pure (P : store -> Prop) (id : jsval) : preserves P (select_topic id).
Proof. unfold select_topic. pure_statement. Qed.

Lemma select_posts_pure (P : store -> Prop) (id : jsval) : preserves P (select_posts id).
Proof. unfold select_posts. pure_statement. Qed.

Lemma select_topics_pure (P : store -> Prop) (c : option jsval) (l : jsval) (o : jsnum) :
  preserves P (select_topics c l o).
Proof. unfold select_topics. pure_statement. Qed.

#[local] Hint Resolve select_users_by_login_pure count_categories_pure
  select_categories_pure select_stats_pure select_topic_pure select_posts_pure
  select_topics_pure : pres.

Lemma health_keeps (P : store -> Prop) (e : env) (s : store) :
  P s -> P (fst (health e s)).
Proof.
  intros Hs. unfold health. apply preserves_try_catch; [|exact Hs].
  apply preserves_bind; [|intros ?]; auto with pres.
Qed.

Lemma list_categories_keeps (P : store -> Prop) (e : env) (s : store) :
  P s -> P (fst (list_categories e s)).
Proof.
  intros Hs. unfold list_categories. apply preserves_try_catch; [|exact Hs].
  apply preserves_bind; [|intros ?]; auto with pres.
Qed.

Lemma list_topics_keeps (P : store -> Prop) (e : env) (c p l : option string) (s : store) :
  P s -> P (fst (list_topics e c p l s)).
Proof.
  intros Hs. unfold list_topics. apply preserves_try_catch; [|exact Hs].
  apply preserves_bind; [|intros ?]; auto with pres.
Qed.

Lemma list_posts_keeps (P : store -> Prop) (e : env) (id : string) (s : store) :
  P s -> P (fst (list_posts e id s)).
Proof.
  intros Hs. unfold list_posts. apply preserves_try_catch; [|exact Hs].
  apply preserves_bind; [|intros ?]; auto with pres.
Qed.

Lemma get_stats_keeps (P : store -> Prop) (e : env) (s : store) :
  P s -> P (fst (get_stats e s)).
Proof.
  intros Hs. unfold get_stats. apply preserves_try_catch; [|exact Hs].
  apply preserves_bind; [|intros ?]; auto with pres.
Qed.

Lemma register_ok (L : library) (e : env) (username email password : jsval) (s : store) :
  store_ok s -> store_ok (fst (register L e username email password s)).
Proof.
  intros Hs. unfold register. apply preserves_try_catch; [|exact Hs].
  repeat (apply preserves_bind; [|intros ?]); auto with pres.
  apply preserves_query, insert_user_ok.
Qed.

Lemma login_ok (L : library) (e : env) (username password : jsval) (s : store) :
  store_ok s -> store_ok (fst (login L e username password s)).
Proof.
  intros Hs. unfold login. apply preserves_try_catch; [|exact Hs].
  apply preserves_bind; [auto with pres|]. intros [|user rows]; [auto with pres|].
  apply preserves_bind; [auto with pres|]. intros [|]; cbn [negb]; [|auto with pres].
  apply preserves_bind; [|intros ?]; auto with pres.
  apply preserves_query, update_last_seen_ok.
Qed.

Lemma get_topic_ok (e : env) (id : string) (s : store) :
  store_ok s -> store_ok (fst (get_topic e id s)).
Proof.
  intros Hs. unfold get_topic. apply preserves_try_catch; [|exact Hs].
  apply preserves_bind; [apply preserves_query, update_topic_views_ok|]. intros _.
  apply preserves_bind; [auto with pres|]. intros [|row rows]; auto with pres.
Qed.

Lemma create_topic_ok (e : env) (title content category_id user_id : jsval) (s : store) :
  store_ok s -> store_ok (fst (create_topic e title content category_id user_id s)).
Proof.
  intros Hs. unfold create_topic. apply preserves_try_catch; [|exact Hs].
  apply preserves_bind; [|intros ?]; auto with pres.
  apply preserves_query, insert_topic_ok, truthy_js_or.
Qed.

Lemma create_post_ok (e : env) (content topic_id user_id parent_id : jsval) (s : store) :
  store_ok s -> store_ok (fst (create_post e content topic_id user_id parent_id s)).
Proof.
  intros Hs. unfold create_post. apply preserves_try_catch; [|exact Hs].
  apply preserves_bind; [apply preserves_query, insert_post_ok|]. intros row.
  apply preserves_bind; [apply preserves_query, update_topic_updated_at_ok|].
  intros _. auto with pres.
Qed.

Lemma handle_ok (L : library) (e : env) (r : request) (s : store) :
  store_ok s -> store_ok (fst (handle L e r s)).
Proof.
  destruct r; cbn [handle];
    auto using register_ok, login_ok, get_topic_ok, create_topic_ok,
      create_post_ok, toggle_like_ok.
  - apply (health_keeps store_ok).
  - apply (list_categories_keeps store_ok).
  - apply (list_topics_keeps store_ok).
  - apply (list_posts_keeps store_ok).
  - apply (get_stats_keeps store_ok).
Qed.

Lemma reachable_ok (L : library) (s : store) : reachable L s -> store_ok s.
Proof.
  induction 1 as [e He | e r s _ IH | e s _ IH].
  - apply initDB_ok, store_ok_empty.
  - now apply handle_ok.
  - now apply initDB_ok.
Qed.

Lemma reachable_serve (L : library) (rs : list (env * request)) (s : store) :
  reachable L s -> reachable L (serve L s rs).
Proof.
  revert s. induction rs as [|[e r] rs IH]; intros s Hs; cbn [serve]; [exact Hs|].
  apply IH. now constructor.
Qed.

(** ** Likes and their counter *)

(** C1: whatever requests the API serves, one after the other, from the store
    [initDB] leaves on an empty database, after each of them no two Like rows
    share their (user, post) pair and every post's [likes] counter is the
    number of Like rows that reference the post. *)
Theorem likes_stay_consistent (L : library) (e0 : env) (rs : list (env * request))
    (n : nat) :
  pool e0 = PoolUp ->
  likes_consistent (serve L (initDB L e0 empty_store) (firstn n rs)).
Proof.
  intros Hup.
  assert (Hok : store_ok (serve L (initDB L e0 empty_store) (firstn n rs))).
  { apply reachable_ok with (L := L), reachable_serve. now constructor. }
  split; [apply ok_like_keys, Hok | apply ok_like_count, Hok].
Qed.

Lemma likes_stay_consistent_witness :
  pool (at_time 0) = PoolUp
  /\ likes_consistent
       (serve sample_library (initDB sample_library (at_time 0) empty_store)
              (firstn 4 scenario)).
Proof.
  split; [reflexivity|].
  apply (likes_stay_consistent sample_library (at_time 0) scenario 4).
  reflexivity.
Defined.
Lemma no_next_like_id (s : store) :
  store_ok s -> existsb (fun l => l_id l =? likes_seq s) (likes s) = false.
Proof.
  intros Hs. destruct (existsb _ (likes s)) eqn:H; [|reflexivity].
  apply existsb_exists in H as [l [Hl Heq]]. apply Z.eqb_eq in Heq.
  pose proof (ok_like_seq s Hs l Hl). lia.
Qed.

Lemma pg_int_route (id : string) (p : Z) :
  int4in id = Ok p -> pg_int (JStr id) = Ok (Some p).
Proof. cbn. now intros ->. Qed.

Lemma toggle_like_off (e : env) (id : string) (user_id : jsval) (u p : Z) (s : store) :
  pool e = PoolUp -> pg_int (js_or user_id (JNum 1)) = Ok (Some u) -> int4in id = Ok p ->
  liked s u p = true ->
  toggle_like e id user_id s = (unliked_store (Some u) (Some p) s, json (BLiked false)).
Proof.
  intros Hup Hu Hp Hl. rewrite toggle_like_unfold, Hup, Hu, (pg_int_route _ _ Hp).
  unfold liked in Hl. now rewrite Hl.
Qed.

Lemma toggle_like_on (e : env) (id : string) (user_id : jsval) (u p : Z) (s : store) :
  store_ok s ->
  pool e = PoolUp -> pg_int (js_or user_id (JNum 1)) = Ok (Some u) -> int4in id = Ok p ->
  liked s u p = false -> has_user s u = true -> has_post s p = true ->
  toggle_like e id user_id s = (liked_store e (Some u) (Some p) s, json (BLiked true)).
Proof.
  intros Hs Hup Hu Hp Hl Hhu Hhp.
  rewrite toggle_like_unfold, Hup, Hu, (pg_int_route _ _ Hp).
  unfold liked in Hl. rewrite Hl. cbv zeta.
  rewrite (no_next_like_id s Hs). cbn [fk_ok]. now rewrite Hhu, Hhp.
Qed.

Lemma liked_after_unlike (u p : Z) (s : store) :
  liked (unliked_store (Some u) (Some p) s) u p = false.
Proof.
  unfold liked, unliked_store. cbn [likes set_posts set_likes].
  induction (likes s) as [|l ls IH]; cbn; [reflexivity|].
  destruct (like_is (Some u) (Some p) l) eqn:Hl; cbn; [exact IH|].
  now rewrite Hl, IH.
Qed.

Lemma liked_after_like (e : env) (u p : Z) (s : store) :
  liked (liked_store e (Some u) (Some p) s) u p = true.
Proof.
  unfold liked, liked_store. cbn [likes set_posts set_likes].
  rewrite existsb_snoc. unfold like_is. cbn. rewrite !Z.eqb_refl.
  apply orb_true_r.
Qed.

Lemma find_map_add_likes (d p : Z) (ps : list post) :
  option_map p_likes (find (fun x => p_id x =? p) (map (add_likes d (Some p)) ps))
  = option_map (fun n => n + d) (option_map p_likes (find (fun x => p_id x =? p) ps)).
Proof.
  induction ps as [|q ps IH]; cbn [map find]; [reflexivity|].
  rewrite add_likes_id. destruct (p_id q =? p) eqn:Hq; [|exact IH].
  unfold add_likes. cbn [eqb_oZ]. rewrite Z.eqb_sym, Hq. reflexivity.
Qed.

Lemma like_counter_unliked (u p : Z) (s : store) :
  like_counter (unliked_store (Some u) (Some p) s) p
  = option_map (fun n => n + -1) (like_counter s p).
Proof. unfold like_counter, unliked_store. cbn [posts set_posts set_likes]. apply find_map_add_likes. Qed.

Lemma like_counter_liked (e : env) (u p : Z) (s : store) :
  like_counter (liked_store e (Some u) (Some p) s) p
  = option_map (fun n => n + 1) (like_counter s p).
Proof. unfold like_counter, liked_store. cbn [posts set_posts set_likes]. apply find_map_add_likes. Qed.

(** ** A like on a post that does not exist *)

Lemma no_like_of_missing_post (s : store) (u : option Z) (p : Z) :
  store_ok s -> has_post s p = false -> existsb (like_is u (Some p)) (likes s) = false.
Proof.
  intros Hs Hp. destruct (existsb _ (likes s)) eqn:H; [|reflexivity].
  apply existsb_exists in H as [l [Hl His]].
  destruct (ok_like_refs s Hs l Hl) as [a [b [_ [Hb Hex]]]].
  unfold like_is, sql_eq in His. apply andb_true_iff in His as [_ His].
  rewrite Hb in His. cbn in His. apply Z.eqb_eq in His. congruence.
Qed.

(** C8, as the code has it: a toggle on a post id that no post row carries is
    answered with status 500 (the handler has no 404 branch: the store refuses
    the Like row by its reference to [posts], and the catch block maps every
    error to 500), and no row of any table changes. *)
Theorem toggle_like_missing_post (L : library) (e : env) (id : string)
    (user_id : jsval) (p : Z) (s : store) :
  reachable L s -> int4in id = Ok p -> has_post s p = false ->
  status (snd (toggle_like e id user_id s)) = 500
  /\ same_rows s (fst (toggle_like e id user_id s))
  /\ (forall u, pool e = PoolUp -> pg_int (js_or user_id (JNum 1)) = Ok (Some u) ->
        has_user s u = true ->
        snd (toggle_like e id user_id s)
        = raised 500 (ForeignKeyViolation "likes" "likes_post_id_fkey")).
Proof.
  intros Hr Hid Hp. apply reachable_ok in Hr.
  rewrite toggle_like_unfold, (pg_int_route _ _ Hid).
  destruct (pool e); [|repeat split; intros; discriminate].
  destruct (pg_int (js_or user_id (JNum 1))) as [u|x];
    [|repeat split; intros; discriminate].
  rewrite (no_like_of_missing_post s u p Hr Hp). cbv zeta.
  rewrite (no_next_like_id s Hr). cbn [fk_ok]. rewrite Hp. cbn [negb].
  destruct (negb (fk_ok (has_user s) u)) eqn:Hu; cbn [fst snd].
  - repeat split. intros u0 _ [= ->] Hu0. cbn in Hu. now rewrite Hu0 in Hu.
  - repeat split.
Qed.

Lemma toggle_like_missing_post_witness :
  reachable sample_library sample_store
  /\ int4in "7" = Ok 7 /\ has_post sample_store 7 = false
  /\ status (snd (toggle_like (at_time 60) "7" (JNum 1) sample_store)) = 500
  /\ same_rows sample_store (fst (toggle_like (at_time 60) "7" (JNum 1) sample_store)).
Proof.
  assert (Hr : reachable sample_library sample_store)
    by (apply reachable_serve; now constructor).
  do 3 (split; [first [exact Hr | vm_compute; reflexivity]|]).
  destruct (toggle_like_missing_post sample_library (at_time 60) "7" (JNum 1) 7
              sample_store Hr) as (H1 & H2 & _);
    [vm_compute; reflexivity | vm_compute; reflexivity | ].
  split; [exact H1 | exact H2].
Defined.

(** C8 as stated fails: the answer to a toggle on a missing post has status
    500, not 404. *)
Lemma toggle_like_missing_post_not_404 :
  has_post sample_store 7 = false /\ int4in "7" = Ok 7
  /\ status (snd (toggle_like (at_time 60) "7" (JNum 1) sample_store)) <> 404.
Proof.
  do 2 (split; [vm_compute; reflexivity|]).
  vm_compute. discriminate.
Qed.

(** ** Requests without a user id *)

Lemma pad_length (n : nat) (s : string) : String.length (pad n s) = n.
Proof.
  revert s. induction n as [|n IH]; intros s; cbn; [reflexivity|].
  destruct s; cbn; now rewrite IH.
Qed.

Lemma strlen_le_length (s : string) : 0 <= strlen s <= Z.of_nat (String.length s).
Proof.
  induction s as [|c s IH]; cbn [strlen String.length]; [lia|].
  destruct (continuation c); lia.
Qed.

Lemma sample_hash_fits : hash_fits sample_library.
Proof.
  intros p salt. cbn [bcrypt_hash sample_library]. unfold sample_hash.
  pose proof (strlen_le_length (pad 60 ("$2a$10$" ++ pad 22 salt ++ p))) as H.
  rewrite pad_length in H. lia.
Qed.

(** The two INSERTs of [initDB], on their constants. *)
Lemma insert_default_categories (e : env) (s : store) :
  insert_categories e default_categories s
  = atomic_categories (insert_categories_do_nothing e default_categories) s.
Proof. reflexivity. Qed.

Lemma insert_admin (e : env) (h : string) (s : store) :
  strlen h <= 255 ->
  insert_user_unless_username e (JStr "admin") (JStr "admin@nexus.com") h
    (Some "Forum Administrator") s
  = if existsb (fun u => String.eqb "admin" (u_username u)) (users s)
    then (set_users (users s) (users_seq s + 1) s, Ok tt)
    else (_ <- users_row e (Some "admin") (Some "admin@nexus.com") h
                 (Some "Forum Administrator") ;; ret tt) s.
Proof.
  intros Hfit. apply Z.ltb_ge in Hfit.
  unfold insert_user_unless_username, bind, lift.
  cbn [text_param pg_text]. cbv beta iota. unfold varchar.
  replace (has_nul "admin") with false by reflexivity.
  replace (has_nul "admin@nexus.com") with false by reflexivity.
  cbv beta iota.
  replace (50 <? strlen "admin") with false by reflexivity.
  replace (100 <? strlen "admin@nexus.com") with false by reflexivity.
  rewrite Hfit. reflexivity.
Qed.

Lemma admin_after_initDB (L : library) (e : env) :
  hash_fits L -> pool e = PoolUp -> admin_is_first (initDB L e empty_store).
Proof.
  intros Hfit Hup. unfold initDB, try_catch, query, bind, hash, ret. rewrite Hup.
  cbv beta iota. rewrite insert_default_categories.
  specialize (Hfit "admin123" (salt e)).
  unfold atomic_categories.
  destruct (insert_categories_do_nothing e default_categories empty_store)
    as [s1 [[]|x]] eqn:E1; [|vm_compute in E1; discriminate].
  rewrite (insert_admin e _ _ Hfit).
  assert (Hu : users s1 = []) by (vm_compute in E1; now inversion E1).
  assert (Hq : users_seq s1 = 1) by (vm_compute in E1; now inversion E1).
  rewrite Hu. cbn [existsb]. unfold users_row, bind, ret, has_user.
  rewrite Hu, Hq. cbn.
  eexists. split; [left; reflexivity | split; reflexivity].
Qed.

Lemma users_row_admin (e : env) (un em : option string) (h : string) (bio : option string) :
  preserves admin_is_first (users_row e un em h bio).
Proof.
  intros s Hs. unfold users_row.
  destruct un, em;
    repeat match goal with
           | |- context [if ?c then _ else _] => destruct c
           end;
    cbn [fst]; try exact Hs.
  destruct Hs as [a [Ha Hid]]. exists a. split; [|exact Hid].
  cbn. apply in_or_app. now left.
Qed.

Lemma insert_user_admin (e : env) (username email : jsval) (h : string) (bio : option string) :
  preserves admin_is_first (insert_user e username email h bio).
Proof.
  unfold insert_user.
  repeat (apply preserves_bind; [apply preserves_lift | intros ?]).
  apply users_row_admin.
Qed.

Lemma update_last_seen_admin (e : env) (id : Z) :
  preserves admin_is_first (update_last_seen e id).
Proof.
  intros s [a [Ha [Hid Hn]]]. exists (touch_user (now e) id a). cbn.
  split; [now apply in_map|]. unfold touch_user.
  destruct (u_id a =? id); cbn; auto.
Qed.

Ltac keeps_users :=
  let s := fresh "s" in
  let Hs := fresh "Hs" in
  intros s Hs; unfold on_users in *; cbv beta iota delta [bind lift ret];
  repeat match goal with
         | |- context [match ?x with _ => _ end] => destruct x; cbv beta iota
         end;
  exact Hs.

Lemma insert_topic_users (P : list user -> Prop) (e : env) (a b c d : jsval) :
  preserves (on_users P) (insert_topic e a b c d).
Proof. unfold insert_topic. keeps_users. Qed.

Lemma update_topic_views_users (P : list user -> Prop) (id : jsval) :
  preserves (on_users P) (update_topic_views id).
Proof. unfold update_topic_views. keeps_users. Qed.

Lemma update_topic_updated_at_users (P : list user -> Prop) (e : env) (id : jsval) :
  preserves (on_users P) (update_topic_updated_at e id).
Proof. unfold update_topic_updated_at. keeps_users. Qed.

Lemma insert_post_users (P : list user -> Prop) (e : env) (a b c d : jsval) :
  preserves (on_users P) (insert_post e a b c d).
Proof. unfold insert_post. keeps_users. Qed.

Lemma toggle_like_users (P : list user -> Prop) (e : env) (id : string)
    (user_id : jsval) (s : store) :
  on_users P s -> on_users P (fst (toggle_like e id user_id s)).
Proof.
  intros Hs. rewrite toggle_like_unfold.
  repeat match goal with
         | |- context [match ?x with _ => _ end] => destruct x; cbv beta iota zeta
         end;
  exact Hs.
Qed.

Lemma handle_on_users (P : list user -> Prop) (L : library) (e : env) (r : request)
    (s : store) :
  (forall un em h b, preserves (on_users P) (insert_user e un em h b)) ->
  (forall id, preserves (on_users P) (update_last_seen e id)) ->
  on_users P s -> on_users P (fst (handle L e r s)).
Proof.
  intros Hins Hupd Hs. destruct r; cbn [handle].
  - now apply (health_keeps (on_users P)).
  - unfold register. apply preserves_try_catch; [|exact Hs].
    repeat (apply preserves_bind; [|intros ?]); auto with pres.
  - unfold login. apply preserves_try_catch; [|exact Hs].
    apply preserves_bind; [auto with pres|]. intros [|user rows]; [auto with pres|].
    apply preserves_bind; [auto with pres|]. intros [|]; cbn [negb]; [|auto with pres].
    apply preserves_bind; [|intros ?]; auto with pres.
  - now apply (list_categories_keeps (on_users P)).
  - now apply (list_topics_keeps (on_users P)).
  - unfold get_topic. apply preserves_try_catch; [|exact Hs].
    apply preserves_bind; [apply preserves_query, update_topic_views_users|]. intros _.
    apply preserves_bind; [auto with pres|]. intros [|row rows]; auto with pres.
  - unfold create_topic. apply preserves_try_catch; [|exact Hs].
    apply preserves_bind; [|intros ?]; auto with pres.
    apply preserves_query, insert_topic_users.
  - now apply (list_posts_keeps (on_users P)).
  - unfold create_post. apply preserves_try_catch; [|exact Hs].
    apply preserves_bind; [apply preserves_query, insert_post_users|]. intros row.
    apply preserves_bind; [apply preserves_query, update_topic_updated_at_users|].
    intros _. auto with pres.
  - now apply toggle_like_users.
  - now apply (get_stats_keeps (on_users P)).
Qed.

Lemma initDB_on_users (P : list user -> Prop) (L : library) (e : env) (s : store) :
  (forall un em h b, preserves (on_users P) (users_row e un em h b)) ->
  on_users P s -> on_users P (initDB L e s).
Proof.
  intros Hins Hs. unfold initDB.
  apply (preserves_try_catch (on_users P)); [|exact Hs].
  apply preserves_bind; [auto with pres|]. intros _.
  apply preserves_bind.
  { apply preserves_query, insert_categories_preserves.
    intros s0 Hs0. unfold atomic_categories.
    pose proof (insert_categories_do_nothing_only e default_categories s0) as [E _].
    destruct (insert_categories_do_nothing e default_categories s0) as [s' [a|x]];
      cbn [fst] in *; [|exact Hs0].
    unfold on_users. rewrite E. exact Hs0. }
  intros _. apply preserves_bind; [auto with pres|]. intros h.
  apply preserves_bind; [|auto with pres].
  apply preserves_query, insert_user_unless_username_preserves.
  - intros. apply Hins.
  - intros s0 Hs0. exact Hs0.
Qed.

Lemma handle_admin (L : library) (e : env) (r : request) (s : store) :
  admin_is_first s -> admin_is_first (fst (handle L e r s)).
Proof.
  apply (handle_on_users
           (fun us => exists a, In a us /\ u_id a = 1 /\ u_username a = "admin")).
  - intros. apply insert_user_admin.
  - intros. apply update_last_seen_admin.
Qed.

Lemma reachable_admin (L : library) (s : store) :
  hash_fits L -> reachable L s -> admin_is_first s.
Proof.
  intros Hfit. induction 1 as [e He | e r s _ IH | e s _ IH].
  - now apply admin_after_initDB.
  - now apply handle_admin.
  - apply (initDB_on_users
             (fun us => exists a, In a us /\ u_id a = 1 /\ u_username a = "admin"));
      [|exact IH].
    intros. apply users_row_admin.
Qed.

Lemma has_user_admin (s : store) : admin_is_first s -> has_user s 1 = true.
Proof.
  intros [a [Ha [Hid _]]]. unfold has_user. apply existsb_exists.
  exists a. split; [exact Ha | now apply Z.eqb_eq].
Qed.

Lemma no_next_topic_id (s : store) : store_ok s -> has_topic s (topics_seq s) = false.
Proof.
  intros Hs. unfold has_topic. destruct (existsb _ (topics s)) eqn:H; [|reflexivity].
  apply existsb_exists in H as [t [Ht Heq]]. apply Z.eqb_eq in Heq.
  pose proof (ok_topic_seq s Hs t Ht). lia.
Qed.

Lemma no_next_post_id (s : store) : store_ok s -> has_post s (posts_seq s) = false.
Proof.
  intros Hs. unfold has_post. destruct (existsb _ (posts s)) eqn:H; [|reflexivity].
  apply existsb_exists in H as [t [Ht Heq]]. apply Z.eqb_eq in Heq.
  pose proof (ok_post_seq s Hs t Ht). lia.
Qed.

Lemma pg_int_one : pg_int (JNum 1) = Ok (Some 1).
Proof. vm_compute. reflexivity. Qed.

(** An accepted topic is stored as the last row of [topics]. *)
Lemma create_topic_stored (e : env) (title content category_id user_id : jsval)
    (ti co : string) (c : option Z) (u : Z) (s : store) :
  store_ok s -> pool e = PoolUp ->
  text_param title = Ok (Some ti) -> strlen ti <= 200 ->
  text_param content = Ok (Some co) ->
  pg_int category_id = Ok c -> fk_ok (has_category s) c = true ->
  pg_int (js_or user_id (JNum 1)) = Ok (Some u) -> has_user s u = true ->
  create_topic e title content category_id user_id s
  = (set_topics (topics s ++ [created_topic e ti co c (Some u) s]) (topics_seq s + 1) s,
     json (BTopicCreated (created_topic e ti co c (Some u) s))).
Proof.
  intros Hs Hup Hti Hlen Hco Hc Hfk Hu Hex.
  unfold create_topic, try_catch, query, insert_topic. unfold bind, lift, ret, varchar.
  rewrite Hup, Hti, Hco, Hc, Hu. cbv beta iota.
  apply Z.ltb_ge in Hlen. rewrite Hlen. cbv beta iota zeta.
  rewrite (no_next_topic_id s Hs). cbn [fk_ok]. rewrite Hex, Hfk. reflexivity.
Qed.

(** An accepted post is stored as the last row of [posts], and its topic
    is marked as updated. *)
Lemma create_post_stored (e : env) (content topic_id user_id parent_id : jsval)
    (co : string) (t par : option Z) (u : Z) (s : store) :
  store_ok s -> pool e = PoolUp ->
  text_param content = Ok (Some co) ->
  pg_int topic_id = Ok t -> fk_ok (has_topic s) t = true ->
  pg_int (js_or user_id (JNum 1)) = Ok (Some u) -> has_user s u = true ->
  pg_int parent_id = Ok par ->
  fk_ok (fun z => has_post s z || (z =? posts_seq s)) par = true ->
  create_post e content topic_id user_id parent_id s
  = (replied_store (later e) (created_post e co t (Some u) par s) s,
     json (BPostCreated (created_post e co t (Some u) par s))).
Proof.
  intros Hs Hup Hco Ht Hfk Hu Hex Hpar Hfkp.
  unfold create_post, try_catch, query, insert_post, update_topic_updated_at.
  unfold bind, lift, ret.
  rewrite Hup, Hco, Ht, Hu, Hpar. cbv beta iota zeta.
  rewrite (no_next_post_id s Hs). cbn [fk_ok]. rewrite Hfk, Hex, Hfkp. reflexivity.
Qed.

(** Whatever a created row's request was, the row is the last of its table
    and carries the user id the request was attributed to. *)
Lemma create_topic_answer (e : env) (title content category_id user_id : jsval)
    (s : store) (t : topic) :
  snd (create_topic e title content category_id user_id s) = json (BTopicCreated t) ->
  fst (create_topic e title content category_id user_id s)
  = set_topics (topics s ++ [t]) (topics_seq s + 1) s
  /\ t_id t = topics_seq s /\ t_views t = 0
  /\ text_param title = Ok (Some (t_title t))
  /\ text_param content = Ok (Some (t_content t))
  /\ pg_int category_id = Ok (t_category_id t)
  /\ pg_int (js_or user_id (JNum 1)) = Ok (t_user_id t)
  /\ t_is_pinned t = false /\ t_is_locked t = false
  /\ t_created_at t = now e /\ t_updated_at t = now e.
Proof.
  unfold create_topic, try_catch, query, insert_topic.
  unfold bind, lift, ret, json, status_json.
  destruct (pool e); [|discriminate].
  destruct (text_param title) as [ti|]; [|discriminate].
  destruct (text_param content) as [co|]; [|discriminate].
  destruct (pg_int category_id) as [c|]; [|discriminate].
  destruct (pg_int (js_or user_id (JNum 1))) as [u|]; [|discriminate].
  destruct (varchar 200 ti) as [[]|]; [|discriminate].
  cbv beta iota zeta.
  destruct ti as [ti|]; [|discriminate].
  destruct co as [co|]; [|discriminate].
  destruct (has_topic s (topics_seq s)); [discriminate|].
  destruct (negb (fk_ok (has_user s) u)); [discriminate|].
  destruct (negb (fk_ok (has_category s) c)); [discriminate|].
  cbn [fst snd]. intros [= <-]. cbn. repeat split; auto.
Qed.

Lemma create_post_answer (e : env) (content topic_id user_id parent_id : jsval)
    (s : store) (row : post) :
  snd (create_post e content topic_id user_id parent_id s) = json (BPostCreated row) ->
  fst (create_post e content topic_id user_id parent_id s) = replied_store (later e) row s
  /\ text_param content = Ok (Some (p_content row))
  /\ pg_int topic_id = Ok (p_topic_id row)
  /\ pg_int (js_or user_id (JNum 1)) = Ok (p_user_id row)
  /\ pg_int parent_id = Ok (p_parent_id row)
  /\ p_id row = posts_seq s /\ p_likes row = 0
  /\ p_created_at row = now e /\ p_updated_at row = now e
  /\ fk_ok (has_topic s) (p_topic_id row) = true.
Proof.
  unfold create_post, try_catch, query, insert_post, update_topic_updated_at.
  unfold bind, lift, ret, json, status_json.
  destruct (pool e); [|discriminate].
  destruct (text_param content) as [co|]; [|discriminate].
  destruct (pg_int topic_id) as [t|]; [|discriminate].
  destruct (pg_int (js_or user_id (JNum 1))) as [u|]; [|discriminate].
  destruct (pg_int parent_id) as [par|]; [|discriminate].
  cbv beta iota zeta.
  destruct co as [co|]; [|discriminate].
  destruct (has_post s (posts_seq s)); [discriminate|].
  destruct (fk_ok (has_topic s) t) eqn:Ht; cbn [negb]; [|discriminate].
  destruct (negb (fk_ok (has_user s) u)); [discriminate|].
  destruct (negb (fk_ok _ par)); [discriminate|].
  cbn [fst snd]. intros [= <-]. cbn. repeat split; auto.
Qed.

(** C10: a request to create a topic, to create a post or to toggle a like
    whose [user_id] is absent, null, 0, false or the empty string is served
    exactly as the same request with [user_id] 1, the id of the admin row of
    every reachable store.  It is accepted whenever its other fields are, and
    the row it stores carries user id 1: the new topic, with user id 1, is
    the last row of [topics]; the new post, with user id 1, is the last row of
    [posts]; a toggle on an existing post stores the like of user 1, or
    removes it when there is one.  Every topic or post such a request answers
    with is that stored row. *)
Theorem falsy_user_id_is_admin (L : library) (e : env) (user_id : jsval) (s : store) :
  hash_fits L -> reachable L s -> truthy user_id = false ->
  admin_is_first s
  /\ (forall title content category_id,
        create_topic e title content category_id user_id s
        = create_topic e title content category_id (JNum 1) s)
  /\ (forall content topic_id parent_id,
        create_post e content topic_id user_id parent_id s
        = create_post e content topic_id (JNum 1) parent_id s)
  /\ (forall id, toggle_like e id user_id s = toggle_like e id (JNum 1) s)
  /\ (forall title content category_id ti co c, pool e = PoolUp ->
        text_param title = Ok (Some ti) -> strlen ti <= 200 ->
        text_param content = Ok (Some co) ->
        pg_int category_id = Ok c -> fk_ok (has_category s) c = true ->
        create_topic e title content category_id user_id s
        = (set_topics (topics s ++ [created_topic e ti co c (Some 1) s])
                      (topics_seq s + 1) s,
           json (BTopicCreated (created_topic e ti co c (Some 1) s))))
  /\ (forall content topic_id parent_id co t par, pool e = PoolUp ->
        text_param content = Ok (Some co) ->
        pg_int topic_id = Ok t -> fk_ok (has_topic s) t = true ->
        pg_int parent_id = Ok par ->
        fk_ok (fun z => has_post s z || (z =? posts_seq s)) par = true ->
        create_post e content topic_id user_id parent_id s
        = (replied_store (later e) (created_post e co t (Some 1) par s) s,
           json (BPostCreated (created_post e co t (Some 1) par s))))
  /\ (forall id p, pool e = PoolUp -> int4in id = Ok p -> has_post s p = true ->
        toggle_like e id user_id s
        = if liked s 1 p
          then (unliked_store (Some 1) (Some p) s, json (BLiked false))
          else (liked_store e (Some 1) (Some p) s, json (BLiked true)))
  /\ (forall title content category_id row,
        snd (create_topic e title content category_id user_id s)
        = json (BTopicCreated row) ->
        t_user_id row = Some 1
        /\ topics (fst (create_topic e title content category_id user_id s))
           = (topics s ++ [row])%list)
  /\ (forall content topic_id parent_id row,
        snd (create_post e content topic_id user_id parent_id s)
        = json (BPostCreated row) ->
        p_user_id row = Some 1
        /\ posts (fst (create_post e content topic_id user_id parent_id s))
           = (posts s ++ [row])%list).
Proof.
  intros Hfit Hr Hf.
  pose proof (reachable_admin L s Hfit Hr) as Ha.
  pose proof (reachable_ok L s Hr) as Hs.
  pose proof (has_user_admin s Ha) as Hu.
  assert (Hor : pg_int (js_or user_id (JNum 1)) = Ok (Some 1))
    by (rewrite (js_or_falsy _ Hf); exact pg_int_one).
  split; [exact Ha|].
  split; [intros; unfold create_topic; now rewrite (js_or_falsy _ Hf)|].
  split; [intros; unfold create_post; now rewrite (js_or_falsy _ Hf)|].
  split; [intros; unfold toggle_like; now rewrite (js_or_falsy _ Hf)|].
  split; [intros; now apply create_topic_stored|].
  split; [intros; now apply create_post_stored|].
  split; [|split].
  - intros id p Hup Hid Hp. destruct (liked s 1 p) eqn:Hlk.
    + now apply toggle_like_off.
    + now apply toggle_like_on.
  - intros title content category_id row Hrow.
    destruct (create_topic_answer _ _ _ _ _ _ _ Hrow) as (E & _ & _ & _ & _ & _ & Hu' & _).
    rewrite E. cbn [topics set_topics]. split; [congruence | reflexivity].
  - intros content topic_id parent_id row Hrow.
    destruct (create_post_answer _ _ _ _ _ _ _ Hrow) as (E & _ & _ & Hu' & _).
    rewrite E. unfold replied_store. cbn [posts set_topics set_posts].
    split; [congruence | reflexivity].
Qed.

Lemma falsy_user_id_is_admin_witness :
  hash_fits sample_library /\ reachable sample_library sample_store
  /\ truthy (JNum 0) = false
  /\ admin_is_first sample_store
  /\ create_post (at_time 60) (JStr "More") (JStr "1") (JNum 0) JNull sample_store
     = (replied_store (later (at_time 60))
          (created_post (at_time 60) "More" (Some 1) (Some 1) None sample_store)
          sample_store,
        json (BPostCreated
                (created_post (at_time 60) "More" (Some 1) (Some 1) None sample_store))).
Proof.
  assert (Hr : reachable sample_library sample_store)
    by (apply reachable_serve; now constructor).
  split; [exact sample_hash_fits|]. split; [exact Hr|]. split; [reflexivity|].
  destruct (falsy_user_id_is_admin sample_library (at_time 60) (JNum 0) sample_store
              sample_hash_fits Hr eq_refl) as (H1 & _ & _ & _ & _ & H2 & _).
  split; [exact H1|].
  apply H2; vm_compute; reflexivity.
Defined.

(** ** Registration and login *)

Lemma taken_username (s : store) (u : user) :
  In u (users s) ->
  existsb (fun x => String.eqb (u_username x) (u_username u)) (users s) = true.
Proof. intros Hu. apply existsb_exists. exists u. split; [exact Hu | apply String.eqb_refl]. Qed.

Lemma taken_email (s : store) (u : user) :
  In u (users s) ->
  existsb (fun x => String.eqb (u_email x) (u_email u)) (users s) = true.
Proof. intros Hu. apply existsb_exists. exists u. split; [exact Hu | apply String.eqb_refl]. Qed.

(** C4: when a user row has username U and email E, a registration that gives
    the username U, or one that gives the email E (under whatever username),
    is answered with status 400 and stores no user row. *)
Theorem register_duplicate (L : library) (e : env) (s : store) (u : user)
    (username email password : jsval) :
  In u (users s) ->
  pg_text username = Some (u_username u) \/ pg_text email = Some (u_email u) ->
  status (snd (register L e username email password s)) = 400
  /\ users (fst (register L e username email password s)) = users s.
Proof.
  intros Hu Hdup.
  pose proof (taken_username s u Hu) as Hn. pose proof (taken_email s u Hu) as Hm.
  unfold register, try_catch, query, insert_user, users_row, hash.
  unfold bind, ret, throw, lift.
  destruct password; cbv beta iota; try (split; reflexivity).
  destruct (pool e); [|split; reflexivity].
  destruct (text_param username) as [un|] eqn:Eun; [|split; reflexivity].
  destruct (text_param email) as [em|] eqn:Eem; [|split; reflexivity].
  destruct (varchar 50 un) as [[]|]; [|split; reflexivity].
  destruct (varchar 100 em) as [[]|]; [|split; reflexivity].
  destruct (varchar 255 _) as [[]|]; [|split; reflexivity].
  apply text_param_ok in Eun, Eem.
  destruct un as [un|], em as [em|]; try (split; reflexivity).
  repeat match goal with
         | |- context [if ?c then _ else _] => destruct c eqn:?; try (split; reflexivity)
         end.
  exfalso. rewrite Eun, Eem in Hdup. destruct Hdup as [[= ->] | [= ->]]; congruence.
Qed.

Lemma register_duplicate_witness :
  In {| u_id := 1; u_username := "admin"; u_email := "admin@nexus.com";
        u_password_hash := sample_hash "admin123" (salt (at_time 0));
        u_avatar_url := None; u_bio := Some "Forum Administrator";
        u_created_at := 0; u_last_seen := 0 |} (users sample_store)
  /\ status (snd (register sample_library (at_time 60) (JStr "admin")
                    (JStr "root@nexus.com") (JStr "secret") sample_store)) = 400
  /\ status (snd (register sample_library (at_time 60) (JStr "root")
                    (JStr "admin@nexus.com") (JStr "secret") sample_store)) = 400.
Proof.
  assert (Hin : In {| u_id := 1; u_username := "admin"; u_email := "admin@nexus.com";
                      u_password_hash := sample_hash "admin123" (salt (at_time 0));
                      u_avatar_url := None; u_bio := Some "Forum Administrator";
                      u_created_at := 0; u_last_seen := 0 |} (users sample_store))
    by (vm_compute; left; reflexivity).
  split; [exact Hin|]. split.
  - apply (register_duplicate sample_library (at_time 60) sample_store _
             (JStr "admin") (JStr "root@nexus.com") (JStr "secret") Hin).
    left. reflexivity.
  - apply (register_duplicate sample_library (at_time 60) sample_store _
             (JStr "root") (JStr "admin@nexus.com") (JStr "secret") Hin).
    right. reflexivity.
Defined.

Lemma last_seen_le_later (t t' : Z) (s : store) :
  last_seen_le t s -> t <= t' -> last_seen_le t' s.
Proof. intros H Ht u Hu. specialize (H u Hu). lia. Qed.

Lemma users_row_last_seen (e : env) (un em : option string) (h : string)
    (bio : option string) :
  preserves (last_seen_le (now e)) (users_row e un em h bio).
Proof.
  intros s Hs. unfold users_row.
  destruct un, em;
    repeat match goal with
           | |- context [if ?c then _ else _] => destruct c
           end;
    cbn [fst]; try exact Hs.
  intros u Hu. cbn in Hu. apply in_snoc in Hu as [Hu | ->]; [now apply Hs | cbn; lia].
Qed.

Lemma insert_user_last_seen (e : env) (username email : jsval) (h : string)
    (bio : option string) :
  preserves (last_seen_le (now e)) (insert_user e username email h bio).
Proof. apply insert_user_preserves. intros. apply users_row_last_seen. Qed.

Lemma update_last_seen_last_seen (e : env) (id : Z) :
  preserves (last_seen_le (now e)) (update_last_seen e id).
Proof.
  intros s Hs u Hu. cbn in Hu. apply in_map_iff in Hu as [u0 [<- Hu0]].
  unfold touch_user. destruct (u_id u0 =? id); cbn; [lia | now apply Hs].
Qed.

Lemma initDB_last_seen (L : library) (e : env) (s : store) :
  last_seen_le (now e) s -> last_seen_le (now e) (initDB L e s).
Proof.
  apply (initDB_on_users (fun us => forall u, In u us -> u_last_seen u <= now e)).
  intros. apply users_row_last_seen.
Qed.

Lemma reachable_at_reachable (L : library) (t : Z) (s : store) :
  reachable_at L t s -> reachable L s.
Proof.
  induction 1 as [e He | e r t s _ IH Ht | e t s _ IH Ht].
  - now apply reachable_init.
  - now apply reachable_step.
  - now apply reachable_restart.
Qed.

Lemma reachable_at_last_seen (L : library) (t : Z) (s : store) :
  reachable_at L t s -> last_seen_le t s.
Proof.
  induction 1 as [e He | e r t s _ IH Ht | e t s _ IH Ht].
  - apply initDB_last_seen. intros u [].
  - apply (handle_on_users (fun us => forall u, In u us -> u_last_seen u <= now e)).
    + intros. apply insert_user_last_seen.
    + intros. apply update_last_seen_last_seen.
    + now apply last_seen_le_later with (t := t).
  - apply initDB_last_seen. now apply last_seen_le_later with (t := t).
Qed.

Lemma store_order_nil {A} (e : env) (rows : list A) :
  store_order e rows = [] <-> rows = [].
Proof.
  unfold store_order. split; [|intros ->; now rewrite skipn_nil, firstn_nil].
  intros H. apply (f_equal (@List.length A)) in H.
  rewrite length_app, length_skipn, length_firstn in H. cbn in H.
  destruct rows as [|x rows]; [reflexivity|]. cbn [List.length] in *.
  pose proof (Nat.mod_upper_bound (first_row e) (S (List.length rows)) ltac:(lia)).
  lia.
Qed.

Lemma store_order_in {A} (e : env) (rows : list A) (x : A) :
  In x (store_order e rows) <-> In x rows.
Proof.
  unfold store_order. set (k := (first_row e mod List.length rows)%nat).
  rewrite in_app_iff.
  assert (H : In x rows <-> In x (firstn k rows) \/ In x (skipn k rows))
    by (rewrite <- in_app_iff, firstn_skipn; tauto).
  tauto.
Qed.

Lemma store_order_one {A} (e : env) (x : A) : store_order e [x] = [x].
Proof.
  unfold store_order. cbn [List.length]. rewrite Nat.mod_1_r. reflexivity.
Qed.

Lemma login_unfold (L : library) (e : env) (ident password : jsval) (s : store) :
  pool e = PoolUp ->
  login L e ident password s =
  match text_param ident with
  | Err x => (s, raised 500 x)
  | Ok _ =>
      match login_row e s ident with
      | None => (s, status_json 401 (BError "Invalid credentials"))
      | Some u =>
          match password with
          | JStr p =>
              if bcrypt_compare L p (u_password_hash u)
              then (logged_in_store e u s,
                    json (BLoggedIn (profile_of u)
                            (jwt_sign L (u_id u) (u_username u) (secret e) (now e))))
              else (s, status_json 401 (BError "Invalid credentials"))
          | v => (s, raised 500 (IllegalArguments (js_typeof v) "string"))
          end
      end
  end.
Proof.
  intros Hup. unfold login, login_row, login_rows, try_catch, query,
    select_users_by_login, update_last_seen, compare.
  unfold bind, ret, throw, lift. rewrite Hup. cbv beta iota.
  destruct (text_param ident) as [i|x] eqn:Ei; [|reflexivity].
  apply text_param_ok in Ei. rewrite Ei.
  destruct (store_order e _) as [|u rows]; [reflexivity|]. cbn [hd_error].
  destruct password; try reflexivity.
  destruct (bcrypt_compare L s0 (u_password_hash u)); reflexivity.
Qed.

Lemma last_seen_touched (t : Z) (u : user) (us : list user) :
  In u us ->
  option_map u_last_seen
    (find (fun x => u_id x =? u_id u) (map (touch_user t (u_id u)) us)) = Some t.
Proof.
  induction us as [|x us IH]; [intros []|]. intros Hin. cbn [map find].
  rewrite touch_user_id. destruct (u_id x =? u_id u) eqn:Hx.
  - unfold touch_user. rewrite Hx. reflexivity.
  - destruct Hin as [-> | Hin]; [now rewrite Z.eqb_refl in Hx | now apply IH].
Qed.

Lemma last_seen_untouched (t id id' : Z) (us : list user) :
  id' <> id ->
  option_map u_last_seen (find (fun x => u_id x =? id') (map (touch_user t id) us))
  = option_map u_last_seen (find (fun x => u_id x =? id') us).
Proof.
  intros Hne. induction us as [|x us IH]; [reflexivity|]. cbn [map find].
  rewrite touch_user_id. destruct (u_id x =? id') eqn:Hx; [|exact IH].
  unfold touch_user. apply Z.eqb_eq in Hx.
  replace (u_id x =? id) with false by (symmetry; apply Z.eqb_neq; lia). reflexivity.
Qed.

Lemma last_seen_known (t : Z) (s : store) (u : user) :
  last_seen_le t s -> In u (users s) ->
  exists old, last_seen_of s (u_id u) = Some old /\ old <= t.
Proof.
  intros Hle Hin. unfold last_seen_of.
  destruct (find (fun x => u_id x =? u_id u) (users s)) as [x|] eqn:Hf.
  - apply find_some in Hf as [Hx _]. exists (u_last_seen x). split; [reflexivity|].
    now apply Hle.
  - exfalso. apply (find_none _ _ Hf) in Hin. now rewrite Z.eqb_refl in Hin.
Qed.

Lemma login_rows_match (s : store) (ident : jsval) (u : user) :
  In u (login_rows s ident)
  <-> In u (users s)
      /\ (pg_text ident = Some (u_username u) \/ pg_text ident = Some (u_email u)).
Proof.
  unfold login_rows. rewrite filter_In, orb_true_iff. unfold eqb_ostr.
  destruct (pg_text ident) as [i|].
  - rewrite !String.eqb_eq. split.
    + intros [H [-> | ->]]; auto.
    + intros [H [[= ->] | [= ->]]]; auto.
  - split; [intros [_ [H | H]]; discriminate | intros [_ [H | H]]; discriminate].
Qed.

Lemma login_row_in (e : env) (s : store) (ident : jsval) (u : user) :
  login_row e s ident = Some u ->
  In u (users s)
  /\ (pg_text ident = Some (u_username u) \/ pg_text ident = Some (u_email u)).
Proof.
  unfold login_row. intros H. apply login_rows_match, (store_order_in e).
  destruct (store_order e (login_rows s ident)) as [|x rows]; [discriminate|].
  injection H as ->. now left.
Qed.

Lemma login_row_none (e : env) (s : store) (ident : jsval) :
  login_row e s ident = None
  <-> forall u, In u (users s) ->
        pg_text ident <> Some (u_username u) /\ pg_text ident <> Some (u_email u).
Proof.
  unfold login_row. split.
  - intros H u Hu.
    destruct (store_order e (login_rows s ident)) as [|x rows] eqn:Hrows;
      [|discriminate].
    apply store_order_nil in Hrows.
    assert (Hno : ~ In u (login_rows s ident)) by (rewrite Hrows; intros []).
    rewrite login_rows_match in Hno. tauto.
  - intros H. destruct (store_order e (login_rows s ident)) as [|x rows] eqn:Hrows;
      [reflexivity|].
    assert (Hx : In x (store_order e (login_rows s ident)))
      by (rewrite Hrows; now left).
    apply store_order_in, login_rows_match in Hx as [Hx Hm].
    destruct (H x Hx). tauto.
Qed.

(** When the identifier is the username or the email of user [u] and of no
    other user, the lookup gives [u]. *)
Lemma login_row_unique (e : env) (s : store) (ident : jsval) (u : user) :
  In u (users s) ->
  pg_text ident = Some (u_username u) \/ pg_text ident = Some (u_email u) ->
  (forall u', In u' (users s) ->
     pg_text ident = Some (u_username u') \/ pg_text ident = Some (u_email u') ->
     u' = u) ->
  login_row e s ident = Some u.
Proof.
  intros Hin Hu Honly.
  destruct (login_row e s ident) as [x|] eqn:Hrow.
  - apply login_row_in in Hrow as [Hx Hm]. f_equal. now apply Honly.
  - exfalso. rewrite login_row_none in Hrow. destruct (Hrow u Hin). tauto.
Qed.

(** C5, as the code has it: with the store answering, a login whose
    identifier is the username or email of no user row, or whose password is
    a string that does not verify against the hash of the row the identifier
    is looked up to, is answered 401 with the one message
    "Invalid credentials" and changes nothing; a
    login whose password verifies is answered with that user's profile and a
    signed token, and sets that user's [last_seen] to the time of the
    request, which is not before the value it had (the clock of the requests
    never running backwards) and leaves the other users' as they were.  A
    password that is not a string, against a row that was found, and an
    identifier with a zero byte are answered 500, with nothing changed.  The
    row looked up is a user whose username or email is the identifier: the
    one there is when only one user matches, the one the store returns first
    otherwise. *)
Theorem login_outcomes (L : library) (e : env) (t : Z) (s : store)
    (ident password : jsval) :
  reachable_at L t s -> t <= now e -> pool e = PoolUp ->
  match text_param ident with
  | Err x => login L e ident password s = (s, raised 500 x)
  | Ok _ =>
      match login_row e s ident with
      | None =>
          login L e ident password s
          = (s, status_json 401 (BError "Invalid credentials"))
      | Some u =>
          match password with
          | JStr p =>
              if bcrypt_compare L p (u_password_hash u)
              then
                snd (login L e ident password s)
                = json (BLoggedIn (profile_of u)
                          (jwt_sign L (u_id u) (u_username u) (secret e) (now e)))
                /\ (exists old, last_seen_of s (u_id u) = Some old /\ old <= now e
                      /\ last_seen_of (fst (login L e ident password s)) (u_id u)
                         = Some (now e))
                /\ (forall id, id <> u_id u ->
                      last_seen_of (fst (login L e ident password s)) id
                      = last_seen_of s id)
              else
                login L e ident password s
                = (s, status_json 401 (BError "Invalid credentials"))
          | v =>
              login L e ident password s
              = (s, raised 500 (IllegalArguments (js_typeof v) "string"))
          end
      end
  end
  /\ (login_row e s ident = None
      <-> forall u, In u (users s) ->
            pg_text ident <> Some (u_username u) /\ pg_text ident <> Some (u_email u))
  /\ (forall u, login_row e s ident = Some u ->
        In u (users s)
        /\ (pg_text ident = Some (u_username u) \/ pg_text ident = Some (u_email u)))
  /\ (forall u, In u (users s) ->
        pg_text ident = Some (u_username u) \/ pg_text ident = Some (u_email u) ->
        (forall u', In u' (users s) ->
           pg_text ident = Some (u_username u') \/ pg_text ident = Some (u_email u') ->
           u' = u) ->
        login_row e s ident = Some u).
Proof.
  intros Hr Ht Hup.
  split; [|split; [apply login_row_none | split;
                   [apply login_row_in | apply login_row_unique]]].
  rewrite (login_unfold L e ident password s Hup).
  destruct (text_param ident) as [i|x]; [|reflexivity].
  destruct (login_row e s ident) as [u|] eqn:Hrow; [|reflexivity].
  destruct password; try reflexivity.
  destruct (bcrypt_compare L s0 (u_password_hash u)); [|reflexivity].
  pose proof (login_row_in e s ident u Hrow) as [Hin _].
  cbn [fst snd]. split; [reflexivity|]. split.
  - destruct (last_seen_known t s u (reachable_at_last_seen L t s Hr) Hin)
      as [old [Hold Hle]].
    exists old. repeat split; [exact Hold | lia |].
    unfold last_seen_of, logged_in_store. cbn [users set_users].
    now apply last_seen_touched.
  - intros id Hid. unfold last_seen_of, logged_in_store. cbn [users set_users].
    now apply last_seen_untouched.
Qed.

Lemma sample_store_reachable_at : reachable_at sample_library 50 sample_store.
Proof.
  unfold sample_store, fresh_store, scenario. cbn [serve].
  apply (at_step sample_library (at_time 50) _ 40); [|cbn; lia].
  apply (at_step sample_library (at_time 40) _ 30); [|cbn; lia].
  apply (at_step sample_library (at_time 30) _ 20); [|cbn; lia].
  apply (at_step sample_library (at_time 20) _ 10); [|cbn; lia].
  apply (at_step sample_library (at_time 10) _ 0); [|cbn; lia].
  apply (at_init sample_library (at_time 0)). reflexivity.
Qed.

Lemma login_outcomes_witness :
  reachable_at sample_library 50 sample_store /\ 50 <= now (at_time 60)
  /\ pool (at_time 60) = PoolUp
  /\ status (snd (login sample_library (at_time 60) (JStr "alice@nexus.com")
                    (JStr "wonderland") sample_store)) = 200
  /\ last_seen_of (fst (login sample_library (at_time 60) (JStr "alice@nexus.com")
                          (JStr "wonderland") sample_store)) 2 = Some 60
  /\ login sample_library (at_time 60) (JStr "alice@nexus.com") (JStr "rabbit")
       sample_store
     = (sample_store, status_json 401 (BError "Invalid credentials"))
  /\ login sample_library (at_time 60) (JStr "bob") (JStr "wonderland") sample_store
     = (sample_store, status_json 401 (BError "Invalid credentials")).
Proof.
  assert (Ht : 50 <= now (at_time 60)) by (cbn; lia).
  split; [exact sample_store_reachable_at|]. split; [exact Ht|].
  split; [reflexivity|].
  pose proof (login_outcomes sample_library (at_time 60) 50 sample_store
                (JStr "alice@nexus.com") (JStr "wonderland")
                sample_store_reachable_at Ht eq_refl) as [Hgood _].
  pose proof (login_outcomes sample_library (at_time 60) 50 sample_store
                (JStr "alice@nexus.com") (JStr "rabbit")
                sample_store_reachable_at Ht eq_refl) as [Hbad _].
  pose proof (login_outcomes sample_library (at_time 60) 50 sample_store
                (JStr "bob") (JStr "wonderland")
                sample_store_reachable_at Ht eq_refl) as [Hnone _].
  destruct (login_row (at_time 60) sample_store (JStr "alice@nexus.com")) as [u|]
    eqn:Hrow; [|vm_compute in Hrow; discriminate Hrow].
  assert (Hu : u_id u = 2
               /\ bcrypt_compare sample_library "wonderland" (u_password_hash u) = true
               /\ bcrypt_compare sample_library "rabbit" (u_password_hash u) = false).
  { vm_compute in Hrow. injection Hrow as <-. repeat split; vm_compute; reflexivity. }
  destruct Hu as [Hid [Hyes Hno]].
  assert (Ea : text_param (JStr "alice@nexus.com") = Ok (Some "alice@nexus.com"))
    by reflexivity.
  assert (Eb : text_param (JStr "bob") = Ok (Some "bob")) by reflexivity.
  rewrite Ea in Hgood, Hbad. rewrite Eb in Hnone.
  rewrite Hyes in Hgood. rewrite Hno in Hbad.
  destruct Hgood as (Hresp & (old & _ & _ & Hseen) & _). rewrite Hid in Hseen.
  split; [rewrite Hresp; reflexivity|]. split; [exact Hseen|]. split; [exact Hbad|].
  assert (Hnorow : login_row (at_time 60) sample_store (JStr "bob") = None)
    by (vm_compute; reflexivity).
  rewrite Hnorow in Hnone. exact Hnone.
Defined.

(** C5 as stated fails: a password that is not a string cannot match the
    hash, and the login of an existing user with one is answered 500, not
    401; so is a login whose identifier, of no user, holds a zero byte. *)
Lemma login_number_password :
  (exists u, In u (users sample_store) /\ u_email u = "alice@nexus.com")
  /\ status (snd (login sample_library (at_time 60) (JStr "alice@nexus.com")
                    (JNum 5) sample_store)) = 500
  /\ (forall u, In u (users sample_store) ->
        u_username u <> String "000" "" /\ u_email u <> String "000" "")
  /\ status (snd (login sample_library (at_time 60) (JStr (String "000" ""))
                    (JStr "wonderland") sample_store)) = 500.
Proof.
  split; [eexists; split; [vm_compute; right; left; reflexivity | reflexivity]|].
  split; [vm_compute; reflexivity|].
  split; [|vm_compute; reflexivity].
  intros u Hu. vm_compute in Hu.
  destruct Hu as [<- | [<- | []]]; split; discriminate.
Qed.

(** ** Fetching a topic *)

Lemma get_topic_unfold (e : env) (id : string) (z : Z) (s : store) :
  pool e = PoolUp -> int4in id = Ok z ->
  get_topic e id s =
  (viewed_store z s,
   match flat_map (joined (viewed_store z s))
           (filter (fun t => eqb_oZ (Some z) (t_id t)) (topics (viewed_store z s))) with
   | [] => status_json 404 (BError "Topic not found")
   | row :: _ => json (BTopic row)
   end).
Proof.
  intros Hup Hid. unfold get_topic, try_catch, query, update_topic_views, select_topic.
  unfold bind, lift, ret. rewrite Hup, (pg_int_route _ _ Hid). cbv beta iota.
  fold (viewed_store z s).
  destruct (flat_map _ _); reflexivity.
Qed.

Lemma filter_find {A} (f : A -> bool) (l : list A) :
  match find f l with
  | Some x => exists r, filter f l = x :: r
  | None => filter f l = []
  end.
Proof.
  induction l as [|a l IH]; cbn; [reflexivity|].
  destruct (f a); [eauto | exact IH].
Qed.

Lemma filter_head {A} (f : A -> bool) (l : list A) :
  existsb f l = true -> exists x r, filter f l = x :: r /\ In x l /\ f x = true.
Proof.
  intros H. destruct (filter f l) as [|x r] eqn:Hf.
  - apply existsb_exists in H as [y [Hy Hfy]].
    assert (Hin : In y (filter f l)) by (apply filter_In; auto).
    rewrite Hf in Hin. destruct Hin.
  - exists x, r. split; [reflexivity|]. apply filter_In. rewrite Hf. now left.
Qed.

Lemma existsb_pointwise {A} (f g : A -> bool) (l : list A) :
  (forall x, f x = g x) -> existsb f l = existsb g l.
Proof.
  intros H. induction l as [|x l IH]; cbn; [reflexivity|]. now rewrite H, IH.
Qed.

Lemma bump_views_hit (z : Z) (t : topic) :
  t_id t = z -> bump_views (Some z) t = with_views t (t_views t + 1).
Proof. intros <-. unfold bump_views. cbn [eqb_oZ]. now rewrite Z.eqb_refl. Qed.

Lemma with_views_bump (i : option Z) (t : topic) (n : Z) :
  with_views (bump_views i t) n = with_views t n.
Proof. unfold bump_views. destruct (eqb_oZ i (t_id t)); reflexivity. Qed.

Lemma bump_views_category (i : option Z) (t : topic) :
  t_category_id (bump_views i t) = t_category_id t.
Proof. unfold bump_views. destruct (eqb_oZ i (t_id t)); reflexivity. Qed.

Lemma find_bumped (z : Z) (l : list topic) :
  find (fun t => t_id t =? z) (map (bump_views (Some z)) l)
  = option_map (bump_views (Some z)) (find (fun t => t_id t =? z) l).
Proof.
  induction l as [|t l IH]; [reflexivity|]. cbn [map find].
  rewrite bump_views_id. destruct (t_id t =? z); [reflexivity | exact IH].
Qed.

Lemma views_of_viewed (z : Z) (s : store) :
  views_of (viewed_store z s) z = option_map (fun n => n + 1) (views_of s z).
Proof.
  unfold views_of, viewed_store. cbn [topics set_topics]. rewrite find_bumped.
  destruct (find _ (topics s)) as [t|] eqn:Hf; [|reflexivity].
  apply find_some in Hf as [_ Hid]. apply Z.eqb_eq in Hid.
  cbn. now rewrite (bump_views_hit z t Hid).
Qed.

Lemma views_of_viewed_other (z z' : Z) (s : store) :
  z' <> z -> views_of (viewed_store z s) z' = views_of s z'.
Proof.
  intros Hne. unfold views_of, viewed_store. cbn [topics set_topics].
  induction (topics s) as [|t l IH]; [reflexivity|]. cbn [map find].
  rewrite bump_views_id. destruct (t_id t =? z') eqn:Ht; [|exact IH].
  apply Z.eqb_eq in Ht. unfold bump_views. cbn [eqb_oZ option_map].
  replace (z =? t_id t) with false by (symmetry; apply Z.eqb_neq; lia). reflexivity.
Qed.

Lemma same_key_same_row {A} (f : A -> Z) (l : list A) (a b : A) :
  NoDup (map f l) -> In a l -> In b l -> f a = f b -> a = b.
Proof.
  induction l as [|x l IH]; [intros _ []|]. cbn. intros Hnd Ha Hb Hf.
  inversion Hnd as [|k ks Hnotin Hnd']; subst.
  destruct Ha as [-> | Ha], Hb as [-> | Hb]; auto.
  - exfalso. apply Hnotin. rewrite Hf. now apply in_map.
  - exfalso. apply Hnotin. rewrite <- Hf. now apply in_map.
Qed.

Lemma get_topic_found (e : env) (id : string) (z : Z) (s : store) (t0 : topic) :
  store_ok s -> pool e = PoolUp -> int4in id = Ok z ->
  find (fun t => t_id t =? z) (topics s) = Some t0 ->
  exists row, get_topic e id s = (viewed_store z s, json (BTopic row))
              /\ enriched s z (t_views t0 + 1) row.
Proof.
  intros Hs Hup Hid Hfind. rewrite (get_topic_unfold e id z s Hup Hid).
  pose proof (find_some _ _ Hfind) as [Hin Hz]. apply Z.eqb_eq in Hz.
  assert (Hfilter : exists r,
             filter (fun t => eqb_oZ (Some z) (t_id t)) (topics (viewed_store z s))
             = bump_views (Some z) t0 :: r).
  { pose proof (filter_find (fun t => t_id t =? z) (topics (viewed_store z s))) as H.
    unfold viewed_store in H at 1. cbn [topics set_topics] in H.
    rewrite find_bumped, Hfind in H. cbn [option_map] in H. destruct H as [r Hr].
    exists r. rewrite <- Hr. apply filter_ext. intros t. cbn. apply Z.eqb_sym. }
  destruct Hfilter as [r ->]. cbn [flat_map].
  destruct (ok_topic_author s Hs t0 Hin) as [a [Ha Hex]].
  destruct (filter_head (fun u => eqb_oZ (t_user_id t0) (u_id u)) (users s))
    as [u [us [Hus [Hu Hua]]]].
  { rewrite Ha. cbn. unfold has_user in Hex.
    erewrite existsb_pointwise; [exact Hex|]. intros x. apply Z.eqb_sym. }
  unfold joined at 1, authors_of. cbn [users viewed_store set_topics].
  rewrite bump_views_user, Hus. cbn [flat_map].
  rewrite Ha in Hua. cbn in Hua. apply Z.eqb_eq in Hua.
  assert (Hcat : exists c cs,
             categories_of (viewed_store z s) (bump_views (Some z) t0) = c :: cs
             /\ match t_category_id t0 with
                | None => c = None
                | Some k => (forall cat, In cat (categories s) -> c_id cat = k -> c = Some cat)
                end).
  { unfold categories_of. cbn [categories viewed_store set_topics].
    rewrite bump_views_category.
    destruct (filter (fun c => eqb_oZ (t_category_id t0) (c_id c)) (categories s))
      as [|c cs] eqn:Hf.
    - exists None, []. split; [reflexivity|]. destruct (t_category_id t0) as [k|]; [|reflexivity].
      intros cat Hcat Hk. exfalso.
      assert (H : In cat []) by (rewrite <- Hf; apply filter_In; split;
                                 [exact Hcat | cbn; now apply Z.eqb_eq]).
      destruct H.
    - exists (Some c), (map Some cs). split; [reflexivity|].
      assert (Hc : In c (categories s) /\ eqb_oZ (t_category_id t0) (c_id c) = true)
        by (apply (proj1 (filter_In (fun c => eqb_oZ (t_category_id t0) (c_id c)) c
                                   (categories s))); rewrite Hf; now left).
      destruct Hc as [Hc Hck]. destruct (t_category_id t0) as [k|]; [|discriminate].
      cbn in Hck. apply Z.eqb_eq in Hck. intros cat Hcat Hk. f_equal.
      apply (same_key_same_row c_id (categories s)); auto using ok_category_ids. lia. }
  destruct Hcat as [c [cs [-> Hc]]]. cbn [map app].
  eexists. split; [reflexivity|].
  exists t0, u. repeat split; auto.
  - cbn. rewrite (bump_views_hit z t0 Hz). reflexivity.
  - now rewrite Ha, Hua.
  - destruct (t_category_id t0) as [k|].
    + intros cat Hcat Hk. rewrite (Hc cat Hcat Hk). split; reflexivity.
    + subst c. split; reflexivity.
Qed.

Lemma get_topic_missing (e : env) (id : string) (z : Z) (s : store) :
  pool e = PoolUp -> int4in id = Ok z -> views_of s z = None ->
  get_topic e id s = (s, status_json 404 (BError "Topic not found")).
Proof.
  intros Hup Hid Hv. rewrite (get_topic_unfold e id z s Hup Hid).
  assert (Hnone : forall t, In t (topics s) -> (z =? t_id t) = false).
  { intros t Ht. unfold views_of in Hv.
    destruct (find _ (topics s)) eqn:Hf; [discriminate|].
    rewrite Z.eqb_sym. exact (find_none _ _ Hf t Ht). }
  assert (Hmap : map (bump_views (Some z)) (topics s) = topics s).
  { rewrite <- (map_id (topics s)) at 2. apply map_ext_in. intros t Ht.
    unfold bump_views. cbn [eqb_oZ]. now rewrite (Hnone t Ht). }
  assert (Hsame : viewed_store z s = s).
  { unfold viewed_store. rewrite Hmap. destruct s; reflexivity. }
  rewrite Hsame.
  replace (filter (fun t => eqb_oZ (Some z) (t_id t)) (topics s)) with (@nil topic);
    [reflexivity|].
  symmetry. clear - Hnone. induction (topics s) as [|t l IH]; [reflexivity|].
  cbn. rewrite (Hnone t (or_introl eq_refl)). apply IH. intros x Hx. apply Hnone. now right.
Qed.

Lemma enriched_viewed (z w : Z) (s : store) (row : topic_row) :
  enriched (viewed_store z s) z w row -> enriched s z w row.
Proof.
  intros (t1 & u & Hfind & Hrow & Hu & Hau & Hn & Hav & Hb & Hc).
  unfold viewed_store in Hfind. cbn [topics set_topics] in Hfind.
  rewrite find_bumped in Hfind.
  destruct (find (fun t => t_id t =? z) (topics s)) as [t0|] eqn:Hf; [|discriminate].
  injection Hfind as <-. exists t0, u.
  rewrite with_views_bump in Hrow. rewrite bump_views_user in Hau.
  rewrite bump_views_category in Hc. repeat split; auto.
Qed.

Lemma fetch_all_spec (es : list env) (id : string) (z : Z) :
  int4in id = Ok z -> Forall (fun e => pool e = PoolUp) es ->
  forall (s : store) (v : Z),
  store_ok s -> views_of s z = Some v ->
  views_of (fst (fetch_all es id s)) z = Some (v + Z.of_nat (List.length es))
  /\ (forall z', z' <> z -> views_of (fst (fetch_all es id s)) z' = views_of s z')
  /\ (forall k r, nth_error (snd (fetch_all es id s)) k = Some r ->
        exists row, r = json (BTopic row) /\ enriched s z (v + Z.of_nat k + 1) row)
  /\ List.length (snd (fetch_all es id s)) = List.length es.
Proof.
  intros Hid Hup. induction Hup as [|e es He Hes IH]; intros s v Hs Hv.
  - cbn. repeat split; auto.
    + rewrite Hv. f_equal. lia.
    + intros [|k] r; discriminate.
  - cbn [fetch_all].
    assert (Hfind : exists t0, find (fun t => t_id t =? z) (topics s) = Some t0
                               /\ t_views t0 = v).
    { unfold views_of in Hv. destruct (find _ (topics s)) as [t0|]; [|discriminate].
      injection Hv as Hv. eauto. }
    destruct Hfind as [t0 [Hfind Hv0]].
    destruct (get_topic_found e id z s t0 Hs He Hid Hfind) as [row [Hget Hrow]].
    rewrite Hget.
    assert (Hs1 : store_ok (viewed_store z s)).
    { apply store_ok_topics_map; auto using bump_views_id, bump_views_user. }
    assert (Hv1 : views_of (viewed_store z s) z = Some (v + 1))
      by (rewrite views_of_viewed, Hv; reflexivity).
    destruct (IH (viewed_store z s) (v + 1) Hs1 Hv1) as (I1 & I2 & I3 & I4).
    destruct (fetch_all es id (viewed_store z s)) as [s2 rs]. cbn [fst snd] in *.
    repeat split.
    + rewrite I1. f_equal. cbn [List.length]. lia.
    + intros z' Hz'. rewrite (I2 z' Hz'). now apply views_of_viewed_other.
    + intros [|k] r Hr; cbn [nth_error] in Hr.
      * injection Hr as <-. exists row. split; [reflexivity|].
        rewrite Hv0 in Hrow. cbn. replace (v + 0 + 1) with (v + 1) by lia. exact Hrow.
      * destruct (I3 k r Hr) as [row' [-> Hrow']]. exists row'. split; [reflexivity|].
        apply enriched_viewed.
        replace (v + Z.of_nat (S k) + 1) with (v + 1 + Z.of_nat k + 1) by lia.
        exact Hrow'.
    + cbn [List.length]. now rewrite I4.
Qed.

(** C6, as the code has it: with the store answering, fetching an existing
    topic n times in a row adds exactly n to its views and leaves the views of
    the other topics alone; the k-th fetch answers 200 with the stored topic
    at its new count of views, with its author's and category's columns.
    Fetching an integer that no topic row carries answers 404 "Topic not
    found" and changes nothing.  An id that the store does not read as an
    integer of 32 bits answers 500 with the store's message, and changes
    nothing. *)
Theorem fetches_count_views (L : library) (es : list env) (e : env) (id : string)
    (s : store) :
  reachable L s -> Forall (fun e => pool e = PoolUp) es -> pool e = PoolUp ->
  match int4in id with
  | Ok z =>
      match views_of s z with
      | Some v =>
          views_of (fst (fetch_all es id s)) z = Some (v + Z.of_nat (List.length es))
          /\ (forall z', z' <> z ->
                views_of (fst (fetch_all es id s)) z' = views_of s z')
          /\ (forall k r, nth_error (snd (fetch_all es id s)) k = Some r ->
                exists row,
                  r = json (BTopic row) /\ enriched s z (v + Z.of_nat k + 1) row)
          /\ List.length (snd (fetch_all es id s)) = List.length es
      | None => get_topic e id s = (s, status_json 404 (BError "Topic not found"))
      end
  | Err x => get_topic e id s = (s, raised 500 x)
  end.
Proof.
  intros Hr Hes He. apply reachable_ok in Hr.
  destruct (int4in id) as [z|x] eqn:Hid.
  - destruct (views_of s z) as [v|] eqn:Hv.
    + now apply fetch_all_spec.
    + now apply get_topic_missing with (z := z).
  - unfold get_topic, try_catch, query, update_topic_views. unfold bind, lift.
    unfold pg_int. cbn [pg_text]. rewrite Hid, He. reflexivity.
Qed.

Lemma fetches_count_views_witness :
  reachable sample_library sample_store
  /\ Forall (fun e => pool e = PoolUp) [at_time 60; at_time 61; at_time 62]
  /\ pool (at_time 63) = PoolUp /\ int4in "1" = Ok 1
  /\ views_of sample_store 1 = Some 1
  /\ views_of (fst (fetch_all [at_time 60; at_time 61; at_time 62] "1" sample_store)) 1
     = Some 4.
Proof.
  assert (Hr : reachable sample_library sample_store)
    by (apply reachable_serve; now constructor).
  assert (Hes : Forall (fun e => pool e = PoolUp) [at_time 60; at_time 61; at_time 62])
    by (repeat constructor).
  split; [exact Hr|]. split; [exact Hes|]. split; [reflexivity|].
  assert (Hid : int4in "1" = Ok 1) by (vm_compute; reflexivity).
  split; [exact Hid|].
  assert (Hv : views_of sample_store 1 = Some 1) by (vm_compute; reflexivity).
  split; [exact Hv|].
  pose proof (fetches_count_views sample_library [at_time 60; at_time 61; at_time 62]
                (at_time 63) "1" sample_store Hr Hes eq_refl) as H.
  rewrite Hid, Hv in H. destruct H as [H _]. exact H.
Defined.

(** C6 as stated fails for an id that is no integer of 32 bits: no topic row
    carries 2147483648, nor [abc], and the fetch answers 500 with the
    store's message where the claim has 404. *)
Lemma get_topic_id_out_of_range :
  (forall t, In t (topics sample_store) -> t_id t <> 2147483648)
  /\ get_topic (at_time 60) "2147483648" sample_store
     = (sample_store, raised 500 (OutOfRange "integer" "2147483648"))
  /\ get_topic (at_time 60) "abc" sample_store
     = (sample_store, raised 500 (InvalidInput "integer" "abc"))
  /\ status (snd (get_topic (at_time 60) "2147483648" sample_store)) <> 404.
Proof.
  split.
  - intros t Hin. vm_compute in Hin. destruct Hin as [<- | []]. vm_compute. discriminate.
  - split; [vm_compute; reflexivity|]. split; [vm_compute; reflexivity|].
    vm_compute. discriminate.
Qed.

(** ** The health check *)

(** C9: the health check always answers with status 200 and leaves the store
    alone.  When the store answers, the body says healthy and connected and
    counts the categories; when the query fails, the failure shows in the
    body only: status "unhealthy", database "error", the error's message, and
    its stack unless NODE_ENV is "production". *)
Theorem health_always_200 (e : env) (s : store) :
  status (snd (health e s)) = 200
  /\ fst (health e s) = s
  /\ body_of (snd (health e s))
     = match pool e with
       | PoolUp =>
           BHealth {| h_status := "healthy"; h_database := "connected";
                      h_categories := Some (Z.of_nat (List.length (categories s)));
                      h_error := None; h_stack := None |}
       | PoolDown err =>
           BHealth {| h_status := "unhealthy"; h_database := "error";
                      h_categories := None;
                      h_error := Some (message err);
                      h_stack := if eqb_ostr (NODE_ENV e) "production"
                                 then None else Some (stack err) |}
       end.
Proof.
  unfold health, try_catch, query, count_categories. unfold bind, ret.
  destruct (pool e); repeat split.
Qed.

(** ** Running [initDB] again *)

Lemma initDB_again (L : library) (e1 e2 : env) :
  hash_fits L -> pool e1 = PoolUp -> pool e2 = PoolUp ->
  map c_name (categories (initDB L e2 (initDB L e1 empty_store)))
  = (map c_name (categories (initDB L e1 empty_store))
     ++ map c_name (categories (initDB L e1 empty_store)))%list
  /\ List.length (categories (initDB L e1 empty_store)) = 4%nat
  /\ users (initDB L e2 (initDB L e1 empty_store)) = users (initDB L e1 empty_store).
Proof.
  intros Hfit H1 H2.
  assert (E1 : initDB L e1 empty_store =
               {| users := [{| u_id := 1; u_username := "admin";
                               u_email := "admin@nexus.com";
                               u_password_hash := bcrypt_hash L "admin123" (salt e1);
                               u_avatar_url := None;
                               u_bio := Some "Forum Administrator";
                               u_created_at := now e1; u_last_seen := now e1 |}];
                  users_seq := 2;
                  categories :=
                    map (fun r : Z * (string * string * string * string) =>
                           let '(i, (n, d, c, k)) := r in
                           {| c_id := i; c_name := n; c_description := Some d;
                              c_color := Some c; c_icon := Some k;
                              c_created_at := now e1 |})
                        (combine [1; 2; 3; 4] default_categories);
                  categories_seq := 5;
                  topics := []; topics_seq := 1; posts := []; posts_seq := 1;
                  likes := []; likes_seq := 1 |}).
  { unfold initDB, try_catch, query, bind, hash, ret. rewrite H1. cbv beta iota.
    unfold atomic_categories, insert_user_unless_username, insert_user, bind, ret.
    pose proof (Hfit "admin123" (salt e1)) as Hlen. apply Z.ltb_ge in Hlen.
    cbn. rewrite Hlen. reflexivity. }
  rewrite E1.
  unfold initDB, try_catch, query, bind, hash, ret. rewrite H2. cbv beta iota.
  unfold atomic_categories, insert_user_unless_username, insert_user, bind, ret.
  pose proof (Hfit "admin123" (salt e2)) as Hlen. apply Z.ltb_ge in Hlen.
  cbn. rewrite Hlen. repeat split.
Qed.

(** C3 (the code departs from the claim): after a second run of [initDB] the
    four default categories are stored twice, under new ids; the admin row is
    not stored again. *)
Theorem initDB_twice_duplicates_categories :
  map c_name (categories fresh_store)
  = ["General Discussion"; "Announcements"; "Help & Support"; "Feature Requests"]
  /\ map c_name (categories (initDB sample_library (at_time 100) fresh_store))
     = ["General Discussion"; "Announcements"; "Help & Support"; "Feature Requests";
        "General Discussion"; "Announcements"; "Help & Support"; "Feature Requests"]
  /\ map c_id (categories (initDB sample_library (at_time 100) fresh_store))
     = [1; 2; 3; 4; 5; 6; 7; 8]
  /\ users (initDB sample_library (at_time 100) fresh_store) = users fresh_store.
Proof. vm_compute. repeat split. Qed.

(** ** The listing of topics *)

Lemma insert_by_perm {A} (before : A -> A -> bool) (x : A) (l : list A) :
  Permutation (insert_by before x l) (x :: l).
Proof.
  induction l as [|y l IH]; cbn; [reflexivity|].
  destruct (before x y); [reflexivity|].
  rewrite IH. apply perm_swap.
Qed.

Lemma order_by_perm {A} (before : A -> A -> bool) (l : list A) :
  Permutation (order_by before l) l.
Proof.
  induction l as [|x l IH]; cbn; [reflexivity|].
  rewrite insert_by_perm. now constructor.
Qed.

Section Ordering.

Variable A : Type.
Variable before : A -> A -> bool.
Hypothesis before_total : forall a b, before a b = true \/ before b a = true.
Hypothesis before_trans :
  forall a b c, before a b = true -> before b c = true -> before a c = true.

Lemma insert_by_sorted (x : A) (l : list A) :
  StronglySorted (fun a b => before a b = true) l ->
  StronglySorted (fun a b => before a b = true) (insert_by before x l).
Proof.
  induction 1 as [|y l Hl IH Hy]; cbn; [repeat constructor|].
  destruct (before x y) eqn:Hxy.
  - constructor; [now constructor|]. constructor; [exact Hxy|].
    eapply Forall_impl; [|exact Hy]. intros z Hz. cbn in *. eauto.
  - constructor; [exact IH|].
    eapply Permutation_Forall; [symmetry; apply insert_by_perm|].
    constructor; [|exact Hy].
    destruct (before_total x y) as [H | H]; [congruence | exact H].
Qed.

Lemma order_by_sorted (l : list A) :
  StronglySorted (fun a b => before a b = true) (order_by before l).
Proof.
  induction l as [|x l IH]; cbn; [constructor | now apply insert_by_sorted].
Qed.

End Ordering.

Lemma in_firstn {A} (n : nat) (l : list A) (x : A) : In x (firstn n l) -> In x l.
Proof.
  revert l. induction n as [|n IH]; intros [|y l]; cbn; try (intros []; fail).
  intros [-> | H]; auto.
Qed.

Lemma in_skipn {A} (n : nat) (l : list A) (x : A) : In x (skipn n l) -> In x l.
Proof.
  revert l. induction n as [|n IH]; intros [|y l]; cbn; auto.
Qed.

Lemma StronglySorted_skipn {A} (R : A -> A -> Prop) (n : nat) (l : list A) :
  StronglySorted R l -> StronglySorted R (skipn n l).
Proof.
  revert l. induction n as [|n IH]; intros l Hl; [exact Hl|].
  destruct l as [|x l]; [constructor|]. cbn. apply IH. now inversion Hl.
Qed.

Lemma StronglySorted_firstn {A} (R : A -> A -> Prop) (n : nat) (l : list A) :
  StronglySorted R l -> StronglySorted R (firstn n l).
Proof.
  revert l. induction n as [|n IH]; intros l Hl; [constructor|].
  destruct l as [|x l]; [constructor|]. cbn. inversion Hl as [|? ? Hl' Hx]; subst.
  constructor; [now apply IH|].
  apply Forall_forall. intros y Hy. apply in_firstn in Hy.
  rewrite Forall_forall in Hx. now apply Hx.
Qed.

Lemma StronglySorted_impl {A} (R R' : A -> A -> Prop) (l : list A) :
  (forall a b, R a b -> R' a b) -> StronglySorted R l -> StronglySorted R' l.
Proof.
  intros H. induction 1 as [|x l Hl IH Hx]; constructor; [exact IH|].
  eapply Forall_impl; [|exact Hx]. intros y. apply H.
Qed.

Lemma topic_before_total (a b : topic) :
  topic_before a b = true \/ topic_before b a = true.
Proof.
  unfold topic_before.
  destruct (t_is_pinned a), (t_is_pinned b); cbn; auto;
    rewrite !Z.leb_le; lia.
Qed.

Lemma topic_before_trans (a b c : topic) :
  topic_before a b = true -> topic_before b c = true -> topic_before a c = true.
Proof.
  unfold topic_before.
  destruct (t_is_pinned a), (t_is_pinned b), (t_is_pinned c); cbn;
    try discriminate; auto; rewrite !Z.leb_le; lia.
Qed.

Lemma topic_before_listed (a b : topic) :
  topic_before a b = true -> listed_before a b.
Proof.
  unfold topic_before, listed_before.
  destruct (t_is_pinned a), (t_is_pinned b); cbn; try discriminate; auto;
    rewrite Z.leb_le; auto.
Qed.

(** In a store that meets the schema the join gives one row per topic. *)
Lemma filter_by_key_single {A} (f : A -> Z) (l : list A) (k : Z) (x : A) :
  NoDup (map f l) -> In x l -> f x = k ->
  filter (fun y => k =? f y) l = [x].
Proof.
  induction l as [|y l IH]; [intros _ []|]. cbn. intros Hnd Hin Hk.
  inversion Hnd as [|? ? Hnotin Hnd']; subst.
  destruct Hin as [-> | Hin].
  - rewrite Z.eqb_refl. f_equal.
    destruct (filter (fun y => f x =? f y) l) as [|z r] eqn:Hf; [reflexivity|].
    exfalso. apply Hnotin.
    assert (Hz : In z (filter (fun y => f x =? f y) l)) by (rewrite Hf; now left).
    apply filter_In in Hz as [Hz Heq]. apply Z.eqb_eq in Heq. rewrite Heq.
    now apply in_map.
  - destruct (f x =? f y) eqn:Hxy; [|now apply IH].
    exfalso. apply Hnotin. apply Z.eqb_eq in Hxy. rewrite <- Hxy. now apply in_map.
Qed.

Lemma filter_by_key_none {A} (f : A -> Z) (l : list A) (k : Z) :
  (forall x, In x l -> f x <> k) -> filter (fun y => k =? f y) l = [].
Proof.
  induction l as [|y l IH]; [reflexivity|]. cbn. intros H.
  replace (k =? f y) with false
    by (symmetry; apply Z.eqb_neq; intros E; apply (H y); auto).
  apply IH. intros x Hx. apply H. now right.
Qed.

Lemma joined_single (s : store) (t : topic) :
  store_ok s -> In t (topics s) ->
  exists row, joined s t = [row] /\ tr_topic row = t.
Proof.
  intros Hs Ht. destruct (ok_topic_author s Hs t Ht) as [a [Ha Hex]].
  unfold has_user in Hex. apply existsb_exists in Hex as [u [Hu Hid]].
  apply Z.eqb_eq in Hid.
  unfold joined, authors_of. rewrite Ha. cbn [eqb_oZ].
  rewrite (filter_by_key_single u_id (users s) a u (ok_user_ids s Hs) Hu Hid).
  cbn [flat_map]. rewrite app_nil_r. unfold categories_of.
  destruct (t_category_id t) as [k|]; cbn [eqb_oZ].
  - destruct (existsb (fun c => c_id c =? k) (categories s)) eqn:Hc.
    + apply existsb_exists in Hc as [c [Hc Hk]]. apply Z.eqb_eq in Hk.
      rewrite (filter_by_key_single c_id (categories s) k c (ok_category_ids s Hs) Hc Hk).
      cbn. eauto.
    + rewrite filter_by_key_none; [cbn; eauto|].
      intros c Hin Hk.
      assert (existsb (fun c => c_id c =? k) (categories s) = true)
        by (apply existsb_exists; exists c; split; [exact Hin | now apply Z.eqb_eq]).
      congruence.
  - replace (filter (fun _ : category => false) (categories s)) with (@nil category).
    + cbn. eauto.
    + clear. induction (categories s) as [|c l IH]; cbn; auto.
Qed.

Lemma listed_topics (s : store) (c : option (option Z)) :
  store_ok s ->
  map ti_topic (listed s c) = filter (in_category c) (topics s).
Proof.
  intros Hs. unfold listed.
  assert (H : forall t, In t (filter (in_category c) (topics s)) -> In t (topics s))
    by (intros t Ht; now apply filter_In in Ht).
  induction (filter (in_category c) (topics s)) as [|t l IH]; [reflexivity|].
  cbn [flat_map]. rewrite map_app, map_app.
  destruct (joined_single s t Hs (H t (or_introl eq_refl))) as [row [-> Hrow]].
  cbn. rewrite Hrow. f_equal. apply IH. intros x Hx. apply H. now right.
Qed.

(** ** Decimal literals, as JavaScript and the store read them *)

Ltac digit_cases c H :=
  destruct c as [[] [] [] [] [] [] [] []]; vm_compute in H; try discriminate H.

Lemma digit_of_10 (c : ascii) (d : Z) : digit c = Some d -> digit_of 10 c = Some d.
Proof. intros H. digit_cases c H; exact H. Qed.

Lemma digit_nonneg (c : ascii) (d : Z) : digit c = Some d -> 0 <= d <= 9.
Proof. intros H. digit_cases c H; injection H as <-; lia. Qed.

Lemma digits_ge (r : string) (acc v : Z) : digits acc r = Some v -> 0 <= acc -> acc <= v.
Proof.
  revert acc. induction r as [|c r IH]; intros acc; cbn [digits].
  - intros [= <-] _. lia.
  - destruct (digit c) as [d|] eqn:Hd; [|discriminate]. intros H Hacc.
    apply digit_nonneg in Hd. specialize (IH _ H). lia.
Qed.

Lemma digits_leading (r : string) (acc count v : Z) :
  digits acc r = Some v ->
  leading 10 acc count r = (v, count + Z.of_nat (String.length r), "").
Proof.
  revert acc count. induction r as [|c r IH]; intros acc count; cbn [digits leading].
  - intros [= <-]. cbn. now rewrite Z.add_0_r.
  - destruct (digit c) as [d|] eqn:Hd; [|discriminate]. intros H.
    rewrite (digit_of_10 c d Hd), (IH _ (count + 1) H). cbn [String.length].
    f_equal. f_equal. lia.
Qed.

Lemma digits_no_nul (r : string) (acc v : Z) : digits acc r = Some v -> has_nul r = false.
Proof.
  revert acc. induction r as [|c r IH]; intros acc; cbn [digits has_nul]; [reflexivity|].
  destruct (digit c) as [d|] eqn:Hd; [|discriminate]. intros H.
  rewrite (IH _ H). digit_cases c Hd; reflexivity.
Qed.

Lemma digits_scan (r : string) (limit acc v : Z) (first any : bool) :
  digits acc r = Some v -> 0 <= acc -> v <= 10 * limit + 9 -> 0 <= limit ->
  scan_digits 10 limit first any acc r
  = Digits v (any || negb (String.eqb r "")) "".
Proof.
  revert acc any. induction r as [|c r IH]; intros acc any; cbn [digits scan_digits].
  - intros [= <-] _ _ _. now rewrite orb_false_r.
  - destruct (digit c) as [d|] eqn:Hd; [|discriminate]. intros H Hacc Hv Hl.
    rewrite (digit_of_10 c d Hd).
    pose proof (digit_nonneg c d Hd) as Hd9.
    pose proof (digits_ge r _ v H ltac:(lia)) as Hge.
    replace (limit <? acc) with false by (symmetry; apply Z.ltb_ge; lia).
    replace (acc * 10 + d) with (10 * acc + d) by lia.
    rewrite (IH _ true H) by lia. cbn. now rewrite orb_true_r.
Qed.

Lemma trim_start_digit (c : ascii) (d : Z) (r : string) :
  digit c = Some d -> trim_start (String c r) = String c r.
Proof.
  intros H. digit_cases c H; destruct r as [|c' [|c'' r'']]; reflexivity.
Qed.

Lemma skip_spaces_digit (c : ascii) (d : Z) (r : string) :
  digit c = Some d -> skip_spaces (String c r) = String c r.
Proof. intros H. digit_cases c H; reflexivity. Qed.

(** The unsigned part of a plain literal, read by JavaScript. *)
Lemma unsigned_decimal_digits (neg : bool) (c : ascii) (r : string) (v : Z) :
  digits 0 (String c r) = Some v -> Z.abs v <= TWO_53 ->
  unsigned_decimal neg (String c r) = Some (JFin (if neg then - v else v) 0, "").
Proof.
  intros H Hv. unfold unsigned_decimal.
  assert (Hc : exists d, digit c = Some d).
  { cbn [digits] in H. destruct (digit c) as [d|]; [eauto | discriminate]. }
  destruct Hc as [d Hd].
  replace (starts_with "Infinity" (String c r)) with (@None string)
    by (digit_cases c Hd; reflexivity).
  rewrite (digits_leading _ 0 0 v H).
  cbn [String.length]. cbv beta iota zeta.
  replace (0 + Z.of_nat (S (String.length r)) =? 0) with false
    by (symmetry; apply Z.eqb_neq; lia).
  cbn [andb exponent_part]. unfold decimal_value.
  change (0 - 0) with 0. change (0 <=? 0) with true. cbv beta iota.
  rewrite Z.pow_0_r, Z.mul_1_r. unfold rounded.
  replace (Z.abs (if neg then - v else v) <=? TWO_53) with true
    by (symmetry; apply Z.leb_le; destruct neg; lia).
  reflexivity.
Qed.

Lemma numeric_literal_digits (c : ascii) (r : string) (v : Z) :
  digits 0 (String c r) = Some v ->
  numeric_literal (String c r) = unsigned_decimal false (String c r).
Proof.
  intros H. cbn [digits] in H. destruct (digit c) as [d|] eqn:Hd; [|discriminate].
  digit_cases c Hd; try reflexivity.
  destruct r as [|c' r']; [reflexivity|].
  cbn [digits] in H. destruct (digit c') as [d'|] eqn:Hd'; [|discriminate].
  digit_cases c' Hd'; reflexivity.
Qed.

(** ToNumber of a plain literal is its value, up to 2^53. *)
Lemma string_to_number_literal (s : string) (z : Z) :
  int_literal s = Some z -> Z.abs z <= TWO_53 -> string_to_number s = JFin z 0.
Proof.
  intros H Hz. destruct s as [|c r]; [discriminate|].
  assert (Hcases : (c = "-"%char /\ exists c' r' v, r = String c' r'
                                     /\ digits 0 r = Some v /\ z = - v)
                   \/ (c = "+"%char /\ exists c' r', r = String c' r'
                                        /\ digits 0 r = Some z)
                   \/ ((exists d, digit c = Some d) /\ digits 0 (String c r) = Some z)).
  { destruct c as [[] [] [] [] [] [] [] []]; cbn in H;
      try discriminate H;
      try (right; right; split; [eexists; reflexivity | exact H]).
    - right. left. split; [reflexivity|]. destruct r as [|c' r']; [discriminate|]. eauto.
    - left. split; [reflexivity|]. destruct r as [|c' r']; [discriminate|].
      destruct (digits 0 (String c' r')) as [v|] eqn:Hv; [|discriminate].
      injection H as <-. eauto 6. }
  unfold string_to_number.
  destruct Hcases as [[-> (c' & r' & v & -> & Hv & ->)]
                     | [[-> (c' & r' & -> & Hv)] | [[d Hd] Hv]]].
  - replace (trim_start (String "-" (String c' r'))) with (String "-" (String c' r'))
      by (destruct r' as [|? [|? ?]]; reflexivity).
    cbn [String.eqb Ascii.eqb numeric_literal].
    change (String.eqb (String "-" (String c' r')) "") with false. cbv beta iota.
    rewrite (unsigned_decimal_digits true c' r' v Hv) by lia. reflexivity.
  - replace (trim_start (String "+" (String c' r'))) with (String "+" (String c' r'))
      by (destruct r' as [|? [|? ?]]; reflexivity).
    change (String.eqb (String "+" (String c' r')) "") with false. cbv beta iota.
    cbn [numeric_literal].
    rewrite (unsigned_decimal_digits false c' r' z Hv) by lia. reflexivity.
  - rewrite (trim_start_digit c d r Hd).
    change (String.eqb (String c r) "") with false. cbv beta iota.
    rewrite (numeric_literal_digits c r z Hv).
    rewrite (unsigned_decimal_digits false c r z Hv) by lia. reflexivity.
Qed.

Lemma scan_integer_digits (bound : Z) (c : ascii) (r : string) (v : Z) :
  digits 0 (String c r) = Some v -> 0 <= bound -> v <= bound ->
  scan_integer bound (String c r) = Digits v true "".
Proof.
  intros H Hb Hv.
  assert (Hscan : scan_digits 10 (bound / 10) false false 0 (String c r)
                  = Digits v true "").
  { rewrite (digits_scan _ _ 0 v false false H); [reflexivity | lia | | ].
    - pose proof (Z.div_mod bound 10 ltac:(lia)).
      pose proof (Z.mod_pos_bound bound 10 ltac:(lia)). lia.
    - apply Z.div_pos; lia. }
  rewrite <- Hscan. unfold scan_integer.
  cbn [digits] in H. destruct (digit c) as [d|] eqn:Hd; [|discriminate].
  digit_cases c Hd; try reflexivity.
  destruct r as [|c' r']; [reflexivity|].
  cbn [digits] in H. destruct (digit c') as [d'|] eqn:Hd'; [|discriminate].
  digit_cases c' Hd'; reflexivity.
Qed.

(** The store reads a plain literal as its value, within the type. *)
Lemma integer_input_literal (bits : Z) (type s : string) (z : Z) :
  1 < bits -> int_literal s = Some z ->
  - 2 ^ (bits - 1) <= z < 2 ^ (bits - 1) ->
  integer_input bits type s = Ok z.
Proof.
  intros Hbits H Hz. destruct s as [|c r]; [discriminate|].
  assert (Hb : 0 < 2 ^ (bits - 1)) by (apply Z.pow_pos_nonneg; lia).
  assert (Hcases : (c = "-"%char /\ exists c' r' v, r = String c' r'
                                     /\ digits 0 r = Some v /\ z = - v)
                   \/ (c = "+"%char /\ exists c' r', r = String c' r'
                                        /\ digits 0 r = Some z)
                   \/ ((exists d, digit c = Some d) /\ digits 0 (String c r) = Some z)).
  { destruct c as [[] [] [] [] [] [] [] []]; cbn in H;
      try discriminate H;
      try (right; right; split; [eexists; reflexivity | exact H]).
    - right. left. split; [reflexivity|]. destruct r as [|c' r']; [discriminate|]. eauto.
    - left. split; [reflexivity|]. destruct r as [|c' r']; [discriminate|].
      destruct (digits 0 (String c' r')) as [v|] eqn:Hv; [|discriminate].
      injection H as <-. eauto 6. }
  unfold integer_input.
  destruct Hcases as [[-> (c' & r' & v & -> & Hv & ->)]
                     | [[-> (c' & r' & -> & Hv)] | [[d Hd] Hv]]].
  - replace (has_nul (String "-" (String c' r'))) with (has_nul (String c' r'))
      by reflexivity.
    rewrite (digits_no_nul _ _ _ Hv).
    change (skip_spaces (String "-" (String c' r'))) with (String "-" (String c' r')).
    cbn [strip_sign]. cbv beta iota zeta.
    pose proof (digits_ge _ _ _ Hv ltac:(lia)).
    rewrite (scan_integer_digits _ c' r' v Hv) by lia.
    cbn [negb orb skip_spaces String.eqb].
    replace (2 ^ (bits - 1) <? v) with false by (symmetry; apply Z.ltb_ge; lia).
    reflexivity.
  - replace (has_nul (String "+" (String c' r'))) with (has_nul (String c' r'))
      by reflexivity.
    rewrite (digits_no_nul _ _ _ Hv).
    change (skip_spaces (String "+" (String c' r'))) with (String "+" (String c' r')).
    cbn [strip_sign]. cbv beta iota zeta.
    pose proof (digits_ge _ _ _ Hv ltac:(lia)).
    rewrite (scan_integer_digits _ c' r' z Hv) by lia.
    cbn [negb orb skip_spaces String.eqb].
    replace (2 ^ (bits - 1) - 1 <? z) with false by (symmetry; apply Z.ltb_ge; lia).
    reflexivity.
  - rewrite (digits_no_nul _ _ _ Hv), (skip_spaces_digit c d r Hd).
    replace (strip_sign (String c r)) with (false, String c r)
      by (digit_cases c Hd; reflexivity).
    cbv beta iota zeta.
    pose proof (digits_ge _ _ _ Hv ltac:(lia)).
    rewrite (scan_integer_digits _ c r z Hv) by lia.
    cbn [negb orb skip_spaces String.eqb].
    replace (2 ^ (bits - 1) - 1 <? z) with false by (symmetry; apply Z.ltb_ge; lia).
    reflexivity.
Qed.

Lemma int8in_literal (s : string) (z : Z) :
  int_literal s = Some z -> in_int8 z = true -> int8in s = Ok z.
Proof.
  intros H Hz. apply integer_input_literal; [lia | exact H |].
  unfold in_int8, INT8_MIN, INT8_MAX in Hz. apply andb_true_iff in Hz as [H1 H2].
  apply Z.leb_le in H1, H2. change (2 ^ (64 - 1)) with 9223372036854775808. lia.
Qed.

Lemma int4in_literal (s : string) (z : Z) :
  int_literal s = Some z -> in_int4 z = true -> int4in s = Ok z.
Proof.
  intros H Hz. apply integer_input_literal; [lia | exact H |].
  unfold in_int4, INT_MIN, INT_MAX in Hz. apply andb_true_iff in Hz as [H1 H2].
  apply Z.leb_le in H1, H2. change (2 ^ (32 - 1)) with 2147483648. lia.
Qed.

Lemma number_to_string_integer (z : Z) :
  Z.abs z <= TWO_53 -> number_to_string (JFin z 0) = string_of_Z z.
Proof.
  intros Hz. unfold number_to_string.
  replace (Z.abs z <=? TWO_53) with true by (symmetry; apply Z.leb_le; lia).
  reflexivity.
Qed.

Lemma number_of_Z_integer (z : Z) : Z.abs z <= TWO_53 -> number_of_Z z = JFin z 0.
Proof.
  intros Hz. unfold number_of_Z, rounded.
  replace (Z.abs z <=? TWO_53) with true by (symmetry; apply Z.leb_le; lia).
  reflexivity.
Qed.

(** [(p - 1) * l] on integers, as long as the two results are within 2^53. *)
Lemma offset_integer (p l : Z) :
  Z.abs (p - 1) <= TWO_53 -> Z.abs ((p - 1) * l) <= TWO_53 ->
  js_mul (js_sub (JFin p 0) (JFin 1 0)) (JFin l 0) = JFin ((p - 1) * l) 0.
Proof.
  intros H1 H2. unfold js_sub. cbn [Z.max Z.compare]. change (0 - 0) with 0.
  rewrite Z.pow_0_r, !Z.mul_1_r. unfold rounded at 1.
  replace (Z.abs (p - 1) <=? TWO_53) with true by (symmetry; apply Z.leb_le; lia).
  cbn [Z.eqb andb js_mul]. change (0 + 0) with 0. unfold rounded.
  replace (Z.abs ((p - 1) * l) <=? TWO_53) with true by (symmetry; apply Z.leb_le; lia).
  reflexivity.
Qed.

Lemma string_of_uint_decimal (d : Decimal.uint) :
  d <> Decimal.Nil -> decimal_text (NilEmpty.string_of_uint d).
Proof.
  intros Hd. destruct d as [|d|d|d|d|d|d|d|d|d|d]; [now destruct Hd|..];
    (split; [discriminate|]); destruct d; cbn; try exact I; discriminate.
Qed.

Lemma string_of_Z_pos (p : positive) :
  string_of_Z (Z.pos p) = NilEmpty.string_of_uint (Pos.to_uint p)
  /\ string_of_Z (Z.neg p) = String "-" (NilEmpty.string_of_uint (Pos.to_uint p)).
Proof.
  unfold string_of_Z. cbn [Z.to_int NilZero.string_of_int].
  unfold NilZero.string_of_uint.
  pose proof (DecimalPos.Unsigned.to_uint_nonnil p) as Hnil.
  destruct (Pos.to_uint p); [now destruct Hnil|..]; split; reflexivity.
Qed.

Lemma digits_uint_acc (d : Decimal.uint) (acc : positive) :
  digits (Z.pos acc) (NilEmpty.string_of_uint d) = Some (Z.pos (Pos.of_uint_acc d acc)).
Proof.
  revert acc.
  induction d as [|d IH|d IH|d IH|d IH|d IH|d IH|d IH|d IH|d IH|d IH]; intros acc;
    [reflexivity|..];
    cbn [NilEmpty.string_of_uint digits Pos.of_uint_acc];
    match goal with
    | |- context [digit ?c] =>
        let v := eval vm_compute in (digit c) in change (digit c) with v
    end;
    cbv beta iota; rewrite <- IH; f_equal; lia.
Qed.

Lemma digits_uint (d : Decimal.uint) :
  digits 0 (NilEmpty.string_of_uint d) = Some (Z.of_N (Pos.of_uint d)).
Proof.
  induction d as [|d IH|d IH|d IH|d IH|d IH|d IH|d IH|d IH|d IH|d IH];
    [reflexivity|exact IH|..];
    cbn [NilEmpty.string_of_uint digits Pos.of_uint];
    match goal with
    | |- context [digit ?c] =>
        let v := eval vm_compute in (digit c) in change (digit c) with v
    end;
    cbv beta iota; apply digits_uint_acc.
Qed.

Lemma int_literal_pos (p : positive) : int_literal (string_of_Z (Z.pos p)) = Some (Z.pos p).
Proof.
  rewrite (proj1 (string_of_Z_pos p)).
  pose proof (digits_uint (Pos.to_uint p)) as Hval.
  rewrite DecimalPos.Unsigned.of_to in Hval. cbn [Z.of_N] in Hval.
  pose proof (string_of_uint_decimal (Pos.to_uint p)
                (DecimalPos.Unsigned.to_uint_nonnil p)) as Hd.
  destruct (NilEmpty.string_of_uint (Pos.to_uint p)) as [|c r]; [destruct Hd|].
  destruct Hd as [Hc _]. unfold int_literal.
  destruct c as [[] [] [] [] [] [] [] []];
    try (exfalso; apply Hc; reflexivity); exact Hval.
Qed.

Lemma list_topics_cases (e : env) (category page limit : option string) (s : store) :
  pool e = PoolUp ->
  list_topics e category page limit s =
  match category_param category with
  | Err x => (s, raised 500 x)
  | Ok c =>
      match limit_param limit with
      | Err x => (s, raised 500 x)
      | Ok l =>
          match offset_param page limit with
          | Err x => (s, raised 500 x)
          | Ok o =>
              if o <? 0 then (s, raised 500 NegativeOffset)
              else if match l with Some n => n <? 0 | None => false end
              then (s, raised 500 NegativeLimit)
              else (s, json (BTopics (limit_offset l o
                                        (order_by item_before (listed s c)))))
          end
      end
  end.
Proof.
  intros Hup. unfold list_topics, try_catch, query, select_topics.
  unfold bind, lift, ret. rewrite Hup.
  fold (category_param category). fold (limit_param limit).
  fold (offset_of page limit). fold (offset_param page limit).
  destruct (category_param category) as [c|x]; [|reflexivity].
  destruct (limit_param limit) as [l|x]; [|reflexivity].
  destruct (offset_param page limit) as [o|x]; [|reflexivity].
  cbv beta iota.
  destruct (o <? 0); [reflexivity|].
  destruct l as [n|]; [destruct (n <? 0)|]; reflexivity.
Qed.

Lemma int_literal_string_of_Z (z : Z) : int_literal (string_of_Z z) = Some z.
Proof.
  destruct z as [|p|p]; [reflexivity | apply int_literal_pos |].
  rewrite (proj2 (string_of_Z_pos p)).
  pose proof (int_literal_pos p) as H. rewrite (proj1 (string_of_Z_pos p)) in H.
  destruct (NilEmpty.string_of_uint (Pos.to_uint p)) as [|c r] eqn:E; [discriminate|].
  assert (Hd : digits 0 (String c r) = Some (Z.pos p)).
  { pose proof (digits_uint (Pos.to_uint p)) as Hval.
    rewrite DecimalPos.Unsigned.of_to, E in Hval. exact Hval. }
  cbn [int_literal]. rewrite Hd. reflexivity.
Qed.

Lemma to_number_page (q : option string) (d z : Z) :
  Z.abs d <= TWO_53 -> page_value q d = Some z -> Z.abs z <= TWO_53 ->
  to_number (js_default (query_field q) (JNum d)) = JFin z 0.
Proof.
  intros Hd H Hz. destruct q as [sq|]; cbn [query_field js_default to_number page_value] in *.
  - now apply string_to_number_literal.
  - injection H as <-. now apply number_of_Z_integer.
Qed.

Lemma safe_integer_abs (z : Z) : safe_integer z -> Z.abs z <= TWO_53 /\ in_int8 z = true.
Proof.
  unfold safe_integer, MAX_SAFE_INTEGER, TWO_53, in_int8, INT8_MIN, INT8_MAX.
  intros H. split; [lia|]. apply andb_true_iff. rewrite !Z.leb_le. lia.
Qed.

(** On plain decimal literals within the safe integers the three parameters
    are the category, the limit and [(page - 1) * limit]. *)
Lemma listing_params (category page limit : option string) (c : option Z) (p l : Z) :
  category_value category = Some c -> page_value page 1 = Some p ->
  page_value limit 20 = Some l ->
  safe_integer p -> safe_integer l -> safe_integer ((p - 1) * l) ->
  category_param category = Ok (option_map Some c)
  /\ limit_param limit = Ok (Some l)
  /\ offset_param page limit = Ok ((p - 1) * l).
Proof.
  intros Hc Hp Hl Hsp Hsl Hso.
  destruct (safe_integer_abs _ Hsp) as [Hp53 _].
  destruct (safe_integer_abs _ Hsl) as [Hl53 Hl8].
  destruct (safe_integer_abs _ Hso) as [Ho53 Ho8].
  split; [|split].
  - unfold category_param. destruct category as [sc|]; cbn in *; [|now injection Hc as <-].
    destruct (String.eqb sc ""); cbn; [now injection Hc as <-|].
    unfold pg_int. cbn [pg_text].
    destruct (int4in sc); [|discriminate]. now injection Hc as <-.
  - unfold limit_param, pg_bigint.
    destruct limit as [sl|]; cbn [query_field js_default pg_text page_value] in *.
    + now rewrite (int8in_literal sl l Hl Hl8).
    + injection Hl as <-. reflexivity.
  - unfold offset_param, offset_of, pg_bigint_of_number.
    rewrite (to_number_page page 1 p), (to_number_page limit 20 l);
      try assumption; try (unfold TWO_53; cbn; lia).
    rewrite offset_integer, number_to_string_integer; try assumption.
    + apply int8in_literal; [apply int_literal_string_of_Z | exact Ho8].
    + unfold safe_integer, MAX_SAFE_INTEGER, TWO_53 in *. lia.
Qed.

Lemma page_of_listing (s : store) (c : option (option Z)) (l o : Z) :
  store_ok s ->
  page_of s c l o
    (firstn (Z.to_nat l) (skipn (Z.to_nat o) (order_by item_before (listed s c)))).
Proof.
  intros Hs. exists (order_by item_before (listed s c)).
  assert (Hperm : Permutation (map ti_topic (order_by item_before (listed s c)))
                    (filter (in_category c) (topics s))).
  { rewrite (Permutation_map ti_topic (order_by_perm item_before _)).
    now rewrite (listed_topics s _ Hs). }
  assert (Hsorted : StronglySorted (fun a b => listed_before (ti_topic a) (ti_topic b))
                      (order_by item_before (listed s c))).
  { apply StronglySorted_impl with (R := fun a b => item_before a b = true).
    - intros a b. apply topic_before_listed.
    - apply order_by_sorted.
      + intros a b. apply topic_before_total.
      + intros a b d. apply topic_before_trans. }
  split; [reflexivity|]. split; [exact Hperm|]. split; [exact Hsorted|].
  split; [now apply StronglySorted_firstn, StronglySorted_skipn|].
  split; [|apply firstn_le_length].
  apply Forall_forall. intros r Hin. apply in_firstn, in_skipn in Hin.
  assert (Hin' : In (ti_topic r) (filter (in_category c) (topics s))).
  { eapply Permutation_in; [exact Hperm|]. now apply in_map. }
  now apply filter_In in Hin'.
Qed.

(** C7, as the code has it.  The listing answers 200 exactly when its
    parameters are accepted: the category filter is absent, empty or a text
    the store reads as an integer; the limit (20 when absent) is a text the
    store reads as a bigint that is not negative; and the number
    [(page - 1) * limit] that JavaScript computes (page 1 when absent), as
    JavaScript prints it, is read by the store as a bigint that is not
    negative.  The rows are then those from that offset on, at most limit of
    them, of the list of all topics (of that category, when one is given),
    pinned topics first and then the newest first; the handler puts no bound
    of its own on limit.  Any other input is answered 500 and changes
    nothing.  For a page and a limit given as plain decimal literals within
    JavaScript's safe integers, as is their product, the offset is
    (page - 1) * limit. *)
Theorem list_topics_page (L : library) (e : env) (s : store)
    (category page limit : option string) :
  reachable L s -> pool e = PoolUp ->
  (forall c l o,
     category_param category = Ok c -> limit_param limit = Ok (Some l) ->
     offset_param page limit = Ok o -> 0 <= l -> 0 <= o ->
     exists rows,
       list_topics e category page limit s = (s, json (BTopics rows))
       /\ page_of s c l o rows)
  /\ (~ listing_accepted category page limit ->
      fst (list_topics e category page limit s) = s
      /\ status (snd (list_topics e category page limit s)) = 500)
  /\ (forall c p l,
        category_value category = Some c -> page_value page 1 = Some p ->
        page_value limit 20 = Some l ->
        safe_integer p -> safe_integer l -> safe_integer ((p - 1) * l) ->
        category_param category = Ok (option_map Some c)
        /\ limit_param limit = Ok (Some l)
        /\ offset_param page limit = Ok ((p - 1) * l)).
Proof.
  intros Hr Hup. apply reachable_ok in Hr.
  split; [|split; [|intros; now apply listing_params]].
  - intros c l o Hc Hl Ho Hl0 Ho0.
    exists (firstn (Z.to_nat l) (skipn (Z.to_nat o) (order_by item_before (listed s c)))).
    split; [|now apply page_of_listing].
    rewrite (list_topics_cases e category page limit s Hup), Hc, Hl, Ho.
    replace (o <? 0) with false by (symmetry; apply Z.ltb_ge; lia).
    replace (l <? 0) with false by (symmetry; apply Z.ltb_ge; lia).
    reflexivity.
  - intros Hno. rewrite (list_topics_cases e category page limit s Hup).
    destruct (category_param category) as [c|x] eqn:Hc; [|split; reflexivity].
    destruct (limit_param limit) as [l|x] eqn:Hl; [|split; reflexivity].
    destruct (offset_param page limit) as [o|x] eqn:Ho; [|split; reflexivity].
    destruct (o <? 0) eqn:Ho0; [split; reflexivity|].
    destruct l as [n|].
    + destruct (n <? 0) eqn:Hn0; [split; reflexivity|].
      exfalso. apply Hno. exists c, n, o. apply Z.ltb_ge in Ho0, Hn0. auto.
    + exfalso. unfold limit_param, pg_bigint in Hl.
      destruct limit as [sl|]; cbn [query_field js_default pg_text] in Hl;
        destruct (int8in _); discriminate.
Qed.

Lemma busy_store_reachable : reachable sample_library busy_store.
Proof. apply reachable_serve. now constructor. Qed.

Lemma list_topics_page_witness :
  reachable sample_library busy_store /\ pool (at_time 60) = PoolUp
  /\ category_param (Some "1") = Ok (Some (Some 1))
  /\ limit_param (Some "2") = Ok (Some 2)
  /\ offset_param (Some "2") (Some "2") = Ok 2
  /\ 0 <= 2 /\ 0 <= 2
  /\ exists rows,
       list_topics (at_time 60) (Some "1") (Some "2") (Some "2") busy_store
       = (busy_store, json (BTopics rows))
       /\ page_of busy_store (Some (Some 1)) 2 2 rows
       /\ map (fun r => t_title (ti_topic r)) rows = ["One"].
Proof.
  split; [exact busy_store_reachable|]. split; [reflexivity|].
  do 3 (split; [vm_compute; reflexivity|]). split; [lia|]. split; [lia|].
  destruct (list_topics_page sample_library (at_time 60) busy_store
              (Some "1") (Some "2") (Some "2") busy_store_reachable eq_refl)
    as [H _].
  destruct (H (Some (Some 1)) 2 2) as [rows [E Hpage]];
    try (vm_compute; reflexivity); try lia.
  exists rows. split; [exact E|]. split; [exact Hpage|].
  assert (E' : snd (list_topics (at_time 60) (Some "1") (Some "2") (Some "2") busy_store)
               = json (BTopics rows)) by now rewrite E.
  vm_compute in E'. injection E' as <-. reflexivity.
Defined.

(** C7 as stated fails for page 0: the offset is negative, the store refuses
    it and the handler answers 500. *)
Lemma list_topics_page_zero :
  page_value (Some "0") 1 = Some 0
  /\ snd (list_topics (at_time 60) None (Some "0") None sample_store)
     = raised 500 NegativeOffset
  /\ ~ exists rows,
         snd (list_topics (at_time 60) None (Some "0") None sample_store)
         = json (BTopics rows).
Proof.
  split; [vm_compute; reflexivity|]. split; [vm_compute; reflexivity|].
  intros [rows H]. vm_compute in H. discriminate H.
Qed.

(** * Further properties of the handlers *)

(** ** Nothing is deleted *)

Section Advancing.

Variable R : store -> store -> Prop.
Hypothesis R_refl : forall s, R s s.
Hypothesis R_trans : forall a b c, R a b -> R b c -> R a c.

Lemma advances_ret {A} (a : A) : advances R (ret a).
Proof. intros s. apply R_refl. Qed.

Lemma advances_throw {A} (e : error) : advances R (@throw A e).
Proof. intros s. apply R_refl. Qed.

Lemma advances_lift {A} (r : result A) : advances R (lift r).
Proof. intros s. apply R_refl. Qed.

Lemma advances_bind {A B} (m : DB A) (k : A -> DB B) :
  advances R m -> (forall a, advances R (k a)) -> advances R (bind m k).
Proof.
  intros Hm Hk s. unfold bind. specialize (Hm s).
  destruct (m s) as [s' [a | e]]; cbn [fst] in *; [|exact Hm].
  eapply R_trans; [exact Hm | apply Hk].
Qed.

Lemma advances_query {A} (e : env) (m : DB A) : advances R m -> advances R (query e m).
Proof. intros Hm s. unfold query. destruct (pool e); [apply Hm | apply R_refl]. Qed.

Lemma advances_try_catch {A} (m : DB A) (h : error -> A) (s : store) :
  advances R m -> R s (fst (try_catch m h s)).
Proof.
  intros Hm. unfold try_catch. specialize (Hm s). destruct (m s) as [s' [a | e]]; exact Hm.
Qed.

Lemma advances_pure {A} (m : DB A) : (forall s, fst (m s) = s) -> advances R m.
Proof. intros H s. rewrite H. apply R_refl. Qed.

End Advancing.

Lemma same_user_refl (u : user) : same_user u u.
Proof. repeat split. Qed.

Lemma same_topic_refl (t : topic) : same_topic t t.
Proof. repeat split. lia. Qed.

Lemma same_post_refl (p : post) : same_post p p.
Proof. repeat split. Qed.

Lemma same_user_trans (a b c : user) : same_user a b -> same_user b c -> same_user a c.
Proof. unfold same_user. intuition congruence. Qed.

Lemma same_topic_trans (a b c : topic) :
  same_topic a b -> same_topic b c -> same_topic a c.
Proof. unfold same_topic. intuition (try congruence; lia). Qed.

Lemma same_post_trans (a b c : post) : same_post a b -> same_post b c -> same_post a c.
Proof. unfold same_post. intuition congruence. Qed.

Lemma Forall2_diag {A} (R : A -> A -> Prop) (l : list A) :
  (forall x, R x x) -> Forall2 R l l.
Proof. intros H. induction l; constructor; auto. Qed.

Lemma Forall2_map_r {A} (R : A -> A -> Prop) (g : A -> A) (l : list A) :
  (forall x, R x (g x)) -> Forall2 R l (map g l).
Proof. intros H. induction l; cbn; constructor; auto. Qed.

Lemma Forall2_compose {A} (R : A -> A -> Prop) (l1 l2 l3 : list A) :
  (forall a b c, R a b -> R b c -> R a c) ->
  Forall2 R l1 l2 -> Forall2 R l2 l3 -> Forall2 R l1 l3.
Proof.
  intros Ht H12. revert l3. induction H12 as [|a b l1 l2 Hab _ IH]; intros l3 H23.
  - inversion H23. constructor.
  - inversion H23 as [|? c ? l3' Hbc H23']; subst. constructor; eauto.
Qed.

Lemma extends_by_refl {A} (R : A -> A -> Prop) (l : list A) :
  (forall x, R x x) -> extends_by R l l.
Proof.
  intros H. exists l, []. split; [now rewrite app_nil_r | now apply Forall2_diag].
Qed.

Lemma extends_by_snoc {A} (R : A -> A -> Prop) (l : list A) (x : A) :
  (forall x, R x x) -> extends_by R l (l ++ [x]).
Proof. intros H. exists l, [x]. split; [reflexivity | now apply Forall2_diag]. Qed.

Lemma extends_by_map {A} (R : A -> A -> Prop) (g : A -> A) (l : list A) :
  (forall x, R x (g x)) -> extends_by R l (map g l).
Proof.
  intros H. exists (map g l), []. split; [now rewrite app_nil_r | now apply Forall2_map_r].
Qed.

Lemma extends_by_trans {A} (R : A -> A -> Prop) (l1 l2 l3 : list A) :
  (forall a b c, R a b -> R b c -> R a c) ->
  extends_by R l1 l2 -> extends_by R l2 l3 -> extends_by R l1 l3.
Proof.
  intros Ht (o1 & n1 & -> & H1) (o2 & n2 & -> & H2).
  apply Forall2_app_inv_l in H2 as (o2a & o2b & Ha & Hb & ->).
  exists o2a, (o2b ++ n2)%list. split; [now rewrite app_assoc|].
  eapply Forall2_compose; eauto.
Qed.

Lemma grown_refl (s : store) : grown s s.
Proof.
  unfold grown. repeat split; try lia;
    apply extends_by_refl;
    auto using same_user_refl, same_topic_refl, same_post_refl.
Qed.

Lemma grown_trans (a b c : store) : grown a b -> grown b c -> grown a c.
Proof.
  intros (U1 & C1 & T1 & P1 & Q1) (U2 & C2 & T2 & P2 & Q2).
  split; [eapply extends_by_trans; eauto using same_user_trans|].
  split; [eapply extends_by_trans; eauto; intros; congruence|].
  split; [eapply extends_by_trans; eauto using same_topic_trans|].
  split; [eapply extends_by_trans; eauto using same_post_trans|].
  lia.
Qed.

Create HintDb grow.

#[local] Hint Resolve same_user_refl same_topic_refl same_post_refl : grow.

Ltac grown_step :=
  unfold grown; cbn [users users_seq categories categories_seq topics topics_seq
                     posts posts_seq likes likes_seq
                     set_users set_categories set_topics set_posts set_likes fst];
  repeat split; try lia;
  first [ apply extends_by_refl; solve [auto with grow]
        | apply extends_by_snoc; solve [auto with grow]
        | idtac ].

Ltac grown_cases :=
  repeat match goal with
         | |- context [match ?x with _ => _ end] => destruct x; cbv beta iota
         end.

Lemma users_row_grows (e : env) (un em : option string) (h : string) (bio : option string) :
  advances grown (users_row e un em h bio).
Proof. intros s. unfold users_row. grown_cases; grown_step. Qed.

Lemma insert_user_grows (e : env) (username email : jsval) (h : string) (bio : option string) :
  advances grown (insert_user e username email h bio).
Proof.
  unfold insert_user.
  repeat (apply (advances_bind grown grown_trans);
          [apply (advances_lift grown grown_refl) | intros ?]).
  apply users_row_grows.
Qed.

Lemma insert_user_unless_username_grows (e : env) (username email : jsval) (h : string)
    (bio : option string) :
  advances grown (insert_user_unless_username e username email h bio).
Proof.
  unfold insert_user_unless_username.
  apply (advances_bind grown grown_trans);
    [apply (advances_lift grown grown_refl) | intros un].
  apply (advances_bind grown grown_trans);
    [apply (advances_lift grown grown_refl) | intros em].
  repeat (apply (advances_bind grown grown_trans);
          [apply (advances_lift grown grown_refl) | intros ?]).
  assert (H : advances grown (_ <- users_row e un em h bio ;; ret tt)).
  { apply (advances_bind grown grown_trans); [apply users_row_grows|].
    intros _. apply (advances_ret grown grown_refl). }
  intros s. destruct un as [x|], em as [y|]; try apply H.
  destruct (existsb _ (users s)); [grown_step | apply H].
Qed.

Lemma update_last_seen_grows (e : env) (id : Z) : advances grown (update_last_seen e id).
Proof.
  intros s. unfold update_last_seen. grown_step.
  apply extends_by_map. intros u. unfold touch_user.
  destruct (u_id u =? id); repeat split.
Qed.

Lemma insert_category_do_nothing_grows (e : env) (row : string * string * string * string) :
  advances grown (insert_category_do_nothing e row).
Proof.
  intros s. unfold insert_category_do_nothing. destruct row as [[[n d] c] i].
  grown_cases; grown_step.
Qed.

Lemma insert_categories_do_nothing_grows (e : env)
    (rows : list (string * string * string * string)) :
  advances grown (insert_categories_do_nothing e rows).
Proof.
  induction rows as [|r rows IH]; cbn [insert_categories_do_nothing].
  - apply (advances_ret grown grown_refl).
  - apply (advances_bind grown grown_trans);
      [apply insert_category_do_nothing_grows | intros _; exact IH].
Qed.

Lemma atomic_categories_grows (e : env) (rows : list (string * string * string * string)) :
  advances grown (atomic_categories (insert_categories_do_nothing e rows)).
Proof.
  intros s. unfold atomic_categories.
  pose proof (insert_categories_do_nothing_grows e rows s) as Hg.
  pose proof (insert_categories_do_nothing_only e rows s) as [_ Hseq].
  destruct (insert_categories_do_nothing e rows s) as [s' [a|x]]; cbn [fst] in *.
  - exact Hg.
  - grown_step.
Qed.

Lemma insert_categories_grows (e : env) (rows : list (string * string * string * string)) :
  advances grown (insert_categories e rows).
Proof.
  unfold insert_categories. apply (advances_bind grown grown_trans).
  - apply (advances_lift grown grown_refl).
  - intros _. apply atomic_categories_grows.
Qed.

Lemma insert_topic_grows (e : env) (a b c d : jsval) :
  advances grown (insert_topic e a b c d).
Proof.
  intros s. unfold insert_topic. cbv beta iota delta [bind lift]. grown_cases; grown_step.
Qed.

Lemma update_topic_views_grows (id : jsval) : advances grown (update_topic_views id).
Proof.
  intros s. unfold update_topic_views. cbv beta iota delta [bind lift].
  destruct (pg_int id) as [i|]; cbv beta iota; grown_step.
  apply extends_by_map. intros t. unfold bump_views.
  destruct (eqb_oZ i (t_id t)); repeat split; cbn; lia.
Qed.

Lemma update_topic_updated_at_grows (e : env) (id : jsval) :
  advances grown (update_topic_updated_at e id).
Proof.
  intros s. unfold update_topic_updated_at. cbv beta iota delta [bind lift].
  destruct (pg_int id) as [i|]; cbv beta iota; grown_step.
  apply extends_by_map. intros t. unfold bump_updated_at.
  destruct (eqb_oZ i (t_id t)); repeat split; cbn; lia.
Qed.

Lemma insert_post_grows (e : env) (a b c d : jsval) :
  advances grown (insert_post e a b c d).
Proof.
  intros s. unfold insert_post. cbv beta iota delta [bind lift]. grown_cases; grown_step.
Qed.

Lemma add_likes_same (d : Z) (i : option Z) (p : post) : same_post p (add_likes d i p).
Proof. unfold add_likes. destruct (eqb_oZ i (p_id p)); repeat split. Qed.

Lemma toggle_like_grows (e : env) (id : string) (user_id : jsval) (s : store) :
  grown s (fst (toggle_like e id user_id s)).
Proof.
  rewrite toggle_like_unfold. unfold unliked_store, liked_store.
  grown_cases; cbv zeta; grown_step;
    apply extends_by_map; intros p; apply add_likes_same.
Qed.

Ltac grows :=
  repeat first
    [ apply insert_user_grows
    | apply insert_user_unless_username_grows
    | apply update_last_seen_grows
    | apply insert_categories_grows
    | apply insert_topic_grows
    | apply update_topic_views_grows
    | apply update_topic_updated_at_grows
    | apply insert_post_grows
    | apply (advances_query grown grown_refl)
    | apply (advances_ret grown grown_refl)
    | apply (advances_throw grown grown_refl)
    | apply (advances_lift grown grown_refl)
    | apply (advances_bind grown grown_trans); [|intros ?]
    | apply (advances_pure grown grown_refl); intros ?; reflexivity ].

Lemma hash_grows (L : library) (e : env) (password : jsval) :
  advances grown (hash L e password).
Proof. destruct password; cbn [hash]; grows. Qed.

Lemma compare_grows (L : library) (password : jsval) (h : string) :
  advances grown (compare L password h).
Proof. destruct password; cbn [compare]; grows. Qed.

Lemma handle_grows (L : library) (e : env) (r : request) (s : store) :
  grown s (fst (handle L e r s)).
Proof.
  destruct r as [ | un em pw | un pw | | cat page limit | id | a b c d | id
                | a b c d | id uid | ]; cbn [handle].
  - replace (fst (health e s)) with s; [apply grown_refl|].
    symmetry. apply (health_keeps (fun s' => s' = s)). reflexivity.
  - unfold register. apply (advances_try_catch grown). grows. apply hash_grows.
  - unfold login. apply (advances_try_catch grown).
    apply (advances_bind grown grown_trans); [grows|]. intros [|user rows]; [grows|].
    apply (advances_bind grown grown_trans); [apply compare_grows|].
    intros [|]; cbn [negb]; grows.
  - replace (fst (list_categories e s)) with s; [apply grown_refl|].
    symmetry. apply (list_categories_keeps (fun s' => s' = s)). reflexivity.
  - replace (fst (list_topics e cat page limit s)) with s; [apply grown_refl|].
    symmetry. apply (list_topics_keeps (fun s' => s' = s)). reflexivity.
  - unfold get_topic. apply (advances_try_catch grown).
    apply (advances_bind grown grown_trans); [grows|]. intros ?.
    apply (advances_bind grown grown_trans).
    + apply (advances_query grown grown_refl), (advances_pure grown grown_refl).
      intros s0. apply (select_topic_pure (fun s' => s' = s0)). reflexivity.
    + intros [|row rows]; grows.
  - unfold create_topic. apply (advances_try_catch grown). grows.
  - replace (fst (list_posts e id s)) with s; [apply grown_refl|].
    symmetry. apply (list_posts_keeps (fun s' => s' = s)). reflexivity.
  - unfold create_post. apply (advances_try_catch grown). grows.
  - apply toggle_like_grows.
  - replace (fst (get_stats e s)) with s; [apply grown_refl|].
    symmetry. apply (get_stats_keeps (fun s' => s' = s)). reflexivity.
Qed.

Lemma serve_grows (L : library) (rs : list (env * request)) (s : store) :
  grown s (serve L s rs).
Proof.
  revert s. induction rs as [|[e r] rs IH]; intros s; cbn [serve]; [apply grown_refl|].
  eapply grown_trans; [apply handle_grows | apply IH].
Qed.

Lemma initDB_grows (L : library) (e : env) (s : store) : grown s (initDB L e s).
Proof. unfold initDB. apply (advances_try_catch grown). grows. Qed.

Lemma extends_by_kept {A} (R : A -> A -> Prop) (l l' : list A) (x : A) :
  extends_by R l l' -> In x l -> exists x', In x' l' /\ R x x'.
Proof.
  intros (old & new & -> & H) Hin.
  induction H as [|a b l old Hab _ IH]; [destruct Hin|].
  destruct Hin as [-> | Hin].
  - exists b. split; [now left | exact Hab].
  - destruct (IH Hin) as [x' [Hx' Hr]]. exists x'. split; [now right | exact Hr].
Qed.

Lemma extends_by_length {A} (R : A -> A -> Prop) (l l' : list A) :
  extends_by R l l' -> (List.length l <= List.length l')%nat.
Proof.
  intros (old & new & -> & H). rewrite length_app, <- (Forall2_length H). lia.
Qed.

(** No request deletes a user, a topic or a post, or rewrites what identifies
    it: after any requests every stored user is still there with its id,
    username, email, password hash and profile, every topic with its id,
    title, content, author, category and flags and at least its views, every
    post with everything but its likes counter; the three tables never
    shrink. *)
Theorem nothing_is_deleted (L : library) (rs : list (env * request)) (s : store) :
  (forall u, In u (users s) ->
     exists u', In u' (users (serve L s rs)) /\ same_user u u')
  /\ (forall t, In t (topics s) ->
        exists t', In t' (topics (serve L s rs)) /\ same_topic t t')
  /\ (forall p, In p (posts s) ->
        exists p', In p' (posts (serve L s rs)) /\ same_post p p')
  /\ (List.length (users s) <= List.length (users (serve L s rs)))%nat
  /\ (List.length (topics s) <= List.length (topics (serve L s rs)))%nat
  /\ (List.length (posts s) <= List.length (posts (serve L s rs)))%nat.
Proof.
  destruct (serve_grows L rs s) as (U & _ & T & P & _).
  repeat split; eauto using extends_by_kept, extends_by_length.
Qed.

(** ** When the store does not answer *)

(** With the store unreachable no request changes anything, and each route
    answers with the status of its own catch block: 400 from register, create
    topic and create post, 500 from the other routes, 200 from the health
    check; except for the health check (and a register whose password is not
    a string, which bcrypt refuses first) the body carries the connection
    error's message. *)
Theorem store_down_answers (L : library) (e : env) (r : request) (s : store)
    (err : js_error) :
  pool e = PoolDown err ->
  fst (handle L e r s) = s
  /\ status (snd (handle L e r s)) = down_status r
  /\ match r with
     | GetHealth => True
     | PostRegister _ _ password =>
         forall p, password = JStr p ->
         body_of (snd (handle L e r s)) = BError (message err)
     | _ => body_of (snd (handle L e r s)) = BError (message err)
     end.
Proof.
  intros Hdown.
  destruct r as [ | un em pw | un pw | | cat page limit | id | a b c d | id
                | a b c d | id uid | ]; cbn [handle down_status].
  - unfold health, try_catch, query. unfold bind. rewrite Hdown. repeat split.
  - unfold register, try_catch, query, hash. unfold bind, ret, throw.
    destruct pw; cbv beta iota; rewrite ?Hdown; repeat split;
      intros p [=].
  - unfold login, try_catch, query. unfold bind. rewrite Hdown. repeat split.
  - unfold list_categories, try_catch, query. unfold bind. rewrite Hdown. repeat split.
  - unfold list_topics, try_catch, query. unfold bind. rewrite Hdown. repeat split.
  - unfold get_topic, try_catch, query. unfold bind. rewrite Hdown. repeat split.
  - unfold create_topic, try_catch, query. unfold bind. rewrite Hdown. repeat split.
  - unfold list_posts, try_catch, query. unfold bind. rewrite Hdown. repeat split.
  - unfold create_post, try_catch, query. unfold bind. rewrite Hdown. repeat split.
  - rewrite toggle_like_unfold, Hdown. repeat split.
  - unfold get_stats, try_catch, query. unfold bind. rewrite Hdown. repeat split.
Qed.

Lemma store_down_answers_witness :
  pool (store_down 60)
  = PoolDown {| message := "connect ECONNREFUSED 127.0.0.1:5432";
                stack := "Error: connect ECONNREFUSED 127.0.0.1:5432" |}
  /\ handle sample_library (store_down 60)
       (PostPost (JStr "Reply") (JNum 1) (JNum 1) JUndefined) sample_store
     = (sample_store,
        status_json 400 (BError "connect ECONNREFUSED 127.0.0.1:5432")).
Proof.
  split; [reflexivity|].
  destruct (store_down_answers sample_library (store_down 60)
              (PostPost (JStr "Reply") (JNum 1) (JNum 1) JUndefined) sample_store
              _ eq_refl) as (H1 & H2 & H3).
  destruct (handle sample_library (store_down 60)
              (PostPost (JStr "Reply") (JNum 1) (JNum 1) JUndefined) sample_store)
    as [s' [st b]].
  cbn [fst snd status body_of down_status message] in *. now subst.
Defined.

(** ** Registering, then logging in *)

Lemma no_next_user_id (s : store) : store_ok s -> has_user s (users_seq s) = false.
Proof.
  intros Hs. unfold has_user. destruct (existsb _ (users s)) eqn:H; [|reflexivity].
  apply existsb_exists in H as [u [Hu Heq]]. apply Z.eqb_eq in Heq.
  pose proof (ok_user_seq s Hs u Hu). lia.
Qed.

Lemma existsb_none {A} (f : A -> bool) (l : list A) :
  (forall x, In x l -> f x = false) -> existsb f l = false.
Proof.
  intros H. induction l as [|x l IH]; cbn; [reflexivity|].
  rewrite (H x (or_introl eq_refl)). apply IH. intros y Hy. apply H. now right.
Qed.

Lemma filter_none {A} (f : A -> bool) (l : list A) :
  (forall x, In x l -> f x = false) -> filter f l = [].
Proof.
  intros H. induction l as [|x l IH]; cbn; [reflexivity|].
  rewrite (H x (or_introl eq_refl)). apply IH. intros y Hy. apply H. now right.
Qed.

Lemma register_accepted (L : library) (e : env) (un em p : string) (s : store) :
  store_ok s -> pool e = PoolUp ->
  has_nul un = false -> has_nul em = false ->
  strlen un <= 50 -> strlen em <= 100 -> strlen (bcrypt_hash L p (salt e)) <= 255 ->
  (forall u, In u (users s) -> u_username u <> un /\ u_email u <> em) ->
  register L e (JStr un) (JStr em) (JStr p) s
  = (set_users (users s ++ [registered_row L e un em p s]) (users_seq s + 1) s,
     json (BRegistered {| ub_id := users_seq s; ub_username := un; ub_email := em |}
             (jwt_sign L (users_seq s) un (secret e) (now e)))).
Proof.
  intros Hs Hup Hzu Hze Hun Hem Hh Hfree.
  unfold register, try_catch, query, insert_user, users_row, hash.
  unfold bind, ret, lift, text_param, varchar.
  rewrite Hup. cbn [pg_text]. rewrite Hzu, Hze. cbv beta iota.
  apply Z.ltb_ge in Hun, Hem, Hh. rewrite Hun, Hem, Hh. cbv beta iota.
  rewrite (no_next_user_id s Hs).
  rewrite (existsb_none (fun u => String.eqb (u_username u) un)),
          (existsb_none (fun u => String.eqb (u_email u) em)).
  - reflexivity.
  - intros u Hu. apply String.eqb_neq. now apply Hfree.
  - intros u Hu. apply String.eqb_neq. now apply Hfree.
Qed.

Lemma login_row_new (e : env) (s : store) (row : user) (n : Z) (ident : string) :
  (forall u, In u (users s) -> u_username u <> ident /\ u_email u <> ident) ->
  u_username row = ident \/ u_email row = ident ->
  login_row e (set_users (users s ++ [row]) n s) (JStr ident) = Some row.
Proof.
  intros Hfree Hrow. apply login_row_unique; cbn [users set_users pg_text].
  - apply in_or_app. right. now left.
  - destruct Hrow as [<- | <-]; auto.
  - intros u' Hu' Hm. apply in_app_or in Hu' as [Hu' | [<- | []]]; [|reflexivity].
    destruct (Hfree u' Hu') as [H1 H2]. destruct Hm as [[= Hm] | [= Hm]]; congruence.
Qed.

(** A registration with a free username and a free email, both without a
    zero byte and within their columns, answers 200 with the new id and a
    token and stores the bcrypt hash of the password (never the password);
    from then on a login with that username, or with that email, and the same
    password answers 200 with the new user's profile, and a password that
    does not verify answers 401 -- as long as the username is not already
    another user's email and the email not another user's username. *)
Theorem register_then_login (L : library) (e e' : env) (s : store) (un em p : string) :
  reachable L s -> pool e = PoolUp -> pool e' = PoolUp ->
  has_nul un = false -> has_nul em = false ->
  strlen un <= 50 -> strlen em <= 100 -> strlen (bcrypt_hash L p (salt e)) <= 255 ->
  (forall u, In u (users s) ->
     u_username u <> un /\ u_email u <> em /\ u_email u <> un /\ u_username u <> em) ->
  bcrypt_compare L p (bcrypt_hash L p (salt e)) = true ->
  snd (register L e (JStr un) (JStr em) (JStr p) s)
  = json (BRegistered {| ub_id := users_seq s; ub_username := un; ub_email := em |}
            (jwt_sign L (users_seq s) un (secret e) (now e)))
  /\ users (fst (register L e (JStr un) (JStr em) (JStr p) s))
     = (users s ++ [registered_row L e un em p s])%list
  /\ (forall ident, ident = un \/ ident = em ->
        snd (login L e' (JStr ident) (JStr p)
               (fst (register L e (JStr un) (JStr em) (JStr p) s)))
        = json (BLoggedIn {| up_id := users_seq s; up_username := un; up_email := em;
                             up_avatar_url := None; up_bio := None |}
                  (jwt_sign L (users_seq s) un (secret e') (now e'))))
  /\ (forall ident p', ident = un \/ ident = em ->
        bcrypt_compare L p' (bcrypt_hash L p (salt e)) = false ->
        snd (login L e' (JStr ident) (JStr p')
               (fst (register L e (JStr un) (JStr em) (JStr p) s)))
        = status_json 401 (BError "Invalid credentials")).
Proof.
  intros Hr Hup Hup' Hzu Hze Hun Hem Hh Hfree Hlaw. apply reachable_ok in Hr.
  rewrite (register_accepted L e un em p s Hr Hup Hzu Hze Hun Hem Hh)
    by (intros u Hu; destruct (Hfree u Hu) as (H1 & H2 & _); auto).
  cbn [fst snd]. split; [reflexivity|]. split; [reflexivity|].
  assert (Hrow : forall ident, ident = un \/ ident = em ->
            login_row e' (set_users (users s ++ [registered_row L e un em p s])
                            (users_seq s + 1) s) (JStr ident)
            = Some (registered_row L e un em p s)).
  { intros ident Hid. apply login_row_new.
    - intros u Hu. destruct (Hfree u Hu) as (H1 & H2 & H3 & H4).
      destruct Hid as [-> | ->]; auto.
    - destruct Hid as [-> | ->]; [left | right]; reflexivity. }
  assert (Hclean : forall ident, ident = un \/ ident = em ->
            text_param (JStr ident) = Ok (Some ident)).
  { intros ident [-> | ->]; now apply text_param_clean. }
  split.
  - intros ident Hid.
    rewrite (login_unfold L e' _ _ _ Hup'), (Hclean ident Hid), (Hrow ident Hid).
    cbn [u_password_hash registered_row]. rewrite Hlaw. reflexivity.
  - intros ident p' Hid Hno.
    rewrite (login_unfold L e' _ _ _ Hup'), (Hclean ident Hid), (Hrow ident Hid).
    cbn [u_password_hash registered_row]. rewrite Hno. reflexivity.
Qed.

Lemma register_then_login_witness :
  reachable sample_library fresh_store
  /\ pool (at_time 10) = PoolUp /\ pool (at_time 20) = PoolUp
  /\ has_nul "bob" = false /\ has_nul "bob@nexus.com" = false
  /\ strlen "bob" <= 50 /\ strlen "bob@nexus.com" <= 100
  /\ bcrypt_compare sample_library "builder"
       (bcrypt_hash sample_library "builder" (salt (at_time 10))) = true
  /\ snd (login sample_library (at_time 20) (JStr "bob@nexus.com") (JStr "builder")
            (fst (register sample_library (at_time 10) (JStr "bob")
                    (JStr "bob@nexus.com") (JStr "builder") fresh_store)))
     = json (BLoggedIn {| up_id := 2; up_username := "bob";
                          up_email := "bob@nexus.com";
                          up_avatar_url := None; up_bio := None |}
               (jwt_sign sample_library 2 "bob" (secret (at_time 20)) 20)).
Proof.
  assert (Hr : reachable sample_library fresh_store) by now constructor.
  assert (Hlaw : bcrypt_compare sample_library "builder"
                   (bcrypt_hash sample_library "builder" (salt (at_time 10))) = true)
    by (vm_compute; reflexivity).
  split; [exact Hr|]. do 4 (split; [reflexivity|]).
  do 2 (split; [vm_compute; discriminate|]). split; [exact Hlaw|].
  destruct (register_then_login sample_library (at_time 10) (at_time 20) fresh_store
              "bob" "bob@nexus.com" "builder" Hr eq_refl eq_refl eq_refl eq_refl)
    as (_ & _ & H & _); try (vm_compute; discriminate); try exact Hlaw.
  - intros u Hu. vm_compute in Hu. destruct Hu as [<- | []].
    repeat split; discriminate.
  - exact (H "bob@nexus.com" (or_intror eq_refl)).
Defined.

(** ** The seeded admin account *)

Lemma admin_heads_initDB (L : library) (e : env) :
  hash_fits L -> pool e = PoolUp -> admin_heads L (users (initDB L e empty_store)).
Proof.
  intros Hfit Hup. unfold initDB, try_catch, query, bind, hash, ret. rewrite Hup.
  cbv beta iota.
  unfold atomic_categories, insert_user_unless_username, insert_user, bind, ret.
  specialize (Hfit "admin123" (salt e)). apply Z.ltb_ge in Hfit.
  cbn. rewrite Hfit. cbn. eexists _, _, (salt e). repeat split.
Qed.

Lemma users_row_admin_heads (L : library) (e : env) (un em : option string)
    (h : string) (bio : option string) :
  preserves (on_users (admin_heads L)) (users_row e un em h bio).
Proof.
  intros s Hs. unfold users_row.
  destruct un, em;
    repeat match goal with
           | |- context [if ?c then _ else _] => destruct c
           end;
    cbn [fst]; try exact Hs.
  destruct Hs as (a & rest & salt0 & Hus & Hrest). unfold on_users. cbn [users set_users].
  rewrite Hus. cbn [app]. eexists a, _, salt0. split; [reflexivity | exact Hrest].
Qed.

Lemma update_last_seen_admin_heads (L : library) (e : env) (id : Z) :
  preserves (on_users (admin_heads L)) (update_last_seen e id).
Proof.
  intros s (a & rest & salt0 & Hus & Hrest). unfold on_users. cbn [users set_users fst update_last_seen].
  rewrite Hus. cbn [map]. exists (touch_user (now e) id a), (map (touch_user (now e) id) rest), salt0.
  split; [reflexivity|]. unfold touch_user. destruct (u_id a =? id); exact Hrest.
Qed.

Lemma reachable_admin_heads (L : library) (s : store) :
  hash_fits L -> reachable L s -> admin_heads L (users s).
Proof.
  intros Hfit. induction 1 as [e He | e r s _ IH | e s _ IH].
  - now apply admin_heads_initDB.
  - apply (handle_on_users (admin_heads L)); auto.
    + intros. apply insert_user_preserves. intros. apply users_row_admin_heads.
    + intros. apply update_last_seen_admin_heads.
  - apply (initDB_on_users (admin_heads L)); auto.
    intros. apply users_row_admin_heads.
Qed.

Lemma pad_pad (n : nat) (s : string) : pad n (pad n s) = pad n s.
Proof.
  revert s. induction n as [|n IH]; intros s; [reflexivity|].
  destruct s; cbn; now rewrite IH.
Qed.

Lemma pad_prefix (a t : string) (m : nat) :
  pad (String.length a + m) (a ++ t) = a ++ pad m t.
Proof. induction a as [|c a IH]; cbn; [reflexivity | now rewrite IH]. Qed.

Lemma substring_skip (a t : string) (n : nat) :
  substring (String.length a) n (a ++ t) = substring 0 n t.
Proof. induction a as [|c a IH]; cbn; [reflexivity | exact IH]. Qed.

Lemma substring_pad (n m : nat) (s t : string) :
  (n <= m)%nat -> substring 0 n (pad m (pad n s ++ t)) = pad n s.
Proof.
  revert m s. induction n as [|n IH]; intros m s Hle.
  - cbn. now destruct (pad m t).
  - destruct m as [|m]; [lia|].
    destruct s as [|c s]; cbn; rewrite IH by lia; reflexivity.
Qed.

Lemma sample_compare_hash (p salt0 : string) :
  bcrypt_compare sample_library p (bcrypt_hash sample_library p salt0) = true.
Proof.
  cbn [bcrypt_compare bcrypt_hash sample_library]. unfold sample_compare.
  assert (Hsalt : substring 7 22 (sample_hash p salt0) = pad 22 salt0).
  { unfold sample_hash.
    change 60%nat with (String.length "$2a$10$" + 53)%nat.
    rewrite pad_prefix.
    change 7%nat with (String.length "$2a$10$").
    rewrite substring_skip. apply substring_pad. lia. }
  rewrite Hsalt. unfold sample_hash. rewrite pad_pad. apply String.eqb_refl.
Qed.

(** ** Every handler keeps what its statements keep *)

Lemma handle_preserves (P : store -> Prop) (L : library) (e : env) (r : request)
    (s : store) :
  (forall a b c d, preserves P (insert_user e a b c d)) ->
  (forall id, preserves P (update_last_seen e id)) ->
  (forall a b c d, truthy d = true -> preserves P (insert_topic e a b c d)) ->
  (forall id, preserves P (update_topic_views id)) ->
  (forall id, preserves P (update_topic_updated_at e id)) ->
  (forall a b c d, truthy c = true -> preserves P (insert_post e a b c d)) ->
  (forall id uid s0, P s0 -> P (fst (toggle_like e id uid s0))) ->
  P s -> P (fst (handle L e r s)).
Proof.
  intros Hiu Hls Hit Htv Htu Hip Htl Hs.
  destruct r as [ | un em pw | un pw | | cat page limit | id | a b c d | id
                | a b c d | id uid | ]; cbn [handle].
  - now apply (health_keeps P).
  - unfold register. apply preserves_try_catch; [|exact Hs].
    repeat (apply preserves_bind; [|intros ?]); auto with pres.
  - unfold login. apply preserves_try_catch; [|exact Hs].
    apply preserves_bind; [auto with pres|]. intros [|user rows]; [auto with pres|].
    apply preserves_bind; [auto with pres|]. intros [|]; cbn [negb]; [|auto with pres].
    apply preserves_bind; [|intros ?]; auto with pres.
  - now apply (list_categories_keeps P).
  - now apply (list_topics_keeps P).
  - unfold get_topic. apply preserves_try_catch; [|exact Hs].
    apply preserves_bind; [apply preserves_query, Htv|]. intros ?.
    apply preserves_bind; [auto with pres|]. intros [|row rows]; auto with pres.
  - unfold create_topic. apply preserves_try_catch; [|exact Hs].
    apply preserves_bind; [|intros ?]; auto with pres.
    apply preserves_query, Hit, truthy_js_or.
  - now apply (list_posts_keeps P).
  - unfold create_post. apply preserves_try_catch; [|exact Hs].
    apply preserves_bind; [apply preserves_query, Hip, truthy_js_or|]. intros row.
    apply preserves_bind; [apply preserves_query, Htu|].
    intros ?. auto with pres.
  - now apply Htl.
  - now apply (get_stats_keeps P).
Qed.

Lemma initDB_preserves (P : store -> Prop) (L : library) (e : env) (s : store) :
  (forall un em h bio, preserves P (users_row e un em h bio)) ->
  (forall s0, P s0 -> P (set_users (users s0) (users_seq s0 + 1) s0)) ->
  (forall rows, preserves P (atomic_categories (insert_categories_do_nothing e rows))) ->
  P s -> P (initDB L e s).
Proof.
  intros Hiu Hseq Hcat Hs. unfold initDB. apply preserves_try_catch; [|exact Hs].
  repeat (apply preserves_bind; [|intros ?]); auto with pres.
  - apply preserves_query, insert_categories_preserves, Hcat.
  - apply preserves_query, insert_user_unless_username_preserves; auto.
Qed.

(** ** The constraints on posts *)

Lemma posts_ok_frame (s s' : store) :
  posts_ok s -> posts s' = posts s ->
  (forall u, has_user s u = true -> has_user s' u = true) ->
  (forall t, has_topic s t = true -> has_topic s' t = true) ->
  posts_ok s'.
Proof.
  intros [] Hp Hu Ht. constructor; rewrite Hp; auto.
  - intros p Hin. destruct (ok_post_author0 p Hin) as [u [Hpu Hex]]. eauto.
  - intros p t Hin Hpt. eauto.
Qed.

Lemma existsb_snoc_mono {A} (f : A -> bool) (l : list A) (x : A) :
  existsb f l = true -> existsb f (l ++ [x]) = true.
Proof. intros H. now rewrite existsb_snoc, H. Qed.

Ltac posts_frame :=
  match goal with
  | H : posts_ok ?s |- posts_ok _ =>
      apply (posts_ok_frame s); [exact H | reflexivity | | ];
      unfold has_user, has_topic;
      cbn [users topics set_users set_categories set_topics set_posts set_likes];
      intros ? ?;
      first [ assumption
            | apply existsb_snoc_mono; assumption
            | rewrite existsb_map_preserved; [assumption|];
              intros ?;
              first [ now rewrite touch_user_id | now rewrite bump_views_id
                    | now rewrite bump_updated_at_id ] ]
  end.

Lemma users_row_posts (e : env) (un em : option string) (h : string)
    (bio : option string) :
  preserves posts_ok (users_row e un em h bio).
Proof.
  intros s Hs. unfold users_row.
  destruct un, em;
    repeat match goal with
           | |- context [if ?c then _ else _] => destruct c
           end;
    cbn [fst]; posts_frame.
Qed.

Lemma insert_user_posts (e : env) (a b : jsval) (h : string) (bio : option string) :
  preserves posts_ok (insert_user e a b h bio).
Proof. apply insert_user_preserves. intros. apply users_row_posts. Qed.

Lemma update_last_seen_posts (e : env) (id : Z) :
  preserves posts_ok (update_last_seen e id).
Proof. intros s Hs. unfold update_last_seen. cbn [fst]. posts_frame. Qed.

Lemma insert_topic_posts (e : env) (a b c d : jsval) :
  preserves posts_ok (insert_topic e a b c d).
Proof.
  intros s Hs. unfold insert_topic. cbv beta iota delta [bind lift].
  repeat match goal with
         | |- context [match ?x with _ => _ end] => destruct x; cbv beta iota
         end;
    cbn [fst]; first [exact Hs | posts_frame].
Qed.

Lemma update_topic_views_posts (id : jsval) : preserves posts_ok (update_topic_views id).
Proof.
  intros s Hs. unfold update_topic_views. cbv beta iota delta [bind lift].
  destruct (pg_int id); cbv beta iota; cbn [fst]; first [exact Hs | posts_frame].
Qed.

Lemma update_topic_updated_at_posts (e : env) (id : jsval) :
  preserves posts_ok (update_topic_updated_at e id).
Proof.
  intros s Hs. unfold update_topic_updated_at. cbv beta iota delta [bind lift].
  destruct (pg_int id); cbv beta iota; cbn [fst]; first [exact Hs | posts_frame].
Qed.

Lemma posts_ok_map_add_likes (d : Z) (i : option Z) (s : store) (ls : list like) (n : Z) :
  posts_ok s ->
  posts_ok (set_posts (map (add_likes d i) (posts s)) (posts_seq s) (set_likes ls n s)).
Proof.
  intros []. constructor; cbn [posts set_posts].
  - rewrite (map_id_preserved p_id); [assumption | apply add_likes_id].
  - intros p Hin. apply in_map_iff in Hin as [p0 [<- Hin]].
    destruct (ok_post_author0 p0 Hin) as [u [Hu Hex]]. exists u.
    split; [|exact Hex]. unfold add_likes. now destruct (eqb_oZ i (p_id p0)).
  - intros p t Hin Ht. apply in_map_iff in Hin as [p0 [<- Hin]].
    apply (ok_post_topic0 p0 t Hin). unfold add_likes in Ht.
    now destruct (eqb_oZ i (p_id p0)).
Qed.

Lemma toggle_like_posts (e : env) (id : string) (uid : jsval) (s : store) :
  posts_ok s -> posts_ok (fst (toggle_like e id uid s)).
Proof.
  intros Hs. rewrite toggle_like_unfold. unfold unliked_store, liked_store.
  repeat match goal with
         | |- context [match ?x with _ => _ end] => destruct x; cbv beta iota zeta
         end;
    cbn [fst posts posts_seq set_likes];
    first [ exact Hs | now apply posts_ok_map_add_likes | posts_frame ].
Qed.

Lemma insert_post_schema (e : env) (a b c d : jsval) :
  truthy c = true -> preserves schema_ok (insert_post e a b c d).
Proof.
  intros Hty s [Hs Hp]. split; [now apply insert_post_ok|].
  unfold insert_post, bind, lift.
  destruct (text_param a) as [co|]; [|exact Hp].
  destruct (pg_int b) as [t|]; [|exact Hp].
  destruct (pg_int c) as [u|] eqn:Eu; [|exact Hp].
  destruct (pg_int_truthy _ _ Hty Eu) as [z ->].
  destruct (pg_int d) as [par|]; [|exact Hp].
  destruct co;
    repeat match goal with
           | |- context [if ?c then _ else _] => destruct c eqn:?
           end;
    cbn [fst]; try posts_frame.
  destruct Hp. constructor; cbn [posts set_posts].
  - eapply NoDup_map_snoc; eauto using ok_post_seq.
  - intros p Hin. unfold has_user. cbn [users set_posts].
    apply in_snoc in Hin as [Hin | ->]; [now apply ok_post_author0|].
    exists z. split; [reflexivity|].
    match goal with
    | H : negb (fk_ok (has_user s) _) = false |- _ =>
        apply negb_false_iff in H; exact H
    end.
  - intros p t0 Hin Ht. unfold has_topic. cbn [topics set_posts].
    apply in_snoc in Hin as [Hin | ->]; [now apply (ok_post_topic0 p)|].
    cbn [p_topic_id] in Ht. subst t.
    match goal with
    | H : negb (fk_ok (has_topic s) _) = false |- _ =>
        apply negb_false_iff in H; exact H
    end.
Qed.

Lemma schema_ok_statement {A} (m : DB A) :
  preserves store_ok m -> preserves posts_ok m -> preserves schema_ok m.
Proof. intros H1 H2 s [Hs Hp]. split; auto. Qed.

Lemma handle_schema (L : library) (e : env) (r : request) (s : store) :
  schema_ok s -> schema_ok (fst (handle L e r s)).
Proof.
  apply handle_preserves.
  - intros. apply schema_ok_statement; auto using insert_user_ok, insert_user_posts.
  - intros. apply schema_ok_statement;
      auto using update_last_seen_ok, update_last_seen_posts.
  - intros. apply schema_ok_statement; auto using insert_topic_ok, insert_topic_posts.
  - intros. apply schema_ok_statement;
      auto using update_topic_views_ok, update_topic_views_posts.
  - intros. apply schema_ok_statement;
      auto using update_topic_updated_at_ok, update_topic_updated_at_posts.
  - intros. now apply insert_post_schema.
  - intros id uid s0 [H1 H2]. split; [now apply toggle_like_ok | now apply toggle_like_posts].
Qed.

Lemma initDB_posts (L : library) (e : env) (s : store) :
  posts_ok s -> posts_ok (initDB L e s).
Proof.
  apply initDB_preserves.
  - intros. apply users_row_posts.
  - intros s0 Hs0. posts_frame.
  - intros rows s0 Hs0. unfold atomic_categories.
    pose proof (insert_categories_do_nothing_only e rows s0) as [E _].
    destruct (insert_categories_do_nothing e rows s0) as [s' [a|x]]; cbn [fst] in *.
    + rewrite E. posts_frame.
    + posts_frame.
Qed.

Lemma reachable_schema (L : library) (s : store) : reachable L s -> schema_ok s.
Proof.
  induction 1 as [e He | e r s _ IH | e s _ IH].
  - split; [apply initDB_ok, store_ok_empty | apply initDB_posts].
    constructor; cbn; [constructor | intros ? [] | intros ? ? []].
  - now apply handle_schema.
  - destruct IH. split; [now apply initDB_ok | now apply initDB_posts].
Qed.

(** ** The listings *)

Lemma eqb_oZ_true (a : option Z) (z : Z) : eqb_oZ a z = true <-> a = Some z.
Proof.
  destruct a as [x|]; cbn; [|split; discriminate].
  rewrite Z.eqb_eq. split; [now intros -> | now intros [= ->]].
Qed.

Lemma NoDup_map_filter {A} (f : A -> Z) (g : A -> bool) (l : list A) :
  NoDup (map f l) -> NoDup (map f (filter g l)).
Proof.
  induction l as [|x l IH]; cbn; [auto|]. intros Hnd.
  inversion Hnd as [|? ? Hnotin Hnd']; subst.
  destruct (g x); cbn; [|now apply IH].
  constructor; [|now apply IH]. intros Hin. apply Hnotin.
  apply in_map_iff in Hin as [y [Hy Hin]]. apply filter_In in Hin as [Hin _].
  rewrite <- Hy. now apply in_map.
Qed.

Lemma count_distinct {A} (f : A -> Z) (l : list A) :
  NoDup (map f l) -> List.length (nodup Z.eq_dec (map f l)) = List.length l.
Proof. intros H. rewrite (nodup_fixed_point Z.eq_dec H). apply length_map. Qed.

Lemma max_created_at_latest (ps : list post) : latest_of ps (max_created_at ps).
Proof.
  induction ps as [|p ps IH]; cbn [max_created_at fold_right]; [reflexivity|].
  fold (max_created_at ps). unfold latest_of in *.
  destruct (max_created_at ps) as [m|].
  - destruct IH as [[q [Hq Hm]] Hle]. split.
    + destruct (Z.max_spec (p_created_at p) m) as [[_ ->] | [_ ->]].
      * exists q. split; [now right | exact Hm].
      * exists p. split; [now left | reflexivity].
    + intros x [<- | Hx]; [lia|]. specialize (Hle x Hx). lia.
  - subst ps. split; [exists p; split; [now left | reflexivity]|].
    intros x [<- | []]. lia.
Qed.

Lemma joined_row (s : store) (t : topic) (row : topic_row) :
  NoDup (map c_id (categories s)) -> In row (joined s t) ->
  tr_topic row = t
  /\ (exists u, In u (users s) /\ t_user_id t = Some (u_id u)
                /\ tr_username row = u_username u /\ tr_avatar_url row = u_avatar_url u)
  /\ match t_category_id t with
     | None => tr_category_name row = None /\ tr_category_color row = None
     | Some c =>
         forall cat, In cat (categories s) -> c_id cat = c ->
           tr_category_name row = Some (c_name cat)
           /\ tr_category_color row = c_color cat
     end.
Proof.
  intros Hnd Hin. unfold joined in Hin.
  apply in_flat_map in Hin as [u [Hu Hin]].
  apply in_map_iff in Hin as [c [<- Hc]].
  unfold authors_of in Hu.
  apply (proj1 (filter_In (fun u => eqb_oZ (t_user_id t) (u_id u)) u (users s)))
    in Hu as [Hu Hid].
  apply eqb_oZ_true in Hid.
  split; [reflexivity|]. split; [exists u; cbn; auto|].
  unfold categories_of in Hc.
  destruct (filter (fun c => eqb_oZ (t_category_id t) (c_id c)) (categories s))
    as [|c0 cs] eqn:Hf.
  - destruct Hc as [<- | []]. cbn.
    destruct (t_category_id t) as [k|]; [|auto].
    intros cat Hcat Hk. exfalso.
    assert (H : In cat []); [|destruct H].
    rewrite <- Hf. apply filter_In. split; [exact Hcat|]. cbn. now apply Z.eqb_eq.
  - apply in_map_iff in Hc as [c1 [<- Hc1]]. rewrite <- Hf in Hc1.
    apply (proj1 (filter_In (fun c => eqb_oZ (t_category_id t) (c_id c)) c1
                            (categories s))) in Hc1 as [Hc1 Hk1].
    apply eqb_oZ_true in Hk1. rewrite Hk1. intros cat Hcat Hk.
    assert (c1 = cat)
      by (apply (same_key_same_row c_id (categories s)); auto; lia).
    subst c1. cbn. auto.
Qed.

Lemma listed_items (c : option (option Z)) (s : store) (r : topic_item) :
  schema_ok s -> In r (listed s c) -> topic_item_ok s r.
Proof.
  intros [Hs Hp] Hin. unfold listed in Hin.
  apply in_map_iff in Hin as [row [<- Hin]].
  apply in_flat_map in Hin as [t [Ht Hin]].
  apply filter_In in Ht as [Ht _].
  destruct (joined_row s t row (ok_category_ids s Hs) Hin) as [Ert [Hu Hc]].
  unfold topic_item_ok, topic_item_of. cbn. rewrite Ert.
  split; [exact Ht|]. split.
  - f_equal. apply count_distinct. apply NoDup_map_filter, (ok_post_ids s Hp).
  - split; [apply max_created_at_latest|]. split; assumption.
Qed.

Lemma select_topics_rows (category : option jsval) (limit : jsval) (offset : jsnum)
    (s s' : store) (rows : list topic_item) :
  select_topics category limit offset s = (s', Ok rows) ->
  exists c l o, rows = limit_offset l o (order_by item_before (listed s c)).
Proof.
  unfold select_topics, bind, lift. intros H.
  destruct (match category with Some v => _ | None => _ end) as [c|];
    [|discriminate].
  destruct (pg_bigint limit) as [l|]; [|discriminate].
  destruct (pg_bigint_of_number offset) as [o|]; [|discriminate].
  destruct (o <? 0); [discriminate|].
  destruct (match l with Some n => _ | None => _ end); [discriminate|].
  injection H as _ <-. eauto.
Qed.

(** The rows GET /api/topics answers with are rows of the store: whatever the
    filter and the page, each carries a stored topic with the number of its
    posts, the time of the latest one (null when it has none), its author's
    name and avatar and its category's name and colour. *)
Theorem list_topics_rows (L : library) (e : env) (category page limit : option string)
    (s : store) (rows : list topic_item) :
  reachable L s ->
  snd (list_topics e category page limit s) = json (BTopics rows) ->
  Forall (topic_item_ok s) rows.
Proof.
  intros Hr Hrows. pose proof (reachable_schema L s Hr) as Hs.
  unfold list_topics, try_catch, query in Hrows.
  unfold bind, ret in Hrows.
  destruct (pool e); [|discriminate].
  destruct (select_topics _ _ _ s) as [s' [rows'|err]] eqn:E; [|discriminate].
  cbn [snd] in Hrows. injection Hrows as ->.
  destruct (select_topics_rows _ _ _ _ _ _ E) as [c [l [o ->]]].
  apply Forall_forall. intros r Hin.
  assert (Hin' : In r (order_by item_before (listed s c))).
  { unfold limit_offset in Hin. destruct l.
    - now apply in_firstn, in_skipn in Hin.
    - now apply in_skipn in Hin. }
  apply (Permutation_in _ (order_by_perm _ _)) in Hin'.
  eapply listed_items; eauto.
Qed.

Lemma list_topics_rows_witness :
  reachable sample_library sample_store
  /\ snd (list_topics (at_time 60) None None None sample_store)
     = json (BTopics (order_by item_before (listed sample_store None)))
  /\ Forall (topic_item_ok sample_store)
            (order_by item_before (listed sample_store None)).
Proof.
  assert (Hr : reachable sample_library sample_store)
    by (apply reachable_serve; now constructor).
  assert (Hrows : snd (list_topics (at_time 60) None None None sample_store)
                  = json (BTopics (order_by item_before (listed sample_store None))))
    by (vm_compute; reflexivity).
  split; [exact Hr|]. split; [exact Hrows|].
  exact (list_topics_rows sample_library (at_time 60) None None None sample_store
           _ Hr Hrows).
Defined.

Lemma flat_map_single {A B} (f : A -> list B) (g : A -> B) (l : list A) :
  (forall x, In x l -> f x = [g x]) -> flat_map f l = map g l.
Proof.
  induction l as [|x l IH]; cbn; [reflexivity|]. intros H.
  rewrite (H x) by now left. cbn. f_equal. apply IH. intros y Hy. apply H. now right.
Qed.

Lemma post_author_single (s : store) (p : post) :
  schema_ok s -> In p (posts s) ->
  exists u, In u (users s) /\ p_user_id p = Some (u_id u)
            /\ filter (fun u => eqb_oZ (p_user_id p) (u_id u)) (users s) = [u].
Proof.
  intros [Hs Hp] Hin. destruct (ok_post_author s Hp p Hin) as [a [Ha Hex]].
  unfold has_user in Hex. apply existsb_exists in Hex as [u [Hu Hid]].
  apply Z.eqb_eq in Hid. exists u. split; [exact Hu|]. split; [now rewrite Ha, Hid|].
  rewrite Ha. cbn [eqb_oZ].
  exact (filter_by_key_single u_id (users s) a u (ok_user_ids s Hs) Hu Hid).
Qed.

Lemma select_posts_spec (id : string) (z : Z) (s : store) :
  schema_ok s -> int4in id = Ok z ->
  exists rows,
    select_posts (JStr id) s = (s, Ok rows)
    /\ Permutation (map pi_post rows)
                   (filter (fun p => eqb_oZ (p_topic_id p) z) (posts s))
    /\ StronglySorted (fun a b => p_created_at (pi_post a) <= p_created_at (pi_post b))
                      rows
    /\ Forall (post_item_ok s) rows.
Proof.
  intros Hsch Hid.
  pose proof Hsch as [Hs Hp].
  unfold select_posts. unfold bind, lift.
  rewrite (pg_int_route _ _ Hid). cbv beta iota. cbn [sql_eq].
  eexists. split; [reflexivity|].
  set (item := fun p => _ : list post_item).
  set (ps := filter (fun p => eqb_oZ (p_topic_id p) z) (posts s)).
  assert (Hitems : forall p, In p ps ->
            exists r, item p = [r] /\ pi_post r = p /\ post_item_ok s r).
  { intros p Hin. apply filter_In in Hin as [Hin _].
    destruct (post_author_single s p Hsch Hin) as [u [Hu [Hpu Hf]]].
    subst item. cbv beta. rewrite Hf. cbn [map]. eexists. split; [reflexivity|].
    split; [reflexivity|]. unfold post_item_ok. cbn.
    split; [exact Hin|]. split; [|exists u; auto].
    rewrite (ok_like_count s Hs p Hin). reflexivity. }
  split; [|split].
  - rewrite order_by_perm.
    assert (Hmap : map pi_post (flat_map item ps) = ps).
    { clear - Hitems. induction ps as [|p ps IH]; [reflexivity|]. cbn [flat_map].
      destruct (Hitems p) as [r [-> [Hr _]]]; [now left|]. cbn. rewrite Hr. f_equal.
      apply IH. intros q Hq. apply Hitems. now right. }
    now rewrite Hmap.
  - eapply StronglySorted_impl; [|apply order_by_sorted].
    + intros a b. cbv beta. apply Z.leb_le.
    + intros a b. cbv beta. rewrite !Z.leb_le. lia.
    + intros a b c. cbv beta. rewrite !Z.leb_le. lia.
  - apply Forall_forall. intros r Hin.
    apply (Permutation_in _ (order_by_perm _ _)) in Hin.
    apply in_flat_map in Hin as [p [Hp' Hin]].
    destruct (Hitems p Hp') as [r' [Hr' [_ Hok]]]. rewrite Hr' in Hin.
    destruct Hin as [<- | []]. exact Hok.
Qed.


(** GET /api/topics/:id/posts on a store the server can be in, the route id
    reading as the integer [z]: the answer is 200, its rows are exactly the
    posts of topic [z], one row each, oldest first, and each row carries the
    post's like counter as like_count and its author's name and avatar. *)
Theorem list_posts_rows (L : library) (e : env) (id : string) (z : Z) (s : store) :
  reachable L s -> pool e = PoolUp -> int4in id = Ok z ->
  exists rows,
    list_posts e id s = (s, json (BPosts rows))
    /\ Permutation (map pi_post rows)
                   (filter (fun p => eqb_oZ (p_topic_id p) z) (posts s))
    /\ StronglySorted (fun a b => p_created_at (pi_post a) <= p_created_at (pi_post b))
                      rows
    /\ Forall (post_item_ok s) rows.
Proof.
  intros Hr Hup Hid.
  destruct (select_posts_spec id z s (reachable_schema L s Hr) Hid)
    as [rows [Hrows Hspec]].
  exists rows. split; [|exact Hspec].
  unfold list_posts, try_catch, query. unfold bind, ret.
  rewrite Hup, Hrows. reflexivity.
Qed.

Lemma list_posts_rows_witness :
  reachable sample_library sample_store /\ pool (at_time 60) = PoolUp
  /\ int4in "1" = Ok 1
  /\ exists rows,
       list_posts (at_time 60) "1" sample_store = (sample_store, json (BPosts rows))
       /\ Permutation (map pi_post rows)
                      (filter (fun p => eqb_oZ (p_topic_id p) 1) (posts sample_store))
       /\ StronglySorted
            (fun a b => p_created_at (pi_post a) <= p_created_at (pi_post b)) rows
       /\ Forall (post_item_ok sample_store) rows.
Proof.
  assert (Hr : reachable sample_library sample_store)
    by (apply reachable_serve; now constructor).
  split; [exact Hr|]. split; [reflexivity|]. split; [vm_compute; reflexivity|].
  apply (list_posts_rows sample_library (at_time 60) "1" 1 sample_store Hr eq_refl).
  vm_compute; reflexivity.
Defined.

(** GET /api/categories on a store the server can be in: the answer is 200,
    its rows are the stored categories, one row each, by ascending id, and
    topic_count is the number of topics filed under the category. *)
Theorem list_categories_rows (L : library) (e : env) (s : store) :
  reachable L s -> pool e = PoolUp ->
  exists rows,
    list_categories e s = (s, json (BCategories rows))
    /\ Permutation (map ci_category rows) (categories s)
    /\ StronglySorted (fun a b => c_id (ci_category a) < c_id (ci_category b)) rows
    /\ Forall (fun r => ci_topic_count r
                        = Z.of_nat (List.length (topics_in s (c_id (ci_category r)))))
              rows.
Proof.
  intros Hr Hup. pose proof (reachable_ok L s Hr) as Hs.
  unfold list_categories, try_catch, query, select_categories. unfold bind, ret.
  rewrite Hup. cbv beta iota.
  eexists. split; [reflexivity|].
  set (item := fun c => _ : category_item).
  set (before := fun a b => c_id (ci_category a) <=? c_id (ci_category b)).
  assert (Hperm : Permutation (map ci_category (order_by before (map item (categories s))))
                              (categories s)).
  { rewrite order_by_perm, map_map. subst item. cbn [ci_category].
    now rewrite map_id. }
  split; [exact Hperm|]. split.
  - assert (Hnd : NoDup (map (fun r => c_id (ci_category r))
                            (order_by before (map item (categories s))))).
    { rewrite <- map_map. eapply Permutation_NoDup; [|apply (ok_category_ids s Hs)].
      symmetry. now apply Permutation_map. }
    assert (Hsorted : StronglySorted (fun a b => before a b = true)
                        (order_by before (map item (categories s)))).
    { apply order_by_sorted; subst before; cbv beta; intros; rewrite ?Z.leb_le in *; lia. }
    revert Hnd Hsorted. generalize (order_by before (map item (categories s))).
    induction l as [|a l IH]; intros Hnd Hsorted; [constructor|].
    inversion Hnd as [|? ? Hnotin Hnd']; subst.
    inversion Hsorted as [|? ? Hl Ha]; subst.
    constructor; [now apply IH|].
    apply Forall_forall. intros b Hb. rewrite Forall_forall in Ha.
    specialize (Ha b Hb). subst before. cbv beta in Ha. apply Z.leb_le in Ha.
    assert (c_id (ci_category a) <> c_id (ci_category b)); [|lia].
    intros E. apply Hnotin. rewrite E.
    now apply (in_map (fun r => c_id (ci_category r))).
  - apply Forall_forall. intros r Hin.
    apply (Permutation_in _ (order_by_perm _ _)) in Hin.
    apply in_map_iff in Hin as [c [<- _]]. subst item. cbn [ci_topic_count ci_category].
    f_equal. apply count_distinct. apply NoDup_map_filter, (ok_topic_ids s Hs).
Qed.

Lemma list_categories_rows_witness :
  reachable sample_library sample_store /\ pool (at_time 60) = PoolUp
  /\ exists rows,
       list_categories (at_time 60) sample_store
       = (sample_store, json (BCategories rows))
       /\ Permutation (map ci_category rows) (categories sample_store)
       /\ StronglySorted (fun a b => c_id (ci_category a) < c_id (ci_category b)) rows
       /\ Forall (fun r => ci_topic_count r
                           = Z.of_nat (List.length
                                         (topics_in sample_store (c_id (ci_category r)))))
                 rows.
Proof.
  assert (Hr : reachable sample_library sample_store)
    by (apply reachable_serve; now constructor).
  split; [exact Hr|]. split; [reflexivity|].
  exact (list_categories_rows sample_library (at_time 60) sample_store Hr eq_refl).
Defined.

(** ** Replies *)

Lemma find_updated (t0 z : Z) (l : list topic) :
  find (fun t => t_id t =? z) (map (bump_updated_at t0 (Some z)) l)
  = option_map (bump_updated_at t0 (Some z)) (find (fun t => t_id t =? z) l).
Proof.
  induction l as [|t l IH]; [reflexivity|]. cbn [map find].
  rewrite bump_updated_at_id. destruct (t_id t =? z); [reflexivity | exact IH].
Qed.

Lemma has_topic_find (s : store) (z : Z) :
  has_topic s z = true -> exists t, find (fun t => t_id t =? z) (topics s) = Some t
                                    /\ t_id t = z.
Proof.
  unfold has_topic. intros H.
  destruct (find (fun t => t_id t =? z) (topics s)) as [t|] eqn:Hf.
  - exists t. split; [reflexivity|]. apply find_some in Hf as [_ Hf].
    now apply Z.eqb_eq.
  - apply existsb_exists in H as [t [Ht Hz]].
    now rewrite (find_none _ _ Hf t Ht) in Hz.
Qed.

(** POST /api/posts then GET /api/topics/:id/posts: when a reply to topic
    [z] is accepted (status 200, body the new row), the listing of topic [z]
    answers with the posts it had before and the new one, the new one with
    like_count 0 and created at the time of the INSERT; the topic's
    updated_at is the time of the UPDATE that the handler sends next. *)
Theorem created_post_is_listed (L : library) (e e' : env)
    (content topic_id user_id parent_id : jsval) (id : string) (z : Z)
    (s : store) (row : post) :
  reachable L s -> pool e' = PoolUp ->
  snd (create_post e content topic_id user_id parent_id s) = json (BPostCreated row) ->
  p_topic_id row = Some z -> int4in id = Ok z ->
  let s' := fst (create_post e content topic_id user_id parent_id s) in
  exists rows,
    list_posts e' id s' = (s', json (BPosts rows))
    /\ Permutation (map pi_post rows)
         (filter (fun p => eqb_oZ (p_topic_id p) z) (posts s) ++ [row])
    /\ (forall r, In r rows -> pi_post r = row -> pi_like_count r = 0)
    /\ p_created_at row = now e
    /\ updated_at_of s' z = Some (later e).
Proof.
  intros Hr Hup Hacc Hz Hid s'.
  assert (Hs' : schema_ok s').
  { apply (reachable_schema L).
    exact (reachable_step L e (PostPost content topic_id user_id parent_id) s Hr). }
  destruct (create_post_answer _ _ _ _ _ _ _ Hacc)
    as [Efst [_ [_ [_ [_ [_ [Hlikes [Hnow [_ Hfk]]]]]]]]].
  fold s' in Efst.
  destruct (select_posts_spec id z s' Hs' Hid) as [rows [Hrows [Hperm [_ Hok]]]].
  exists rows. split; [|split; [|split; [|split; [exact Hnow|]]]].
  - unfold list_posts, try_catch, query. unfold bind, ret.
    rewrite Hup, Hrows. reflexivity.
  - rewrite Hperm, Efst. unfold replied_store. cbn [posts set_topics set_posts].
    rewrite filter_snoc, Hz. cbn [eqb_oZ]. now rewrite Z.eqb_refl.
  - intros r Hin Er. rewrite Forall_forall in Hok.
    destruct (Hok r Hin) as [_ [-> _]]. now rewrite Er.
  - rewrite Efst. unfold updated_at_of, replied_store.
    cbn [topics set_topics set_posts]. rewrite Hz, find_updated.
    rewrite Hz in Hfk. cbn [fk_ok] in Hfk.
    destruct (has_topic_find s z Hfk) as [t [-> Ht]]. cbn [option_map].
    unfold bump_updated_at. cbn [eqb_oZ]. rewrite Ht, Z.eqb_refl. reflexivity.
Qed.

Lemma created_post_is_listed_witness :
  reachable sample_library sample_store /\ pool (at_time 70) = PoolUp
  /\ int4in "1" = Ok 1
  /\ exists row rows,
       snd (create_post (at_time 60) (JStr "Again") (JNum 1) JUndefined JUndefined
              sample_store) = json (BPostCreated row)
       /\ p_topic_id row = Some 1
       /\ Permutation (map pi_post rows)
            (filter (fun p => eqb_oZ (p_topic_id p) 1) (posts sample_store) ++ [row])
       /\ p_created_at row = 60
       /\ updated_at_of
            (fst (create_post (at_time 60) (JStr "Again") (JNum 1) JUndefined JUndefined
                    sample_store)) 1 = Some 61.
Proof.
  assert (Hr : reachable sample_library sample_store)
    by (apply reachable_serve; now constructor).
  split; [exact Hr|]. split; [reflexivity|]. split; [vm_compute; reflexivity|].
  eexists.
  assert (Hacc : snd (create_post (at_time 60) (JStr "Again") (JNum 1) JUndefined
                        JUndefined sample_store) = json (BPostCreated _))
    by (vm_compute; reflexivity).
  destruct (created_post_is_listed sample_library (at_time 60) (at_time 70)
              (JStr "Again") (JNum 1) JUndefined JUndefined "1" 1 sample_store _
              Hr eq_refl Hacc eq_refl)
    as [rows [_ [Hperm [_ [Hnow Hupd]]]]]; [vm_compute; reflexivity|].
  exists rows. split; [exact Hacc|]. split; [reflexivity|].
  split; [exact Hperm|]. split; [exact Hnow | exact Hupd].
Defined.

(** POST /api/posts naming a topic that does not exist is refused: whatever
    the other fields, the answer is 400 and no row of any table changes. *)
Theorem create_post_missing_topic (e : env) (content topic_id user_id parent_id : jsval)
    (z : Z) (s : store) :
  pg_int topic_id = Ok (Some z) -> has_topic s z = false ->
  status (snd (create_post e content topic_id user_id parent_id s)) = 400
  /\ same_rows s (fst (create_post e content topic_id user_id parent_id s)).
Proof.
  intros Ht Hz.
  unfold create_post, try_catch, query, insert_post, update_topic_updated_at.
  unfold bind, lift, ret, same_rows. rewrite Ht.
  destruct (pool e); [|cbn; auto 6].
  destruct (text_param content) as [co|]; [|cbn; auto 6].
  destruct (pg_int (js_or user_id (JNum 1))) as [u|]; [|cbn; auto 6].
  destruct (pg_int parent_id) as [par|]; [|cbn; auto 6].
  cbv beta iota zeta.
  destruct co as [co|]; [|cbn; auto 6].
  destruct (has_post s (posts_seq s)); [cbn; auto 6|].
  cbn [fk_ok]. rewrite Hz. cbn; auto 6.
Qed.

Lemma create_post_missing_topic_witness :
  pg_int (JNum 9) = Ok (Some 9) /\ has_topic sample_store 9 = false
  /\ status (snd (create_post (at_time 60) (JStr "Reply") (JNum 9) (JNum 1) JUndefined
                    sample_store)) = 400
  /\ same_rows sample_store
       (fst (create_post (at_time 60) (JStr "Reply") (JNum 9) (JNum 1) JUndefined
               sample_store)).
Proof.
  split; [reflexivity|]. split; [vm_compute; reflexivity|].
  apply (create_post_missing_topic (at_time 60) (JStr "Reply") (JNum 9) (JNum 1)
           JUndefined 9 sample_store); vm_compute; reflexivity.
Defined.

(** ** Topics *)

Lemma find_snoc_fresh {A} (f : A -> bool) (l : list A) (x : A) :
  existsb f l = false -> f x = true -> find f (l ++ [x]) = Some x.
Proof.
  induction l as [|y l IH]; cbn; [now intros _ ->|].
  destruct (f y); [discriminate | exact IH].
Qed.

(** POST /api/topics then GET /api/topics/:id: when a topic is accepted
    (status 200, body the new row [t], with 0 views), it is stored last, and
    the first fetch of its id answers 200 with that topic at 1 view, joined
    with its author and category. *)
Theorem created_topic_is_fetched (L : library) (e e' : env)
    (title content category_id user_id : jsval) (id : string)
    (s : store) (t : topic) :
  reachable L s -> pool e' = PoolUp ->
  snd (create_topic e title content category_id user_id s) = json (BTopicCreated t) ->
  int4in id = Ok (t_id t) ->
  let s' := fst (create_topic e title content category_id user_id s) in
  topics s' = (topics s ++ [t])%list /\ t_views t = 0
  /\ exists row,
       get_topic e' id s' = (viewed_store (t_id t) s', json (BTopic row))
       /\ tr_topic row = with_views t 1
       /\ enriched s' (t_id t) 1 row.
Proof.
  intros Hr Hup Hacc Hid s'.
  assert (Hs' : store_ok s').
  { apply (reachable_ok L).
    exact (reachable_step L e (PostTopic title content category_id user_id) s Hr). }
  destruct (create_topic_answer _ _ _ _ _ _ _ Hacc) as [Efst [Etid [Hv _]]].
  fold s' in Efst.
  assert (Htopics : topics s' = (topics s ++ [t])%list) by now rewrite Efst.
  split; [exact Htopics|]. split; [exact Hv|].
  assert (Hfind : find (fun x => t_id x =? t_id t) (topics s') = Some t).
  { rewrite Htopics. apply find_snoc_fresh; [|apply Z.eqb_refl].
    rewrite Etid. apply (no_next_topic_id s), (reachable_ok L s Hr). }
  destruct (get_topic_found e' id (t_id t) s' t Hs' Hup Hid Hfind) as [row [Hresp Hen]].
  rewrite Hv in Hen. cbn in Hen.
  exists row. split; [exact Hresp|]. split; [|exact Hen].
  destruct Hen as [t0 [u [Hf [Hrow _]]]]. rewrite Hfind in Hf. now injection Hf as <-.
Qed.

Lemma created_topic_is_fetched_witness :
  reachable sample_library sample_store /\ pool (at_time 70) = PoolUp
  /\ exists t row,
       snd (create_topic (at_time 60) (JStr "News") (JStr "Today") (JNum 2) JUndefined
              sample_store) = json (BTopicCreated t)
       /\ int4in "2" = Ok (t_id t)
       /\ get_topic (at_time 70) "2"
            (fst (create_topic (at_time 60) (JStr "News") (JStr "Today") (JNum 2)
                    JUndefined sample_store))
          = (viewed_store (t_id t)
               (fst (create_topic (at_time 60) (JStr "News") (JStr "Today") (JNum 2)
                       JUndefined sample_store)),
             json (BTopic row))
       /\ tr_topic row = with_views t 1.
Proof.
  assert (Hr : reachable sample_library sample_store)
    by (apply reachable_serve; now constructor).
  split; [exact Hr|]. split; [reflexivity|].
  eexists.
  assert (Hacc : snd (create_topic (at_time 60) (JStr "News") (JStr "Today") (JNum 2)
                        JUndefined sample_store) = json (BTopicCreated _))
    by (vm_compute; reflexivity).
  destruct (created_topic_is_fetched sample_library (at_time 60) (at_time 70)
              (JStr "News") (JStr "Today") (JNum 2) JUndefined "2" sample_store _
              Hr eq_refl Hacc)
    as [_ [_ [row [Hresp [Hrow _]]]]]; [vm_compute; reflexivity|].
  exists row. split; [exact Hacc|]. split; [vm_compute; reflexivity|].
  split; [exact Hresp | exact Hrow].
Defined.

(** POST /api/topics naming a category that does not exist is refused:
    whatever the other fields, the answer is 400 and no row of any table
    changes. *)
Theorem create_topic_missing_category (e : env)
    (title content category_id user_id : jsval) (c : Z) (s : store) :
  pg_int category_id = Ok (Some c) -> has_category s c = false ->
  status (snd (create_topic e title content category_id user_id s)) = 400
  /\ same_rows s (fst (create_topic e title content category_id user_id s)).
Proof.
  intros Hc Hz.
  unfold create_topic, try_catch, query, insert_topic.
  unfold bind, lift, ret, same_rows. rewrite Hc.
  destruct (pool e); [|cbn; auto 6].
  destruct (text_param title) as [ti|]; [|cbn; auto 6].
  destruct (text_param content) as [co|]; [|cbn; auto 6].
  destruct (pg_int (js_or user_id (JNum 1))) as [u|]; [|cbn; auto 6].
  destruct (varchar 200 ti) as [[]|]; [|cbn; auto 6].
  cbv beta iota zeta.
  destruct ti as [ti|]; [|cbn; auto 6].
  destruct co as [co|]; [|cbn; auto 6].
  destruct (has_topic s (topics_seq s)); [cbn; auto 6|].
  destruct (negb (fk_ok (has_user s) u)); [cbn; auto 6|].
  cbn [fk_ok]. rewrite Hz. cbn; auto 6.
Qed.

Lemma create_topic_missing_category_witness :
  pg_int (JNum 9) = Ok (Some 9) /\ has_category sample_store 9 = false
  /\ status (snd (create_topic (at_time 60) (JStr "News") (JStr "Today") (JNum 9)
                    (JNum 1) sample_store)) = 400
  /\ same_rows sample_store
       (fst (create_topic (at_time 60) (JStr "News") (JStr "Today") (JNum 9)
               (JNum 1) sample_store)).
Proof.
  split; [reflexivity|]. split; [vm_compute; reflexivity|].
  apply (create_topic_missing_category (at_time 60) (JStr "News") (JStr "Today")
           (JNum 9) (JNum 1) 9 sample_store); vm_compute; reflexivity.
Defined.

(** ** Likes: what a toggle leaves alone *)

Lemma like_is_args (a b : option Z) (l : like) :
  like_is a b l = true -> a = l_user_id l /\ b = l_post_id l.
Proof.
  unfold like_is, sql_eq. intros H. apply andb_true_iff in H as [Ha Hb].
  destruct a as [x|]; [|discriminate]. destruct b as [y|]; [|discriminate].
  apply eqb_oZ_true in Ha, Hb. now rewrite Ha, Hb.
Qed.

Lemma find_map_add_likes_other (d : Z) (i : option Z) (p : Z) (l : list post) :
  i <> Some p ->
  option_map p_likes (find (fun x => p_id x =? p) (map (add_likes d i) l))
  = option_map p_likes (find (fun x => p_id x =? p) l).
Proof.
  intros Hi. induction l as [|x l IH]; [reflexivity|]. cbn [map find].
  rewrite add_likes_id. destruct (p_id x =? p) eqn:E; [|exact IH].
  apply Z.eqb_eq in E. cbn [option_map]. f_equal. unfold add_likes.
  destruct (eqb_oZ i (p_id x)) eqn:Ei; [|reflexivity].
  apply eqb_oZ_true in Ei. congruence.
Qed.

(** POST /api/posts/:id/like touches one (user, post) pair and one counter:
    users, categories and topics stay as they are, whether any other user
    likes any other post is unchanged, and so is the like counter of every
    other post.  This holds for every store and every outcome of the
    request. *)
Theorem toggle_like_frame (e : env) (id : string) (user_id : jsval) (s : store) :
  users (fst (toggle_like e id user_id s)) = users s
  /\ categories (fst (toggle_like e id user_id s)) = categories s
  /\ topics (fst (toggle_like e id user_id s)) = topics s
  /\ (forall u p,
        ~ (pg_int (js_or user_id (JNum 1)) = Ok (Some u) /\ int4in id = Ok p) ->
        liked (fst (toggle_like e id user_id s)) u p = liked s u p)
  /\ (forall p, int4in id <> Ok p ->
        like_counter (fst (toggle_like e id user_id s)) p = like_counter s p).
Proof.
  rewrite toggle_like_unfold.
  destruct (pool e); [|cbn; auto].
  destruct (pg_int (js_or user_id (JNum 1))) as [u0|]; [|cbn; auto].
  unfold pg_int. cbn [pg_text]. destruct (int4in id) as [p0|]; [|cbn; auto].
  assert (Hliked : forall u p, ~ (Ok u0 = Ok (Some u) /\ @Ok Z p0 = Ok p) ->
            forall l, like_is (Some u) (Some p) l = true ->
                      like_is u0 (Some p0) l = false).
  { intros u p Hne l Hl. destruct (like_is u0 (Some p0) l) eqn:E; [|reflexivity].
    apply like_is_args in Hl as [Hu Hp]. apply like_is_args in E as [Hu0 Hp0].
    exfalso. apply Hne. split; congruence. }
  assert (Hcount : forall p, @Ok Z p0 <> Ok p -> Some p0 <> Some p)
    by (intros p Hne [= ->]; now apply Hne).
  destruct (existsb (like_is u0 (Some p0)) (likes s)).
  - cbn [fst]. unfold unliked_store, liked, like_counter.
    cbn [users categories topics likes posts set_likes set_posts].
    repeat split.
    + intros u p Hne. specialize (Hliked u p Hne).
      induction (likes s) as [|l ls IH]; [reflexivity|]. cbn [filter existsb].
      destruct (like_is (Some u) (Some p) l) eqn:El.
      * rewrite (Hliked l El). cbn [negb existsb]. now rewrite El.
      * destruct (negb (like_is u0 (Some p0) l)); cbn [existsb orb];
          [rewrite El|]; exact IH.
    + intros p Hne. now apply find_map_add_likes_other, Hcount.
  - cbv zeta.
    repeat match goal with
           | |- context [if ?c then _ else _] => destruct c
           end;
      cbn [fst]; try (cbn; now auto).
    unfold liked_store, liked, like_counter.
    cbn [users categories topics likes posts set_likes set_posts].
    repeat split.
    + intros u p Hne. rewrite existsb_snoc.
      destruct (like_is (Some u) (Some p) _) eqn:El; [|apply orb_false_r].
      apply like_is_args in El as [Hu Hp]. cbn in Hu, Hp.
      exfalso. apply Hne. split; congruence.
    + intros p Hne. now apply find_map_add_likes_other, Hcount.
Qed.

(** ** Statistics *)

(** GET /api/stats on a store the server can be in at time [t]: the answer
    is 200, the three counts are the sizes of the tables, the active users
    are at most the users, a user seen less than 24 hours ago counts as
    active, and 24 hours after the last request nobody does. *)
Theorem stats_counts (L : library) (e : env) (t : Z) (s : store) :
  reachable_at L t s -> pool e = PoolUp ->
  exists row,
    get_stats e s = (s, json (BStats row))
    /\ user_count row = Z.of_nat (List.length (users s))
    /\ topic_count row = Z.of_nat (List.length (topics s))
    /\ post_count row = Z.of_nat (List.length (posts s))
    /\ 0 <= active_users row <= user_count row
    /\ (forall u, In u (users s) -> now e - HOURS_24 < u_last_seen u ->
          1 <= active_users row)
    /\ (t + HOURS_24 <= now e -> active_users row = 0).
Proof.
  intros Hr Hup. unfold get_stats, try_catch, query, select_stats.
  unfold bind, ret. rewrite Hup. cbv beta iota.
  eexists. split; [reflexivity|]. cbn [user_count topic_count post_count active_users].
  do 3 (split; [reflexivity|]). split; [|split].
  - split; [lia|]. apply inj_le, filter_length_le.
  - intros u Hu Hseen.
    assert (Hin : In u (filter (fun u => now e - HOURS_24 <? u_last_seen u) (users s)))
      by (apply filter_In; split; [exact Hu | now apply Z.ltb_lt]).
    destruct (filter _ (users s)); [destruct Hin | cbn [List.length]; lia].
  - intros Hlate. pose proof (reachable_at_last_seen L t s Hr) as Hle.
    rewrite filter_none; [reflexivity|]. intros u Hu. apply Z.ltb_ge.
    specialize (Hle u Hu). lia.
Qed.

Lemma stats_counts_witness :
  reachable_at sample_library 50 sample_store /\ pool (at_time 60) = PoolUp
  /\ exists row,
       get_stats (at_time 60) sample_store = (sample_store, json (BStats row))
       /\ user_count row = 2 /\ topic_count row = 1 /\ post_count row = 1.
Proof.
  split; [exact sample_store_reachable_at|]. split; [reflexivity|].
  destruct (stats_counts sample_library (at_time 60) 50 sample_store
              sample_store_reachable_at eq_refl)
    as [row [Hresp [Hu [Ht [Hp _]]]]].
  exists row. split; [exact Hresp|].
  split; [rewrite Hu | split; [rewrite Ht | rewrite Hp]]; vm_compute; reflexivity.
Defined.

(** ** Registration, as a whole *)

(** POST /api/register on a store the server can be in, the store answering
    and bcrypt's hash fitting its column, for a username and an email that,
    when longer than their columns, do not end in a space: the answer is 200
    exactly when the password is a string, username and email are present,
    hold no zero byte, are at most 50 and 100 characters long, and neither is
    taken; then one user row is added, with the next id of the sequence.  In
    every other case the answer is 400 and no row of any table changes. *)
Theorem register_outcome (L : library) (e : env) (username email password : jsval)
    (s : store) :
  hash_fits L -> reachable L s -> pool e = PoolUp ->
  not_padded 50 username -> not_padded 100 email ->
  let s' := fst (register L e username email password s) in
  if register_valid s username email password
  then status (snd (register L e username email password s)) = 200
       /\ exists row, users s' = (users s ++ [row])%list
                      /\ pg_text username = Some (u_username row)
                      /\ pg_text email = Some (u_email row)
                      /\ u_id row = users_seq s
  else status (snd (register L e username email password s)) = 400
       /\ same_rows s s'.
Proof.
  intros Hfit Hr Hup _ _ s'. subst s'. pose proof (reachable_ok L s Hr) as Hs.
  unfold register_valid, register, try_catch, query, insert_user, users_row, hash,
    same_rows.
  unfold bind, ret, throw, lift, text_param, varchar.
  destruct password as [ | | b | z | p]; cbv beta iota; try (cbn; now auto 6).
  rewrite Hup.
  specialize (Hfit p (salt e)). apply Z.ltb_ge in Hfit. rewrite Hfit.
  rewrite (no_next_user_id s Hs).
  destruct (pg_text username) as [un|], (pg_text email) as [em|];
    rewrite ?Z.leb_antisym;
    repeat match goal with
           | |- context [has_nul ?x] => destruct (has_nul x)
           end; cbn [negb andb]; cbv beta iota; try (cbn; now auto 6);
    repeat match goal with
           | |- context [?a <? strlen ?x] => destruct (a <? strlen x)
           end; cbn [negb andb]; cbv beta iota; try (cbn; now auto 6).
  destruct (existsb (fun u => String.eqb (u_username u) un) (users s));
    cbn [negb andb]; [cbn; now auto 6|].
  destruct (existsb (fun u => String.eqb (u_email u) em) (users s));
    cbn [negb andb]; [cbn; now auto 6|].
  cbn [fst snd status json users set_users]. split; [reflexivity|].
  eexists. split; [reflexivity|]. cbn. auto.
Qed.

Lemma register_outcome_witness :
  hash_fits sample_library /\ reachable sample_library sample_store
  /\ pool (at_time 60) = PoolUp
  /\ not_padded 50 (JStr "bob") /\ not_padded 100 (JStr "bob@nexus.com")
  /\ not_padded 100 JNull
  /\ status (snd (register sample_library (at_time 60) (JStr "bob")
                    (JStr "bob@nexus.com") (JStr "builder") sample_store)) = 200
  /\ status (snd (register sample_library (at_time 60) (JStr "bob")
                    JNull (JStr "builder") sample_store)) = 400.
Proof.
  assert (Hr : reachable sample_library sample_store)
    by (apply reachable_serve; now constructor).
  assert (Hu : not_padded 50 (JStr "bob")) by (intros x [= <-]; reflexivity).
  assert (Hm : not_padded 100 (JStr "bob@nexus.com"))
    by (intros x [= <-]; reflexivity).
  assert (Hn : not_padded 100 JNull) by (intros x; discriminate).
  split; [exact sample_hash_fits|]. split; [exact Hr|]. split; [reflexivity|].
  split; [exact Hu|]. split; [exact Hm|]. split; [exact Hn|].
  pose proof (register_outcome sample_library (at_time 60) (JStr "bob")
                (JStr "bob@nexus.com") (JStr "builder") sample_store
                sample_hash_fits Hr eq_refl Hu Hm) as H1.
  pose proof (register_outcome sample_library (at_time 60) (JStr "bob")
                JNull (JStr "builder") sample_store
                sample_hash_fits Hr eq_refl Hu Hn) as H2.
  cbv zeta in H1, H2.
  replace (register_valid sample_store (JStr "bob") (JStr "bob@nexus.com")
             (JStr "builder")) with true in H1 by (vm_compute; reflexivity).
  replace (register_valid sample_store (JStr "bob") JNull (JStr "builder"))
    with false in H2 by (vm_compute; reflexivity).
  split; [exact (proj1 H1) | exact (proj1 H2)].
Defined.

(** ** Restarts *)

Lemma set_categories_twice (a b : list category) (n m : Z) (s : store) :
  set_categories a n (set_categories b m s) = set_categories a n s.
Proof. reflexivity. Qed.

Lemma seeded_ids (e : env) (id : Z) (rows : list (string * string * string * string)) :
  forall c, In c (seeded e id rows) -> id <= c_id c < id + Z.of_nat (List.length rows).
Proof.
  revert id. induction rows as [|[[[n d] co] i] rows IH]; intros id c; cbn [seeded].
  - intros [].
  - intros [<- | Hin]; cbn [c_id List.length]; [lia|].
    specialize (IH (id + 1) c Hin). lia.
Qed.

Lemma insert_categories_fresh (e : env) (rows : list (string * string * string * string))
    (s : store) :
  (forall c, In c (categories s) -> c_id c < categories_seq s) ->
  Forall category_fits rows ->
  insert_categories_do_nothing e rows s
  = (set_categories (categories s ++ seeded e (categories_seq s) rows)
       (categories_seq s + Z.of_nat (List.length rows)) s, Ok tt).
Proof.
  revert s. induction rows as [|[[[n d] co] i] rows IH]; intros s Hseq Hfit.
  - cbn. rewrite app_nil_r, Z.add_0_r. unfold ret. f_equal. now destruct s.
  - inversion Hfit as [|? ? Hrow Hfit']; subst. destruct Hrow as [Hn [Hc Hi]].
    cbn [insert_categories_do_nothing seeded]. unfold bind.
    unfold insert_category_do_nothing at 1.
    assert (Hfresh : has_category s (categories_seq s) = false).
    { unfold has_category. apply existsb_none. intros c Hin. apply Z.eqb_neq.
      specialize (Hseq c Hin). lia. }
    rewrite Hfresh. rewrite IH; [|clear IH|exact Hfit'].
    + cbn [categories categories_seq set_categories]. rewrite set_categories_twice.
      rewrite <- app_assoc. cbn [app List.length]. do 2 f_equal. lia.
    + cbn [categories categories_seq set_categories]. intros c Hin.
      apply in_snoc in Hin as [Hin | ->]; [specialize (Hseq c Hin); lia | cbn; lia].
Qed.

Lemma default_categories_fit : Forall category_fits default_categories.
Proof. repeat constructor; vm_compute; discriminate. Qed.

(** Every start of the server on a store it can be in, the store answering:
    the four default categories are stored once more, under the next four
    ids, and no other row changes; the admin row is not stored again. *)
Theorem restart_appends_categories (L : library) (e : env) (s : store) :
  hash_fits L -> reachable L s -> pool e = PoolUp ->
  categories (initDB L e s)
  = (categories s ++ seeded e (categories_seq s) default_categories)%list
  /\ users (initDB L e s) = users s /\ topics (initDB L e s) = topics s
  /\ posts (initDB L e s) = posts s /\ likes (initDB L e s) = likes s.
Proof.
  intros Hfit Hr Hup. pose proof (reachable_ok L s Hr) as Hs.
  destruct (reachable_admin L s Hfit Hr) as [a [Ha [_ Hname]]].
  unfold initDB, try_catch, query, hash. unfold bind, ret.
  rewrite Hup. cbv beta iota. rewrite insert_default_categories.
  unfold atomic_categories.
  rewrite (insert_categories_fresh e default_categories s (ok_category_seq s Hs)
             default_categories_fit).
  cbv beta iota. rewrite (insert_admin e _ _ (Hfit "admin123" (salt e))).
  cbn [users set_categories].
  assert (Hadmin : existsb (fun u => String.eqb "admin" (u_username u)) (users s)
                   = true).
  { apply existsb_exists. exists a. split; [exact Ha|]. rewrite Hname. reflexivity. }
  rewrite Hadmin. cbn. auto.
Qed.

Lemma restart_appends_categories_witness :
  hash_fits sample_library /\ reachable sample_library sample_store
  /\ pool (at_time 100) = PoolUp
  /\ map c_id (categories (initDB sample_library (at_time 100) sample_store))
     = [1; 2; 3; 4; 5; 6; 7; 8]
  /\ users (initDB sample_library (at_time 100) sample_store) = users sample_store.
Proof.
  assert (Hr : reachable sample_library sample_store)
    by (apply reachable_serve; now constructor).
  split; [exact sample_hash_fits|]. split; [exact Hr|]. split; [reflexivity|].
  destruct (restart_appends_categories sample_library (at_time 100) sample_store
              sample_hash_fits Hr eq_refl) as [Hc [Hu _]].
  split; [rewrite Hc; vm_compute; reflexivity | exact Hu].
Defined.

(** ** Route ids that are not integers *)

(** A route id the store cannot read as an integer: fetching the topic,
    listing its posts and toggling a like all answer 500 and leave the store
    as it is; the first two carry the store's message when it answers. *)
Theorem bad_route_id (e : env) (id : string) (user_id : jsval) (x : error) (s : store) :
  int4in id = Err x ->
  (status (snd (get_topic e id s)) = 500 /\ fst (get_topic e id s) = s)
  /\ (status (snd (list_posts e id s)) = 500 /\ fst (list_posts e id s) = s)
  /\ (status (snd (toggle_like e id user_id s)) = 500
      /\ fst (toggle_like e id user_id s) = s)
  /\ (pool e = PoolUp ->
      snd (get_topic e id s) = raised 500 x /\ snd (list_posts e id s) = raised 500 x).
Proof.
  intros Hid.
  assert (Hpg : pg_int (JStr id) = Err x)
    by (unfold pg_int; cbn [pg_text]; now rewrite Hid).
  split; [|split; [|split]].
  - unfold get_topic, try_catch, query, update_topic_views. unfold bind, lift.
    rewrite Hpg. destruct (pool e); split; reflexivity.
  - unfold list_posts, try_catch, query, select_posts. unfold bind, lift.
    rewrite Hpg. destruct (pool e); split; reflexivity.
  - rewrite toggle_like_unfold, Hpg.
    destruct (pool e); [|split; reflexivity].
    destruct (pg_int (js_or user_id (JNum 1))); split; reflexivity.
  - intros Hup.
    unfold get_topic, list_posts, try_catch, query, update_topic_views, select_posts.
    unfold bind, lift. rewrite Hpg, Hup. split; reflexivity.
Qed.

Lemma bad_route_id_witness :
  int4in "abc" = Err (InvalidInput "integer" "abc")
  /\ snd (get_topic (at_time 60) "abc" sample_store)
     = raised 500 (InvalidInput "integer" "abc")
  /\ fst (toggle_like (at_time 60) "abc" (JNum 1) sample_store) = sample_store.
Proof.
  split; [reflexivity|].
  destruct (bad_route_id (at_time 60) "abc" (JNum 1) (InvalidInput "integer" "abc")
              sample_store eq_refl) as [_ [_ [[_ Ht] Hup]]].
  split; [exact (proj1 (Hup eq_refl)) | exact Ht].
Defined.

(** ** Flags that nothing sets *)

Lemma unflagged_frame (s s' : store) :
  unflagged s -> topics s' = topics s -> unflagged s'.
Proof. intros H E t Ht. rewrite E in Ht. now apply H. Qed.

Lemma unflagged_map (f : topic -> topic) (n : Z) (s : store) :
  (forall t, t_is_pinned (f t) = t_is_pinned t /\ t_is_locked (f t) = t_is_locked t) ->
  unflagged s -> unflagged (set_topics (map f (topics s)) n s).
Proof.
  intros Hf H t Ht. cbn [topics set_topics] in Ht.
  apply in_map_iff in Ht as [t0 [<- Ht0]]. destruct (Hf t0) as [-> ->]. now apply H.
Qed.

Lemma toggle_like_topics (e : env) (id : string) (user_id : jsval) (s : store) :
  topics (fst (toggle_like e id user_id s)) = topics s.
Proof.
  rewrite toggle_like_unfold. unfold unliked_store, liked_store.
  repeat match goal with
         | |- context [match ?x with _ => _ end] => destruct x; cbv beta iota zeta
         end; reflexivity.
Qed.

Lemma users_row_topics (e : env) (un em : option string) (h : string)
    (bio : option string) (s : store) :
  topics (fst (users_row e un em h bio s)) = topics s.
Proof.
  unfold users_row.
  repeat match goal with
         | |- context [match ?x with _ => _ end] => destruct x
         end; reflexivity.
Qed.

Lemma insert_user_topics (e : env) (a b : jsval) (h : string) (bio : option string)
    (s : store) :
  topics (fst (insert_user e a b h bio s)) = topics s.
Proof.
  apply (insert_user_preserves (fun s' => topics s' = topics s)); [|reflexivity].
  intros un em s0 H. now rewrite users_row_topics.
Qed.

Lemma handle_unflagged (L : library) (e : env) (r : request) (s : store) :
  unflagged s -> unflagged (fst (handle L e r s)).
Proof.
  apply handle_preserves.
  - intros a b c d s0 H. apply (unflagged_frame s0); [exact H|].
    apply insert_user_topics.
  - intros id s0 H. now apply (unflagged_frame s0).
  - intros a b c d _ s0 H. unfold insert_topic, bind, lift.
    repeat match goal with
           | |- context [match ?x with _ => _ end] => destruct x; cbv beta iota zeta
           end; cbn [fst]; try exact H; try (now apply (unflagged_frame s0)).
    intros t Ht. cbn [topics set_topics] in Ht.
    apply in_snoc in Ht as [Ht | ->]; [now apply H | cbn; auto].
  - intros id s0 H. unfold update_topic_views, bind, lift.
    destruct (pg_int id) as [i|]; cbn [fst]; [|exact H].
    apply unflagged_map; [|exact H]. intros t. unfold bump_views.
    destruct (eqb_oZ i (t_id t)); auto.
  - intros id s0 H. unfold update_topic_updated_at, bind, lift.
    destruct (pg_int id) as [i|]; cbn [fst]; [|exact H].
    apply unflagged_map; [|exact H]. intros t. unfold bump_updated_at.
    destruct (eqb_oZ i (t_id t)); auto.
  - intros a b c d _ s0 H. apply (unflagged_frame s0); [exact H|].
    unfold insert_post, bind, lift.
    repeat match goal with
           | |- context [match ?x with _ => _ end] => destruct x; cbv beta iota zeta
           end; reflexivity.
  - intros id uid s0 H. apply (unflagged_frame s0); [exact H|]. apply toggle_like_topics.
Qed.

Lemma initDB_topics (L : library) (e : env) (s : store) : topics (initDB L e s) = topics s.
Proof.
  apply (initDB_preserves (fun s' => topics s' = topics s)); [| | |reflexivity].
  - intros un em h bio s0 H. now rewrite users_row_topics.
  - intros s0 H. exact H.
  - intros rows s0 H. rewrite <- H. unfold atomic_categories.
    pose proof (insert_categories_do_nothing_only e rows s0) as [E _].
    destruct (insert_categories_do_nothing e rows s0) as [s' [a|x]]; cbn [fst] in *.
    + now rewrite E.
    + reflexivity.
Qed.

(** No request pins or locks a topic: in every store the server can be in
    all topics are unpinned and unlocked, so the listing of topics is by
    creation time alone, the newest first. *)
Theorem topics_never_pinned (L : library) (s : store) :
  reachable L s ->
  unflagged s
  /\ forall a b, In a (topics s) -> In b (topics s) ->
       topic_before a b = (t_created_at b <=? t_created_at a).
Proof.
  intros Hr.
  assert (H : unflagged s).
  { induction Hr as [e He | e r s _ IH | e s _ IH].
    - apply (unflagged_frame empty_store); [intros t []|apply initDB_topics].
    - now apply handle_unflagged.
    - apply (unflagged_frame s); [exact IH | apply initDB_topics]. }
  split; [exact H|]. intros a b Ha Hb. unfold topic_before.
  destruct (H a Ha) as [-> _]. destruct (H b Hb) as [-> _]. reflexivity.
Qed.

Lemma topics_never_pinned_witness :
  reachable sample_library sample_store /\ unflagged sample_store.
Proof.
  assert (Hr : reachable sample_library sample_store)
    by (apply reachable_serve; now constructor).
  split; [exact Hr|]. exact (proj1 (topics_never_pinned sample_library sample_store Hr)).
Defined.

(** ** What each route writes *)

Ltac frame_cases :=
  repeat match goal with
         | |- context [match ?x with _ => _ end] =>
             lazymatch x with
             | context [match _ with _ => _ end] => fail
             | _ => destruct x; cbv beta iota zeta
             end
         end;
  cbn; auto 6.

(** Each route writes to its own tables only: the five routes that read
    (health, categories, topics, posts of a topic, stats) leave the store
    exactly as it is; register and login touch users only, fetching or
    creating a topic touches topics only, creating a post touches posts and
    topics, a like touches likes and posts. *)
Theorem routes_write_their_tables (L : library) (e : env) (r : request) (s : store) :
  writes_only r s (fst (handle L e r s)).
Proof.
  destruct r as [ | un em pw | un pw | | cat page limit | id | a b c d | id
                | a b c d | id uid | ]; cbn [handle writes_only].
  - apply (health_keeps (fun s' => s' = s)). reflexivity.
  - unfold register, try_catch, query, hash, insert_user, users_row.
    unfold bind, ret, throw, lift. frame_cases.
  - unfold login, try_catch, query, compare, select_users_by_login, update_last_seen.
    unfold bind, ret, throw, lift. frame_cases.
  - apply (list_categories_keeps (fun s' => s' = s)). reflexivity.
  - apply (list_topics_keeps (fun s' => s' = s)). reflexivity.
  - unfold get_topic, try_catch, query, update_topic_views, select_topic.
    unfold bind, lift, ret. frame_cases.
  - unfold create_topic, try_catch, query, insert_topic. unfold bind, lift, ret.
    frame_cases.
  - apply (list_posts_keeps (fun s' => s' = s)). reflexivity.
  - unfold create_post, try_catch, query, insert_post, update_topic_updated_at.
    unfold bind, lift, ret. frame_cases.
  - rewrite toggle_like_unfold. unfold unliked_store, liked_store. frame_cases.
  - apply (get_stats_keeps (fun s' => s' = s)). reflexivity.
Qed.

(** ** Paging through the topics *)






Lemma firstn_add {A} (a b : nat) (l : list A) :
  firstn (a + b) l = (firstn a l ++ firstn b (skipn a l))%list.
Proof.
  revert l. induction a as [|a IH]; intros l; [reflexivity|].
  destruct l as [|x l]; cbn; [now rewrite firstn_nil|]. now rewrite IH.
Qed.

Lemma page_rows (e : env) (category limit : option string) (c : option Z) (l : Z)
    (p : nat) (s : store) :
  pool e = PoolUp -> category_value category = Some c ->
  page_value limit 20 = Some l -> 0 <= l ->
  safe_integer l -> safe_integer (Z.of_nat (S p)) -> safe_integer (Z.of_nat p * l) ->
  rows_of (snd (list_topics e category (Some (string_of_Z (Z.of_nat (S p)))) limit s))
  = firstn (Z.to_nat l) (skipn (p * Z.to_nat l) (listing s c)).
Proof.
  intros Hup Hc Hl Hl0 Hsl Hsp Hso.
  assert (Hp : page_value (Some (string_of_Z (Z.of_nat (S p)))) 1 = Some (Z.of_nat (S p)))
    by apply int_literal_string_of_Z.
  assert (Hoff : (Z.of_nat (S p) - 1) * l = Z.of_nat p * l) by (f_equal; lia).
  destruct (listing_params category _ limit c _ l Hc Hp Hl Hsp Hsl) as (E1 & E2 & E3);
    [now rewrite Hoff|].
  rewrite (list_topics_cases e category _ limit s Hup), E1, E2, E3, Hoff.
  replace (Z.of_nat p * l <? 0) with false by (symmetry; apply Z.ltb_ge; lia).
  replace (l <? 0) with false by (symmetry; apply Z.ltb_ge; lia).
  cbn [snd rows_of body_of json limit_offset]. unfold listing. do 2 f_equal.
  rewrite Z2Nat.inj_mul, Nat2Z.id by lia. reflexivity.
Qed.

Lemma NoDup_firstn {A} (n : nat) (l : list A) : NoDup l -> NoDup (firstn n l).
Proof.
  intros H. rewrite <- (firstn_skipn n l) in H. now apply NoDup_app_remove_r in H.
Qed.

Lemma listing_topics (s : store) (c : option Z) :
  store_ok s ->
  Permutation (map ti_topic (listing s c)) (filter (category_matches c) (topics s)).
Proof.
  intros Hs. unfold listing.
  rewrite (Permutation_map ti_topic (order_by_perm item_before _)).
  rewrite (listed_topics s _ Hs).
  replace (filter (in_category (option_map Some c)) (topics s))
    with (filter (category_matches c) (topics s)); [reflexivity|].
  apply filter_ext. intros t. destruct c; reflexivity.
Qed.

(** Paging through GET /api/topics on a store that does not change and
    whose topics were created at different times: the pages 1 to k of a
    listing with limit l, appended, are the first k * l rows of the whole
    listing; no topic comes twice; and when k * l reaches the number of rows
    the pages are the whole listing, every topic (of the category, when one
    is given) exactly once. *)
Theorem pages_cover (L : library) (e : env) (category limit : option string)
    (c : option Z) (l : Z) (k : nat) (s : store) :
  reachable L s -> distinct_times s ->
  pool e = PoolUp -> category_value category = Some c ->
  page_value limit 20 = Some l -> 0 <= l ->
  safe_integer l -> safe_integer (Z.of_nat k) -> safe_integer (Z.of_nat k * l) ->
  pages e category limit k s = firstn (k * Z.to_nat l) (listing s c)
  /\ NoDup (map (fun r => t_id (ti_topic r)) (pages e category limit k s))
  /\ ((List.length (listing s c) <= k * Z.to_nat l)%nat ->
      pages e category limit k s = listing s c
      /\ Permutation (map ti_topic (pages e category limit k s))
           (filter (category_matches c) (topics s))).
Proof.
  intros Hr _ Hup Hc Hl Hl0 Hsl Hsk Hso. apply reachable_ok in Hr.
  assert (H : pages e category limit k s = firstn (k * Z.to_nat l) (listing s c)).
  { unfold pages. induction k as [|k IH]; [reflexivity|].
    rewrite seq_S, flat_map_app. cbn [flat_map Nat.add]. rewrite app_nil_r.
    assert (Hso' : safe_integer (Z.of_nat k * l)).
    { unfold safe_integer in *. nia. }
    assert (Hsk' : safe_integer (Z.of_nat k)).
    { unfold safe_integer in *. lia. }
    rewrite (IH Hsk' Hso'),
      (page_rows e category limit c l k s Hup Hc Hl Hl0 Hsl Hsk Hso').
    replace (S k * Z.to_nat l)%nat with (k * Z.to_nat l + Z.to_nat l)%nat by lia.
    now rewrite firstn_add. }
  pose proof (listing_topics s c Hr) as Hperm.
  split; [exact H|]. split.
  - rewrite H, <- firstn_map. apply NoDup_firstn.
    rewrite <- (map_map ti_topic t_id).
    apply (Permutation_NoDup (l := map t_id (filter (category_matches c) (topics s)))).
    + symmetry. now apply Permutation_map.
    + apply NoDup_map_filter, (ok_topic_ids s Hr).
  - intros Hlen. rewrite H, firstn_all2 by exact Hlen. split; [reflexivity | exact Hperm].
Qed.

Lemma pages_cover_witness :
  reachable sample_library busy_store /\ distinct_times busy_store
  /\ pool (at_time 60) = PoolUp /\ category_value (Some "1") = Some (Some 1)
  /\ page_value (Some "2") 20 = Some 2 /\ 0 <= 2
  /\ safe_integer 2 /\ safe_integer (Z.of_nat 2) /\ safe_integer (Z.of_nat 2 * 2)
  /\ pages (at_time 60) (Some "1") (Some "2") 2 busy_store
     = listing busy_store (Some 1)
  /\ map (fun r => t_title (ti_topic r))
         (pages (at_time 60) (Some "1") (Some "2") 2 busy_store)
     = ["Four"; "Three"; "One"].
Proof.
  assert (Hd : distinct_times busy_store).
  { unfold distinct_times.
    replace (map t_created_at (topics busy_store)) with [10; 20; 30; 40; 50]
      by (vm_compute; reflexivity).
    repeat constructor; cbn; lia. }
  assert (H2 : safe_integer 2) by (unfold safe_integer, MAX_SAFE_INTEGER; lia).
  assert (H4 : safe_integer (Z.of_nat 2 * 2))
    by (unfold safe_integer, MAX_SAFE_INTEGER; cbn; lia).
  split; [exact busy_store_reachable|]. split; [exact Hd|].
  split; [reflexivity|]. split; [vm_compute; reflexivity|].
  split; [reflexivity|]. split; [lia|].
  split; [exact H2|]. split; [exact H2|]. split; [exact H4|].
  destruct (pages_cover sample_library (at_time 60) (Some "1") (Some "2") (Some 1) 2 2
              busy_store busy_store_reachable Hd eq_refl) as (_ & _ & H);
    try (vm_compute; reflexivity); try assumption; try lia.
  destruct H as [E _]; [vm_compute; lia|].
  split; [exact E|]. rewrite E. vm_compute. reflexivity.
Defined.

(** ** The constraints of the schema, in every store *)

Lemma NoDup_map_snoc_fresh {A} (f : A -> string) (l : list A) (x : A) :
  NoDup (map f l) -> existsb (fun y => String.eqb (f y) (f x)) l = false ->
  NoDup (map f (l ++ [x])).
Proof.
  intros Hnd Hx. rewrite map_app. cbn.
  apply NoDup_app; [exact Hnd | repeat constructor; intros [] |].
  intros z Hz [<- | []]. apply in_map_iff in Hz as [y [Hy Hin]].
  assert (existsb (fun y => String.eqb (f y) (f x)) l = true); [|congruence].
  apply existsb_exists. exists y. split; [exact Hin | now apply String.eqb_eq].
Qed.

Lemma has_mono {A} (f : A -> bool) (l : list A) (x : A) :
  existsb f l = true -> existsb f (l ++ [x]) = true.
Proof. intros H. now rewrite existsb_snoc, H. Qed.

Lemma refs_ok_same (s s' : store) : refs_ok s -> same_rows s s' -> refs_ok s'.
Proof.
  intros [] (Hu & Hc & Ht & Hp & Hl).
  constructor; unfold has_user, has_category, has_post;
    rewrite ?Hu, ?Hc, ?Ht, ?Hp, ?Hl; assumption.
Qed.

Ltac refs_keep :=
  match goal with
  | H : refs_ok ?s |- refs_ok _ =>
      first [exact H | apply (refs_ok_same s _ H); repeat split]
  end.

Lemma users_row_refs (e : env) (a b : option string) (h : string) (bio : option string) :
  preserves refs_ok (users_row e a b h bio).
Proof.
  intros s Hs. unfold users_row.
  destruct a as [un|]; [|refs_keep].
  destruct b as [em|]; [|refs_keep].
  repeat match goal with
         | |- context [if ?c then _ else _] => destruct c eqn:?; [refs_keep|]
         end.
  destruct Hs. constructor; cbn [fst users topics posts likes categories set_users];
    try assumption.
  - now apply NoDup_map_snoc_fresh.
  - now apply NoDup_map_snoc_fresh.
  - intros l u Hl Hu. unfold has_user. cbn [users set_users].
    apply has_mono. now apply (ok_like_user0 l).
Qed.

Lemma insert_user_refs (e : env) (a b : jsval) (h : string) (bio : option string) :
  preserves refs_ok (insert_user e a b h bio).
Proof. apply insert_user_preserves. intros. apply users_row_refs. Qed.

Lemma touch_user_names (t id : Z) (l : list user) :
  map u_username (map (touch_user t id) l) = map u_username l
  /\ map u_email (map (touch_user t id) l) = map u_email l.
Proof.
  rewrite !map_map. split; apply map_ext; intros u; unfold touch_user;
    destruct (u_id u =? id); reflexivity.
Qed.

Lemma update_last_seen_refs (e : env) (id : Z) :
  preserves refs_ok (update_last_seen e id).
Proof.
  intros s []. unfold update_last_seen.
  constructor; cbn [fst users topics posts likes categories set_users];
    try assumption.
  - now rewrite (proj1 (touch_user_names (now e) id (users s))).
  - now rewrite (proj2 (touch_user_names (now e) id (users s))).
  - intros l u Hl Hu. unfold has_user. cbn [users set_users].
    rewrite existsb_map_preserved; [now apply (ok_like_user0 l)|].
    intros x. now rewrite touch_user_id.
Qed.

Lemma insert_topic_refs (e : env) (a b c d : jsval) :
  preserves refs_ok (insert_topic e a b c d).
Proof.
  intros s Hs. unfold insert_topic, bind, lift.
  destruct (text_param a) as [ti|]; [|refs_keep].
  destruct (text_param b) as [co|]; [|refs_keep].
  destruct (pg_int c) as [cat|]; [|refs_keep].
  destruct (pg_int d) as [u|]; [|refs_keep].
  destruct (varchar 200 ti) as [[]|]; [|refs_keep]. cbv beta iota zeta.
  destruct ti as [ti|]; [|refs_keep].
  destruct co as [co|]; [|refs_keep].
  destruct (has_topic s (topics_seq s)); [refs_keep|].
  destruct (negb (fk_ok (has_user s) u)); [refs_keep|].
  destruct (negb (fk_ok (has_category s) cat)) eqn:Hcat; [refs_keep|].
  destruct Hs. constructor; cbn [fst users topics posts likes categories set_topics];
    try assumption.
  intros t k Ht Hk. apply in_snoc in Ht as [Ht | ->]; [now apply (ok_topic_category0 t)|].
  cbn [t_category_id] in Hk. subst cat. apply negb_false_iff in Hcat. exact Hcat.
Qed.

Lemma topics_map_refs (f : topic -> topic) (n : Z) (s : store) :
  (forall t, t_category_id (f t) = t_category_id t) ->
  refs_ok s -> refs_ok (set_topics (map f (topics s)) n s).
Proof.
  intros Hf []. constructor; cbn [users topics posts likes categories set_topics];
    try assumption.
  intros t k Ht Hk. apply in_map_iff in Ht as [t0 [<- Ht0]]. rewrite Hf in Hk.
  now apply (ok_topic_category0 t0).
Qed.

Lemma update_topic_views_refs (id : jsval) : preserves refs_ok (update_topic_views id).
Proof.
  intros s Hs. unfold update_topic_views, bind, lift.
  destruct (pg_int id) as [i|]; [|refs_keep]. cbn [fst].
  apply topics_map_refs; [|refs_keep]. intros t. unfold bump_views.
  now destruct (eqb_oZ i (t_id t)).
Qed.

Lemma update_topic_updated_at_refs (e : env) (id : jsval) :
  preserves refs_ok (update_topic_updated_at e id).
Proof.
  intros s Hs. unfold update_topic_updated_at, bind, lift.
  destruct (pg_int id) as [i|]; [|refs_keep]. cbn [fst].
  apply topics_map_refs; [|refs_keep]. intros t. unfold bump_updated_at.
  now destruct (eqb_oZ i (t_id t)).
Qed.

Lemma insert_post_refs (e : env) (a b c d : jsval) :
  preserves refs_ok (insert_post e a b c d).
Proof.
  intros s Hs. unfold insert_post, bind, lift.
  destruct (text_param a) as [co|]; [|refs_keep].
  destruct (pg_int b) as [t|]; [|refs_keep].
  destruct (pg_int c) as [u|]; [|refs_keep].
  destruct (pg_int d) as [par|]; [|refs_keep]. cbv beta iota zeta.
  destruct co as [co|]; [|refs_keep].
  destruct (has_post s (posts_seq s)); [refs_keep|].
  destruct (negb (fk_ok (has_topic s) t)); [refs_keep|].
  destruct (negb (fk_ok (has_user s) u)); [refs_keep|].
  destruct (negb (fk_ok _ par)) eqn:Hpar; [refs_keep|].
  destruct Hs. constructor; cbn [fst users topics posts likes categories set_posts];
    try assumption.
  intros p q Hp Hq. unfold has_post. cbn [posts set_posts]. rewrite existsb_snoc.
  apply in_snoc in Hp as [Hp | ->].
  - apply orb_true_iff. left. now apply (ok_post_parent0 p).
  - cbn [p_parent_id] in Hq. subst par. apply negb_false_iff in Hpar.
    cbn [fk_ok] in Hpar. cbn [p_id]. rewrite (Z.eqb_sym (posts_seq s) q). exact Hpar.
Qed.

Lemma posts_map_refs (d : Z) (i : option Z) (ls : list like) (n : Z) (s : store) :
  refs_ok s ->
  (forall l u, In l ls -> l_user_id l = Some u -> has_user s u = true) ->
  refs_ok (set_posts (map (add_likes d i) (posts s)) (posts_seq s) (set_likes ls n s)).
Proof.
  intros [] Hls.
  constructor; cbn [users topics posts likes categories set_posts set_likes];
    try assumption.
  intros p q Hp Hq. apply in_map_iff in Hp as [p0 [<- Hp0]].
  unfold has_post. cbn [posts set_posts].
  rewrite existsb_map_preserved; [|intros x; now rewrite add_likes_id].
  apply (ok_post_parent0 p0); [exact Hp0|].
  unfold add_likes in Hq. now destruct (eqb_oZ i (p_id p0)).
Qed.

Lemma toggle_like_refs (e : env) (id : string) (uid : jsval) (s : store) :
  refs_ok s -> refs_ok (fst (toggle_like e id uid s)).
Proof.
  intros Hs. rewrite toggle_like_unfold.
  destruct (pool e); [|refs_keep].
  destruct (pg_int (js_or uid (JNum 1))) as [u|]; [|refs_keep].
  destruct (pg_int (JStr id)) as [p|]; [|refs_keep].
  destruct (existsb (like_is u p) (likes s)).
  - cbn [fst]. unfold unliked_store. cbv zeta.
    cbn [posts posts_seq set_likes]. apply posts_map_refs; [refs_keep|].
    intros l x Hl Hx. apply filter_In in Hl as [Hl _].
    now apply (ok_like_user s Hs l).
  - cbv zeta. destruct (existsb _ (likes s)); [refs_keep|].
    destruct (negb (fk_ok (has_user s) u)) eqn:Hu; [refs_keep|].
    destruct (negb (fk_ok (has_post s) p)); [refs_keep|].
    cbn [fst]. unfold liked_store. cbv zeta.
    cbn [posts posts_seq set_likes]. apply posts_map_refs; [refs_keep|].
    intros l x Hl Hx. apply in_snoc in Hl as [Hl | ->];
      [now apply (ok_like_user s Hs l)|].
    cbn [l_user_id] in Hx. subst u. apply negb_false_iff in Hu. exact Hu.
Qed.

Lemma handle_refs (L : library) (e : env) (r : request) (s : store) :
  refs_ok s -> refs_ok (fst (handle L e r s)).
Proof.
  apply handle_preserves; intros.
  - apply insert_user_refs.
  - apply update_last_seen_refs.
  - apply insert_topic_refs.
  - apply update_topic_views_refs.
  - apply update_topic_updated_at_refs.
  - apply insert_post_refs.
  - now apply toggle_like_refs.
Qed.

Lemma categories_grow_refs (s s' : store) :
  refs_ok s -> users s' = users s -> topics s' = topics s -> posts s' = posts s ->
  likes s' = likes s ->
  (forall c, has_category s c = true -> has_category s' c = true) ->
  refs_ok s'.
Proof.
  intros [] Hu Ht Hp Hl Hc. unfold has_user, has_post in *.
  constructor; unfold has_user, has_post; rewrite ?Hu, ?Ht, ?Hp, ?Hl; try assumption.
  intros t c Hin Hk. apply Hc. now apply (ok_topic_category0 t).
Qed.

Lemma insert_categories_mono (e : env) (rows : list (string * string * string * string))
    (s : store) (c : Z) :
  has_category s c = true ->
  has_category (fst (insert_categories_do_nothing e rows s)) c = true.
Proof.
  revert s. induction rows as [|[[[n d] co] i] rows IH]; intros s Hc;
    cbn [insert_categories_do_nothing]; [exact Hc|].
  unfold bind. unfold insert_category_do_nothing at 1.
  repeat match goal with
         | |- context [if ?x then _ else _] =>
             lazymatch x with
             | context [if _ then _ else _] => fail
             | _ => destruct x
             end
         end; cbn [fst]; try exact Hc; try (apply IH; exact Hc).
  apply IH. unfold has_category. cbn [categories set_categories]. now apply has_mono.
Qed.

Lemma initDB_refs (L : library) (e : env) (s : store) :
  refs_ok s -> refs_ok (initDB L e s).
Proof.
  apply initDB_preserves.
  - intros. apply users_row_refs.
  - intros s0 Hs0. refs_keep.
  - intros rows s0 Hs0. unfold atomic_categories.
    pose proof (insert_categories_do_nothing_only e rows s0) as [E _].
    pose proof (insert_categories_mono e rows s0) as Hmono.
    destruct (insert_categories_do_nothing e rows s0) as [s' [a|x]]; cbn [fst] in *.
    + apply (categories_grow_refs s0); try (rewrite E; reflexivity); assumption.
    + refs_keep.
Qed.

Lemma reachable_refs (L : library) (s : store) : reachable L s -> refs_ok s.
Proof.
  induction 1 as [e He | e r s _ IH | e s _ IH].
  - apply initDB_refs. constructor; cbn; try constructor; intros ? ? [].
  - now apply handle_refs.
  - now apply initDB_refs.
Qed.

Lemma has_row {A} (f : A -> Z) (l : list A) (k : Z) :
  existsb (fun x => f x =? k) l = true -> exists x, In x l /\ f x = k.
Proof.
  intros H. apply existsb_exists in H as [x [Hx Hk]]. exists x.
  split; [exact Hx | now apply Z.eqb_eq].
Qed.

(** The constraints of the schema hold in every store the server can be in:
    no id, username, email or (user, post) pair of a like is repeated, and
    every reference leads to a row, whatever requests were served. *)
Theorem schema_constraints_hold (L : library) (s : store) :
  reachable L s -> keys_unique s /\ references_resolve s.
Proof.
  intros Hr. pose proof (reachable_schema L s Hr) as [Hs Hp].
  pose proof (reachable_refs L s Hr) as Hf. split.
  - repeat split;
      eauto using ok_user_ids, ok_usernames, ok_emails, ok_category_ids,
        ok_topic_ids, ok_post_ids, ok_like_keys.
  - split; [|split].
    + intros t Ht. split.
      * destruct (ok_topic_author s Hs t Ht) as [u [Hu Hex]].
        destruct (has_row u_id (users s) u Hex) as [x [Hx <-]]. eauto.
      * intros c Hc. apply (has_row c_id). now apply (ok_topic_category s Hf t).
    + intros p Hin. split; [|split].
      * destruct (ok_post_author s Hp p Hin) as [u [Hu Hex]].
        destruct (has_row u_id (users s) u Hex) as [x [Hx <-]]. eauto.
      * intros z Hz. apply (has_row t_id). now apply (ok_post_topic s Hp p).
      * intros q Hq. apply (has_row p_id). now apply (ok_post_parent s Hf p).
    + intros l Hl. destruct (ok_like_refs s Hs l Hl) as [u [p [Hu [Hpost Hex]]]]. split.
      * destruct (has_row u_id (users s) u (ok_like_user s Hf l u Hl Hu)) as [x [Hx <-]].
        eauto.
      * destruct (has_row p_id (posts s) p Hex) as [x [Hx <-]]. eauto.
Qed.

Lemma schema_constraints_hold_witness :
  reachable sample_library sample_store
  /\ keys_unique sample_store /\ references_resolve sample_store.
Proof.
  assert (Hr : reachable sample_library sample_store)
    by (apply reachable_serve; now constructor).
  split; [exact Hr|]. exact (schema_constraints_hold sample_library sample_store Hr).
Defined.

(** ** Two toggles in a row *)

(** C2, as the code has it: when the user the request is attributed to
    exists, as the post does, two toggles in a row restore whether that user
    likes the post and the post's counter; the first answers [liked: true]
    when there was no Like row and [liked: false] when there was one, the
    second the opposite.  When no user row carries the user id, there is no
    Like row of that user, the store refuses the one the toggle inserts, by
    its reference to [users], and the toggle answers 500; no row of any
    table changes. *)
Theorem toggle_like_twice (L : library) (e1 e2 : env) (id : string) (user_id : jsval)
    (u p : Z) (s : store) :
  reachable L s ->
  pool e1 = PoolUp -> pool e2 = PoolUp ->
  pg_int (js_or user_id (JNum 1)) = Ok (Some u) -> int4in id = Ok p ->
  has_post s p = true ->
  if has_user s u
  then toggle_pair_spec e1 e2 id user_id u p s
  else liked s u p = false
       /\ snd (toggle_like e1 id user_id s)
          = raised 500 (ForeignKeyViolation "likes" "likes_user_id_fkey")
       /\ same_rows s (fst (toggle_like e1 id user_id s)).
Proof.
  intros Hr H1 H2 Hu Hp Hhp. pose proof (reachable_refs L s Hr) as Hrefs.
  apply reachable_ok in Hr.
  destruct (has_user s u) eqn:Hhu.
  - unfold toggle_pair_spec. destruct (liked s u p) eqn:Hl.
    + rewrite (toggle_like_off e1 id user_id u p s) by assumption.
      assert (Hs1 : store_ok (unliked_store (Some u) (Some p) s))
        by now apply store_ok_unliked.
      rewrite (toggle_like_on e2 id user_id u p) by
        (try assumption; try apply liked_after_unlike;
         unfold has_user, has_post, unliked_store; cbn [users posts set_posts set_likes];
         try assumption; now rewrite has_post_map_add_likes).
      rewrite liked_after_like, like_counter_liked, like_counter_unliked.
      repeat split. destruct (like_counter s p); cbn; [f_equal; lia | reflexivity].
    + rewrite (toggle_like_on e1 id user_id u p s) by assumption.
      rewrite (toggle_like_off e2 id user_id u p) by
        (try assumption; apply liked_after_like).
      rewrite liked_after_unlike, like_counter_unliked, like_counter_liked.
      repeat split. destruct (like_counter s p); cbn; [f_equal; lia | reflexivity].
  - assert (Hl : liked s u p = false).
    { unfold liked. apply existsb_none. intros l Hin.
      destruct (like_is (Some u) (Some p) l) eqn:El; [|reflexivity].
      apply like_is_key in El. unfold like_key in El. injection El as Elu _.
      rewrite (ok_like_user s Hrefs l u Hin Elu) in Hhu. discriminate. }
    split; [exact Hl|].
    rewrite toggle_like_unfold, H1, Hu, (pg_int_route _ _ Hp).
    unfold liked in Hl. rewrite Hl. cbv zeta.
    rewrite (no_next_like_id s Hr). cbn [fk_ok]. rewrite Hhu. cbn [negb fst snd].
    split; [reflexivity|]. repeat split.
Qed.

Lemma toggle_like_twice_witness :
  reachable sample_library sample_store
  /\ pool (at_time 60) = PoolUp /\ pool (at_time 70) = PoolUp
  /\ pg_int (js_or JNull (JNum 1)) = Ok (Some 1) /\ int4in "1" = Ok 1
  /\ has_post sample_store 1 = true /\ has_user sample_store 1 = true
  /\ toggle_pair_spec (at_time 60) (at_time 70) "1" JNull 1 1 sample_store
  /\ pg_int (js_or (JNum 99) (JNum 1)) = Ok (Some 99)
  /\ has_user sample_store 99 = false
  /\ same_rows sample_store (fst (toggle_like (at_time 60) "1" (JNum 99) sample_store)).
Proof.
  assert (Hr : reachable sample_library sample_store)
    by (apply reachable_serve; now constructor).
  assert (H1 : pg_int (js_or JNull (JNum 1)) = Ok (Some 1)) by (vm_compute; reflexivity).
  assert (H99 : pg_int (js_or (JNum 99) (JNum 1)) = Ok (Some 99))
    by (vm_compute; reflexivity).
  assert (Hid : int4in "1" = Ok 1) by (vm_compute; reflexivity).
  assert (Hp : has_post sample_store 1 = true) by (vm_compute; reflexivity).
  assert (Hu1 : has_user sample_store 1 = true) by (vm_compute; reflexivity).
  assert (Hu99 : has_user sample_store 99 = false) by (vm_compute; reflexivity).
  split; [exact Hr|]. do 2 (split; [reflexivity|]).
  split; [exact H1|]. split; [exact Hid|]. split; [exact Hp|]. split; [exact Hu1|].
  pose proof (toggle_like_twice sample_library (at_time 60) (at_time 70) "1" JNull 1 1
                sample_store Hr eq_refl eq_refl H1 Hid Hp) as Ha.
  pose proof (toggle_like_twice sample_library (at_time 60) (at_time 70) "1" (JNum 99)
                99 1 sample_store Hr eq_refl eq_refl H99 Hid Hp) as Hb.
  rewrite Hu1 in Ha. rewrite Hu99 in Hb.
  split; [exact Ha|]. split; [exact H99|]. split; [exact Hu99|].
  exact (proj2 (proj2 Hb)).
Defined.

(** C2 as stated fails for a user id that no user row carries: the store
    refuses the Like row by its reference to [users], and the first toggle
    answers 500 where the claim has [liked: true]. *)
Lemma toggle_like_unknown_user :
  has_post sample_store 1 = true
  /\ pg_int (js_or (JNum 99) (JNum 1)) = Ok (Some 99) /\ int4in "1" = Ok 1
  /\ liked sample_store 99 1 = false
  /\ snd (toggle_like (at_time 60) "1" (JNum 99) sample_store)
     = raised 500 (ForeignKeyViolation "likes" "likes_user_id_fkey")
  /\ ~ toggle_pair_spec (at_time 60) (at_time 70) "1" (JNum 99) 99 1 sample_store.
Proof.
  do 5 (split; [vm_compute; reflexivity|]).
  intros H. unfold toggle_pair_spec in H. vm_compute in H.
  destruct H as (_ & _ & H & _). discriminate H.
Qed.

(** ** The seeded admin account, in use *)

Lemma NoDup_map_eq {A B} (f : A -> B) (l : list A) (a b : A) :
  NoDup (map f l) -> In a l -> In b l -> f a = f b -> a = b.
Proof.
  induction l as [|x l IH]; [intros _ []|]. cbn [map]. intros Hnd Ha Hb Hf.
  inversion Hnd as [|y ys Hnotin Hnd']; subst.
  destruct Ha as [-> | Ha], Hb as [-> | Hb]; auto.
  - exfalso. apply Hnotin. rewrite Hf. now apply in_map.
  - exfalso. apply Hnotin. rewrite <- Hf. now apply in_map.
Qed.

(** The admin account that [initDB] seeds stays usable: in every reachable
    store where nobody took "admin" as an e-mail address, a login as "admin"
    with the seeded password "admin123" answers 200 with the profile of
    user 1 (no route changes a password or removes a user, and usernames are
    unique). *)
Theorem seeded_admin_logs_in (L : library) (e : env) (s : store) :
  hash_fits L ->
  (forall salt0, bcrypt_compare L "admin123" (bcrypt_hash L "admin123" salt0) = true) ->
  reachable L s -> pool e = PoolUp ->
  (forall u, In u (users s) -> u_email u <> "admin") ->
  snd (login L e (JStr "admin") (JStr "admin123") s)
  = json (BLoggedIn {| up_id := 1; up_username := "admin";
                       up_email := "admin@nexus.com"; up_avatar_url := None;
                       up_bio := Some "Forum Administrator" |}
            (jwt_sign L 1 "admin" (secret e) (now e))).
Proof.
  intros Hfit Hlaw Hr Hup Hmail.
  destruct (reachable_admin_heads L s Hfit Hr)
    as (a & rest & salt0 & Hus & Hid & Hn & Hm & Hh & Hav & Hb).
  assert (Hin : In a (users s)) by (rewrite Hus; now left).
  rewrite (login_unfold L e _ _ _ Hup).
  assert (Hrow : login_row e s (JStr "admin") = Some a).
  { apply login_row_unique; cbn [pg_text].
    - exact Hin.
    - left. now rewrite Hn.
    - intros u' Hu' [[= Hm'] | [= Hm']].
      + apply (NoDup_map_eq u_username (users s)); auto.
        * apply (ok_usernames s (reachable_refs L s Hr)).
        * congruence.
      + exfalso. now apply (Hmail u' Hu'). }
  change (text_param (JStr "admin")) with (Ok (Some "admin")). cbv beta iota.
  rewrite Hrow, Hh, Hlaw. cbn [snd]. unfold profile_of.
  now rewrite Hid, Hn, Hm, Hav, Hb.
Qed.

Lemma seeded_admin_logs_in_witness :
  hash_fits sample_library
  /\ (forall salt0, bcrypt_compare sample_library "admin123"
                      (bcrypt_hash sample_library "admin123" salt0) = true)
  /\ reachable sample_library sample_store /\ pool (at_time 60) = PoolUp
  /\ (forall u, In u (users sample_store) -> u_email u <> "admin")
  /\ status (snd (login sample_library (at_time 60) (JStr "admin") (JStr "admin123")
                    sample_store)) = 200.
Proof.
  assert (Hr : reachable sample_library sample_store)
    by (apply reachable_serve; now constructor).
  assert (Hmail : forall u, In u (users sample_store) -> u_email u <> "admin").
  { intros u Hu. vm_compute in Hu. destruct Hu as [<- | [<- | []]]; discriminate. }
  split; [exact sample_hash_fits|].
  split; [exact (sample_compare_hash "admin123")|].
  split; [exact Hr|]. split; [reflexivity|]. split; [exact Hmail|].
  rewrite (seeded_admin_logs_in sample_library (at_time 60) sample_store
             sample_hash_fits (sample_compare_hash "admin123") Hr eq_refl Hmail).
  reflexivity.
Defined.

(** ** Posts without a topic *)

(** POST /api/posts asks for no topic: a post with content (a text without
    a zero byte), an existing author and neither topic_id nor parent_id is
    accepted (status 200) and stored, as one more row of posts, with a null
    topic.  No listing of the posts of a topic ever shows it. *)
Theorem post_without_topic (L : library) (e : env) (content topic_id user_id : jsval)
    (co : string) (u : Z) (s : store) :
  reachable L s -> pool e = PoolUp -> text_param content = Ok (Some co) ->
  pg_int topic_id = Ok None ->
  pg_int (js_or user_id (JNum 1)) = Ok (Some u) -> has_user s u = true ->
  let s' := fst (create_post e content topic_id user_id JUndefined s) in
  exists row,
    snd (create_post e content topic_id user_id JUndefined s) = json (BPostCreated row)
    /\ p_topic_id row = None /\ p_content row = co /\ p_user_id row = Some u
    /\ posts s' = (posts s ++ [row])%list
    /\ (forall e' id rows, snd (list_posts e' id s') = json (BPosts rows) ->
          ~ In row (map pi_post rows)).
Proof.
  intros Hr Hup Hco Ht Hu Hex s'.
  assert (Hs' : schema_ok s').
  { apply (reachable_schema L).
    exact (reachable_step L e (PostPost content topic_id user_id JUndefined) s Hr). }
  pose proof (reachable_ok L s Hr) as Hs.
  pose proof (create_post_stored e content topic_id user_id JUndefined co None None u s
                Hs Hup Hco Ht eq_refl Hu Hex eq_refl eq_refl) as Hrun.
  unfold created_post in Hrun.
  subst s'. rewrite Hrun in *. cbn [fst snd] in *.
  eexists. split; [reflexivity|]. cbn [p_topic_id p_content p_user_id].
  do 3 (split; [reflexivity|]). split; [reflexivity|].
  intros e' id rows Hrows Hin.
  unfold list_posts, try_catch, query in Hrows. unfold bind, ret in Hrows.
  destruct (pool e'); [|discriminate].
  destruct (int4in id) as [z|x] eqn:Hid.
  - destruct (select_posts_spec id z _ Hs' Hid) as [rows' [E [Hperm _]]].
    rewrite E in Hrows. cbn [snd] in Hrows. injection Hrows as <-.
    apply (Permutation_in _ Hperm) in Hin. apply filter_In in Hin as [_ Hz].
    discriminate.
  - unfold select_posts, bind, lift, pg_int in Hrows. cbn [pg_text] in Hrows.
    rewrite Hid in Hrows. discriminate.
Qed.

Lemma post_without_topic_witness :
  reachable sample_library sample_store /\ pool (at_time 60) = PoolUp
  /\ text_param (JStr "Lost") = Ok (Some "Lost") /\ pg_int JUndefined = Ok None
  /\ pg_int (js_or JUndefined (JNum 1)) = Ok (Some 1)
  /\ has_user sample_store 1 = true
  /\ exists row,
       snd (create_post (at_time 60) (JStr "Lost") JUndefined JUndefined JUndefined
              sample_store) = json (BPostCreated row)
       /\ p_topic_id row = None.
Proof.
  assert (Hr : reachable sample_library sample_store)
    by (apply reachable_serve; now constructor).
  assert (Hu : has_user sample_store 1 = true) by (vm_compute; reflexivity).
  split; [exact Hr|]. do 4 (split; [reflexivity|]). split; [exact Hu|].
  destruct (post_without_topic sample_library (at_time 60) (JStr "Lost") JUndefined
              JUndefined "Lost" 1 sample_store Hr eq_refl eq_refl eq_refl eq_refl Hu)
    as [row [Hresp [Htopic _]]].
  exists row. split; [exact Hresp | exact Htopic].
Defined.

(** ** A like, as the listing shows it *)

Lemma toggle_like_answer (e : env) (id : string) (user_id : jsval) (p : Z) (b : bool)
    (s : store) :
  snd (toggle_like e id user_id s) = json (BLiked b) -> int4in id = Ok p ->
  posts (fst (toggle_like e id user_id s))
  = map (add_likes (if b then 1 else -1) (Some p)) (posts s).
Proof.
  intros Hresp Hid. rewrite toggle_like_unfold in *.
  rewrite (pg_int_route _ _ Hid) in *.
  unfold raised, status_json, json in Hresp.
  destruct (pool e); [|discriminate].
  destruct (pg_int (js_or user_id (JNum 1))) as [u|]; [|discriminate].
  destruct (existsb (like_is u (Some p)) (likes s)).
  - cbn [fst snd] in *. injection Hresp as <-. reflexivity.
  - cbv zeta in *.
    repeat match type of Hresp with
           | context [if ?c then _ else _] => destruct c; try discriminate
           end.
    cbn [fst snd] in *. injection Hresp as <-. reflexivity.
Qed.

(** POST /api/posts/:id/like then GET /api/topics/:id/posts: when a toggle on
    post p of topic z answers liked true (or false), the listing of topic z
    shows post p with a like_count one above (or one below) the post's like
    counter before the toggle. *)
Theorem like_shows_in_listing (L : library) (e e' : env) (id tid : string)
    (user_id : jsval) (p z : Z) (b : bool) (p0 : post) (s : store) :
  reachable L s -> pool e' = PoolUp ->
  snd (toggle_like e id user_id s) = json (BLiked b) -> int4in id = Ok p ->
  In p0 (posts s) -> p_id p0 = p -> p_topic_id p0 = Some z -> int4in tid = Ok z ->
  exists rows r,
    list_posts e' tid (fst (toggle_like e id user_id s))
    = (fst (toggle_like e id user_id s), json (BPosts rows))
    /\ In r rows /\ same_post p0 (pi_post r)
    /\ pi_like_count r = p_likes p0 + (if b then 1 else -1).
Proof.
  intros Hr Hup Hresp Hid Hin Hp Hz Htid. subst p.
  assert (Hs' : schema_ok (fst (toggle_like e id user_id s))).
  { apply (reachable_schema L). exact (reachable_step L e (PostLike id user_id) s Hr). }
  pose proof (toggle_like_answer e id user_id (p_id p0) b s Hresp Hid) as Hposts.
  destruct (select_posts_spec tid z _ Hs' Htid) as [rows [Hrows [Hperm [_ Hok]]]].
  set (d := if b then 1 else -1) in *.
  assert (Hnew : In (add_likes d (Some (p_id p0)) p0)
                    (filter (fun q => eqb_oZ (p_topic_id q) z)
                            (posts (fst (toggle_like e id user_id s))))).
  { apply filter_In. split; [rewrite Hposts; now apply in_map|].
    unfold add_likes. cbn [eqb_oZ]. rewrite Z.eqb_refl. cbn [p_topic_id].
    rewrite Hz. cbn [eqb_oZ]. apply Z.eqb_refl. }
  apply (Permutation_in _ (Permutation_sym Hperm)) in Hnew.
  apply in_map_iff in Hnew as [r [Er Hr']].
  exists rows, r. split; [|split; [exact Hr'|split]].
  - unfold list_posts, try_catch, query. unfold bind, ret. rewrite Hup, Hrows.
    reflexivity.
  - rewrite Er. unfold add_likes. cbn [eqb_oZ]. rewrite Z.eqb_refl.
    repeat split.
  - rewrite Forall_forall in Hok. destruct (Hok r Hr') as [_ [-> _]].
    rewrite Er. unfold add_likes. cbn [eqb_oZ]. rewrite Z.eqb_refl. reflexivity.
Qed.

Lemma like_shows_in_listing_witness :
  reachable sample_library sample_store /\ pool (at_time 70) = PoolUp
  /\ snd (toggle_like (at_time 60) "1" (JNum 2) sample_store) = json (BLiked true)
  /\ int4in "1" = Ok 1
  /\ exists p0 rows r,
       In p0 (posts sample_store) /\ p_id p0 = 1 /\ p_topic_id p0 = Some 1
       /\ p_likes p0 = 1
       /\ list_posts (at_time 70) "1"
            (fst (toggle_like (at_time 60) "1" (JNum 2) sample_store))
          = (fst (toggle_like (at_time 60) "1" (JNum 2) sample_store),
             json (BPosts rows))
       /\ In r rows /\ pi_like_count r = 1 + 1.
Proof.
  assert (Hr : reachable sample_library sample_store)
    by (apply reachable_serve; now constructor).
  assert (Hresp : snd (toggle_like (at_time 60) "1" (JNum 2) sample_store)
                  = json (BLiked true)) by (vm_compute; reflexivity).
  assert (Hid : int4in "1" = Ok 1) by (vm_compute; reflexivity).
  split; [exact Hr|]. split; [reflexivity|]. split; [exact Hresp|].
  split; [exact Hid|].
  exists {| p_id := 1; p_content := "Reply"; p_topic_id := Some 1;
            p_user_id := Some 1; p_parent_id := None; p_likes := 1;
            p_created_at := 30; p_updated_at := 30 |}.
  assert (Hin : In {| p_id := 1; p_content := "Reply"; p_topic_id := Some 1;
                      p_user_id := Some 1; p_parent_id := None; p_likes := 1;
                      p_created_at := 30; p_updated_at := 30 |} (posts sample_store))
    by (vm_compute; auto).
  destruct (like_shows_in_listing sample_library (at_time 60) (at_time 70) "1" "1"
              (JNum 2) 1 1 true _ sample_store Hr eq_refl Hresp Hid Hin eq_refl eq_refl
              Hid) as [rows [r [Hrows [Hrin [_ Hcount]]]]].
  exists rows, r. split; [exact Hin|]. do 3 (split; [reflexivity|]).
  split; [exact Hrows|]. split; [exact Hrin | exact Hcount].
Defined.

(** * The in-memory variant *)

Lemma order_by_fixed {A} (before : A -> A -> bool) (l : list A) :
  StronglySorted (fun a b => before a b = true) l -> order_by before l = l.
Proof.
  induction 1 as [|x l Hl IH Hx]; [reflexivity|]. cbn [order_by fold_right].
  fold (order_by before l). rewrite IH.
  destruct l as [|y l]; [reflexivity|]. cbn [insert_by].
  inversion Hx as [|? ? Hxy _]; subst. now rewrite Hxy.
Qed.

Lemma newest_first_total (a b : Demo.topic) :
  Demo.newest_first a b = true \/ Demo.newest_first b a = true.
Proof. unfold Demo.newest_first. rewrite !Z.leb_le. lia. Qed.

Lemma newest_first_trans (a b c : Demo.topic) :
  Demo.newest_first a b = true -> Demo.newest_first b c = true ->
  Demo.newest_first a c = true.
Proof. unfold Demo.newest_first. rewrite !Z.leb_le. lia. Qed.

Lemma filter_perm {A} (f : A -> bool) (l l' : list A) :
  Permutation l l' -> Permutation (filter f l) (filter f l').
Proof.
  induction 1 as [|x l l' _ IH|x y l|l l' l'' _ IH1 _ IH2]; cbn.
  - constructor.
  - destruct (f x); [now constructor | exact IH].
  - destruct (f x), (f y); try reflexivity. apply perm_swap.
  - now transitivity (filter f l').
Qed.

(** GET /api/topics of the in-memory variant, on any state: the rows are the
    topics that pass the filter, the newest first.  With a filter the state
    is untouched; without one the stored array itself is sorted, so the
    state afterwards holds the same topics in the order of the answer.  In
    both cases asking again gives the same answer and changes nothing
    more. *)
Theorem demo_listing (category : option string) (s : Demo.state) :
  let s' := fst (Demo.list_topics category s) in
  let rows := snd (Demo.list_topics category s) in
  StronglySorted (fun a b => Demo.t_created_at b <= Demo.t_created_at a) rows
  /\ (if truthy (query_field category)
      then s' = s
           /\ Permutation rows
                (filter (fun t => Demo.strict_eq (Demo.t_category_id t)
                                    (Demo.parseInt (Demo.to_string (query_field category))))
                        (Demo.topics s))
      else Demo.topics s' = rows /\ Permutation rows (Demo.topics s)
           /\ Demo.categories s' = Demo.categories s
           /\ Demo.topicIdCounter s' = Demo.topicIdCounter s
           /\ Demo.users s' = Demo.users s)
  /\ Demo.list_topics category s' = (s', rows).
Proof.
  cbv zeta. unfold Demo.list_topics.
  pose proof (order_by_sorted Demo.topic Demo.newest_first newest_first_total
                newest_first_trans) as Hsorted.
  destruct (truthy (query_field category)) eqn:Hc; cbn [fst snd].
  - split; [|split; [split|]].
    + eapply StronglySorted_impl; [|apply Hsorted].
      intros a b. apply Z.leb_le.
    + reflexivity.
    + apply order_by_perm.
    + reflexivity.
  - split; [|split].
    + eapply StronglySorted_impl; [|apply Hsorted].
      intros a b. apply Z.leb_le.
    + cbn [Demo.topics Demo.categories Demo.topicIdCounter Demo.users].
      repeat split. apply order_by_perm.
    + cbn [Demo.topics Demo.categories Demo.topicIdCounter Demo.users].
      rewrite (order_by_fixed _ _ (Hsorted (Demo.topics s))). reflexivity.
Qed.

Lemma increment_spec (c : Z) :
  0 <= c <= Demo.TWO_53 -> Demo.increment c = Z.min (c + 1) Demo.TWO_53.
Proof.
  intros Hc. unfold Demo.increment, Demo.round_double.
  destruct (Z.abs (c + 1) <=? Demo.TWO_53) eqn:E.
  - apply Z.leb_le in E. lia.
  - apply Z.leb_gt in E. assert (c = Demo.TWO_53) by lia. subst c.
    vm_compute. reflexivity.
Qed.

Lemma strict_eq_sym (a b : Demo.number) : Demo.strict_eq a b = Demo.strict_eq b a.
Proof.
  destruct a as [|x|[|]], b as [|y|[|]]; cbn; try reflexivity. apply Z.eqb_sym.
Qed.

Lemma category_is_id (n : Demo.number) (c : Demo.category) :
  Demo.category_is n c = true -> n = Demo.Num (Demo.c_id c).
Proof.
  unfold Demo.category_is. destruct n as [|z|b]; cbn; try discriminate.
  intros H. apply Z.eqb_eq in H. now subst.
Qed.

Lemma count_topic_ids (n : Demo.number) (cs : list Demo.category) :
  map Demo.c_id (Demo.count_topic n cs) = map Demo.c_id cs
  /\ map Demo.c_name (Demo.count_topic n cs) = map Demo.c_name cs
  /\ map Demo.c_color (Demo.count_topic n cs) = map Demo.c_color cs.
Proof.
  induction cs as [|c cs [IH1 [IH2 IH3]]]; cbn [Demo.count_topic]; [auto|].
  destruct (Demo.category_is n c); cbn [map]; [auto|].
  now rewrite IH1, IH2, IH3.
Qed.

Lemma count_topic_in (n : Demo.number) (cs : list Demo.category) (c' : Demo.category) :
  NoDup (map Demo.c_id cs) -> In c' (Demo.count_topic n cs) ->
  exists c, In c cs /\ Demo.c_id c' = Demo.c_id c
            /\ Demo.c_topic_count c'
               = if Demo.category_is n c then Demo.increment (Demo.c_topic_count c)
                 else Demo.c_topic_count c.
Proof.
  induction cs as [|c cs IH]; cbn [Demo.count_topic map]; [intros _ []|].
  intros Hnd Hin. inversion Hnd as [|? ? Hnotin Hnd']; subst.
  destruct (Demo.category_is n c) eqn:Hc.
  - destruct Hin as [<- | Hin].
    + exists c. rewrite Hc. split; [now left|]. split; reflexivity.
    + exists c'. split; [now right|]. split; [reflexivity|].
      destruct (Demo.category_is n c') eqn:Hc'; [|reflexivity].
      exfalso. apply Hnotin. apply category_is_id in Hc, Hc'.
      rewrite Hc in Hc'. injection Hc' as ->. now apply in_map.
  - destruct Hin as [<- | Hin].
    + exists c. rewrite Hc. split; [now left|]. split; reflexivity.
    + destruct (IH Hnd' Hin) as [c0 [H0 H1]]. exists c0. split; [now right | exact H1].
Qed.

Lemma handle_ids_ok (r : Demo.request) (s : Demo.state) :
  Demo.ids_ok s -> Demo.ids_ok (fst (Demo.handle r s)).
Proof.
  intros [Hc [Hb Hnd]]. destruct r as [ | | category | date title content category_id];
    cbn [Demo.handle fst]; try (split; [exact Hc | split; [exact Hb | exact Hnd]]).
  - unfold Demo.list_topics. destruct (truthy (query_field category)); cbn [fst];
      [split; [exact Hc | split; [exact Hb | exact Hnd]]|].
    pose proof (order_by_perm Demo.newest_first (Demo.topics s)) as Hp.
    unfold Demo.ids_ok. cbn [Demo.topics Demo.topicIdCounter].
    rewrite (Permutation_length Hp). split; [exact Hc|]. split.
    + intros t Ht. apply Hb. now apply (Permutation_in _ Hp).
    + intros Hle. eapply Permutation_NoDup; [|exact (Hnd Hle)].
      symmetry. now apply Permutation_map.
  - cbn [Demo.create_topic fst]. unfold Demo.ids_ok.
    cbn [Demo.topics Demo.topicIdCounter].
    rewrite length_app. cbn [List.length]. rewrite Nat2Z.inj_add. cbn [Z.of_nat].
    change (Z.pos (Pos.of_succ_nat 0)) with 1.
    assert (Hlen : 0 <= Z.of_nat (List.length (Demo.topics s))) by lia.
    split; [|split].
    + rewrite Hc, increment_spec by (unfold Demo.TWO_53; lia). lia.
    + intros t Ht. apply in_snoc in Ht as [Ht | ->]; [specialize (Hb t Ht); lia|].
      cbn [Demo.t_id]. rewrite Hc. unfold Demo.TWO_53. lia.
    + intros Hle. eapply NoDup_map_snoc with (n := Demo.topicIdCounter s).
      * apply Hnd. lia.
      * intros t Ht. specialize (Hb t Ht). rewrite Hc. lia.
      * reflexivity.
Qed.

Lemma serve_ids_ok (rs : list Demo.request) (s : Demo.state) :
  Demo.ids_ok s -> Demo.ids_ok (Demo.serve s rs).
Proof.
  revert s. induction rs as [|r rs IH]; intros s Hs; cbn [Demo.serve]; [exact Hs|].
  apply IH. now apply handle_ids_ok.
Qed.

(** POST /api/topics of the in-memory variant numbers the topics: after any
    sequence of requests, with fewer than 2^53 topics stored, the ids in use
    are distinct, each between 1 and the number of topics, and the counter
    holds the next one.  (The listing may have reordered the array.) *)
Theorem demo_topic_ids (rs : list Demo.request) :
  let s := Demo.serve Demo.initial rs in
  Z.of_nat (List.length (Demo.topics s)) < Demo.TWO_53 ->
  Demo.topicIdCounter s = Z.of_nat (List.length (Demo.topics s)) + 1
  /\ NoDup (map Demo.t_id (Demo.topics s))
  /\ forall t, In t (Demo.topics s) ->
       1 <= Demo.t_id t <= Z.of_nat (List.length (Demo.topics s)).
Proof.
  intros s Hlen.
  destruct (serve_ids_ok rs Demo.initial) as [Hc [Hb Hnd]].
  { split; [reflexivity|]. split; [intros t []|]. intros _. constructor. }
  fold s in Hc, Hb, Hnd. split; [lia|]. split; [apply Hnd; lia | exact Hb].
Qed.

Lemma demo_topic_ids_witness :
  Z.of_nat (List.length (Demo.topics
     (Demo.serve Demo.initial
        [Demo.PostTopic 10 (JStr "a") (JStr "b") (JNum 2);
         Demo.PostTopic 20 (JStr "c") (JStr "d") (JStr "2");
         Demo.GetTopics None]))) < Demo.TWO_53
  /\ Demo.topicIdCounter
       (Demo.serve Demo.initial
          [Demo.PostTopic 10 (JStr "a") (JStr "b") (JNum 2);
           Demo.PostTopic 20 (JStr "c") (JStr "d") (JStr "2");
           Demo.GetTopics None]) = 3.
Proof.
  assert (H : Z.of_nat (List.length (Demo.topics
     (Demo.serve Demo.initial
        [Demo.PostTopic 10 (JStr "a") (JStr "b") (JNum 2);
         Demo.PostTopic 20 (JStr "c") (JStr "d") (JStr "2");
         Demo.GetTopics None]))) < Demo.TWO_53) by (vm_compute; reflexivity).
  split; [exact H|].
  destruct (demo_topic_ids
              [Demo.PostTopic 10 (JStr "a") (JStr "b") (JNum 2);
               Demo.PostTopic 20 (JStr "c") (JStr "d") (JStr "2");
               Demo.GetTopics None] H) as [Hc _].
  rewrite Hc. vm_compute. reflexivity.
Defined.

Lemma handle_counts_ok (r : Demo.request) (s : Demo.state) :
  Demo.counts_ok s -> Demo.counts_ok (fst (Demo.handle r s)).
Proof.
  intros [Hnd Hcount].
  destruct r as [ | | category | date title content category_id];
    cbn [Demo.handle fst]; try (split; [exact Hnd | exact Hcount]).
  - unfold Demo.list_topics. destruct (truthy (query_field category)); cbn [fst];
      [split; [exact Hnd | exact Hcount]|].
    split; [exact Hnd|]. cbn [Demo.categories]. intros c Hin.
    rewrite (Hcount c Hin). unfold Demo.topics_in. cbn [Demo.topics].
    f_equal. f_equal. apply Permutation_length, filter_perm.
    symmetry. apply order_by_perm.
  - cbn [Demo.create_topic fst].
    set (n := Demo.parseInt (Demo.to_string category_id)).
    split; cbn [Demo.categories].
    + now rewrite (proj1 (count_topic_ids n (Demo.categories s))).
    + intros c' Hin.
      destruct (count_topic_in n (Demo.categories s) c' Hnd Hin) as [c [Hc [Hid Hcnt]]].
      rewrite Hcnt. unfold Demo.topics_in. cbn [Demo.topics].
      rewrite filter_snoc, length_app. cbn [Demo.t_category_id]. rewrite Hid.
      rewrite (Hcount c Hc). unfold Demo.topics_in.
      unfold Demo.category_is. rewrite (strict_eq_sym (Demo.Num (Demo.c_id c)) n).
      destruct (Demo.strict_eq n (Demo.Num (Demo.c_id c))).
      * cbn [List.length]. rewrite increment_spec by (unfold Demo.TWO_53; lia).
        unfold Demo.TWO_53. lia.
      * cbn [List.length]. rewrite Nat.add_0_r. reflexivity.
Qed.

Lemma serve_counts_ok (rs : list Demo.request) (s : Demo.state) :
  Demo.counts_ok s -> Demo.counts_ok (Demo.serve s rs).
Proof.
  revert s. induction rs as [|r rs IH]; intros s Hs; cbn [Demo.serve]; [exact Hs|].
  apply IH. now apply handle_counts_ok.
Qed.

(** The counters of the in-memory variant: after any sequence of requests
    every category's topic_count is the number of stored topics whose
    category_id is the category's id (up to 2^53, where [++] stops
    counting). *)
Theorem demo_topic_counts (rs : list Demo.request) (c : Demo.category) :
  In c (Demo.categories (Demo.serve Demo.initial rs)) ->
  Demo.c_topic_count c
  = Z.min (Z.of_nat (List.length (Demo.topics_in (Demo.serve Demo.initial rs) c)))
          Demo.TWO_53.
Proof.
  intros Hin. apply (serve_counts_ok rs Demo.initial); [|exact Hin].
  split; [repeat constructor; cbn; intuition discriminate|].
  intros c0 [<- | [<- | [<- | [<- | []]]]]; reflexivity.
Qed.

Lemma demo_topic_counts_witness :
  In {| Demo.c_id := 2; Demo.c_name := "Announcements";
        Demo.c_description := "Important updates"; Demo.c_color := "#f56565";
        Demo.c_topic_count := 2 |}
     (Demo.categories
        (Demo.serve Demo.initial
           [Demo.PostTopic 10 (JStr "a") (JStr "b") (JNum 2);
            Demo.PostTopic 20 (JStr "c") (JStr "d") (JStr "2");
            Demo.GetTopics None]))
  /\ 2 = Z.min (Z.of_nat (List.length
                 (Demo.topics_in
                    (Demo.serve Demo.initial
                       [Demo.PostTopic 10 (JStr "a") (JStr "b") (JNum 2);
                        Demo.PostTopic 20 (JStr "c") (JStr "d") (JStr "2");
                        Demo.GetTopics None])
                    {| Demo.c_id := 2; Demo.c_name := "Announcements";
                       Demo.c_description := "Important updates";
                       Demo.c_color := "#f56565"; Demo.c_topic_count := 2 |})))
               Demo.TWO_53.
Proof.
  assert (Hin : In {| Demo.c_id := 2; Demo.c_name := "Announcements";
                      Demo.c_description := "Important updates";
                      Demo.c_color := "#f56565"; Demo.c_topic_count := 2 |}
     (Demo.categories
        (Demo.serve Demo.initial
           [Demo.PostTopic 10 (JStr "a") (JStr "b") (JNum 2);
            Demo.PostTopic 20 (JStr "c") (JStr "d") (JStr "2");
            Demo.GetTopics None]))) by (vm_compute; auto).
  split; [exact Hin|].
  exact (demo_topic_counts _ _ Hin).
Defined.

Lemma handle_fixed_ok (r : Demo.request) (s : Demo.state) :
  Demo.fixed_ok s -> Demo.fixed_ok (fst (Demo.handle r s)).
Proof.
  intros [Hu [Hi [Hn [Hc Ht]]]].
  destruct r as [ | | category | date title content category_id];
    cbn [Demo.handle fst]; try (repeat split; auto; apply Ht; assumption).
  - unfold Demo.list_topics. destruct (truthy (query_field category)); cbn [fst];
      [repeat split; auto; apply Ht; assumption|].
    unfold Demo.fixed_ok. cbn [Demo.topics Demo.categories Demo.users].
    do 4 (split; [assumption|]). intros t Hin. apply Ht.
    exact (Permutation_in _ (order_by_perm Demo.newest_first (Demo.topics s)) Hin).
  - cbn [Demo.create_topic fst]. unfold Demo.fixed_ok.
    cbn [Demo.topics Demo.categories Demo.users].
    destruct (count_topic_ids (Demo.parseInt (Demo.to_string category_id))
                (Demo.categories s)) as [-> [-> ->]].
    do 4 (split; [assumption|]). intros t Hin.
    apply in_snoc in Hin as [Hin | ->]; [now apply Ht | cbn; auto].
Qed.

Lemma serve_fixed_ok (rs : list Demo.request) (s : Demo.state) :
  Demo.fixed_ok s -> Demo.fixed_ok (Demo.serve s rs).
Proof.
  revert s. induction rs as [|r rs IH]; intros s Hs; cbn [Demo.serve]; [exact Hs|].
  apply IH. now apply handle_fixed_ok.
Qed.

Lemma sum_of_zeros (ts : list Demo.topic) :
  (forall t, In t ts -> Demo.t_post_count t = 0) ->
  fold_left (fun sum t => Demo.js_add sum (Demo.post_count_or_0 t)) ts (Demo.Num 0)
  = Demo.Num 0.
Proof.
  induction ts as [|t ts IH]; cbn [fold_left]; [reflexivity|]. intros H.
  unfold Demo.post_count_or_0 at 2. rewrite (H t) by now left.
  cbn [Z.eqb]. change (Demo.js_add (Demo.Num 0) (Demo.Num 0)) with (Demo.Num 0).
  apply IH. intros t' Ht'. apply H. now right.
Qed.

(** GET /api/stats of the in-memory variant, after any sequence of requests:
    topic_count is the number of topics, and since no route adds a post or a
    user, post_count is 0 and user_count and active_users are 1; the
    categories keep their ids, names and colours. *)
Theorem demo_stats (rs : list Demo.request) :
  let s := Demo.serve Demo.initial rs in
  Demo.get_stats s
  = {| Demo.topic_count := Z.of_nat (List.length (Demo.topics s));
       Demo.post_count := Demo.Num 0;
       Demo.user_count := 1;
       Demo.active_users := 1 |}
  /\ map Demo.c_id (Demo.get_categories s) = [1; 2; 3; 4]
  /\ map Demo.c_name (Demo.get_categories s)
     = ["General Discussion"; "Announcements"; "Help & Support"; "Feature Requests"].
Proof.
  intros s.
  destruct (serve_fixed_ok rs Demo.initial) as [Hu [Hi [Hn [_ Ht]]]].
  { unfold Demo.fixed_ok. do 4 (split; [reflexivity|]). intros t []. }
  fold s in Hu, Hi, Hn, Ht. split; [|split; [exact Hi | exact Hn]].
  unfold Demo.get_stats. rewrite Hu, sum_of_zeros; [reflexivity|].
  intros t Hin. now apply Ht.
Qed.

(** ** [parseInt] reads back what [ToString] writes *)

Lemma parseInt_decimal (neg : bool) (s : string) :
  decimal_text s ->
  Demo.parseInt (if neg then String "-" s else s)
  = match Demo.radix_value digit 10 s with
    | Some z => Demo.number_of ((if neg then -1 else 1) * z)
    | None => Demo.NaN
    end.
Proof.
  destruct s as [|c r]; [intros []|]. intros [Hc Hr].
  unfold Demo.parseInt.
  generalize (Demo.radix_value digit 10). generalize Demo.number_of. intros num dec.
  destruct c as [[] [] [] [] [] [] [] []];
    try (exfalso; apply Hc; reflexivity); clear Hc;
    try (destruct neg; reflexivity);
    destruct r as [|c' r']; try (destruct neg; reflexivity);
    destruct c' as [[] [] [] [] [] [] [] []];
    try (exfalso; apply Hr; reflexivity); destruct neg; reflexivity.
Qed.

Lemma leading_uint_acc (d : Decimal.uint) (acc : positive) :
  Demo.leading_digits digit 10 (Z.pos acc) (NilEmpty.string_of_uint d)
  = Z.pos (Pos.of_uint_acc d acc).
Proof.
  revert acc.
  induction d as [|d IH|d IH|d IH|d IH|d IH|d IH|d IH|d IH|d IH|d IH]; intros acc;
    [reflexivity|..];
    cbn [NilEmpty.string_of_uint Demo.leading_digits Pos.of_uint_acc];
    match goal with
    | |- context [digit ?c] =>
        let v := eval vm_compute in (digit c) in change (digit c) with v
    end;
    cbv beta iota; rewrite <- IH; f_equal; lia.
Qed.

Lemma leading_uint (d : Decimal.uint) :
  Demo.leading_digits digit 10 0 (NilEmpty.string_of_uint d) = Z.of_N (Pos.of_uint d).
Proof.
  induction d as [|d IH|d IH|d IH|d IH|d IH|d IH|d IH|d IH|d IH|d IH];
    [reflexivity|exact IH|..];
    cbn [NilEmpty.string_of_uint Demo.leading_digits Pos.of_uint];
    match goal with
    | |- context [digit ?c] =>
        let v := eval vm_compute in (digit c) in change (digit c) with v
    end;
    cbv beta iota; apply leading_uint_acc.
Qed.

Lemma radix_value_uint (p : positive) :
  Demo.radix_value digit 10 (NilEmpty.string_of_uint (Pos.to_uint p)) = Some (Z.pos p).
Proof.
  pose proof (leading_uint (Pos.to_uint p)) as Hval.
  rewrite DecimalPos.Unsigned.of_to in Hval. cbn [Z.of_N] in Hval.
  pose proof (string_of_uint_decimal (Pos.to_uint p)
                (DecimalPos.Unsigned.to_uint_nonnil p)) as Hd.
  destruct (NilEmpty.string_of_uint (Pos.to_uint p)) as [|c r]; [destruct Hd|].
  destruct Hd as [Hc _]. unfold Demo.radix_value.
  destruct (digit c); [|now destruct Hc]. now rewrite Hval.
Qed.

Lemma parseInt_string_of_Z (z : Z) :
  Demo.parseInt (string_of_Z z) = Demo.number_of z.
Proof.
  destruct z as [|p|p].
  - vm_compute. reflexivity.
  - rewrite (proj1 (string_of_Z_pos p)).
    rewrite (parseInt_decimal false), radix_value_uint.
    + now rewrite Z.mul_1_l.
    + apply string_of_uint_decimal, DecimalPos.Unsigned.to_uint_nonnil.
  - rewrite (proj2 (string_of_Z_pos p)).
    rewrite (parseInt_decimal true), radix_value_uint.
    + reflexivity.
    + apply string_of_uint_decimal, DecimalPos.Unsigned.to_uint_nonnil.
Qed.

Lemma number_of_eq (z : Z) : Demo.strict_eq (Demo.number_of z) (Demo.number_of z) = true.
Proof.
  unfold Demo.number_of. destruct (2 ^ 1024 <=? _); cbn.
  - apply eqb_reflx.
  - apply Z.eqb_refl.
Qed.

Lemma number_of_small (z : Z) :
  Z.abs z <= Demo.TWO_53 -> Demo.number_of z = Demo.Num z.
Proof.
  intros Hz. unfold Demo.number_of, Demo.round_double.
  apply Z.leb_le in Hz. rewrite Hz.
  replace (2 ^ 1024 <=? Z.abs z) with false; [reflexivity|].
  symmetry. apply Z.leb_gt. apply Z.leb_le in Hz.
  assert (Demo.TWO_53 < 2 ^ 1024) by (vm_compute; reflexivity). lia.
Qed.

Lemma string_of_Z_truthy (z : Z) : truthy (JStr (string_of_Z z)) = true.
Proof.
  cbn [truthy]. destruct z as [|p|p].
  - reflexivity.
  - rewrite (proj1 (string_of_Z_pos p)).
    pose proof (string_of_uint_decimal (Pos.to_uint p)
                  (DecimalPos.Unsigned.to_uint_nonnil p)) as H.
    destruct (NilEmpty.string_of_uint (Pos.to_uint p)); [destruct H | reflexivity].
  - rewrite (proj2 (string_of_Z_pos p)). reflexivity.
Qed.

Lemma find_by_id (n : Z) (cs : list Demo.category) (c : Demo.category) :
  NoDup (map Demo.c_id cs) -> In c cs -> Demo.c_id c = n ->
  find (Demo.category_is (Demo.Num n)) cs = Some c.
Proof.
  induction cs as [|x cs IH]; [intros _ []|]. intros Hnd Hin Hid.
  inversion Hnd as [|? ? Hnotin Hnd']; subst. cbn [find].
  unfold Demo.category_is at 1. cbn [Demo.strict_eq].
  destruct (Demo.c_id x =? Demo.c_id c) eqn:E.
  - destruct Hin as [-> | Hin]; [reflexivity|].
    exfalso. apply Hnotin. apply Z.eqb_eq in E. rewrite E. now apply in_map.
  - destruct Hin as [-> | Hin]; [now rewrite Z.eqb_refl in E|]. now apply IH.
Qed.

(** POST /api/topics then GET /api/topics of the in-memory variant, after
    any sequence of requests: a topic created under category id [k], an
    integer up to 2^53 in magnitude sent as a number or as its decimal text,
    is stored with that category_id, with the name and colour of the category
    that has this id, and it is among the rows of the listing filtered by
    [category=k] and of the unfiltered one. *)
Theorem demo_created_topic_listed (rs : list Demo.request) (date k : Z)
    (title content : jsval) :
  Z.abs k <= TWO_53 ->
  let s := Demo.serve Demo.initial rs in
  let s' := fst (Demo.create_topic date title content (JNum k) s) in
  let t := snd (Demo.create_topic date title content (JNum k) s) in
  Demo.create_topic date title content (JStr (string_of_Z k)) s = (s', t)
  /\ Demo.t_category_id t = Demo.number_of k
  /\ In t (snd (Demo.list_topics (Some (string_of_Z k)) s'))
  /\ In t (snd (Demo.list_topics None s'))
  /\ (forall c, In c (Demo.categories s) -> Demo.c_id c = k ->
        Demo.t_category_name t = Some (Demo.c_name c)
        /\ Demo.t_category_color t = Some (Demo.c_color c)).
Proof.
  intros Hk53 s s' t. subst s' t. unfold Demo.create_topic.
  cbn [fst snd Demo.to_string].
  rewrite (number_of_Z_integer k Hk53), (number_to_string_integer k Hk53).
  rewrite parseInt_string_of_Z. split; [reflexivity|]. split; [reflexivity|].
  split; [|split].
  - unfold Demo.list_topics. cbn [query_field]. rewrite string_of_Z_truthy.
    cbn [snd Demo.to_string Demo.topics]. rewrite parseInt_string_of_Z.
    apply (Permutation_in _ (Permutation_sym (order_by_perm _ _))).
    apply filter_In. split; [apply in_or_app; right; now left|].
    cbn [Demo.t_category_id]. apply number_of_eq.
  - unfold Demo.list_topics. cbn [query_field truthy snd Demo.topics].
    apply (Permutation_in _ (Permutation_sym (order_by_perm _ _))).
    apply in_or_app. right. now left.
  - intros c Hin Hid. cbn [Demo.t_category_name Demo.t_category_color].
    destruct (serve_counts_ok rs Demo.initial) as [Hnd _].
    { split; [repeat constructor; cbn; intuition discriminate|].
      intros c0 [<- | [<- | [<- | [<- | []]]]]; reflexivity. }
    destruct (serve_fixed_ok rs Demo.initial) as [_ [Hids _]].
    { unfold Demo.fixed_ok. do 4 (split; [reflexivity|]). intros t0 []. }
    fold s in Hnd, Hids.
    assert (Hk : 1 <= k <= 4).
    { assert (Hm : In k (map Demo.c_id (Demo.categories s)))
        by (rewrite <- Hid; now apply in_map).
      rewrite Hids in Hm. cbn in Hm. lia. }
    rewrite number_of_small by (unfold Demo.TWO_53; lia).
    rewrite (find_by_id k (Demo.categories s) c Hnd Hin Hid). split; reflexivity.
Qed.

Lemma demo_created_topic_listed_witness :
  Z.abs 2 <= TWO_53
  /\ Demo.t_category_id
       (snd (Demo.create_topic 5 (JStr "News") (JStr "Hello") (JNum 2)
               (Demo.serve Demo.initial []))) = Demo.number_of 2
  /\ In (snd (Demo.create_topic 5 (JStr "News") (JStr "Hello") (JNum 2)
                (Demo.serve Demo.initial [])))
        (snd (Demo.list_topics (Some (string_of_Z 2))
                (fst (Demo.create_topic 5 (JStr "News") (JStr "Hello") (JNum 2)
                        (Demo.serve Demo.initial []))))).
Proof.
  assert (H2 : Z.abs 2 <= TWO_53) by (unfold TWO_53; cbn; lia).
  split; [exact H2|].
  destruct (demo_created_topic_listed [] 5 2 (JStr "News") (JStr "Hello") H2)
    as (_ & Hc & Hin & _).
  split; [exact Hc | exact Hin].
Defined.
